(* ===== verification/_CoqProject ===== *)
-Q . S2P
Prelude.v
BpfMap.v
KernelStr.v
Ratelimit.v
RatelimitRace.v
IoControl.v
BlkThrotl.v
IoCost.v
SchedBlame.v
SchedBlameBatch.v
SchedBlameWaiting.v
SchedBlameIdentity.v
SchedBlameAge.v
IoLatHist.v
IoLatency.v
IoLatLedger.v
IoLatIdentity.v
Profiler.v
ProfilerUsage.v
ProfilerRace.v
OffCpu.v
RunqLat.v
IoHealth.v
IoTracing.v
IoTracingLedger.v
SoftIrq.v
SchedTick.v
SkBuff.v
NetRx.v
IrqTracing.v
TcpRetransmit.v
Dropwatch.v
Memory.v
Ras.v
HostEvents.v
Concurrent.v
ConcurrentTracers.v
ConcurrentInsert.v
AbiLayout.v
DebugMsg.v
