(* ===== verification/Prelude.v ===== *)
(** * Verification of the HuaTuo BPF tracers

    HuaTuo observes a host with BPF programs (C, [bpf/*.c] with
    [bpf/include/*.h]) that a Go agent loads.  Every program is attached to a
    kernel hook; it reads kernel memory, keeps its state in BPF maps, and either
    counts in map rows the agent reads or sends records through a perf ring.
    This library models those programs and proves what a reader of their maps
    and records may conclude.

    ** How the programs are modelled

    - A hook invocation is one function from the state of the program's maps to
      the next state, with every guard and early return of the C function.  A
      run is a list of invocations; the theorems quantify over every list, so
      over every order in which hooks of different CPUs and tasks interleave.
      An invocation is atomic; entry and return probes of one kernel function
      are two invocations, with anything in between.  Where programs on several
      CPUs share counters, a limiter or a buffer user space swaps, [RatelimitRace],
      [IrqTracing], [ProfilerRace], [ConcurrentTracers] and [ConcurrentInsert] split
      the invocation further, at every access to shared memory; for the limiters, the
      profilers and the reclaim stalls an invocation alone is shown to be the atomic
      function.
    - Kernel memory, clock, CPU and current task are inputs of an invocation, as
      a record of reads ([bt_kernel], [iocost_kernel], [sb_kernel], [il_kernel],
      [rq_kernel], ...).  A failed probe read yields the zeroed destination the
      code sees.  Layout choices CO-RE resolves at load time are flags there.
      [const volatile] settings the agent writes are records ([bt_config], ...).
    - Map helpers are not part of the sources: [BpfMap.BpfMapOps] is their
      interface, [BpfMap.BpfMapLaws] the documented behaviour (including -EEXIST,
      -ENOENT, -E2BIG, and transient -EBUSY and -ENOMEM), and every theorem holds
      for each instance.  [BpfMap.faulty_hash] is an executable instance with a
      capacity and injected errors; witnesses and concrete runs use it.  A
      pointer into a map value is the key it was found under, and an assignment
      through it is [map_store].
    - Integers are [Z] with the C width written out ([u8], [u32], [u64], [s32],
      [s64], and the [+64], [-64], ... notations below).
    - Loops the verifier bounds are recursion on that bound: 512 bios of a
      completion in chunks of 15 blocks of 32 and one of 31 after the first bio
      ([IoLatency]), 64 encryption modes (the startup probe).  The functions are
      total, and where the C loop can stop at its bound ([completion_walk_flat])
      the theorem says exactly when.

    ** Files

    - [Prelude]: integer widths, notation, tactics, shared lemmas.
    - [BpfMap]: the interface of maps, its laws and their consequences.
    - [Ratelimit]: [bpf_ratelimit.h].  The global and per-CPU limiters refine a
      fixed-window policy; at most twice the burst passes in any interval; the
      map-resident limiter reports the first miss of each window.
      [RatelimitRace]: the same code with every access to a field of the shared
      record a step: exact totals, bounded overshoot.
    - [IoControl]: [bpf_iocontrol.h], [bpf_blkio.h], [abi/io_control_types.h].
      What the packed 26/38-bit word of a row decodes to after any sequence of
      waits; the device-change notification.
    - [BlkThrotl]: [blk_throtl_tracing.c].  While the status is healthy the maps
      are an exact ledger of queued and settled waits (refinement of
      [spec_step]); in a run the kernel could produce, only a helper error makes
      it unhealthy; a failure is sticky.
    - [IoCost]: [iocost_tracing.c].  The same for iocost, whose wake callback is
      observed on entry and return: an accepted wake settles once, a declined one
      restores the pending record.
    - [SchedBlame]: [sched_blame.c], [abi/sched_blame_types.h], the whole program.
      [SchedBlameBatch]: the packed slice encoding, in-order delivery of slices
      and their accounting when submissions fail.  [SchedBlameWaiting]: which
      waiting bits each hook writes, and that the epoch-tagged class cache returns
      the classes of the target map once user space, which rewrites the map item by
      item, has stored a new epoch.  [SchedBlameIdentity]: the announcements of group identities.
      [SchedBlameAge]: slices are delivered within the maximum batch age.
    - [IoLatHist]: the histogram classification of [iolatency_tracing.c] and the
      reconstruction of truncated timestamps.  [IoLatency]: its hooks.
      [IoLatLedger]: after any run the histograms count exactly the samples of a
      reference that walks bio chains flatly.  [IoLatIdentity]: stability of
      cached group identities, the end row of a released group, the only sources
      of a reported failure, the queue probe, and the encryption probe of
      [iolatency_probe.c].
    - [Profiler]: [bpf_profiler.h] with [native_oncpu_profiler.c],
      [native_virtual_alloc.c], [native_physical_alloc.c] and
      [native_physical_usage.c].  Only the buffer of the current parity is
      written between two transfers.  [ProfilerUsage]: the ledger of emitted usage
      records and retained pages, failures included.  [ProfilerRace]: the five hooks on several CPUs
      while user space swaps, drains and resets the buffers: only invocations in flight
      reach a frozen buffer, and every counted sample is accepted, failed or on its way.
    - [OffCpu]: [native_offcpu_profiler.c].  Seen from one task the five programs
      are the task state machine [task_run]; reported phases never overlap.
    - [RunqLat]: [cpu_runqlat_tracing.c], [bpf_sched.h], rows by task group or by pid
      namespace.  Host and group counters count one list of samples; a delay is
      measured from the last wakeup.
    - [IoHealth]: [io_health.c], [abi/io_health_types.h].  A reader that finds the
      topology generation of a record unchanged knows that no disk came or went
      since; freeze rows count since registration; NVMe resets and state changes
      are reported for the call that entered; controller names are authentic and
      forgotten on deletion; failed completions carry the kernel's errno.

    - [KernelStr]: NUL-terminated buffers as [bpf_probe_read_kernel_str] leaves
      them, runs of hooks, [bpf_tracepoint.h].
    - [IoTracing]: [iotracing.c], [abi/iotracing_types.h]; the stored path is the
      file's ancestors.  [IoTracingLedger]: a row is the ledger of its samples;
      requests are settled once under the identity taken at issue; rows are well
      typed; long sleeps are reported; the batched reads equal the plain ones.
    - [SoftIrq]: [system_softirq.c].  Zone counters are the histogram of
      raise-to-entry latencies.
    - [SchedTick]: [sched_tick.c].  Reports are the gaps between ticks of one
      running phase, admitted by the per-CPU limiter.
    - [SkBuff]: [bpf_skbuff.h], [bpf_net_namespace.h], [bpf_cgroup.h],
      [bpf_netdevice.h], [bpf_skb_filter.h], [bpf_pcap_stub.h]: what the network
      tracers read, byte order, the filters.
    - [NetRx]: [net_rx_latency.c].  Reports follow a reference that compares
      clocks of one domain only, under the limiter's policy.
    - [IrqTracing]: [irqtracing.c].  [account_stack] is split at its map
      operations; under every interleaving of the CPUs no sample is lost or
      counted twice.
    - [TcpRetransmit]: [tcp_retransmit.c].  The packet synthesised for the filter
      parses back to the event's flow; reports are the
      accepted events under the limiter's policy.
    - [Dropwatch]: [net_dropwatch.c], [bpf_perf_output.h].  Records carry nothing
      of earlier ones; a suppressed drop is a duplicate of a delivered one, and a
      hardware drop suppresses one free.
    - [Memory]: modules [FuncTrace] ([bpf_func_trace.h]), [ReclaimEvents]
      ([memory_reclaim_events.c]), [FreeCompact] ([memory_free_compact.c]) and
      [Reclaim] ([memory_reclaim.c]).  Reports and totals are those of the
      completed calls of each thread.
    - [Ras]: [system_ras.c].  Events are exact, zero-padded copies; payloads within
      the bound can be read back.
    - [HostEvents]: modules [Oom], [SoftLockup], [Notify], [NetdevHw],
      [TaskSamples] and [CgroupCss] for [memory_oom_kill.c],
      [system_softlockup.c], [system_hungtask.c] with the two netdev notifiers,
      [netdev_hw.c], [perf.c] and the cgroup registry.
    - [Concurrent]: programs over a map whose elements are given back and reused,
      their schedules, and what holds of all of them; [ConcurrentTracers]: the shared
      counters of [io_health.c], [iolatency_tracing.c], [memory_reclaim.c] and
      [iotracing.c] as such programs (exact where rows are inserted with BPF_NOEXIST,
      never too high in total otherwise); [ConcurrentInsert]: the maps of [perf.c],
      [memory_free_compact.c] and [iotracing.c], whose rows are inserted with BPF_ANY
      (never too high in total; exact once the row is settled), and the freeze counts
      of [io_health.c] while disks are registered and removed.
    - [AbiLayout]: C layout of the exported structures and the map keys
      ([abi/*.h]); which have padding, decoding inverts encoding, the layout
      assertions of the sources hold.
    - [DebugMsg]: [bpf_dbg.h] in both builds.

    Components interact through the interfaces: every tracer through [BpfMap],
    the blk-throttle and iocost tracers through the word and status of
    [IoControl], the four sampling profilers and the off-CPU profiler through the
    skeleton of [Profiler], the network tracers through [SkBuff], and every
    limited tracer through [Ratelimit]: their theorems compose its refinement
    ([rate_step], [in_map_step], [percpu_step], [limited_log]) with the tracer's
    own filter into one policy on the sequence of inputs.

    ** What is not modelled

    - The kernel's maps, helpers and data structures (interfaces and inputs, as
      above), the generated [vmlinux*.h], the Go agent and tools (apart from the map
      writes of user space in [SchedBlame] and [ProfilerRace]), vendored code.
    - Preemption inside an invocation, apart from the files named above: the other
      maps shared by CPUs are updated in some order of whole invocations.  Memory
      is sequentially consistent throughout.
    - Optional builds: [IOCOST_TEST] and, in the tracers, [DEBUG_BPF] off,
      [EXTRA_BITMAP_U64_COUNT] = 1, as the build does by default.  The fault injection
      [IOCOST_TEST] turns on is not in the repository.
    - The packet filter injected at load time: generated code, a parameter of
      [SkBuff.pcap_stub_pass] and [TcpRetransmit.pass_l3].
    - The five argument probes of [iolatency_probe.c] ([PROBE_ARGUMENT]): they read
      one context slot and discard it, so that attaching fails on kernels without
      the argument; they have no state and no result. *)

From Stdlib Require Import ZArith Lia.
From stdpp Require Import base numbers option list gmap tactics.

Local Open Scope Z_scope.

(** ** Machine integers

    Every C integer is a [Z] kept in range by explicit casts; the casts below
    are the C conversions to the fixed-width types the sources use. *)

Definition u8 (z : Z) : Z := z mod 2 ^ 8.
Definition u16 (z : Z) : Z := z mod 2 ^ 16.
Definition u32 (z : Z) : Z := z mod 2 ^ 32.
Definition u64 (z : Z) : Z := z mod 2 ^ 64.

Definition s32 (z : Z) : Z :=
  let r := u32 z in if r <? 2 ^ 31 then r else r - 2 ^ 32.
Definition s64 (z : Z) : Z :=
  let r := u64 z in if r <? 2 ^ 63 then r else r - 2 ^ 64.

Declare Scope bpf_scope.
Delimit Scope bpf_scope with bpf.
Notation "a +64 b" := (u64 (a + b)) (at level 50, left associativity) : bpf_scope.
Notation "a -64 b" := (u64 (a - b)) (at level 50, left associativity) : bpf_scope.
Notation "a +32 b" := (u32 (a + b)) (at level 50, left associativity) : bpf_scope.
Notation "a -32 b" := (u32 (a - b)) (at level 50, left associativity) : bpf_scope.
Notation "a <<64 n" := (u64 (Z.shiftl a n)) (at level 40, left associativity) : bpf_scope.
Notation "a <<32 n" := (u32 (Z.shiftl a n)) (at level 40, left associativity) : bpf_scope.

(** A value of a w-bit unsigned type. *)
Definition is_u8 (z : Z) : Prop := 0 <= z < 2 ^ 8.
Definition is_u32 (z : Z) : Prop := 0 <= z < 2 ^ 32.
Definition is_u64 (z : Z) : Prop := 0 <= z < 2 ^ 64.

(** C truth values: [!!x] as a bool, and a bool stored in an integer. *)
Definition ctrue (z : Z) : bool := negb (z =? 0).
Definition c_of_bool (b : bool) : Z := if b then 1 else 0.

Create HintDb bpf.
Create Rewrite HintDb bpf_rw.

Lemma u8_range z : is_u8 (u8 z).
Proof. apply Z.mod_pos_bound; lia. Qed.
Lemma u32_range z : is_u32 (u32 z).
Proof. apply Z.mod_pos_bound; lia. Qed.
Lemma u64_range z : is_u64 (u64 z).
Proof. apply Z.mod_pos_bound; lia. Qed.
#[export] Hint Resolve u8_range u32_range u64_range : bpf.

Lemma u8_small z : is_u8 z -> u8 z = z.
Proof. apply Z.mod_small. Qed.
Lemma u32_small z : is_u32 z -> u32 z = z.
Proof. apply Z.mod_small. Qed.
Lemma u64_small z : is_u64 z -> u64 z = z.
Proof. apply Z.mod_small. Qed.

Lemma u64_of_u32 z : is_u32 z -> is_u64 z.
Proof. unfold is_u32, is_u64. lia. Qed.
#[export] Hint Resolve u64_of_u32 : bpf.

(** Unsigned subtraction: exact when it does not borrow, and the wrapped value
    otherwise. *)
Lemma u64_sub_exact a b : is_u64 a -> is_u64 b -> b <= a -> u64 (a - b) = a - b.
Proof. unfold is_u64. intros. apply u64_small. unfold is_u64. lia. Qed.

Lemma u64_sub_borrow a b : is_u64 a -> is_u64 b -> a < b -> u64 (a - b) = a - b + 2 ^ 64.
Proof.
  unfold is_u64, u64. intros.
  rewrite <- (Z.mod_add (a - b) 1) by lia. apply Z.mod_small. lia.
Qed.

Lemma u64_add_small a b : 0 <= a -> 0 <= b -> a + b < 2 ^ 64 -> u64 (a + b) = a + b.
Proof. intros. apply u64_small. unfold is_u64. lia. Qed.

Lemma u64_add_idemp_l a b : u64 (u64 a + b) = u64 (a + b).
Proof. unfold u64. apply Zplus_mod_idemp_l. Qed.
Lemma u64_add_idemp_r a b : u64 (a + u64 b) = u64 (a + b).
Proof. unfold u64. apply Zplus_mod_idemp_r. Qed.
Lemma u64_idemp a : u64 (u64 a) = u64 a.
Proof. apply Z.mod_mod. lia. Qed.
Lemma u32_idemp a : u32 (u32 a) = u32 a.
Proof. apply Z.mod_mod. lia. Qed.
#[export] Hint Rewrite u64_add_idemp_l u64_add_idemp_r u64_idemp u32_idemp : bpf_rw.

Lemma s32_range z : - 2 ^ 31 <= s32 z < 2 ^ 31.
Proof.
  unfold s32. pose proof (u32_range z) as H. unfold is_u32 in H.
  destruct (Z.ltb_spec (u32 z) (2 ^ 31)); lia.
Qed.
#[export] Hint Resolve s32_range : bpf.

(** ** Bit fields

    Packing a low field under a shifted high field, and reading both back. *)

Lemma testbit_high lo n i : 0 <= n <= i -> 0 <= lo < 2 ^ n -> Z.testbit lo i = false.
Proof.
  intros Hi Hlo. rewrite <- (Z.mod_small lo (2 ^ n)) by lia.
  apply Z.mod_pow2_bits_high. lia.
Qed.

Lemma lor_shiftl_add hi lo n :
  0 <= n -> 0 <= lo < 2 ^ n -> Z.lor (Z.shiftl hi n) lo = hi * 2 ^ n + lo.
Proof.
  intros Hn Hlo. rewrite <- Z.shiftl_mul_pow2 by lia.
  symmetry. apply Z.add_nocarry_lor, Z.bits_inj'. intros i Hi.
  rewrite Z.land_spec, Z.bits_0. destruct (Z.lt_ge_cases i n).
  - by rewrite Z.shiftl_spec_low by lia.
  - by rewrite (testbit_high lo n i), andb_false_r by lia.
Qed.

Lemma pack_high hi lo n :
  0 <= n -> 0 <= lo < 2 ^ n -> Z.shiftr (Z.lor (Z.shiftl hi n) lo) n = hi.
Proof.
  intros Hn Hlo. rewrite lor_shiftl_add, Z.shiftr_div_pow2 by lia.
  rewrite Z.add_comm, Z.div_add by lia. rewrite (Z.div_small lo) by lia. lia.
Qed.

Lemma pack_low hi lo n :
  0 <= n -> 0 <= lo < 2 ^ n -> Z.land (Z.lor (Z.shiftl hi n) lo) (2 ^ n - 1) = lo.
Proof.
  intros Hn Hlo. rewrite lor_shiftl_add by lia.
  change (2 ^ n - 1) with (Z.pred (2 ^ n)). rewrite <- Z.ones_equiv, Z.land_ones by lia.
  rewrite Z.add_comm, Z_mod_plus_full. apply Z.mod_small. lia.
Qed.

(** Masking with a literal [2^n - 1] is reduction modulo [2^n]. *)
Lemma land_mask z n : 0 <= n -> Z.land z (2 ^ n - 1) = z mod 2 ^ n.
Proof.
  intros. change (2 ^ n - 1) with (Z.pred (2 ^ n)).
  by rewrite <- Z.ones_equiv, Z.land_ones.
Qed.

(** ** C arrays and scalar tables in BPF global data

    A zero-initialised array indexed by an already bounded index: absent means
    the initial zero. *)

Definition carr (V : Type) : Type := gmap Z V.
Definition arr_get {V} (d : V) (a : gmap Z V) (i : Z) : V := default d (a !! i).
Definition arr_set {V} (a : gmap Z V) (i : Z) (v : V) : gmap Z V := <[i := v]> a.

Lemma arr_get_set_eq {V} (d v : V) a i : arr_get d (arr_set a i v) i = v.
Proof. unfold arr_get, arr_set. by rewrite lookup_insert_eq. Qed.
Lemma arr_get_set_ne {V} (d v : V) a i j :
  i <> j -> arr_get d (arr_set a i v) j = arr_get d a j.
Proof. intros. unfold arr_get, arr_set. by rewrite lookup_insert_ne. Qed.
Lemma arr_get_set {V} (d v : V) a i j :
  arr_get d (arr_set a i v) j = if decide (i = j) then v else arr_get d a j.
Proof. case_decide; subst; auto using arr_get_set_eq, arr_get_set_ne. Qed.
#[export] Hint Rewrite @arr_get_set_eq : bpf_rw.

(** ** Sums over a list of keys *)

Definition zsum {A} (f : A -> Z) (l : list A) : Z := foldr (fun a n => f a + n) 0 l.

Lemma zsum_cons {A} (f : A -> Z) a l : zsum f (a :: l) = f a + zsum f l.
Proof. done. Qed.

Lemma zsum_one {A} (f : A -> Z) a : zsum f [a] = f a.
Proof. apply Z.add_0_r. Qed.

Lemma zsum_same {A} (f g : A -> Z) l : (forall a, a ∈ l -> f a = g a) -> zsum f l = zsum g l.
Proof.
  induction l as [|a l IH]; intros H; [done|]. rewrite !zsum_cons, (H a), IH; [done| |by left].
  intros. apply H. by right.
Qed.

Lemma zsum_app {A} (f : A -> Z) l l' : zsum f (l ++ l') = zsum f l + zsum f l'.
Proof. induction l as [|a l IH]; [done|]. cbn [app]. rewrite !zsum_cons. lia. Qed.

(** A change at one key changes the sum by as much. *)
Lemma zsum_bump {A} `{EqDecision A} (f g : A -> Z) (d : Z) l k :
  NoDup l -> k ∈ l -> (forall a, a ∈ l -> g a = f a + if decide (k = a) then d else 0) -> zsum g l = zsum f l + d.
Proof.
  intros Hnd. induction Hnd as [|a l Ha Hl IH]; intros Hk H; [by apply elem_of_nil in Hk|].
  rewrite !zsum_cons, (H a) by left. apply elem_of_cons in Hk as [->|Hk].
  - rewrite decide_True by done. rewrite (zsum_same g f l); [lia|].
    intros b Hb. rewrite H by by right. rewrite decide_False by (intros ->; done). lia.
  - rewrite decide_False by (intros ->; done). rewrite IH; [lia|done|]. intros. apply H. by right.
Qed.

Lemma zsum_nonneg {A} (f : A -> Z) l : (forall a, a ∈ l -> 0 <= f a) -> 0 <= zsum f l.
Proof.
  induction l as [|a l IH]; intros H; [done|]. rewrite zsum_cons. pose proof (H a ltac:(by left)).
  assert (0 <= zsum f l); [|lia]. apply IH. intros. apply H. by right.
Qed.

Lemma zsum_ge {A} (f : A -> Z) l k : (forall a, a ∈ l -> 0 <= f a) -> k ∈ l -> f k <= zsum f l.
Proof.
  induction l as [|a l IH]; intros H Hk; [by apply elem_of_nil in Hk|]. rewrite zsum_cons.
  assert (forall b, b ∈ l -> 0 <= f b) by (intros; apply H; by right). pose proof (H a ltac:(by left)).
  apply elem_of_cons in Hk as [->|Hk]; [pose proof (zsum_nonneg f l ltac:(done)); lia|specialize (IH ltac:(done) Hk); lia].
Qed.

Lemma zsum_le {A} (f : A -> Z) (b : Z) l :
  (forall a, a ∈ l -> f a <= b) -> zsum f l <= b * Z.of_nat (length l).
Proof.
  induction l as [|a l IH]; intros H; cbn [length]; [cbn; lia|]. rewrite zsum_cons.
  pose proof (H a ltac:(by left)). assert (zsum f l <= b * Z.of_nat (length l)); [|lia].
  apply IH. intros. apply H. by right.
Qed.

Lemma zsum_mono {A} (f g : A -> Z) (l : list A) : (forall a, a ∈ l -> f a <= g a) -> zsum f l <= zsum g l.
Proof.
  induction l as [|a l IH]; intros Hle; [done|]. rewrite !zsum_cons. pose proof (Hle a ltac:(by left)).
  enough (zsum f l <= zsum g l) by lia. apply IH. intros. apply Hle. by right.
Qed.

(** The same over the values of a map. *)
Definition pool_sum {A} (w : A -> Z) (m : gmap Z A) : Z := map_fold (fun _ t n => w t + n) 0 m.

Lemma pool_sum_empty {A} (w : A -> Z) : pool_sum w ∅ = 0.
Proof. apply map_fold_empty. Qed.

Lemma pool_sum_insert {A} (w : A -> Z) m c t :
  m !! c = None -> pool_sum w (<[c := t]> m) = w t + pool_sum w m.
Proof. intros H. unfold pool_sum. rewrite map_fold_insert_L; [done| |done]. intros. lia. Qed.

Lemma pool_sum_delete {A} (w : A -> Z) m c t :
  m !! c = Some t -> pool_sum w m = w t + pool_sum w (delete c m).
Proof. intros H. unfold pool_sum. rewrite (map_fold_delete_L _ 0 c t m); [done| |done]. intros. lia. Qed.

Lemma pool_sum_le {A} (f g : A -> Z) (m : gmap Z A) :
  (forall c t, m !! c = Some t -> f t <= g t) -> pool_sum f m <= pool_sum g m.
Proof.
  induction m as [|c t m Hm IH] using map_ind; intros Hle; [by rewrite !pool_sum_empty|].
  rewrite !pool_sum_insert by done. pose proof (Hle c t (lookup_insert_eq m c t)).
  enough (pool_sum f m <= pool_sum g m) by lia. apply IH. intros c' t' Hl. apply (Hle c').
  rewrite lookup_insert_ne; [done|]. intros ->. congruence.
Qed.

(** ** Tactics *)

(** Case on the test of the outermost [if] or [match] of the goal. *)
Ltac case_if :=
  match goal with
  | |- context [if ?b then _ else _] => let E := fresh "E" in destruct b eqn:E
  end.

(** Turn boolean tests among the hypotheses into propositions. *)
Ltac zify_bools :=
  repeat match goal with
  | H : (_ && _)%bool = true |- _ => apply andb_true_iff in H; destruct H
  | H : (_ || _)%bool = false |- _ => apply orb_false_iff in H; destruct H
  | H : (_ && _)%bool = false |- _ => apply andb_false_iff in H
  | H : (_ || _)%bool = true |- _ => apply orb_true_iff in H
  | H : negb _ = true |- _ => apply negb_true_iff in H
  | H : negb _ = false |- _ => apply negb_false_iff in H
  | H : ctrue _ = true |- _ => unfold ctrue in H
  | H : ctrue _ = false |- _ => unfold ctrue in H
  | H : (_ =? _) = true |- _ => apply Z.eqb_eq in H
  | H : (_ =? _) = false |- _ => apply Z.eqb_neq in H
  | H : (_ <? _) = true |- _ => apply Z.ltb_lt in H
  | H : (_ <? _) = false |- _ => apply Z.ltb_ge in H
  | H : (_ <=? _) = true |- _ => apply Z.leb_le in H
  | H : (_ <=? _) = false |- _ => apply Z.leb_gt in H
  end.
