(* ===== verification/BpfMap.v ===== *)
(** * BPF maps and the perf ring

    The kernel's map implementations are not part of this repository: the
    tracers see them only through [bpf_map_lookup_elem], [bpf_map_update_elem]
    and [bpf_map_delete_elem].  [BpfMapOps] is that interface as a class of
    operations and [BpfMapLaws] the documented behaviour the tracers rely on
    (bpf-helpers(7), bpf(2)).  The theorems about the tracers are proved for
    every instance of the two classes, so they cover capacity errors and the
    transient errors (-EBUSY, -ENOMEM) a kernel may return.  [FaultyHash] is an
    executable instance with a capacity and injected transient errors; the
    concrete runs of the development use it. *)

From Stdlib Require Import ZArith Lia.
From stdpp Require Import base option list gmap tactics.
From S2P Require Import Prelude.

Local Open Scope Z_scope.

(** ** Flags and error numbers *)

Definition BPF_ANY : Z := 0.
Definition BPF_NOEXIST : Z := 1.
Definition BPF_EXIST : Z := 2.

Definition ENOENT : Z := 2.
Definition E2BIG : Z := 7.
Definition ENOMEM : Z := 12.
Definition EFAULT : Z := 14.
Definition EBUSY : Z := 16.
Definition EEXIST : Z := 17.

(** ** The interface *)

Class BpfMapOps := {
  hmap : forall (K : Type) {EK : EqDecision K} {CK : Countable K}, Type -> Type;
  bpf_map_lookup_elem : forall {K} {EK : EqDecision K} {CK : Countable K} {V : Type},
    hmap K V -> K -> option V;
  (** Result code and new map; [0] on success, a negative errno otherwise. *)
  bpf_map_update_elem : forall {K} {EK : EqDecision K} {CK : Countable K} {V : Type},
    hmap K V -> K -> V -> Z -> Z * hmap K V;
  bpf_map_delete_elem : forall {K} {EK : EqDecision K} {CK : Countable K} {V : Type},
    hmap K V -> K -> Z * hmap K V;
  (** Assignment through the value pointer a successful lookup returned. *)
  map_store : forall {K} {EK : EqDecision K} {CK : Countable K} {V : Type},
    hmap K V -> K -> V -> hmap K V;
}.

Class BpfMapLaws (M : BpfMapOps) : Prop := {
  update_errno : forall {K} {EK : EqDecision K} {CK : Countable K} {V} (m : hmap K V) k v f,
    - 4095 <= fst (bpf_map_update_elem m k v f) <= 0;
  update_ok : forall {K} {EK : EqDecision K} {CK : Countable K} {V} (m : hmap K V) k v f k',
    fst (bpf_map_update_elem m k v f) = 0 ->
    bpf_map_lookup_elem (snd (bpf_map_update_elem m k v f)) k' =
      if decide (k = k') then Some v else bpf_map_lookup_elem m k';
  update_err : forall {K} {EK : EqDecision K} {CK : Countable K} {V} (m : hmap K V) k v f k',
    fst (bpf_map_update_elem m k v f) <> 0 ->
    bpf_map_lookup_elem (snd (bpf_map_update_elem m k v f)) k' = bpf_map_lookup_elem m k';
  update_noexist : forall {K} {EK : EqDecision K} {CK : Countable K} {V} (m : hmap K V) k v,
    is_Some (bpf_map_lookup_elem m k) -> fst (bpf_map_update_elem m k v BPF_NOEXIST) <> 0;
  update_exist : forall {K} {EK : EqDecision K} {CK : Countable K} {V} (m : hmap K V) k v,
    bpf_map_lookup_elem m k = None -> fst (bpf_map_update_elem m k v BPF_EXIST) <> 0;
  update_eexist : forall {K} {EK : EqDecision K} {CK : Countable K} {V} (m : hmap K V) k v f,
    fst (bpf_map_update_elem m k v f) = - EEXIST ->
    f = BPF_NOEXIST /\ is_Some (bpf_map_lookup_elem m k);
  delete_errno : forall {K} {EK : EqDecision K} {CK : Countable K} {V} (m : hmap K V) k,
    - 4095 <= fst (bpf_map_delete_elem m k) <= 0;
  delete_ok : forall {K} {EK : EqDecision K} {CK : Countable K} {V} (m : hmap K V) k k',
    fst (bpf_map_delete_elem m k) = 0 ->
    bpf_map_lookup_elem (snd (bpf_map_delete_elem m k)) k' =
      if decide (k = k') then None else bpf_map_lookup_elem m k';
  delete_err : forall {K} {EK : EqDecision K} {CK : Countable K} {V} (m : hmap K V) k k',
    fst (bpf_map_delete_elem m k) <> 0 ->
    bpf_map_lookup_elem (snd (bpf_map_delete_elem m k)) k' = bpf_map_lookup_elem m k';
  delete_enoent : forall {K} {EK : EqDecision K} {CK : Countable K} {V} (m : hmap K V) k,
    fst (bpf_map_delete_elem m k) = - ENOENT -> bpf_map_lookup_elem m k = None;
  store_lookup : forall {K} {EK : EqDecision K} {CK : Countable K} {V} (m : hmap K V) k v k',
    is_Some (bpf_map_lookup_elem m k) ->
    bpf_map_lookup_elem (map_store m k v) k' =
      if decide (k = k') then Some v else bpf_map_lookup_elem m k';
}.

(** ** Derived facts *)

Section Derived.
Context {M : BpfMapOps} {L : BpfMapLaws M}.
Context {K : Type} {EK : EqDecision K} {CK : Countable K} {V : Type}.
Implicit Types (m : hmap K V) (k : K) (v : V).

Lemma bm_update_ne m k v f k' :
  k <> k' ->
  bpf_map_lookup_elem (snd (bpf_map_update_elem m k v f)) k' = bpf_map_lookup_elem m k'.
Proof.
  intros Hne. destruct (Z.eq_dec (fst (bpf_map_update_elem m k v f)) 0).
  - rewrite update_ok by done. by case_decide.
  - by apply update_err.
Qed.

Lemma bm_update_eq m k v f :
  fst (bpf_map_update_elem m k v f) = 0 ->
  bpf_map_lookup_elem (snd (bpf_map_update_elem m k v f)) k = Some v.
Proof. intros. rewrite update_ok by done. by case_decide. Qed.

Lemma bm_delete_ne m k k' :
  k <> k' ->
  bpf_map_lookup_elem (snd (bpf_map_delete_elem m k)) k' = bpf_map_lookup_elem m k'.
Proof.
  intros Hne. destruct (Z.eq_dec (fst (bpf_map_delete_elem m k)) 0).
  - rewrite delete_ok by done. by case_decide.
  - by apply delete_err.
Qed.

Lemma bm_delete_eq m k :
  fst (bpf_map_delete_elem m k) = 0 ->
  bpf_map_lookup_elem (snd (bpf_map_delete_elem m k)) k = None.
Proof. intros. rewrite delete_ok by done. by case_decide. Qed.

(** A key can only leave through a delete. *)
Lemma bm_delete_sub m k k' v :
  bpf_map_lookup_elem (snd (bpf_map_delete_elem m k)) k' = Some v ->
  bpf_map_lookup_elem m k' = Some v.
Proof.
  destruct (Z.eq_dec (fst (bpf_map_delete_elem m k)) 0).
  - rewrite delete_ok by done. by case_decide.
  - by rewrite delete_err.
Qed.

(** A binding after an update is the new one or an old one. *)
Lemma bm_update_cases m k v f k' v' :
  bpf_map_lookup_elem (snd (bpf_map_update_elem m k v f)) k' = Some v' ->
  (k' = k /\ v' = v) \/ bpf_map_lookup_elem m k' = Some v'.
Proof.
  destruct (Z.eq_dec (fst (bpf_map_update_elem m k v f)) 0).
  - rewrite update_ok by done. case_decide; naive_solver.
  - rewrite update_err by done. auto.
Qed.

(** Insertion without overwriting: the binding after a NOEXIST update is the
    old one if there was one, the new one if the update succeeded. *)
Lemma bm_noexist m k v k' v' :
  bpf_map_lookup_elem (snd (bpf_map_update_elem m k v BPF_NOEXIST)) k' = Some v' ->
  bpf_map_lookup_elem m k' = Some v' \/
  (k' = k /\ v' = v /\ bpf_map_lookup_elem m k = None /\
   fst (bpf_map_update_elem m k v BPF_NOEXIST) = 0).
Proof.
  destruct (Z.eq_dec (fst (bpf_map_update_elem m k v BPF_NOEXIST)) 0) as [E|E].
  - rewrite update_ok by done. case_decide; [|auto]. intros. simplify_eq. right.
    repeat split; try done.
    destruct (bpf_map_lookup_elem m k') eqn:Hl; [|done]. exfalso.
    by eapply update_noexist, E.
  - rewrite update_err by done. auto.
Qed.

(** A NOEXIST update never changes an existing binding. *)
Lemma bm_noexist_preserves m k v k' v' :
  bpf_map_lookup_elem m k' = Some v' ->
  bpf_map_lookup_elem (snd (bpf_map_update_elem m k v BPF_NOEXIST)) k' = Some v'.
Proof.
  intros H. destruct (decide (k = k')) as [->|]; [|by rewrite bm_update_ne].
  rewrite update_err; [done|]. by apply update_noexist.
Qed.

(** A delete that reports success or absence leaves the key unbound. *)
Lemma bm_delete_done m k k' :
  fst (bpf_map_delete_elem m k) = 0 \/ fst (bpf_map_delete_elem m k) = - ENOENT ->
  bpf_map_lookup_elem (snd (bpf_map_delete_elem m k)) k' =
    if decide (k = k') then None else bpf_map_lookup_elem m k'.
Proof.
  intros [E|E]; [by apply delete_ok|].
  rewrite delete_err by by rewrite E. case_decide; subst; [|done]. by apply delete_enoent.
Qed.

(** A successful NOEXIST update found no binding and added one. *)
Lemma bm_noexist_ok m k v :
  fst (bpf_map_update_elem m k v BPF_NOEXIST) = 0 ->
  bpf_map_lookup_elem m k = None /\
  forall k', bpf_map_lookup_elem (snd (bpf_map_update_elem m k v BPF_NOEXIST)) k' =
    if decide (k = k') then Some v else bpf_map_lookup_elem m k'.
Proof.
  intros E. split; [|intros; by apply update_ok].
  destruct (bpf_map_lookup_elem m k) eqn:Hl; [|done]. exfalso.
  by eapply update_noexist, E.
Qed.

(** A NOEXIST update that reports success or presence leaves the key bound. *)
Lemma bm_noexist_done m k v k' :
  fst (bpf_map_update_elem m k v BPF_NOEXIST) = 0 \/
  fst (bpf_map_update_elem m k v BPF_NOEXIST) = - EEXIST ->
  is_Some (bpf_map_lookup_elem (snd (bpf_map_update_elem m k v BPF_NOEXIST)) k') <->
  k' = k \/ is_Some (bpf_map_lookup_elem m k').
Proof.
  intros [E|E].
  - rewrite update_ok by done. case_decide; subst; naive_solver.
  - rewrite update_err by by rewrite E. apply update_eexist in E as [_ ?]. naive_solver.
Qed.

Lemma bm_store_eq m k v :
  is_Some (bpf_map_lookup_elem m k) -> bpf_map_lookup_elem (map_store m k v) k = Some v.
Proof. intros. rewrite store_lookup by done. by case_decide. Qed.

Lemma bm_store_ne m k v k' :
  is_Some (bpf_map_lookup_elem m k) -> k <> k' ->
  bpf_map_lookup_elem (map_store m k v) k' = bpf_map_lookup_elem m k'.
Proof. intros. rewrite store_lookup by done. by case_decide. Qed.
Lemma update_nonzero m k v f :
  fst (bpf_map_update_elem m k v f) <> 0 -> - 4095 <= fst (bpf_map_update_elem m k v f) < 0.
Proof. pose proof (update_errno m k v f). lia. Qed.

Lemma delete_nonzero m k :
  fst (bpf_map_delete_elem m k) <> 0 -> - 4095 <= fst (bpf_map_delete_elem m k) < 0.
Proof. pose proof (delete_errno m k). lia. Qed.
End Derived.

(** ** An executable instance

    A hash map with [max_entries] and a script of transient errors: each update
    or delete first consumes one script entry. *)

Inductive transient := TBusy | TNoMem.
Definition transient_errno (t : transient) : Z :=
  match t with TBusy => - EBUSY | TNoMem => - ENOMEM end.

Record faulty_hash (K : Type) `{Countable K} (V : Type) := FaultyHash {
  fh_map : gmap K V;
  fh_max_entries : nat;
  fh_faults : list (option transient);
}.
Arguments FaultyHash {K EqDecision0 H V} _ _ _ : rename.
Arguments fh_map {K EqDecision0 H V} _ : rename.
Arguments fh_max_entries {K EqDecision0 H V} _ : rename.
Arguments fh_faults {K EqDecision0 H V} _ : rename.

Section FaultyOps.
Context {K : Type} `{Countable K} {V : Type}.
Implicit Types (m : faulty_hash K V).

Definition fh_set m (g : gmap K V) : faulty_hash K V :=
  FaultyHash g (fh_max_entries m) (tail (fh_faults m)).

Definition fh_fault m : option Z :=
  match fh_faults m with Some t :: _ => Some (transient_errno t) | _ => None end.

Definition fh_check m (k : K) (flags : Z) : Z :=
  match fh_map m !! k with
  | Some _ => if flags =? BPF_NOEXIST then - EEXIST else 0
  | None =>
      if flags =? BPF_EXIST then - ENOENT
      else if (fh_max_entries m <=? size (fh_map m))%nat then - E2BIG else 0
  end.

Definition fh_update m (k : K) (v : V) (flags : Z) : Z * faulty_hash K V :=
  match fh_fault m with
  | Some e => (e, fh_set m (fh_map m))
  | None =>
      let ret := fh_check m k flags in
      (ret, fh_set m (if ret =? 0 then <[k := v]> (fh_map m) else fh_map m))
  end.

Definition fh_delete m (k : K) : Z * faulty_hash K V :=
  match fh_fault m with
  | Some e => (e, fh_set m (fh_map m))
  | None =>
      match fh_map m !! k with
      | Some _ => (0, fh_set m (delete k (fh_map m)))
      | None => (- ENOENT, fh_set m (fh_map m))
      end
  end.

Definition fh_store m (k : K) (v : V) : faulty_hash K V :=
  FaultyHash (<[k := v]> (fh_map m)) (fh_max_entries m) (fh_faults m).
End FaultyOps.

#[export] Instance faulty_ops : BpfMapOps := {
  hmap := fun K EK CK V => faulty_hash K V;
  bpf_map_lookup_elem := fun K EK CK V m k => fh_map m !! k;
  bpf_map_update_elem := fun K EK CK V m k v f => fh_update m k v f;
  bpf_map_delete_elem := fun K EK CK V m k => fh_delete m k;
  map_store := fun K EK CK V m k v => fh_store m k v;
}.

Section FaultyLaws.
Context {K : Type} `{Countable K} {V : Type}.
Implicit Types (m : faulty_hash K V).

Lemma fh_fault_cases m :
  fh_fault m = None \/ fh_fault m = Some (- EBUSY) \/ fh_fault m = Some (- ENOMEM).
Proof. unfold fh_fault. destruct (fh_faults m) as [|[[]|] ?]; auto. Qed.

Lemma fh_check_cases m k f :
  fh_check m k f = 0 \/ fh_check m k f = - ENOENT \/
  fh_check m k f = - E2BIG \/ fh_check m k f = - EEXIST.
Proof. unfold fh_check. repeat case_match; auto. Qed.

Lemma fh_check_eexist m k f :
  fh_check m k f = - EEXIST -> f = BPF_NOEXIST /\ is_Some (fh_map m !! k).
Proof.
  unfold fh_check, EEXIST, ENOENT, E2BIG. repeat case_match; zify_bools; intros; try lia; eauto.
Qed.
End FaultyLaws.

Ltac fh_start m :=
  cbn; unfold fh_update, fh_delete; destruct (fh_fault_cases m) as [-> | [-> | ->]]; cbn.

#[export] Instance faulty_laws : BpfMapLaws faulty_ops.
Proof.
  split.
  - intros. fh_start m; [|unfold EBUSY; lia|unfold ENOMEM; lia].
    destruct (fh_check_cases m k f) as [-> | [-> | [-> | ->]]];
      unfold ENOENT, E2BIG, EEXIST; lia.
  - intros *. fh_start m; [|done..]. intros ->. simpl. by rewrite lookup_insert.
  - intros *. fh_start m; [|done..]. intros E. by rewrite (proj2 (Z.eqb_neq _ _) E).
  - intros *. intros [x Hx]. fh_start m; [|done..]. unfold fh_check. cbn in Hx. by rewrite Hx.
  - intros *. intros Hx. fh_start m; [|done..]. unfold fh_check. cbn in Hx. by rewrite Hx.
  - intros *. fh_start m; [apply fh_check_eexist|done..].
  - intros. fh_start m; [|unfold EBUSY; lia|unfold ENOMEM; lia].
    case_match; simpl; unfold ENOENT; lia.
  - intros *. fh_start m; [|done..]. case_match; simpl; [|done]. by rewrite lookup_delete.
  - intros *. fh_start m; [|done..]. by case_match.
  - intros *. fh_start m; [|done..]. by case_match.
  - intros *. intros _. cbn. by rewrite lookup_insert.
Qed.

(** ** Per-CPU values

    A per-CPU map value is one slot per CPU, zero until written; a program
    reads and writes the slot of the CPU it runs on. *)

Definition percpu (V : Type) : Type := gmap Z V.
Definition percpu_get {V} (d : V) (p : gmap Z V) (cpu : Z) : V := arr_get d p cpu.
Definition percpu_set {V} (p : gmap Z V) (cpu : Z) (v : V) : gmap Z V := arr_set p cpu v.

(** A program that creates a per-CPU row writes its own slot; the kernel zeroes
    the others. *)
Lemma percpu_get_init cpu cpu' : percpu_get 0 (percpu_set ∅ cpu 0) cpu' = 0.
Proof.
  unfold percpu_get, percpu_set. rewrite arr_get_set. case_decide; [done|].
  unfold arr_get. by rewrite lookup_empty.
Qed.

Lemma percpu_get_set {V} (d v : V) p c c' :
  percpu_get d (percpu_set p c v) c' = if decide (c = c') then v else percpu_get d p c'.
Proof. apply arr_get_set. Qed.

(** ** Perf ring

    [bpf_perf_event_output] either hands the record to user space or fails with
    a negative code; the delivered records of a run form a list. *)

Definition bpf_perf_event_output {E} (ret : Z) (event : E) (ring : list E) : Z * list E :=
  (ret, if ret <? 0 then ring else ring ++ [event]).
