(* ===== verification/KernelStr.v ===== *)
(** * Kernel strings and runs of hooks

    [bpf_probe_read_kernel_str] as the programs see it, with the facts about
    NUL-terminated buffers the tracers share, and the generic lemmas on a run of
    hook invocations (a left fold of a step function). *)

From Stdlib Require Import ZArith Lia.
From stdpp Require Import base option list tactics.
From S2P Require Import Prelude BpfMap.

Local Open Scope Z_scope.

(** ** Runs *)

Section Runs.
Context {S E : Type} (step : S -> E -> S).
Implicit Types (st : S) (es : list E).

(** A projection that every step outside [touches] keeps is kept by a run
    without such steps. *)
Lemma fold_frame {A} (f : S -> A) (touches : E -> bool) es : forall st,
  (forall st e, touches e = false -> f (step st e) = f st) ->
  Forall (fun e => touches e = false) es -> f (fold_left step es st) = f st.
Proof.
  induction es as [|e es IH]; intros st Hs Hf; [done|]. apply Forall_cons_iff in Hf as [He Hf].
  cbn. rewrite IH by done. by apply Hs.
Qed.

(** An invariant of the steps is an invariant of the runs. *)
Lemma fold_invariant (I : S -> Prop) es : forall st,
  (forall st e, I st -> I (step st e)) -> I st -> I (fold_left step es st).
Proof. induction es as [|e es IH]; intros st Hs Hi; [done|]. cbn. by apply IH; [|apply Hs]. Qed.

(** The outputs of a run: those of each step at the state it starts in. *)
Fixpoint outputs {O : Type} (out : S -> E -> list O) (st : S) (es : list E) : list O :=
  match es with
  | [] => []
  | e :: es => out st e ++ outputs out (step st e) es
  end.

Lemma outputs_app {O} (out : S -> E -> list O) es1 : forall st es2,
  outputs out st (es1 ++ es2) =
  outputs out st es1 ++ outputs out (fold_left step es1 st) es2.
Proof. induction es1 as [|e es1 IH]; intros; [done|]. cbn. by rewrite IH, app_assoc. Qed.

(** A log every step extends by its outputs is extended by a run's outputs. *)
Lemma fold_log {O} (log : S -> list O) (out : S -> E -> list O) es : forall st,
  (forall st e, log (step st e) = log st ++ out st e) ->
  log (fold_left step es st) = log st ++ outputs out st es.
Proof.
  induction es as [|e es IH]; intros st Hs; [by rewrite app_nil_r|].
  cbn. by rewrite IH, Hs, <- app_assoc.
Qed.

(** A value every step folds its outputs into is folded over a run's outputs. *)
Lemma fold_outputs {O V} (v : S -> V) (add : V -> O -> V) (out : S -> E -> list O) es : forall st,
  (forall st e, v (step st e) = fold_left add (out st e) (v st)) ->
  v (fold_left step es st) = fold_left add (outputs out st es) (v st).
Proof.
  induction es as [|e es IH]; intros st Hs; [done|]. cbn. by rewrite IH, Hs, fold_left_app.
Qed.
End Runs.

(** ** Strings *)

Definition byte_at (buf : list Z) (i : nat) : Z := default 0 (buf !! i).

(** The bytes before the first NUL. *)
Fixpoint until_nul (s : list Z) : list Z :=
  match s with
  | [] => []
  | c :: s => if c =? 0 then [] else c :: until_nul s
  end.

(** [bpf_probe_read_kernel_str(buf, sizeof buf, src)]: a source that cannot be read zeroes
    the buffer; otherwise at most [sizeof buf - 1] bytes and a NUL are stored and the
    rest of the buffer keeps its contents.  [src] is the string without its NUL. *)
Definition read_str_into (buf : list Z) (src : option (list Z)) : list Z :=
  match src with
  | None => replicate (length buf) 0
  | Some s =>
      let c := take (length buf - 1) (until_nul s) in
      c ++ 0 :: drop (length c + 1) buf
  end.

Lemma until_nul_app_zero s t : 0 ∉ s -> until_nul (s ++ 0 :: t) = s.
Proof.
  induction s as [|c s IH]; intros Hs; [done|]. cbn.
  apply not_elem_of_cons in Hs as [Hc Hs]. rewrite (proj2 (Z.eqb_neq c 0)) by done. by rewrite IH.
Qed.

Lemma until_nul_no_zero s : 0 ∉ until_nul s.
Proof.
  induction s as [|c s IH]; cbn; [apply not_elem_of_nil|].
  destruct (Z.eqb_spec c 0); [apply not_elem_of_nil|]. apply not_elem_of_cons. auto.
Qed.

Lemma until_nul_id s : 0 ∉ s -> until_nul s = s.
Proof.
  induction s as [|c s IH]; intros Hs; [done|]. cbn.
  apply not_elem_of_cons in Hs as [Hc Hs]. rewrite (proj2 (Z.eqb_neq c 0)) by done. by rewrite IH.
Qed.

Lemma until_nul_zeros n : until_nul (replicate n 0) = [].
Proof. by destruct n. Qed.

Lemma until_nul_length s : (length (until_nul s) <= length s)%nat.
Proof. induction s as [|c s IH]; cbn; [lia|]. destruct (c =? 0); cbn; lia. Qed.

Lemma take_no_zero n s : 0 ∉ s -> 0 ∉ take n s.
Proof. intros Hs Hin. apply Hs. by eapply subseteq_take. Qed.

Lemma read_str_length buf src : (0 < length buf)%nat -> length (read_str_into buf src) = length buf.
Proof.
  intros Hb. unfold read_str_into. destruct src as [s|]; [|apply length_replicate].
  pose proof (length_take (until_nul s) (length buf - 1)).
  rewrite length_app. cbn [length]. rewrite length_drop. lia.
Qed.

(** What a reader of the buffer sees. *)
Lemma read_str_until buf src :
  until_nul (read_str_into buf src) = take (length buf - 1) (until_nul (default [] src)).
Proof.
  unfold read_str_into. destruct src as [s|]; cbn.
  - apply until_nul_app_zero, take_no_zero, until_nul_no_zero.
  - rewrite until_nul_zeros. by rewrite take_nil.
Qed.

Lemma until_nul_empty s : byte_at s 0 = 0 <-> until_nul s = [].
Proof.
  destruct s as [|c s]; [done|]. cbn. unfold byte_at. cbn. destruct (Z.eqb_spec c 0); naive_solver.
Qed.

(** A byte stored below a NUL-terminated prefix keeps the rest of it. *)
Lemma until_nul_split s : 0 ∈ s ->
  exists t, s = until_nul s ++ 0 :: t.
Proof.
  induction s as [|c s IH]; intros Hs; [by apply elem_of_nil in Hs|]. cbn.
  destruct (Z.eqb_spec c 0) as [->|Hc]; [by exists s|].
  apply elem_of_cons in Hs as [Hs|Hs]; [congruence|]. destruct (IH Hs) as [t Ht].
  exists t. cbn. by rewrite <- Ht.
Qed.

(** ** Tracepoint arguments ([bpf/include/bpf_tracepoint.h])

    The pointer arguments of a tracepoint follow its common header, whose size
    differs between kernels, at the next multiple of eight.  [word] is the word at
    an offset of the context, 0 where it cannot be read. *)

Definition tracepoint_offset (entry_size : Z) : Z := Z.land (u32 (entry_size + 8 - 1)) (Z.lnot (8 - 1)).

Definition tracepoint_arg (entry_size : Z) (word : Z -> Z) (index : Z) : Z :=
  word (tracepoint_offset entry_size + index * 8).

Definition __data_loc_address (ctx loc : Z) : Z := u64 (ctx + Z.land loc 0xffff).

(** The first argument is aligned, and lies at most seven bytes behind the header. *)
Lemma tracepoint_offset_spec n :
  0 <= n < 2 ^ 31 ->
  tracepoint_offset n mod 8 = 0 /\ n <= tracepoint_offset n < n + 8.
Proof.
  intros Hn. unfold tracepoint_offset. rewrite u32_small by (unfold is_u32; lia).
  change (Z.lnot (8 - 1)) with (Z.lnot (Z.ones 3)). rewrite <- Z.ldiff_land, Z.ldiff_ones_r by lia.
  rewrite Z.shiftl_mul_pow2, Z.shiftr_div_pow2 by lia. change (2 ^ 3) with 8. split; [by rewrite Z_mod_mult|].
  pose proof (Z.div_mod (n + 8 - 1) 8). pose proof (Z.mod_pos_bound (n + 8 - 1) 8). lia.
Qed.
