(* ===== verification/Ratelimit.v ===== *)
(** * Rate limiters ([bpf/include/bpf_ratelimit.h])

    Module [Ratelimit] models the three limiters of the header: the lockless
    per-CPU limiter, the global limiter [bpf_ratelimited] and the map-resident
    limiter that also reports misses to user space.  Each limiter counts events
    in a window that starts at the first event after the previous window
    expired; [fixed_window] is that policy as an abstract specification, and
    the refinement and burst-bound theorems relate the C state machines to it. *)

From Stdlib Require Import ZArith Lia.
From stdpp Require Import base option list sorting tactics.
From S2P Require Import Prelude BpfMap.

Local Open Scope Z_scope.
Local Open Scope bpf_scope.

Module Ratelimit.

Definition BPF_NSEC_PER_SEC : Z := 1000000000.

Record bpf_ratelimit_event := RatelimitEvent {
  interval_ns : Z;
  window_start_ns : Z;
  burst : Z;
  max_burst : Z;
  events_in_window : Z;
  missed_in_window : Z;
  total_events : Z;
  total_missed : Z;
  total_elapsed_ns : Z;
}.

(** [BPF_RATELIMIT(name, interval, burst)]: everything else is zero. *)
Definition BPF_RATELIMIT (interval burst : Z) : bpf_ratelimit_event :=
  RatelimitEvent interval 0 burst 0 0 0 0 0 0.

Record bpf_percpu_ratelimit_state := PercpuRatelimitState {
  pc_window_start_ns : Z;
  pc_events_in_window : Z;
}.

(** ** The per-CPU limiter *)

Definition bpf_percpu_ratelimited_ns (now_ns : Z) (state : option bpf_percpu_ratelimit_state)
    (interval burst : Z) : bool * option bpf_percpu_ratelimit_state :=
  match state with
  | None => (false, None)
  | Some st =>
      if interval =? 0 then (false, Some st)
      else
        let st :=
          if (pc_window_start_ns st =? 0) ||
             (interval <=? now_ns -64 pc_window_start_ns st)
          then PercpuRatelimitState now_ns 0 else st in
        if burst <=? pc_events_in_window st then (true, Some st)
        else (false, Some (PercpuRatelimitState (pc_window_start_ns st)
                                                (pc_events_in_window st +32 1)))
  end.

(** ** The global limiter *)

Definition set_window_start (now_ns : Z) (r : bpf_ratelimit_event) : bpf_ratelimit_event :=
  RatelimitEvent (interval_ns r) now_ns (burst r) (max_burst r) (events_in_window r)
    (missed_in_window r) (total_events r) (total_missed r) (total_elapsed_ns r).

Definition roll_window (now_ns elapsed_ns : Z) (r : bpf_ratelimit_event) : bpf_ratelimit_event :=
  RatelimitEvent (interval_ns r) now_ns (burst r) (max_burst r) 0 0
    (total_events r) (total_missed r) (total_elapsed_ns r +64 elapsed_ns).

Definition admit_event (r : bpf_ratelimit_event) : bpf_ratelimit_event :=
  RatelimitEvent (interval_ns r) (window_start_ns r) (burst r) (max_burst r)
    (events_in_window r +64 1) (missed_in_window r)
    (total_events r +64 1) (total_missed r) (total_elapsed_ns r).

Definition miss_event (r : bpf_ratelimit_event) : bpf_ratelimit_event :=
  RatelimitEvent (interval_ns r) (window_start_ns r) (burst r) (max_burst r)
    (events_in_window r) (missed_in_window r +64 1)
    (total_events r) (total_missed r +64 1) (total_elapsed_ns r).

Definition bpf_ratelimited (now_ns : Z) (rate : option bpf_ratelimit_event)
    : bool * option bpf_ratelimit_event :=
  match rate with
  | None => (false, None)
  | Some r =>
      if interval_ns r =? 0 then (false, Some r)
      else
        let r := if window_start_ns r =? 0 then set_window_start now_ns r else r in
        let elapsed_ns := now_ns -64 window_start_ns r in
        let r := if interval_ns r <=? elapsed_ns then roll_window now_ns elapsed_ns r else r in
        if events_in_window r <? burst r then (false, Some (admit_event r))
        else (true, Some (miss_event r))
  end.

(** ** The limiter kept in a map *)

Definition configure (cfg r : bpf_ratelimit_event) : bpf_ratelimit_event :=
  RatelimitEvent (interval_ns cfg) (window_start_ns r) (burst cfg) (max_burst cfg)
    (events_in_window r) (missed_in_window r) (total_events r) (total_missed r)
    (total_elapsed_ns r).

Definition report_miss (old_missed : Z) (r : bpf_ratelimit_event) : bool :=
  (old_missed =? 0) ||
  ((0 <? max_burst r) && (max_burst r -64 burst r <? missed_in_window r)).

(** Verdict, new map value and perf ring of miss reports. *)
Definition bpf_ratelimited_core_in_map (now_ns output_ret : Z)
    (map : option bpf_ratelimit_event) (cfg : bpf_ratelimit_event)
    (ring : list bpf_ratelimit_event)
    : bool * option bpf_ratelimit_event * list bpf_ratelimit_event :=
  match map with
  | None => (false, None, ring)
  | Some rate =>
      let rate := if interval_ns rate =? 0 then configure cfg rate else rate in
      let old_missed := missed_in_window rate in
      match bpf_ratelimited now_ns (Some rate) with
      | (false, rate') => (false, rate', ring)
      | (true, None) => (true, None, ring)
      | (true, Some rate') =>
          (true, Some rate',
           if report_miss old_missed rate'
           then snd (bpf_perf_event_output output_ret rate' ring) else ring)
      end
  end.

(** [bpf_ratelimited_in_map_rc]: the configuration comes from three rewritten
    constants; an interval of zero disables the limiter. *)
Definition bpf_ratelimited_in_map_rc (now_ns output_ret : Z)
    (rlimit_interval_ns rlimit_burst rlimit_max_burst : Z)
    (map : option bpf_ratelimit_event) (ring : list bpf_ratelimit_event)
    : bool * option bpf_ratelimit_event * list bpf_ratelimit_event :=
  if rlimit_interval_ns =? 0 then (false, map, ring)
  else
    bpf_ratelimited_core_in_map now_ns output_ret map
      (RatelimitEvent rlimit_interval_ns 0 rlimit_burst rlimit_max_burst 0 0 0 0 0) ring.

(** ** Runs and the abstract policy *)

(** The limiter called at the given times: verdicts and final state. *)
Fixpoint ratelimit_run (times : list Z) (rate : bpf_ratelimit_event)
    : list bool * bpf_ratelimit_event :=
  match times with
  | [] => ([], rate)
  | now :: rest =>
      match bpf_ratelimited now (Some rate) with
      | (v, Some rate') => let '(vs, r) := ratelimit_run rest rate' in (v :: vs, r)
      | (v, None) => ([v], rate)
      end
  end.

Fixpoint percpu_run (interval burst : Z) (times : list Z) (st : bpf_percpu_ratelimit_state)
    : list bool * bpf_percpu_ratelimit_state :=
  match times with
  | [] => ([], st)
  | now :: rest =>
      match bpf_percpu_ratelimited_ns now (Some st) interval burst with
      | (v, Some st') => let '(vs, s) := percpu_run interval burst rest st' in (v :: vs, s)
      | (v, None) => ([v], st)
      end
  end.

(** The policy: an event joins the open window while it is younger than
    [interval], otherwise it opens a new one; it is limited exactly when at
    least [burst] events of its window came before it. *)
Definition next_window (interval : Z) (win : option (Z * Z)) (now : Z) : Z * Z :=
  match win with
  | Some (start, seen) => if now - start <? interval then (start, seen) else (now, 0)
  | None => (now, 0)
  end.

Fixpoint fixed_window (interval burst : Z) (win : option (Z * Z)) (times : list Z) : list bool :=
  match times with
  | [] => []
  | now :: rest =>
      let '(start, seen) := next_window interval win now in
      (burst <=? seen) :: fixed_window interval burst (Some (start, seen + 1)) rest
  end.

(** The payloads the policy admits from a timed sequence. *)
Fixpoint admitted_events {A} (interval burst : Z) (win : option (Z * Z)) (l : list (Z * A)) : list A :=
  match l with
  | [] => []
  | (now, a) :: l =>
      let '(start, seen) := next_window interval win now in
      (if burst <=? seen then [] else [a]) ++ admitted_events interval burst (Some (start, seen + 1)) l
  end.

(** Clock readings of one run: 64-bit, nonzero and nondecreasing. *)
Fixpoint clock_from (lo : Z) (times : list Z) : Prop :=
  match times with
  | [] => True
  | now :: rest => 0 < now /\ lo <= now < 2 ^ 64 /\ clock_from now rest
  end.

Definition admitted (v : bool) : Z := if v then 0 else 1.

(** Admissions of a run inside [lo, hi). *)
Fixpoint admitted_between (lo hi : Z) (times : list Z) (vs : list bool) : Z :=
  match times, vs with
  | t :: ts, v :: vs =>
      (if (lo <=? t) && (t <? hi) then admitted v else 0) + admitted_between lo hi ts vs
  | _, _ => 0
  end.

Definition count_admitted (vs : list bool) : Z := foldr (fun v n => admitted v + n) 0 vs.

(** ** The policy bounds admissions *)

Lemma fixed_window_bound_aux I b t w n lo times :
  0 < I -> 0 <= b -> 0 <= n -> w <= lo -> clock_from lo times ->
  admitted_between t (t + I) times (fixed_window I b (Some (w, n)) times) <=
    (if lo <? t then 2 * b
     else if w <? t then Z.max 0 (b - n) + b
     else if w <? t + I then Z.max 0 (b - n) else 0).
Proof.
  intros HI Hb. revert w n lo.
  induction times as [|now rest IH]; intros w n lo Hn Hw; simpl.
  { intros _. repeat case_if; lia. }
  intros (Hpos & Hnow & Hrest).
  destruct (now - w <? I) eqn:Ej; simpl.
  - specialize (IH w (n + 1) now ltac:(lia) ltac:(lia) Hrest).
    revert IH. unfold admitted. repeat case_if; zify_bools; lia.
  - specialize (IH now (0 + 1) now ltac:(lia) ltac:(lia) Hrest).
    revert IH. unfold admitted. repeat case_if; zify_bools; lia.
Qed.

Lemma fixed_window_bound I b t times :
  0 < I -> 0 <= b -> clock_from 0 times ->
  admitted_between t (t + I) times (fixed_window I b None times) <= 2 * b.
Proof.
  intros HI Hb Hc. destruct times as [|now rest]; simpl in *; [lia|].
  destruct Hc as (Hpos & Hnow & Hrest).
  pose proof (fixed_window_bound_aux I b t now (0 + 1) now rest HI Hb ltac:(lia) ltac:(lia) Hrest)
    as H.
  revert H. unfold admitted. repeat case_if; zify_bools; lia.
Qed.

(** ** The global limiter implements the policy *)

Record rate_ok (r : bpf_ratelimit_event) : Prop := {
  ok_interval : 0 < interval_ns r < 2 ^ 64;
  ok_burst : 0 <= burst r < 2 ^ 64;
  ok_events : 0 <= events_in_window r <= burst r;
}.

(** The window of the specification a limiter state stands for. *)
Definition rate_rel (r : bpf_ratelimit_event) (win : option (Z * Z)) : Prop :=
  rate_ok r /\
  match win with
  | None => window_start_ns r = 0 /\ events_in_window r = 0
  | Some (start, seen) =>
      0 < start < 2 ^ 64 /\ 0 <= seen /\ window_start_ns r = start /\
      events_in_window r = Z.min (burst r) seen
  end.

(** The state a call leaves behind, before the verdict is counted. *)
Definition windowed (now : Z) (r : bpf_ratelimit_event) : bpf_ratelimit_event :=
  if window_start_ns r =? 0 then set_window_start now r
  else if interval_ns r <=? now - window_start_ns r
       then roll_window now (now - window_start_ns r) r else r.

Lemma bpf_ratelimited_eq r now :
  rate_ok r -> 0 < now < 2 ^ 64 -> 0 <= window_start_ns r <= now ->
  bpf_ratelimited now (Some r) =
    (let r' := windowed now r in
     if events_in_window r' <? burst r' then (false, Some (admit_event r'))
     else (true, Some (miss_event r'))).
Proof.
  intros [Hi Hb He] Hnow Hw. unfold bpf_ratelimited, windowed.
  rewrite (proj2 (Z.eqb_neq (interval_ns r) 0)) by lia.
  destruct (Z.eqb_spec (window_start_ns r) 0) as [E|E].
  - replace (now -64 window_start_ns (set_window_start now r)) with 0
      by (simpl; by rewrite Z.sub_diag).
    simpl. rewrite (proj2 (Z.leb_gt _ _)) by lia. done.
  - rewrite u64_sub_exact by (unfold is_u64; lia). done.
Qed.

Lemma windowed_frame now r :
  interval_ns (windowed now r) = interval_ns r /\ burst (windowed now r) = burst r /\
  max_burst (windowed now r) = max_burst r /\
  total_events (windowed now r) = total_events r /\
  total_missed (windowed now r) = total_missed r.
Proof. unfold windowed. by repeat case_if. Qed.

(** Close a verdict: compare the count with the burst and check the state. *)
Ltac rate_verdict :=
  match goal with
  | |- context [?n <? burst ?r] =>
      destruct (Z.ltb_spec n (burst r));
      [rewrite (proj2 (Z.leb_gt _ _)) by lia|rewrite (proj2 (Z.leb_le _ _)) by lia];
      (eexists; split; [done|]); repeat split; simpl; rewrite ?u64_add_small; lia
  end.

(** One call is one step of the policy. *)
Lemma rate_step r win now :
  rate_rel r win -> 0 < now < 2 ^ 64 -> window_start_ns r <= now ->
  let '(start, seen) := next_window (interval_ns r) win now in
  exists r', bpf_ratelimited now (Some r) = (burst r <=? seen, Some r') /\
    rate_rel r' (Some (start, seen + 1)) /\ interval_ns r' = interval_ns r /\
    burst r' = burst r /\ window_start_ns r' <= now.
Proof.
  intros [Hok Hrel] Hnow Hle.
  assert (0 <= window_start_ns r) by (destruct win as [[]|]; lia).
  pose proof (bpf_ratelimited_eq r now Hok Hnow ltac:(lia)) as Heq.
  destruct Hok as [Hi Hb He]. unfold windowed in Heq. cbv zeta in Heq. unfold next_window.
  destruct win as [[start seen]|];
    [destruct Hrel as (Hs & Hn & Hws & Hev)|destruct Hrel as (Hws & Hev)]; rewrite Hws in Heq.
  - rewrite (proj2 (Z.eqb_neq start 0)) in Heq by lia.
    destruct (Z.ltb_spec (now - start) (interval_ns r)) as [Hl|Hl];
      [rewrite (proj2 (Z.leb_gt _ _)) in Heq by lia|rewrite (proj2 (Z.leb_le _ _)) in Heq by lia];
      rewrite Heq; simpl; rate_verdict.
  - rewrite Heq. simpl. rate_verdict.
Qed.

Lemma ratelimit_run_refines times r win lo :
  rate_rel r win -> window_start_ns r <= lo -> clock_from lo times ->
  fst (ratelimit_run times r) = fixed_window (interval_ns r) (burst r) win times.
Proof.
  revert r win lo. induction times as [|now rest IH]; intros r win lo Hrel Hlo Hc; [done|].
  simpl in Hc. destruct Hc as (Hpos & Hnow & Hrest).
  pose proof (rate_step r win now Hrel ltac:(lia) ltac:(lia)) as Hstep. cbn [ratelimit_run fixed_window].
  destruct (next_window _ win now) as [start seen].
  destruct Hstep as (r' & -> & Hrel' & Hi' & Hb' & Hw').
  specialize (IH r' (Some (start, seen + 1)) now Hrel' Hw' Hrest).
  destruct (ratelimit_run rest r') as [vs rf]. simpl in *.
  by rewrite IH, Hi', Hb'.
Qed.

Lemma rate_rel_init I b :
  0 < I < 2 ^ 64 -> 0 <= b < 2 ^ 64 -> rate_rel (BPF_RATELIMIT I b) None.
Proof. intros. repeat split; simpl; lia. Qed.

(** ** The per-CPU limiter implements the policy *)

Definition percpu_rel (burst : Z) (st : bpf_percpu_ratelimit_state) (win : option (Z * Z)) : Prop :=
  match win with
  | None => pc_window_start_ns st = 0
  | Some (start, seen) =>
      0 < start < 2 ^ 64 /\ 0 <= seen /\ pc_window_start_ns st = start /\
      pc_events_in_window st = Z.min burst seen
  end.

Lemma percpu_step I b st win now :
  0 < I -> 0 <= b < 2 ^ 32 -> percpu_rel b st win ->
  0 < now < 2 ^ 64 -> pc_window_start_ns st <= now ->
  let '(start, seen) := next_window I win now in
  exists st', bpf_percpu_ratelimited_ns now (Some st) I b = (b <=? seen, Some st') /\
    percpu_rel b st' (Some (start, seen + 1)) /\ pc_window_start_ns st' <= now.
Proof.
  intros HI Hb Hrel Hnow Hle. unfold bpf_percpu_ratelimited_ns, next_window.
  rewrite (proj2 (Z.eqb_neq I 0)) by lia.
  destruct win as [[start seen]|]; simpl in Hrel.
  - destruct Hrel as (Hs & Hn & Hws & Hev). rewrite Hws.
    rewrite (proj2 (Z.eqb_neq start 0)), u64_sub_exact by (unfold is_u64; lia). simpl.
    destruct (Z.ltb_spec (now - start) I) as [Hl|Hl];
      [rewrite (proj2 (Z.leb_gt I (now - start))) by lia
      |rewrite (proj2 (Z.leb_le I (now - start))) by lia].
    + rewrite Hev, Hws.
      replace (b <=? Z.min b seen) with (b <=? seen)
        by (destruct (Z.leb_spec b seen), (Z.leb_spec b (Z.min b seen)); done || lia).
      destruct (b <=? seen) eqn:E; zify_bools;
        (eexists; split; [done|]); repeat split; simpl;
        rewrite ?u32_small; unfold is_u32; lia.
    + simpl. destruct (b <=? 0) eqn:E; zify_bools;
        (eexists; split; [done|]); repeat split; simpl;
        rewrite ?u32_small; unfold is_u32; lia.
  - rewrite Hrel. simpl. destruct (b <=? 0) eqn:E; zify_bools;
      (eexists; split; [done|]); repeat split; simpl;
      rewrite ?u32_small; unfold is_u32; lia.
Qed.

Lemma percpu_run_refines I b times st win lo :
  0 < I -> 0 <= b < 2 ^ 32 ->
  percpu_rel b st win -> pc_window_start_ns st <= lo -> clock_from lo times ->
  fst (percpu_run I b times st) = fixed_window I b win times.
Proof.
  intros HI Hb. revert st win lo.
  induction times as [|now rest IH]; intros st win lo Hrel Hlo Hc; [done|].
  simpl in Hc. destruct Hc as (Hpos & Hnow & Hrest).
  pose proof (percpu_step I b st win now HI Hb Hrel ltac:(lia) ltac:(lia)) as Hstep.
  cbn [percpu_run fixed_window].
  destruct (next_window _ win now) as [start seen].
  destruct Hstep as (st' & -> & Hrel' & Hw').
  specialize (IH st' (Some (start, seen + 1)) now Hrel' Hw' Hrest).
  destruct (percpu_run I b rest st') as [vs sf]. simpl in *. by rewrite IH.
Qed.

(** ** Reports of the map limiter *)

(** A run of [bpf_ratelimited_core_in_map]: per call, the verdict and whether a
    report was sent. *)
Fixpoint in_map_run (cfg : bpf_ratelimit_event) (times : list Z) (rate : bpf_ratelimit_event)
    : list (bool * bool) :=
  match times with
  | [] => []
  | now :: rest =>
      match bpf_ratelimited_core_in_map now 0 (Some rate) cfg [] with
      | (v, Some rate', ring) =>
          (v, negb (bool_decide (ring = []))) :: in_map_run cfg rest rate'
      | (v, None, ring) => [(v, negb (bool_decide (ring = [])))]
      end
  end.

(** The policy with reports: verdict, and whether this is the first limited
    event of its window. *)
Fixpoint fixed_window_reports (interval burst : Z) (win : option (Z * Z)) (times : list Z)
    : list (bool * bool) :=
  match times with
  | [] => []
  | now :: rest =>
      let '(start, seen) := next_window interval win now in
      (burst <=? seen, seen =? burst)
        :: fixed_window_reports interval burst (Some (start, seen + 1)) rest
  end.

Definition report_rel (r : bpf_ratelimit_event) (win : option (Z * Z)) : Prop :=
  rate_rel r win /\ max_burst r = 0 /\ 0 < burst r /\
  missed_in_window r =
    match win with None => 0 | Some (_, seen) => Z.max 0 (seen - burst r) end.

Lemma report_step r win now :
  report_rel r win -> 0 < now < 2 ^ 64 -> window_start_ns r <= now ->
  match win with None => True | Some (_, seen) => seen + 1 < 2 ^ 64 end ->
  let '(start, seen) := next_window (interval_ns r) win now in
  forall cfg, exists r',
    bpf_ratelimited_core_in_map now 0 (Some r) cfg [] =
      (burst r <=? seen, Some r', if seen =? burst r then [r'] else []) /\
    report_rel r' (Some (start, seen + 1)) /\ interval_ns r' = interval_ns r /\
    burst r' = burst r /\ window_start_ns r' <= now.
Proof.
  intros (Hrel & Hmax & Hbp & Hmiss) Hnow Hle Hsz.
  pose proof (rate_step r win now Hrel Hnow Hle) as Hstep.
  pose proof Hrel as [Hok Hw]. assert (0 <= window_start_ns r) by (destruct win as [[]|]; lia).
  pose proof (bpf_ratelimited_eq r now Hok Hnow ltac:(lia)) as Heq. cbv zeta in Heq.
  pose proof (windowed_frame now r) as (_ & Hfb & Hfm & _).
  assert (Hmw : missed_in_window (windowed now r) =
     match win with
     | Some (start, seen) => if now - start <? interval_ns r then Z.max 0 (seen - burst r) else 0
     | None => 0
     end).
  { unfold windowed. destruct win as [[s n]|].
    - destruct Hw as (Hs & _ & -> & _). rewrite (proj2 (Z.eqb_neq s 0)) by lia.
      destruct (Z.ltb_spec (now - s) (interval_ns r));
        [rewrite (proj2 (Z.leb_gt _ _)) by lia|rewrite (proj2 (Z.leb_le _ _)) by lia]; done.
    - destruct Hw as (-> & _). done. }
  assert (Hseen : match win with Some (_, seen) => 0 <= seen | None => True end)
    by (destruct win as [[]|]; [lia|done]).
  set (pr := next_window (interval_ns r) win now) in *.
  assert (Hpr : missed_in_window (windowed now r) = Z.max 0 (snd pr - burst r) /\
                0 <= snd pr < 2 ^ 64 - 1 /\
                (burst r <= snd pr -> missed_in_window r = missed_in_window (windowed now r))).
  { subst pr. unfold next_window. destruct win as [[s n]|]; [destruct (now - s <? interval_ns r)|]; simpl; lia. }
  destruct pr as [start seen]. simpl in Hpr. destruct Hpr as (Hm1 & Hs1 & Hm2).
  destruct Hstep as (r' & Hr' & Hrel' & Hi' & Hb' & Hw'). intros cfg. exists r'.
  unfold bpf_ratelimited_core_in_map.
  rewrite (proj2 (Z.eqb_neq (interval_ns r) 0)) by (destruct Hok; lia). rewrite Hr'.
  rewrite Heq in Hr'. rewrite Hfb in Hr'.
  destruct (Z.leb_spec (burst r) seen) as [Hl|Hl];
    destruct (events_in_window (windowed now r) <? burst r) eqn:Eev; simplify_eq.
  - simpl in *. split_and!; try done;
      [|split_and!; simpl; try done; rewrite ?Hm1, ?Hfb, ?u64_add_small; lia].
    f_equal. unfold report_miss. simpl. rewrite Hfm, Hmax. simpl. rewrite orb_false_r.
      rewrite Hm2, Hm1 by lia. destruct (Z.eqb_spec seen (burst r)).
      + by rewrite (proj2 (Z.eqb_eq _ _)) by lia.
      + by rewrite (proj2 (Z.eqb_neq _ _)) by lia.
  - simpl in *. rewrite (proj2 (Z.eqb_neq _ _)) by lia.
    split_and!; try done; split_and!; simpl; try done; lia.
Qed.

Lemma in_map_run_refines cfg times r win lo :
  report_rel r win -> window_start_ns r <= lo -> clock_from lo times ->
  match win with None => 0 | Some (_, seen) => seen end + Z.of_nat (length times) < 2 ^ 64 ->
  in_map_run cfg times r = fixed_window_reports (interval_ns r) (burst r) win times.
Proof.
  revert r win lo. induction times as [|now rest IH]; intros r win lo Hrel Hlo Hc Hsz; [done|].
  simpl in Hc. destruct Hc as (Hpos & Hnow & Hrest). rewrite length_cons in Hsz.
  pose proof (report_step r win now Hrel ltac:(lia) ltac:(lia)) as Hstep.
  specialize (Hstep ltac:(destruct win as [[]|]; [lia|done])).
  cbn [in_map_run fixed_window_reports].
  assert (Hb : snd (next_window (interval_ns r) win now) + 1 + Z.of_nat (length rest) < 2 ^ 64).
  { unfold next_window. destruct win as [[s n]|]; [case_if|]; simpl in *; try lia.
    destruct Hrel as ([_ Hw] & _). simpl in Hw. lia. }
  destruct (next_window _ win now) as [start seen]. simpl in Hb.
  destruct (Hstep cfg) as (r' & -> & Hrel' & Hi' & Hb' & Hw').
  specialize (IH r' (Some (start, seen + 1)) now Hrel' Hw' Hrest ltac:(lia)).
  rewrite IH, Hi', Hb'. by destruct (seen =? burst r).
Qed.

Definition zero_event : bpf_ratelimit_event := RatelimitEvent 0 0 0 0 0 0 0 0 0.

Lemma in_map_run_configures I b times :
  I <> 0 ->
  in_map_run (BPF_RATELIMIT I b) times zero_event =
  in_map_run (BPF_RATELIMIT I b) times (BPF_RATELIMIT I b).
Proof.
  intros HI. destruct times as [|now rest]; [done|]. cbn [in_map_run].
  unfold bpf_ratelimited_core_in_map. cbn -[bpf_ratelimited].
  by rewrite (proj2 (Z.eqb_neq I 0) HI).
Qed.

(** A limiter in a map stands for a window: before its first use it is zero and
    takes the configuration, afterwards it carries it. *)
Definition map_rel (cfg r : bpf_ratelimit_event) (win : option (Z * Z)) : Prop :=
  let r' := if interval_ns r =? 0 then configure cfg r else r in
  rate_rel r' win /\ interval_ns r' = interval_ns cfg /\ burst r' = burst cfg.

Lemma map_rel_zero cfg :
  0 < interval_ns cfg < 2 ^ 64 -> 0 <= burst cfg < 2 ^ 64 -> map_rel cfg zero_event None.
Proof. intros. repeat split; simpl; lia. Qed.

Lemma in_map_step cfg r win now ret ring :
  map_rel cfg r win -> 0 < now < 2 ^ 64 -> window_start_ns r <= now ->
  let '(start, seen) := next_window (interval_ns cfg) win now in
  exists r' ring', bpf_ratelimited_core_in_map now ret (Some r) cfg ring = (burst cfg <=? seen, Some r', ring') /\
    map_rel cfg r' (Some (start, seen + 1)) /\ window_start_ns r' <= now.
Proof.
  unfold map_rel, bpf_ratelimited_core_in_map. cbv zeta.
  set (r0 := if interval_ns r =? 0 then _ else r). intros (Hr & Hi & Hb) Hnow Hw.
  assert (Hw0 : window_start_ns r0 = window_start_ns r) by (subst r0; by case_if).
  pose proof (rate_step r0 win now Hr Hnow ltac:(lia)) as Hst. rewrite Hi, Hb in Hst.
  destruct (next_window (interval_ns cfg) win now) as [start seen].
  destruct Hst as (r' & -> & Hr' & Hi' & Hb' & Hw').
  assert (Hnz : interval_ns r' <> 0) by (destruct Hr as [[] _]; lia).
  destruct (burst cfg <=? seen); do 2 eexists; (split; [done|]);
    rewrite (proj2 (Z.eqb_neq _ _) Hnz); split_and!; congruence || done.
Qed.

(** A log guarded by the global limiter: the limiter sees the time of every entry,
    the payload of an admitted one is appended. *)
Definition limited_step {A} (st : bpf_ratelimit_event * list A) (e : Z * list A)
    : bpf_ratelimit_event * list A :=
  let '(limited, r) := bpf_ratelimited (fst e) (Some (fst st)) in
  (default (fst st) r, if limited then snd st else snd st ++ snd e).

Lemma limited_log {A} (l : list (Z * list A)) : forall r ring win lo,
  rate_rel r win -> window_start_ns r <= lo -> clock_from lo (map fst l) ->
  snd (fold_left limited_step l (r, ring)) =
  ring ++ concat (admitted_events (interval_ns r) (burst r) win l).
Proof.
  induction l as [|[now a] l IH]; intros r ring win lo Hr Hlo Hc; [by rewrite app_nil_r|].
  destruct Hc as (Hp & Hn & Hc). cbn [fold_left admitted_events]. unfold limited_step at 2. cbn [fst snd].
  pose proof (rate_step r win now Hr ltac:(cbn in *; lia) ltac:(cbn in *; lia)) as Hst.
  destruct (next_window (interval_ns r) win now) as [start seen].
  destruct Hst as (r' & -> & Hr' & Hi' & Hb' & Hw'). cbn [default]. change (id r') with r'.
  rewrite <- Hi', <- Hb'. destruct (burst r' <=? seen); rewrite (IH r' _ _ now Hr' Hw' Hc); [done|].
  cbn [concat app]. by rewrite <- app_assoc.
Qed.

(** Every call of an enabled limiter counts in exactly one of the totals. *)
Lemma ratelimited_counts now r :
  interval_ns r <> 0 ->
  exists v r', bpf_ratelimited now (Some r) = (v, Some r') /\ interval_ns r' = interval_ns r /\
    total_events r' = (if v then total_events r else total_events r +64 1) /\
    total_missed r' = (if v then total_missed r +64 1 else total_missed r).
Proof.
  intros HI. unfold bpf_ratelimited. rewrite (proj2 (Z.eqb_neq _ 0) HI). cbv zeta.
  set (r1 := if window_start_ns r =? 0 then _ else r).
  assert (H1 : interval_ns r1 = interval_ns r /\ total_events r1 = total_events r /\
               total_missed r1 = total_missed r) by (subst r1; by case_if).
  set (r2 := if interval_ns r1 <=? _ then _ else r1).
  assert (H2 : interval_ns r2 = interval_ns r /\ total_events r2 = total_events r /\
               total_missed r2 = total_missed r) by (subst r2; case_if; simpl; tauto).
  destruct H2 as (H2 & H3 & H4).
  case_if; do 2 eexists; (split; [done|]); simpl; by rewrite H3, H4.
Qed.

Lemma count_admitted_cons v vs : count_admitted (v :: vs) = admitted v + count_admitted vs.
Proof. done. Qed.

(** C39: on every nondecreasing sequence of 64-bit clock readings, the verdicts of
    [bpf_ratelimited] are those of the fixed-window policy: the window state
    kept in [window_start_ns], [events_in_window] and [missed_in_window]
    implements the policy exactly, wrap-around arithmetic included. *)
Theorem ratelimit_refines_fixed_window I b times :
  0 < I < 2 ^ 64 -> 0 <= b < 2 ^ 64 -> clock_from 0 times ->
  fst (ratelimit_run times (BPF_RATELIMIT I b)) = fixed_window I b None times.
Proof.
  intros HI Hb Hc. apply (ratelimit_run_refines times (BPF_RATELIMIT I b) None 0); try done.
  by apply rate_rel_init.
Qed.

Lemma ratelimit_refines_fixed_window_witness :
  fst (ratelimit_run [5; 6; 7; 20; 21] (BPF_RATELIMIT 10 2)) =
    fixed_window 10 2 None [5; 6; 7; 20; 21].
Proof. apply ratelimit_refines_fixed_window; simpl; repeat split; lia. Defined.

(** C38: in any span of one interval the limiter, called once after the other at
    nondecreasing times, admits at most twice its burst, wherever the span starts and
    however the events arrive. *)
Theorem ratelimit_burst_bound I b t times :
  0 < I < 2 ^ 64 -> 0 <= b < 2 ^ 64 -> clock_from 0 times ->
  admitted_between t (t + I) times (fst (ratelimit_run times (BPF_RATELIMIT I b))) <= 2 * b.
Proof.
  intros HI Hb Hc.
  rewrite (ratelimit_run_refines times (BPF_RATELIMIT I b) None 0)
    by (try done; by apply rate_rel_init).
  cbn [interval_ns burst BPF_RATELIMIT]. apply fixed_window_bound; [lia..|done].
Qed.

Lemma ratelimit_burst_bound_witness :
  admitted_between 12 (12 + 10) [5; 13; 14; 15; 16; 17]
    (fst (ratelimit_run [5; 13; 14; 15; 16; 17] (BPF_RATELIMIT 10 2))) <= 2 * 2.
Proof. apply ratelimit_burst_bound; simpl; repeat split; lia. Defined.

(** An enabled limiter accounts for every call: after a run the two totals
    have grown by the numbers of admitted and of limited calls, modulo 2^64,
    whatever the clock did. *)
Lemma ratelimit_totals times r :
  interval_ns r <> 0 -> is_u64 (total_events r) -> is_u64 (total_missed r) ->
  let '(vs, r') := ratelimit_run times r in
  length vs = length times /\
  total_events r' = total_events r +64 count_admitted vs /\
  total_missed r' = total_missed r +64 (Z.of_nat (length times) - count_admitted vs).
Proof.
  revert r. induction times as [|now rest IH]; intros r HI He Hm.
  { simpl. rewrite !Z.add_0_r, !u64_small by done. done. }
  cbn [ratelimit_run]. destruct (ratelimited_counts now r HI) as (v & r' & -> & HI' & He' & Hm').
  specialize (IH r'). rewrite HI' in IH.
  specialize (IH HI ltac:(rewrite He'; destruct v; auto with bpf)
                 ltac:(rewrite Hm'; destruct v; auto with bpf)).
  destruct (ratelimit_run rest r') as [vs rf]. destruct IH as (Hl & -> & ->).
  rewrite count_admitted_cons, !length_cons, Hl, He', Hm'.
  split; [done|]. destruct v; simpl admitted; autorewrite with bpf_rw; split; f_equal; lia.
Qed.

(** The lockless per-CPU limiter, with its 32-bit counter and its restart on a
    zero window start, implements the same fixed-window policy. *)
Theorem percpu_refines_fixed_window I b times :
  0 < I -> 0 <= b < 2 ^ 32 -> clock_from 0 times ->
  fst (percpu_run I b times (PercpuRatelimitState 0 0)) = fixed_window I b None times.
Proof. intros. by apply (percpu_run_refines I b times (PercpuRatelimitState 0 0) None 0). Qed.

Lemma percpu_refines_fixed_window_witness :
  fst (percpu_run 10 1 [5; 6; 16] (PercpuRatelimitState 0 0)) = fixed_window 10 1 None [5; 6; 16].
Proof. apply percpu_refines_fixed_window; simpl; repeat split; lia. Defined.

(** A limiter kept in a zero-initialised map takes its configuration on first
    use and, with a positive burst and no [max_burst], sends a report exactly
    for the first limited event of each window. *)
Theorem in_map_reports_first_miss I b times :
  0 < I < 2 ^ 64 -> 0 < b < 2 ^ 64 -> clock_from 0 times ->
  Z.of_nat (length times) < 2 ^ 64 ->
  in_map_run (BPF_RATELIMIT I b) times zero_event = fixed_window_reports I b None times.
Proof.
  intros HI Hb Hc Hn. rewrite in_map_run_configures by lia.
  apply (in_map_run_refines _ times (BPF_RATELIMIT I b) None 0); try done.
  repeat split; simpl; lia.
Qed.

Lemma in_map_reports_first_miss_witness :
  in_map_run (BPF_RATELIMIT 10 1) [5; 6; 7; 30; 31] zero_event =
    fixed_window_reports 10 1 None [5; 6; 7; 30; 31].
Proof. apply in_map_reports_first_miss; simpl; repeat split; lia. Defined.

(** With a burst of zero no event of a window is admitted, so the counter of
    missed events is still the previous window's when the first miss of the next
    window is judged: only the very first miss is reported. *)
Lemma zero_burst_reports_one_window :
  in_map_run (BPF_RATELIMIT 10 0) [5; 6; 30; 31] zero_event =
  [(true, true); (true, false); (true, false); (true, false)].
Proof. reflexivity. Qed.

End Ratelimit.
