(* ===== verification/RatelimitRace.v ===== *)
(** * The shared limiter under races ([bpf/include/bpf_ratelimit.h])

    [bpf_ratelimited] and [bpf_ratelimited_core_in_map] work on one record that all
    CPUs share, without a lock.  Module [RatelimitRace] splits them at their
    accesses to the record: every read of a field, every write and every atomic
    addition is a step of its own, and the steps of the invocations in flight
    interleave in any order, each with its own reading of the clock.  The record a
    report carries is copied field by field.  A field the source names twice is read
    twice; a program in which the compiler merges adjacent reads has a subset of
    these behaviours.

    Theorems: an invocation left alone is the sequential limiter of [Ratelimit];
    the two totals count every verdict; and the admissions are bounded by the
    number of window resets.  An evaluated schedule shows why that number is not
    bounded by the clock: the elapsed time wraps when another CPU has moved the
    window start past this CPU's reading. *)

From Stdlib Require Import ZArith Lia.
From stdpp Require Import base option list gmap tactics.
From S2P Require Import Prelude BpfMap Ratelimit.
Import Ratelimit.

Local Open Scope Z_scope.
Local Open Scope bpf_scope.

Module RatelimitRace.

(** ** Program points

    [old] is the value of [old_missed] in the limiter kept in a map and [None] in
    the plain one.  Each point names the access that comes next. *)

Inductive rl_point :=
| AtConfigured
| AtSetInterval
| AtSetBurst
| AtSetMaxBurst
| AtOldMissed
| AtEnabled (old : option Z)
| AtStart (old : option Z) (now_ns : Z)
| AtSetStart (old : option Z) (now_ns : Z)
| AtElapsed (old : option Z) (now_ns : Z)
| AtInterval (old : option Z) (now_ns elapsed_ns : Z)
| AtAddElapsed (old : option Z) (now_ns elapsed_ns : Z)
| AtRollStart (old : option Z) (now_ns : Z)
| AtClearEvents (old : option Z)
| AtClearMissed (old : option Z)
| AtEvents (old : option Z)
| AtBurst (old : option Z) (events : Z)
| AtCountEvent (old : option Z)
| AtCountTotal (old : option Z)
| AtCountMiss (old : option Z)
| AtCountTotalMissed (old : option Z)
| AtMaxBurst
| AtMissed
| AtMaxBurstAgain (missed : Z)
| AtReportBurst (missed max_burst : Z)
| AtCopy (copied : list Z).

(** The answer of a call: [false] from a disabled limiter, [false] after counting
    the event, or [true]. *)
Inductive rl_outcome := Disabled | Passed | Missed.

#[export] Instance rl_outcome_eq_dec : EqDecision rl_outcome.
Proof. solve_decision. Defined.

Definition verdict (o : rl_outcome) : bool := match o with Missed => true | _ => false end.

(** ** Single accesses *)

Definition set_interval (v : Z) (r : bpf_ratelimit_event) : bpf_ratelimit_event :=
  RatelimitEvent v (window_start_ns r) (burst r) (max_burst r) (events_in_window r)
    (missed_in_window r) (total_events r) (total_missed r) (total_elapsed_ns r).
Definition set_burst (v : Z) (r : bpf_ratelimit_event) : bpf_ratelimit_event :=
  RatelimitEvent (interval_ns r) (window_start_ns r) v (max_burst r) (events_in_window r)
    (missed_in_window r) (total_events r) (total_missed r) (total_elapsed_ns r).
Definition set_max_burst (v : Z) (r : bpf_ratelimit_event) : bpf_ratelimit_event :=
  RatelimitEvent (interval_ns r) (window_start_ns r) (burst r) v (events_in_window r)
    (missed_in_window r) (total_events r) (total_missed r) (total_elapsed_ns r).
Definition set_events (v : Z) (r : bpf_ratelimit_event) : bpf_ratelimit_event :=
  RatelimitEvent (interval_ns r) (window_start_ns r) (burst r) (max_burst r) v
    (missed_in_window r) (total_events r) (total_missed r) (total_elapsed_ns r).
Definition set_missed (v : Z) (r : bpf_ratelimit_event) : bpf_ratelimit_event :=
  RatelimitEvent (interval_ns r) (window_start_ns r) (burst r) (max_burst r) (events_in_window r)
    v (total_events r) (total_missed r) (total_elapsed_ns r).
Definition set_total_events (v : Z) (r : bpf_ratelimit_event) : bpf_ratelimit_event :=
  RatelimitEvent (interval_ns r) (window_start_ns r) (burst r) (max_burst r) (events_in_window r)
    (missed_in_window r) v (total_missed r) (total_elapsed_ns r).
Definition set_total_missed (v : Z) (r : bpf_ratelimit_event) : bpf_ratelimit_event :=
  RatelimitEvent (interval_ns r) (window_start_ns r) (burst r) (max_burst r) (events_in_window r)
    (missed_in_window r) (total_events r) v (total_elapsed_ns r).
Definition set_total_elapsed (v : Z) (r : bpf_ratelimit_event) : bpf_ratelimit_event :=
  RatelimitEvent (interval_ns r) (window_start_ns r) (burst r) (max_burst r) (events_in_window r)
    (missed_in_window r) (total_events r) (total_missed r) v.

(** ** Steps

    One access of an invocation at point [p], whose clock would read [now] and
    whose perf output would answer [ret]: the record, the next point ([None] after
    the return), the outcome once it is decided, and a report. *)

Definition rl_effect : Type :=
  bpf_ratelimit_event * option rl_point * option rl_outcome * list bpf_ratelimit_event.

Definition goto (r : bpf_ratelimit_event) (p : rl_point) : rl_effect := (r, Some p, None, []).

(** After a refusal: a first miss is reported without further tests. *)
Definition report_test (old_missed : Z) : rl_point := if old_missed =? 0 then AtCopy [] else AtMaxBurst.

Definition advance_limiter (now : Z) (p : rl_point) (r : bpf_ratelimit_event) : rl_effect :=
  match p with
  | AtEnabled old => if interval_ns r =? 0 then (r, None, Some Disabled, []) else goto r (AtStart old now)
  | AtStart old now_ns =>
      if window_start_ns r =? 0 then goto r (AtSetStart old now_ns) else goto r (AtElapsed old now_ns)
  | AtSetStart old now_ns => goto (set_window_start now_ns r) (AtElapsed old now_ns)
  | AtElapsed old now_ns =>
      goto r (AtInterval old now_ns (now_ns -64 window_start_ns r))
  | AtInterval old now_ns elapsed_ns =>
      if interval_ns r <=? elapsed_ns then goto r (AtAddElapsed old now_ns elapsed_ns)
      else goto r (AtEvents old)
  | AtAddElapsed old now_ns elapsed_ns =>
      goto (set_total_elapsed (total_elapsed_ns r +64 elapsed_ns) r) (AtRollStart old now_ns)
  | AtRollStart old now_ns => goto (set_window_start now_ns r) (AtClearEvents old)
  | AtClearEvents old => goto (set_events 0 r) (AtClearMissed old)
  | AtClearMissed old => goto (set_missed 0 r) (AtEvents old)
  | AtEvents old => goto r (AtBurst old (events_in_window r))
  | AtBurst old events =>
      if events <? burst r then goto r (AtCountEvent old) else goto r (AtCountMiss old)
  | AtCountEvent old => goto (set_events (events_in_window r +64 1) r) (AtCountTotal old)
  | AtCountTotal _ => (set_total_events (total_events r +64 1) r, None, Some Passed, [])
  | AtCountMiss old => goto (set_missed (missed_in_window r +64 1) r) (AtCountTotalMissed old)
  | AtCountTotalMissed old =>
      (set_total_missed (total_missed r +64 1) r, option_map report_test old, Some Missed, [])
  | _ => goto r p
  end.

(** The record as [bpf_perf_event_output] copies it. *)
Definition fields (r : bpf_ratelimit_event) : list Z :=
  [interval_ns r; window_start_ns r; burst r; max_burst r; events_in_window r; missed_in_window r;
   total_events r; total_missed r; total_elapsed_ns r].
Definition record_of (l : list Z) : bpf_ratelimit_event :=
  match l with
  | [interval; start; burst; max; events; missed; total; misses; elapsed] =>
      RatelimitEvent interval start burst max events missed total misses elapsed
  | _ => zero_event
  end.

(** The next field is copied; the output follows the last one. *)
Definition copy_field (ret : Z) (copied : list Z) (r : bpf_ratelimit_event) : rl_effect :=
  let copied := copied ++ firstn 1 (skipn (length copied) (fields r)) in
  if (length copied <? 9)%nat then goto r (AtCopy copied)
  else (r, None, None, snd (bpf_perf_event_output ret (record_of copied) [])).

(** The limiter kept in a map: configuration, [old_missed], the limiter, the report. *)
Definition advance (cfg : bpf_ratelimit_event) (now ret : Z) (p : rl_point) (r : bpf_ratelimit_event)
    : rl_effect :=
  match p with
  | AtConfigured => if interval_ns r =? 0 then goto r AtSetInterval else goto r AtOldMissed
  | AtSetInterval => goto (set_interval (interval_ns cfg) r) AtSetBurst
  | AtSetBurst => goto (set_burst (burst cfg) r) AtSetMaxBurst
  | AtSetMaxBurst => goto (set_max_burst (max_burst cfg) r) AtOldMissed
  | AtOldMissed => goto r (AtEnabled (Some (missed_in_window r)))
  | AtMaxBurst => if 0 <? max_burst r then goto r AtMissed else (r, None, None, [])
  | AtMissed => goto r (AtMaxBurstAgain (missed_in_window r))
  | AtMaxBurstAgain missed => goto r (AtReportBurst missed (max_burst r))
  | AtReportBurst missed max =>
      if max -64 burst r <? missed then goto r (AtCopy []) else (r, None, None, [])
  | AtCopy copied => copy_field ret copied r
  | _ => advance_limiter now p r
  end.

Record rl_state := RlState {
  rl_rate : bpf_ratelimit_event;
  in_flight : gmap Z rl_point;
  outcomes : list (Z * rl_outcome);
  reports : list bpf_ratelimit_event;
}.

(** A call of the plain or of the map limiter by slot [c], and one access of the
    invocation in [c].  A busy slot takes no call and an idle one does nothing. *)
Inductive rl_label := CallPlain (c : Z) | CallMap (c : Z) | Access (c now ret : Z).

Definition enter (c : Z) (p : rl_point) (st : rl_state) : rl_state :=
  match in_flight st !! c with
  | None => RlState (rl_rate st) (<[c := p]> (in_flight st)) (outcomes st) (reports st)
  | Some _ => st
  end.

Definition rl_step (cfg : bpf_ratelimit_event) (st : rl_state) (l : rl_label) : rl_state :=
  match l with
  | CallPlain c => enter c (AtEnabled None) st
  | CallMap c => enter c AtConfigured st
  | Access c now ret =>
      match in_flight st !! c with
      | None => st
      | Some p =>
          let '(r, next, o, rep) := advance cfg now ret p (rl_rate st) in
          RlState r
            (match next with Some p' => <[c := p']> (in_flight st) | None => delete c (in_flight st) end)
            (outcomes st ++ match o with Some o => [(c, o)] | None => [] end)
            (reports st ++ rep)
      end
  end.

Definition rl_run (cfg : bpf_ratelimit_event) (ls : list rl_label) (st : rl_state) : rl_state :=
  fold_left (rl_step cfg) ls st.

Definition rl_start (r : bpf_ratelimit_event) : rl_state := RlState r ∅ [] [].

Definition slot (l : rl_label) : Z := match l with CallPlain c | CallMap c | Access c _ _ => c end.

(** ** An invocation alone

    [solo n p r]: up to [n] accesses of one invocation with no other in between. *)

Fixpoint solo (cfg : bpf_ratelimit_event) (now ret : Z) (n : nat) (p : rl_point) (r : bpf_ratelimit_event)
    : bpf_ratelimit_event * option rl_point * list rl_outcome * list bpf_ratelimit_event :=
  match n with
  | O => (r, Some p, [], [])
  | S n =>
      let '(r, next, o, rep) := advance cfg now ret p r in
      match next with
      | None => (r, None, option_list o, rep)
      | Some p' => let '(r, next, os, reps) := solo cfg now ret n p' r in (r, next, option_list o ++ os, rep ++ reps)
      end
  end.

Definition apply_solo (c : Z) (st : rl_state)
    (e : bpf_ratelimit_event * option rl_point * list rl_outcome * list bpf_ratelimit_event) : rl_state :=
  let '(r, next, os, reps) := e in
  RlState r (match next with Some p => <[c := p]> (in_flight st) | None => delete c (in_flight st) end)
    (outcomes st ++ map (pair c) os) (reports st ++ reps).

Lemma idle_run cfg c now ret n st :
  in_flight st !! c = None -> rl_run cfg (replicate n (Access c now ret)) st = st.
Proof.
  intros H. induction n as [|n IH]; [done|]. unfold rl_run in *. cbn [replicate fold_left rl_step]. by rewrite H.
Qed.

Lemma solo_run cfg c now ret n : forall p st,
  in_flight st !! c = Some p ->
  rl_run cfg (replicate n (Access c now ret)) st = apply_solo c st (solo cfg now ret n p (rl_rate st)).
Proof.
  induction n as [|n IH]; intros p st H.
  { cbn. rewrite !app_nil_r, insert_id by done. by destruct st. }
  change (rl_run cfg (replicate (S n) (Access c now ret)) st)
    with (rl_run cfg (replicate n (Access c now ret)) (rl_step cfg st (Access c now ret))).
  cbn [rl_step solo]. rewrite H.
  destruct (advance cfg now ret p (rl_rate st)) as [[[r [p'|]] o] rep].
  - rewrite (IH p') by (cbn; apply lookup_insert_eq). cbn [rl_rate].
    destruct (solo cfg now ret n p' r) as [[[r' next] os] reps]. cbn.
    rewrite <- !app_assoc, map_app. f_equal; [|by destruct o].
    destruct next; [by rewrite insert_insert_eq|by rewrite delete_insert_eq].
  - rewrite idle_run by (cbn; apply lookup_delete_eq). cbn. f_equal. by destruct o.
Qed.

(** What a refused call puts in the ring; the plain limiter reports nothing. *)
Definition report (ret : Z) (old : option Z) (r : bpf_ratelimit_event) : list bpf_ratelimit_event :=
  match old with
  | Some old_missed => if report_miss old_missed r then snd (bpf_perf_event_output ret r []) else []
  | None => []
  end.

(** [k] more accesses of an invocation. *)
Tactic Notation "accesses" integer(k) :=
  match goal with n : nat |- _ => do k (destruct n as [|n]; [lia|]) end;
  cbn [solo advance advance_limiter goto option_map option_list app].

(** The rest of the invocation decides. *)
Ltac by_rest := cbn [goto advance option_list app]; by destruct (solo _ _ _ _ _ _) as [[[? ?] ?] ?].

Section Alone.
Context (cfg : bpf_ratelimit_event) (now ret : Z).

(** The tests of the report and the copy of the record. *)
Lemma solo_report n old r :
  (13 <= n)%nat -> solo cfg now ret n (report_test old) r = (r, None, [], report ret (Some old) r).
Proof.
  intros Hn. do 13 (destruct n as [|n]; [lia|]). clear Hn. destruct r. unfold report_test, report, report_miss.
  cbn [max_burst burst missed_in_window].
  destruct (old =? 0); [done|]. cbn. destruct (0 <? max_burst0); cbn; [|done]. by destruct (_ <? _).
Qed.

Lemma solo_events n old r :
  (17 <= n)%nat ->
  solo cfg now ret n (AtEvents old) r =
    if events_in_window r <? burst r then (admit_event r, None, [Passed], [])
    else (miss_event r, None, [Missed], report ret old (miss_event r)).
Proof.
  intros Hn. accesses 2. destruct (_ <? _); accesses 2; [by destruct r|]. destruct old as [old|]; cbn [option_map].
  - rewrite solo_report by lia. by destruct r.
  - by destruct r.
Qed.

Lemma solo_elapsed n old now_ns r (elapsed_ns := now_ns -64 window_start_ns r) :
  (23 <= n)%nat ->
  exists m, (17 <= m)%nat /\ solo cfg now ret n (AtElapsed old now_ns) r =
    solo cfg now ret m (AtEvents old) (if interval_ns r <=? elapsed_ns then roll_window now_ns elapsed_ns r else r).
Proof.
  intros Hn. accesses 2. fold elapsed_ns. destruct (_ <=? _); [accesses 4|]; exists n; (split; [lia|]).
  - change (set_missed 0 _) with (roll_window now_ns elapsed_ns r). by_rest.
  - by_rest.
Qed.

Lemma solo_limiter n old r :
  (26 <= n)%nat ->
  exists o r', bpf_ratelimited now (Some r) = (verdict o, Some r') /\
    solo cfg now ret n (AtEnabled old) r = (r', None, [o], if verdict o then report ret old r' else []).
Proof.
  intros Hn. unfold bpf_ratelimited. accesses 1. destruct (interval_ns r =? 0); [by exists Disabled, r|].
  set (r1 := if window_start_ns r =? 0 then set_window_start now r else r).
  assert (He : exists m, (17 <= m)%nat /\ solo cfg now ret n (AtStart old now) r =
    solo cfg now ret m (AtEvents old) (if interval_ns r1 <=? now -64 window_start_ns r1
                                       then roll_window now (now -64 window_start_ns r1) r1 else r1)).
  { subst r1. accesses 1. destruct (_ =? 0); cbn [goto]; [accesses 1|];
      match goal with |- context [solo _ _ _ ?n (AtElapsed ?old ?now) ?r] =>
        destruct (solo_elapsed n old now r) as (m & Hm & ->); [lia|] end;
      exists m; (split; [done|]); by_rest. }
  destruct He as (m & Hm & He). cbn [goto option_list app]. rewrite He, solo_events by done.
  set (r2 := if _ <=? _ then _ else _). destruct (_ <? _); [by exists Passed, (admit_event r2)|by exists Missed, (miss_event r2)].
Qed.

Lemma solo_map n r :
  (31 <= n)%nat ->
  exists o r' reps, solo cfg now ret n AtConfigured r = (r', None, [o], reps) /\
  forall ring, bpf_ratelimited_core_in_map now ret (Some r) cfg ring = (verdict o, Some r', ring ++ reps).
Proof.
  intros Hn. set (r1 := if interval_ns r =? 0 then configure cfg r else r).
  assert (He : exists m, (26 <= m)%nat /\ solo cfg now ret n AtConfigured r =
    solo cfg now ret m (AtEnabled (Some (missed_in_window r1))) r1).
  { subst r1. accesses 2. destruct (_ =? 0); [accesses 3|]; exists n; (split; [lia|]);
      try change (set_max_burst (max_burst cfg) (set_burst (burst cfg) (set_interval (interval_ns cfg) r))) with (configure cfg r); by_rest. }
  destruct He as (m & Hm & ->). destruct (solo_limiter m (Some (missed_in_window r1)) r1 Hm) as (o & r' & Hr & ->).
  do 3 eexists. split; [done|]. intros ring. unfold bpf_ratelimited_core_in_map. fold r1. rewrite Hr.
  destruct o; cbn [verdict]; rewrite ?app_nil_r; try done. unfold report, bpf_perf_event_output.
  destruct (report_miss _ _); [|by rewrite app_nil_r]. case_if; by rewrite ?app_nil_r.
Qed.
End Alone.

Lemma rl_run_cons cfg l ls st : rl_run cfg (l :: ls) st = rl_run cfg ls (rl_step cfg st l).
Proof. done. Qed.

Lemma enter_solo cfg c now ret n p st :
  in_flight st !! c = None ->
  rl_run cfg (replicate n (Access c now ret)) (enter c p st) =
    let '(r, next, os, reps) := solo cfg now ret n p (rl_rate st) in
    RlState r (match next with Some p => <[c := p]> (in_flight st) | None => in_flight st end)
      (outcomes st ++ map (pair c) os) (reports st ++ reps).
Proof.
  intros H. unfold enter. rewrite H. rewrite (solo_run _ _ _ _ _ p) by (cbn; apply lookup_insert_eq). cbn [rl_rate].
  destruct (solo cfg now ret n p (rl_rate st)) as [[[r next] os] reps]. cbn. f_equal.
  destruct next; [by rewrite insert_insert_eq|by rewrite delete_insert_id].
Qed.

(** Refinement.  A call whose accesses are not interleaved with others is one
    call of the sequential limiter, plain or kept in a map: same verdict, same
    record, same reports, and the other invocations are left where they were. *)
Theorem lone_call_is_sequential cfg c now ret st :
  in_flight st !! c = None ->
  (exists o r, rl_run cfg (CallPlain c :: replicate 31 (Access c now ret)) st =
      RlState r (in_flight st) (outcomes st ++ [(c, o)]) (reports st) /\
    bpf_ratelimited now (Some (rl_rate st)) = (verdict o, Some r)) /\
  (exists o r ring, rl_run cfg (CallMap c :: replicate 31 (Access c now ret)) st =
      RlState r (in_flight st) (outcomes st ++ [(c, o)]) ring /\
    bpf_ratelimited_core_in_map now ret (Some (rl_rate st)) cfg (reports st) = (verdict o, Some r, ring)).
Proof.
  intros H. rewrite !rl_run_cons. cbn [rl_step]. remember 31%nat as n eqn:Hn.
  rewrite !enter_solo by done. split.
  - destruct (solo_limiter cfg now ret n None (rl_rate st)) as (o & r & -> & ->); [lia|].
    exists o, r. destruct o; by rewrite app_nil_r.
  - destruct (solo_map cfg now ret n (rl_rate st)) as (o & r & reps & -> & ->); [lia|]. by exists o, r, (reports st ++ reps).
Qed.

(** ** Totals *)

Definition outcome_count (o : rl_outcome) (os : list (Z * rl_outcome)) : Z :=
  zsum (fun e => c_of_bool (bool_decide (e.2 = o))) os.

Lemma outcome_count_app o os os' : outcome_count o (os ++ os') = outcome_count o os + outcome_count o os'.
Proof. apply zsum_app. Qed.

(** The cases of one access at [p]: the tests it makes. *)
Ltac advance_cases p E :=
  destruct p; cbn in E; unfold copy_field, goto in E;
  repeat match type of E with context [if ?b then _ else _] => let T := fresh "T" in destruct b eqn:T end;
  simplify_eq.

Record totals_ok (r0 : bpf_ratelimit_event) (st : rl_state) : Prop := {
  to_events : total_events (rl_rate st) = u64 (total_events r0 + outcome_count Passed (outcomes st));
  to_missed : total_missed (rl_rate st) = u64 (total_missed r0 + outcome_count Missed (outcomes st));
}.

Lemma step_totals cfg r0 l st : totals_ok r0 st -> totals_ok r0 (rl_step cfg st l).
Proof.
  intros H. destruct l as [c|c|c now ret]; cbn [rl_step]; unfold enter; case_match; try done; [by destruct H..|].
  destruct H as [He Hm]. destruct (advance cfg now ret _ (rl_rate st)) as [[[r1 next] o] rep] eqn:E.
  split; cbn [rl_rate outcomes]; rewrite outcome_count_app.
  all: match goal with H : in_flight _ !! _ = Some ?p |- _ => advance_cases p E end; cbn;
    rewrite ?He, ?Hm; autorewrite with bpf_rw; repeat case_bool_decide; try done; cbn; f_equal; lia.
Qed.

(** C24: exact totals under races.  Whatever the interleaving of the accesses and
    the readings of the clocks, the total counters of the shared record have grown
    by exactly the number of calls admitted within the window and of calls refused
    (modulo 2^64): no such verdict is lost or counted twice.  A call that finds the
    limiter disabled is admitted without being counted. *)
Theorem concurrent_totals_exact cfg r ls :
  is_u64 (total_events r) -> is_u64 (total_missed r) ->
  let st := rl_run cfg ls (rl_start r) in
  total_events (rl_rate st) = u64 (total_events r + outcome_count Passed (outcomes st)) /\
  total_missed (rl_rate st) = u64 (total_missed r + outcome_count Missed (outcomes st)).
Proof.
  intros He Hm st. enough (H : totals_ok r st) by (by destruct H). subst st.
  assert (H0 : totals_ok r (rl_start r)) by (split; cbn; by rewrite Z.add_0_r, u64_small).
  revert H0. generalize (rl_start r). induction ls as [|l ls IH]; intros st H; [done|].
  rewrite rl_run_cons. by apply IH, step_totals.
Qed.

(** ** Admissions *)

(** Window resets of a run: executed writes [events_in_window = 0]. *)
Definition is_reset (st : rl_state) (l : rl_label) : Z :=
  match l with
  | Access c _ _ => match in_flight st !! c with Some (AtClearEvents _) => 1 | _ => 0 end
  | _ => 0
  end.
Fixpoint resets (cfg : bpf_ratelimit_event) (ls : list rl_label) (st : rl_state) : Z :=
  match ls with
  | [] => 0
  | l :: ls => is_reset st l + resets cfg ls (rl_step cfg st l)
  end.

Definition in_config (p : rl_point) : bool :=
  match p with AtSetInterval | AtSetBurst | AtSetMaxBurst => true | _ => false end.
(** An invocation that will count an event: it has passed the test, or has read a number
    of events below the burst [b]. *)
Definition before_event (b : Z) (p : option rl_point) : Z :=
  match p with
  | Some (AtCountEvent _) => 1
  | Some (AtBurst _ events) => c_of_bool (events <? b)
  | _ => 0
  end.
Definition before_total (p : option rl_point) : Z := match p with Some (AtCountTotal _) => 1 | _ => 0 end.

Section Admissions.
Context (slots : list Z) (Hnd : NoDup slots) (b : Z) (Hb : 1 <= b) (Hbig : b + Z.of_nat (length slots) < 2 ^ 64).

Definition tally (w : option rl_point -> Z) (m : gmap Z rl_point) : Z := zsum (fun c => w (m !! c)) slots.

Lemma tally_set w m m' c :
  c ∈ slots -> (forall c', c' <> c -> m' !! c' = m !! c') -> tally w m' = tally w m + (w (m' !! c) - w (m !! c)).
Proof.
  intros Hc H. apply (zsum_bump _ _ _ slots c); [done..|]. intros c' _. case_decide; [subst; lia|].
  rewrite H by done. lia.
Qed.

Let limit : Z := b + Z.of_nat (length slots) - 1.

Record admission_ok (R : Z) (st : rl_state) : Prop := {
  ad_enabled : interval_ns (rl_rate st) <> 0;
  ad_burst : burst (rl_rate st) = b;
  ad_slots : forall c p, in_flight st !! c = Some p -> c ∈ slots /\ in_config p = false;
  ad_events : 0 <= events_in_window (rl_rate st);
  ad_pending : events_in_window (rl_rate st) + tally (before_event b) (in_flight st) <= limit;
  ad_admitted : outcome_count Passed (outcomes st) + tally before_total (in_flight st) <=
                R * limit + events_in_window (rl_rate st);
}.

Lemma before_event_bounds m : 0 <= tally (before_event b) m <= Z.of_nat (length slots).
Proof using slots.
  clear limit Hb Hbig Hnd.
  split; [apply zsum_nonneg|rewrite <- (Z.mul_1_l (Z.of_nat _)); apply zsum_le];
    intros c _; unfold before_event, c_of_bool; repeat case_match; lia.
Qed.

Lemma enter_admission R c p st :
  c ∈ slots -> in_config p = false -> before_event b (Some p) = 0 -> before_total (Some p) = 0 ->
  admission_ok R st -> admission_ok R (enter c p st).
Proof.
  intros Hc Hp He Ht H. unfold enter. destruct (in_flight st !! c) as [q|] eqn:E; [done|].
  destruct H as [H1 H2 H3 H4 H5 H6].
  assert (Hw : forall w, w None = 0 -> w (Some p) = 0 -> tally w (<[c := p]> (in_flight st)) = tally w (in_flight st)).
  { intros w Hn Hs. rewrite (tally_set w (in_flight st) _ c Hc).
    - rewrite lookup_insert_eq, E, Hn, Hs. lia.
    - intros. by rewrite lookup_insert_ne. }
  split; cbn; rewrite ?Hw by done; try done.
  intros c' q Hq. apply lookup_insert_Some in Hq as [[<- <-]|[_ Hq]]; [done|eauto].
Qed.

Lemma access_admission cfg R c now ret st :
  admission_ok R st ->
  admission_ok (R + is_reset st (Access c now ret)) (rl_step cfg st (Access c now ret)).
Proof.
  intros H. cbn [is_reset rl_step]. destruct (in_flight st !! c) as [p|] eqn:Hp; [|by rewrite Z.add_0_r].
  destruct H as [H1 H2 H3 H4 H5 H6]. destruct (H3 c p Hp) as [Hc Hcfg].
  pose proof (before_event_bounds (in_flight st)) as Hpend.
  destruct (advance cfg now ret p (rl_rate st)) as [[[r next] o] rep] eqn:E.
  remember (match next with Some p' => <[c := p']> (in_flight st) | None => delete c (in_flight st) end) as m' eqn:Em.
  assert (Hm : m' !! c = next) by (rewrite Em; destruct next; [apply lookup_insert_eq|apply lookup_delete_eq]).
  assert (Hm' : forall c', c' <> c -> m' !! c' = in_flight st !! c').
  { intros c' Hne. rewrite Em. destruct next; [by rewrite lookup_insert_ne|by rewrite lookup_delete_ne]. }
  assert (Hw : forall w, tally w m' = tally w (in_flight st) + (w next - w (Some p))).
  { intros w. rewrite (tally_set w (in_flight st) m' c Hc Hm'). by rewrite Hm, Hp. }
  assert (Hs : in_config (default AtOldMissed next) = false ->
    forall c' q, m' !! c' = Some q -> c' ∈ slots /\ in_config q = false).
  { intros Hn c' q Hq. destruct (decide (c' = c)) as [->|Hne]; [|rewrite Hm' in Hq by done; eauto].
    rewrite Hm in Hq. rewrite Hq in Hn. by split. }
  pose proof (before_event_bounds m') as Hpend'. rewrite Hw in Hpend'. clear Em Hm Hm'. split; cbn [rl_rate in_flight outcomes]; rewrite ?outcome_count_app, ?Hw; unfold limit in *.
  all: advance_cases p E; try done; try match goal with old : option Z |- _ => destruct old end;
    unfold report_test in *; cbn in *; unfold c_of_bool in *; try (by apply Hs);
    repeat match goal with
      | H : context [if ?b then _ else _] |- _ => destruct b eqn:?
      | |- context [if ?b then _ else _] => destruct b eqn:?
      end; zify_bools;
    rewrite ?u64_small by (unfold is_u64; lia); repeat case_bool_decide; try done; cbn in *; try (by apply Hs); try lia.
Qed.

Lemma step_admission cfg R l st :
  slot l ∈ slots -> admission_ok R st -> admission_ok (R + is_reset st l) (rl_step cfg st l).
Proof.
  intros Hl H. destruct l as [c|c|c now ret]; [| |by apply access_admission];
    cbn [rl_step is_reset]; rewrite Z.add_0_r; by apply enter_admission.
Qed.

Lemma run_admission cfg ls : forall R st,
  Forall (fun l => slot l ∈ slots) ls -> admission_ok R st ->
  admission_ok (R + resets cfg ls st) (rl_run cfg ls st).
Proof.
  induction ls as [|l ls IH]; intros R st Hl H; [by rewrite Z.add_0_r|]. apply Forall_cons_iff in Hl as [Hl Hls].
  rewrite rl_run_cons. cbn [resets]. rewrite Z.add_assoc. apply IH; [done|]. by apply step_admission.
Qed.
End Admissions.

(** C10: bounded overshoot.  However the accesses of the invocations in [slots]
    interleave, a window that starts empty admits at most [burst] calls plus one
    for every other invocation in flight, and the window is refilled only by an
    executed reset: the admissions of a run are at most that many for each reset
    and once more. *)
Theorem concurrent_admissions_bound cfg r slots ls :
  NoDup slots -> Forall (fun l => slot l ∈ slots) ls ->
  interval_ns r <> 0 -> 1 <= burst r -> burst r + Z.of_nat (length slots) < 2 ^ 64 -> events_in_window r = 0 ->
  outcome_count Passed (outcomes (rl_run cfg ls (rl_start r))) <=
    (resets cfg ls (rl_start r) + 1) * (burst r + Z.of_nat (length slots) - 1).
Proof.
  intros Hnd Hls Hi Hb Hbig He.
  assert (H0 : forall w, w None = 0 -> tally slots w ∅ = 0).
  { intros w Hw. unfold tally. clear -Hw. induction slots as [|c l IH]; [done|].
    by rewrite zsum_cons, IH, lookup_empty, Hw. }
  assert (Hs : admission_ok slots (burst r) 0 (rl_start r)).
  { split; cbn; rewrite ?H0, ?He by done; cbn; try done; lia. }
  destruct (run_admission slots Hnd (burst r) Hb Hbig cfg ls 0 (rl_start r) Hls Hs) as [_ _ _ E P A].
  pose proof (zsum_nonneg (fun c => before_total (in_flight (rl_run cfg ls (rl_start r)) !! c)) slots) as Ht.
  pose proof (before_event_bounds slots (burst r) (in_flight (rl_run cfg ls (rl_start r)))) as Hp.
  unfold tally in *. rewrite Z.add_0_l in A. rewrite Z.mul_add_distr_r, Z.mul_1_l.
  assert (0 <= zsum (fun c => before_total (in_flight (rl_run cfg ls (rl_start r)) !! c)) slots); [|lia].
  apply Ht. intros c _. unfold before_total. repeat case_match; lia.
Qed.

(** ** Concrete schedules *)

(** Invocation 0 reads the clock at 2000 and is delayed; invocation 1 makes four
    calls from 2001 on; then invocation 0 goes on, and two more calls follow. *)
Definition race_rate : bpf_ratelimit_event := RatelimitEvent 1000 100 3 0 0 0 0 0 0.
Definition call_at (c now : Z) : list rl_label := CallPlain c :: replicate 13 (Access c now 0).
Definition race_schedule : list rl_label :=
  [CallPlain 0; Access 0 2000 0] ++ call_at 1 2001 ++ call_at 1 2002 ++ call_at 1 2003 ++ call_at 1 2004 ++
  replicate 13 (Access 0 2000 0) ++ call_at 1 2005 ++ call_at 1 2006.

(** The elapsed time of invocation 0 is [2000 - 2001], which wraps to more than any
    interval: it resets the window that invocation 1 has just started, and six
    calls are admitted in six nanoseconds where the policy admits three. *)
Lemma stale_clock_resets_window :
  let st := rl_run race_rate race_schedule (rl_start race_rate) in
  outcomes st = [(1, Passed); (1, Passed); (1, Passed); (1, Missed); (0, Passed); (1, Passed); (1, Passed)] /\
  window_start_ns (rl_rate st) = 2000 /\ total_elapsed_ns (rl_rate st) = 1900 /\
  fst (ratelimit_run [2000; 2001; 2002; 2003; 2004; 2005; 2006] race_rate) =
    [false; false; false; true; true; true; true].
Proof. by vm_compute. Qed.

(** The first use of a limiter in a map writes its three parameters one by one: a
    second CPU that finds the interval but not yet the burst refuses its event. *)
Lemma half_configured_limiter_refuses :
  let cfg := BPF_RATELIMIT 1000 3 in
  outcomes (rl_run cfg ([CallMap 0; Access 0 10 0; Access 0 10 0; CallMap 1] ++ replicate 31 (Access 1 11 0))
    (rl_start zero_event)) = [(1, Missed)].
Proof. by vm_compute. Qed.

Lemma race_slots : Forall (fun l => slot l ∈ [0; 1]) race_schedule.
Proof. apply (bool_decide_unpack _). by vm_compute. Qed.

Lemma lone_call_is_sequential_witness :
  let st := rl_run race_rate (call_at 1 2001) (rl_start race_rate) in
  exists o r, rl_run race_rate (CallPlain 0 :: replicate 31 (Access 0 2002 0)) st =
      RlState r (in_flight st) (outcomes st ++ [(0, o)]) (reports st) /\
    bpf_ratelimited 2002 (Some (rl_rate st)) = (verdict o, Some r).
Proof. apply (lone_call_is_sequential race_rate 0 2002 0). by vm_compute. Defined.

Lemma concurrent_totals_exact_witness :
  total_events (rl_rate (rl_run race_rate race_schedule (rl_start race_rate))) = 6.
Proof.
  refine (eq_trans (proj1 (concurrent_totals_exact race_rate race_rate race_schedule _ _)) _); by vm_compute.
Defined.

Lemma concurrent_admissions_bound_witness :
  outcome_count Passed (outcomes (rl_run race_rate race_schedule (rl_start race_rate))) <= (2 + 1) * (3 + 2 - 1).
Proof.
  apply (concurrent_admissions_bound race_rate race_rate [0; 1] race_schedule);
    [apply (bool_decide_unpack _); by vm_compute|apply race_slots|done..].
Defined.

End RatelimitRace.
