(* ===== verification/IoControl.v ===== *)
(** * Shared IO-control ABI ([bpf/include/bpf_iocontrol.h],
    [bpf/include/abi/io_control_types.h], [bpf/include/bpf_blkio.h])

    The blk-throttle and iocost tracers publish one 64-bit word per CPU and key
    that packs an IO count (26 bits) over a wait time in units of 10us (38
    bits), a status record with a sticky failure, and a sticky notification of
    device changes.  Module [IoControl] models the word, the status and the three
    device hooks, and proves what a reader of the word can rely on. *)

From Stdlib Require Import ZArith Lia.
From stdpp Require Import base option list gmap tactics countable.
From S2P Require Import Prelude BpfMap.

Local Open Scope Z_scope.
Local Open Scope bpf_scope.

Module IoControl.

(** ** The packed wait word *)

Definition IO_CONTROL_WAIT_COUNT_BITS : Z := 26.
Definition IO_CONTROL_WAIT_10US_BITS : Z := 38.
Definition IO_CONTROL_WAIT_UNIT_NS : Z := 10000.
Definition IO_CONTROL_WAIT_COUNT_MASK : Z := (1 <<64 IO_CONTROL_WAIT_COUNT_BITS) -64 1.
Definition IO_CONTROL_WAIT_10US_MASK : Z := (1 <<64 IO_CONTROL_WAIT_10US_BITS) -64 1.

Definition io_control_wait_add (packed wait_ns : Z) : Z :=
  let count := Z.land (Z.shiftr packed IO_CONTROL_WAIT_10US_BITS +64 1)
                      IO_CONTROL_WAIT_COUNT_MASK in
  let wait := Z.land (Z.land packed IO_CONTROL_WAIT_10US_MASK
                        +64 wait_ns / IO_CONTROL_WAIT_UNIT_NS)
                     IO_CONTROL_WAIT_10US_MASK in
  Z.lor (count <<64 IO_CONTROL_WAIT_10US_BITS) wait.

(** ** Map keys and values *)

Record io_control_wait_key := WaitKey {
  wk_css : Z;
  wk_css_serial : Z;
  wk_major : Z;
  wk_minor : Z;
  wk_operation : Z;
  wk_reserved : Z;
}.

Record io_control_status := Status {
  failure : Z;
  devices_changed : Z;
}.

Record io_control_retired_key := RetiredKey {
  rk_css : Z;
  rk_css_serial : Z;
  rk_major : Z;
  rk_minor : Z;
}.

#[export] Instance wait_key_eq_dec : EqDecision io_control_wait_key.
Proof. solve_decision. Defined.
#[export] Instance wait_key_countable : Countable io_control_wait_key.
Proof.
  refine (inj_countable'
    (fun k => (wk_css k, wk_css_serial k, wk_major k, wk_minor k, wk_operation k, wk_reserved k))
    (fun '(c, s, ma, mi, o, r) => WaitKey c s ma mi o r) _).
  by intros [].
Defined.
#[export] Instance retired_key_eq_dec : EqDecision io_control_retired_key.
Proof. solve_decision. Defined.
#[export] Instance retired_key_countable : Countable io_control_retired_key.
Proof.
  refine (inj_countable'
    (fun k => (rk_css k, rk_css_serial k, rk_major k, rk_minor k))
    (fun '(c, s, ma, mi) => RetiredKey c s ma mi) _).
  by intros [].
Defined.

(** ** Status *)

(** [io_control_status_map] has one entry; a lookup either finds it or is NULL. *)
Definition status_unhealthy (status : option io_control_status) : bool :=
  match status with None => true | Some s => negb (failure s =? 0) end.

(** The word [((u64)reason << 32) | (u32)error]. *)
Definition failure_word (reason error : Z) : Z := Z.lor (reason <<64 32) (u32 error).

Definition status_fail (reason error : Z) (status : option io_control_status)
    : option io_control_status :=
  match status with
  | None => None
  | Some s => Some (Status (failure_word reason error) (devices_changed s))
  end.

(** ** Device notifications *)

(** What the hooks read: the first five bytes of [disk->disk_name], or a failed
    read. *)
Definition ignored_disk_name (name : list Z) : bool :=
  let c i := nth i name 0 in
  ((c 0%nat =? 108) && (c 1%nat =? 111) && (c 2%nat =? 111) && (c 3%nat =? 112)) ||
  ((c 0%nat =? 114) && (c 1%nat =? 97) && (c 2%nat =? 109)) ||
  ((c 0%nat =? 122) && (c 1%nat =? 114) && (c 2%nat =? 97) && (c 3%nat =? 109)).

Definition io_control_note_device_change (disk_name : Z -> option (list Z)) (disk : Z)
    (removed : bool) (status : option io_control_status) : option io_control_status :=
  if negb removed && ctrue disk &&
     match disk_name disk with Some name => ignored_disk_name name | None => false end
  then status
  else match status with
       | None => None
       | Some s => Some (Status (failure s) 1)
       end.

Definition io_control_device_removed disk_name disk status :=
  io_control_note_device_change disk_name disk true status.
Definition io_control_device_changed disk_name disk status :=
  io_control_note_device_change disk_name disk false status.
Definition io_control_disk_added disk_name disk status :=
  io_control_note_device_change disk_name disk false status.

(** The three hooks as events. *)
Inductive device_event :=
| DelGendisk (disk : Z)
| BlkRegisterQueue (disk : Z)
| DeviceAddDiskNoQueueReg (disk : Z).

Definition device_hook (disk_name : Z -> option (list Z)) (e : device_event)
    : option io_control_status -> option io_control_status :=
  match e with
  | DelGendisk d => io_control_device_removed disk_name d
  | BlkRegisterQueue d => io_control_device_changed disk_name d
  | DeviceAddDiskNoQueueReg d => io_control_disk_added disk_name d
  end.

(** ** [bio_disk] *)

(** The block-layer fields both tracers read; [bio_bi_disk] exists only before
    5.12.  A failed read leaves the zeroed destination. *)
Record blkio_kernel := BlkioKernel {
  bi_disk_exists : bool;
  bio_bi_disk : Z -> Z;
  bio_bi_bdev : Z -> Z;
  bdev_bd_disk : Z -> Z;
}.

Definition bio_disk (kr : blkio_kernel) (bio : Z) : Z :=
  if bi_disk_exists kr then bio_bi_disk kr bio
  else
    let bdev := bio_bi_bdev kr bio in
    if ctrue bdev then bdev_bd_disk kr bdev else 0.

(** ** Lemmas on the word *)

(** How user space decodes the word. *)
Definition wait_count (packed : Z) : Z := Z.shiftr packed IO_CONTROL_WAIT_10US_BITS.
Definition wait_units (packed : Z) : Z := Z.land packed IO_CONTROL_WAIT_10US_MASK.

Lemma wait_add_fields p w :
  is_u64 p -> is_u64 w ->
  let p' := io_control_wait_add p w in
  is_u64 p' /\
  wait_count p' = (wait_count p + 1) mod 2 ^ 26 /\
  wait_units p' = (wait_units p + w / 10000) mod 2 ^ 38.
Proof.
  intros Hp Hw. unfold io_control_wait_add, wait_count, wait_units, IO_CONTROL_WAIT_UNIT_NS.
  change IO_CONTROL_WAIT_COUNT_MASK with (2 ^ 26 - 1).
  change IO_CONTROL_WAIT_10US_MASK with (2 ^ 38 - 1).
  unfold IO_CONTROL_WAIT_10US_BITS. rewrite !land_mask by lia.
  pose proof (Z.mod_pos_bound p (2 ^ 38) ltac:(lia)) as Hl.
  assert (Hc : 0 <= Z.shiftr p 38 < 2 ^ 26).
  { unfold is_u64 in Hp. rewrite Z.shiftr_div_pow2 by lia.
    split; [apply Z.div_pos; lia|apply Z.div_lt_upper_bound; lia]. }
  assert (Hd : 0 <= w / 10000 < 2 ^ 51).
  { unfold is_u64 in Hw. split; [apply Z.div_pos; lia|apply Z.div_lt_upper_bound; lia]. }
  rewrite (u64_small (Z.shiftr p 38 + 1)), (u64_small (p mod _ + _)) by (unfold is_u64; lia).
  set (c := (Z.shiftr p 38 + 1) mod _). set (u := (p mod _ + _) mod _).
  assert (0 <= c < 2 ^ 26) by (apply Z.mod_pos_bound; lia).
  assert (0 <= u < 2 ^ 38) by (apply Z.mod_pos_bound; lia).
  rewrite u64_small by (unfold is_u64; rewrite Z.shiftl_mul_pow2; lia).
  split; [|split].
  - unfold is_u64. rewrite lor_shiftl_add by lia. lia.
  - by apply pack_high.
  - rewrite <- land_mask by lia. by apply pack_low.
Qed.

Definition wait_add_all (p : Z) (waits : list Z) : Z := fold_left io_control_wait_add waits p.
Definition sum_units (waits : list Z) : Z := foldr (fun w n => w / 10000 + n) 0 waits.
Definition sum_wait (waits : list Z) : Z := foldr Z.add 0 waits.

Lemma wait_add_all_fields waits p :
  is_u64 p -> Forall is_u64 waits ->
  is_u64 (wait_add_all p waits) /\
  wait_count (wait_add_all p waits) mod 2 ^ 26 =
    (wait_count p + Z.of_nat (length waits)) mod 2 ^ 26 /\
  wait_units (wait_add_all p waits) mod 2 ^ 38 = (wait_units p + sum_units waits) mod 2 ^ 38.
Proof.
  revert p. induction waits as [|w ws IH]; intros p Hp Hws.
  { simpl. by rewrite !Z.add_0_r. }
  apply Forall_cons_1 in Hws as [Hw Hws].
  destruct (wait_add_fields p w Hp Hw) as (Hp' & Hc & Hu).
  destruct (IH (io_control_wait_add p w) Hp' Hws) as (H1 & H2 & H3).
  split; [done|]. cbn [wait_add_all fold_left length sum_units foldr] in *.
  unfold wait_add_all, sum_units in *.
  rewrite H2, H3, Hc, Hu, !Zplus_mod_idemp_l. split; f_equal; lia.
Qed.

Lemma wait_fields_range p :
  is_u64 p -> 0 <= wait_count p < 2 ^ 26 /\ 0 <= wait_units p < 2 ^ 38.
Proof.
  intros Hp. unfold wait_count, wait_units, IO_CONTROL_WAIT_10US_BITS.
  change IO_CONTROL_WAIT_10US_MASK with (2 ^ 38 - 1). rewrite land_mask by lia.
  unfold is_u64 in Hp. rewrite Z.shiftr_div_pow2 by lia. split; [|apply Z.mod_pos_bound; lia].
  split; [apply Z.div_pos; lia|apply Z.div_lt_upper_bound; lia].
Qed.

(** Each episode loses less than one unit. *)
Lemma sum_units_precision waits :
  0 <= sum_wait waits - 10000 * sum_units waits <= 9999 * Z.of_nat (length waits).
Proof.
  induction waits as [|w ws IH]; [done|].
  cbn [sum_wait sum_units foldr length]. fold (sum_wait ws) (sum_units ws).
  pose proof (Z.mod_pos_bound w 10000 ltac:(lia)). pose proof (Z.div_mod w 10000 ltac:(lia)). lia.
Qed.

Lemma failure_word_nonzero reason error :
  0 < reason < 2 ^ 32 -> failure_word reason error <> 0.
Proof.
  intros Hr. unfold failure_word. rewrite u64_small; [|unfold is_u64; rewrite Z.shiftl_mul_pow2; lia].
  pose proof (u32_range error) as He. unfold is_u32 in He. rewrite lor_shiftl_add by lia. lia.
Qed.

Lemma failure_word_fields reason error :
  is_u32 reason ->
  Z.shiftr (failure_word reason error) 32 = reason /\
  s32 (failure_word reason error) = s32 error.
Proof.
  intros Hr. unfold is_u32 in Hr. unfold failure_word.
  pose proof (u32_range error) as He. unfold is_u32 in He.
  rewrite u64_small; [|unfold is_u64; rewrite Z.shiftl_mul_pow2; lia].
  split; [by apply pack_high|]. unfold s32.
  rewrite lor_shiftl_add by lia.
  replace (u32 (reason * 2 ^ 32 + u32 error)) with (u32 error); [done|].
  unfold u32 at 2. rewrite Z.add_comm, Z_mod_plus_full. fold (u32 (u32 error)). by rewrite u32_idemp.
Qed.

Lemma status_fail_unhealthy reason error s :
  0 < reason < 2 ^ 32 -> status_unhealthy (status_fail reason error s) = true.
Proof.
  intros. unfold status_fail, status_unhealthy. destruct s; simpl; [|done].
  by rewrite (proj2 (Z.eqb_neq _ _)) by by apply failure_word_nonzero.
Qed.

Lemma device_hook_unhealthy names e s :
  status_unhealthy (device_hook names e s) = status_unhealthy s.
Proof.
  destruct e, s as [s|]; cbn;
    unfold io_control_device_removed, io_control_device_changed, io_control_disk_added,
      io_control_note_device_change; by repeat case_match.
Qed.

(** A status that shows an error code a helper returned. *)
Definition status_helper_error (s : option io_control_status) : Prop :=
  exists st reason err, s = Some st /\ failure st = failure_word reason err /\ - 4095 <= err < 0.

(** The status has its one entry, and either is healthy or shows a helper error. *)
Definition status_ok_or_helper (s : option io_control_status) : Prop :=
  is_Some s /\ (status_unhealthy s = true -> status_helper_error s).

Lemma status_fail_helper reason err s :
  is_Some s -> - 4095 <= err < 0 -> status_ok_or_helper (status_fail reason err s).
Proof.
  intros [st ->] He. split; [by eauto|]. intros _. do 3 eexists. split; [done|]. simpl. eauto.
Qed.

Lemma status_healthy_ok s : status_unhealthy s = false -> status_ok_or_helper s.
Proof. destruct s; [split; [eauto|congruence]|done]. Qed.

(** ** Rows of packed words *)

(** Waits settled for one key on one CPU, in order, out of a log of settlements. *)
Definition log_waits (key : io_control_wait_key) (cpu : Z)
    (log : list (io_control_wait_key * Z * Z)) : list Z :=
  snd <$> filter (fun x => fst x = (key, cpu)) log.

Lemma log_waits_snoc key cpu log k c w :
  log_waits key cpu (log ++ [(k, c, w)]) =
    log_waits key cpu log ++ (if decide ((k, c) = (key, cpu)) then [w] else []).
Proof.
  unfold log_waits. rewrite list.filter_app, fmap_app. f_equal.
  rewrite filter_cons. simpl. by case_decide.
Qed.

Section Rows.
Context {M : BpfMapOps} {L : BpfMapLaws M}.
Implicit Types m : hmap io_control_wait_key (percpu Z).

(** The word a reader finds for a key on a CPU; no row reads as zero. *)
Definition row_word m (key : io_control_wait_key) (cpu : Z) : Z :=
  match bpf_map_lookup_elem m key with
  | Some slots => percpu_get 0 slots cpu
  | None => 0
  end.

(** Creating a row changes no word. *)
Lemma row_word_create m key cpu k c :
  row_word (snd (bpf_map_update_elem m key (percpu_set ∅ cpu 0) BPF_NOEXIST)) k c =
  row_word m k c.
Proof.
  unfold row_word.
  destruct (Z.eq_dec (fst (bpf_map_update_elem m key (percpu_set ∅ cpu 0) BPF_NOEXIST)) 0) as [E|E].
  - destruct (bm_noexist_ok _ _ _ E) as [Hn Hk]. rewrite Hk. case_decide; subst; [|done].
    by rewrite Hn, percpu_get_init.
  - by rewrite update_err.
Qed.

(** Publishing a word through the value pointer of its row. *)
Lemma row_word_store m key cpu slots v k c :
  bpf_map_lookup_elem m key = Some slots ->
  row_word (map_store m key (percpu_set slots cpu v)) k c =
    if decide ((key, cpu) = (k, c)) then v else row_word m k c.
Proof.
  intros Hk. unfold row_word. rewrite store_lookup by by rewrite Hk.
  destruct (decide (key = k)) as [<-|]; [|by rewrite decide_False by congruence].
  rewrite Hk, percpu_get_set. repeat case_decide; simplify_eq; done.
Qed.
End Rows.

(** ** Theorems *)

(** Any sequence of waits added to a zero word is readable: the count field
    holds the number of waits modulo 2^26 and the wait field the sum of the
    waits in whole 10us units modulo 2^38; the two fields never leak into each
    other, and as long as neither field has wrapped, the decoded time is below
    the true total by less than 10us per wait. *)
Theorem wait_word_sequence waits :
  Forall is_u64 waits ->
  let p := wait_add_all 0 waits in
  wait_count p = Z.of_nat (length waits) mod 2 ^ 26 /\
  wait_units p = sum_units waits mod 2 ^ 38 /\
  (sum_units waits < 2 ^ 38 ->
   0 <= sum_wait waits - IO_CONTROL_WAIT_UNIT_NS * wait_units p
     <= 9999 * Z.of_nat (length waits)).
Proof.
  intros Hws p.
  destruct (wait_add_all_fields waits 0) as (Hp & Hc & Hu); [unfold is_u64; lia|done|].
  destruct (wait_fields_range _ Hp) as (Rc & Ru).
  rewrite Z.mod_small in Hc, Hu by done. fold p in Hc, Hu. simpl in Hc, Hu.
  split_and!; [done..|]. intros Hs. unfold IO_CONTROL_WAIT_UNIT_NS.
  pose proof (sum_units_precision waits). rewrite Hu, Z.mod_small; [done|].
  split; [|done]. clear -Hws. induction Hws; [done|]. simpl. unfold is_u64 in *.
  pose proof (Z.div_pos x 10000). fold (sum_units l). lia.
Qed.

Lemma wait_word_sequence_witness :
  wait_count (wait_add_all 0 [25000; 9999; 120000]) = 3 /\
  wait_units (wait_add_all 0 [25000; 9999; 120000]) = 14.
Proof.
  destruct (wait_word_sequence [25000; 9999; 120000]) as (H1 & H2 & _).
  { repeat constructor; unfold is_u64; lia. }
  rewrite H1, H2. done.
Defined.

(** An event that concerns a real disk, or destroys any disk. *)
Definition device_relevant (disk_name : Z -> option (list Z)) (e : device_event) : bool :=
  match e with
  | DelGendisk _ => true
  | BlkRegisterQueue d | DeviceAddDiskNoQueueReg d =>
      negb (ctrue d && match disk_name d with Some n => ignored_disk_name n | None => false end)
  end.

(** The device notification is sticky and precise: after any sequence of
    hook invocations it is 1 exactly if it already was set or some invocation
    destroyed a disk or registered a disk that is not loop, ram or zram; the
    failure word is never touched. *)
Theorem device_notification_sticky disk_name events s :
  devices_changed s = 0 \/ devices_changed s = 1 ->
  fold_left (fun st e => device_hook disk_name e st) events (Some s) =
    Some (Status (failure s)
            (if existsb (device_relevant disk_name) events then 1 else devices_changed s)).
Proof.
  revert s. induction events as [|e es IH]; intros s Hs; [by destruct s|]. simpl.
  assert (He : device_hook disk_name e (Some s) =
          Some (if device_relevant disk_name e then Status (failure s) 1 else s)).
  { destruct e; simpl; unfold io_control_device_removed, io_control_device_changed,
      io_control_disk_added, io_control_note_device_change; simpl; [done|..];
      by destruct (ctrue disk && _). }
  rewrite He. destruct (device_relevant disk_name e); simpl; rewrite IH; simpl; auto.
  by case_if.
Qed.

Lemma device_notification_sticky_witness :
  fold_left (fun st e => device_hook (fun d => Some [108; 111; 111; 112; 48]) e st)
    [BlkRegisterQueue 8; DeviceAddDiskNoQueueReg 0; BlkRegisterQueue 9] (Some (Status 7 0))
  = Some (Status 7 1).
Proof. rewrite device_notification_sticky; [reflexivity | by left]. Defined.

End IoControl.
