(* ===== verification/BlkThrotl.v ===== *)
(** * blk-throttle wait tracer ([bpf/blk_throtl_tracing.c])

    Module [BlkThrotl] models the four probes of the tracer as functions on the
    contents of its maps.  A bio's wait starts when [throtl_add_bio_tg] queues
    it ([blk_throtl_pending_map]) and ends when the final [throtl_pop_queued]
    returns it; the pair of entry and return probes is matched by task
    ([blk_throtl_pop_call_map]).  The wait is added to the packed word of the
    bio's group and device.  Any inconsistency sets a sticky failure.

    The module ends with an abstract ledger of the tracer ([spec_step]) and the
    refinement theorem: while the status stays healthy, the maps are the
    ledger. *)

From Stdlib Require Import ZArith Lia.
From stdpp Require Import base option list gmap tactics.
From S2P Require Import Prelude BpfMap IoControl.

Local Open Scope Z_scope.
Local Open Scope bpf_scope.

Module BlkThrotl.
Import IoControl.

(** ** Constants and data *)

Definition BLK_THROTL_ENOENT : Z := 2.
Definition BLK_THROTL_EEXIST : Z := 17.
Definition REQ_OP_MASK : Z := (1 <<32 8) -32 1.
Definition REQ_OP_READ : Z := 0.
Definition REQ_OP_WRITE : Z := 1.

Definition BLK_THROTL_FAILURE_PENDING_COLLISION : Z := 1.
Definition BLK_THROTL_FAILURE_PENDING_INSERT : Z := 2.
Definition BLK_THROTL_FAILURE_PENDING_DELETE : Z := 3.
Definition BLK_THROTL_FAILURE_OWNER : Z := 4.
Definition BLK_THROTL_FAILURE_AGGREGATE : Z := 5.
Definition BLK_THROTL_FAILURE_UNKNOWN_CALLER : Z := 6.
Definition BLK_THROTL_FAILURE_TIME_ROLLBACK : Z := 7.
Definition BLK_THROTL_FAILURE_POP_STATE : Z := 8.
Definition BLK_THROTL_FAILURE_RETIRE : Z := 9.

(** The constants user space rewrites before load. *)
Record bt_config := BtConfig {
  blk_throtl_tracked_caller_start : Z;
  blk_throtl_tracked_caller_end : Z;
  blk_throtl_ignored_caller_start : Z;
  blk_throtl_ignored_caller_end : Z;
}.

(** Kernel memory as one probe invocation reads it. *)
Record bt_kernel := BtKernel {
  bt_blkio : blkio_kernel;
  bio_bi_opf : Z -> Z;
  bio_bi_size : Z -> Z;
  bio_bi_blkg : Z -> Z;
  blkg_blkcg : Z -> Z;
  blkcg_css_serial_nr : Z -> Z;
  blkcg_css_offset : Z;
  disk_major : Z -> Z;
  disk_first_minor : Z -> Z;
  pd_blkg : Z -> Z;
}.

Record blk_throtl_blkg_owner := Owner {
  css : Z;
  css_serial : Z;
  major : Z;
  minor : Z;
}.

#[export] Instance owner_eq_dec : EqDecision blk_throtl_blkg_owner.
Proof. solve_decision. Defined.

Definition owner_retired_key (o : blk_throtl_blkg_owner) : io_control_retired_key :=
  RetiredKey (css o) (css_serial o) (major o) (minor o).
Definition owner_wait_key (o : blk_throtl_blkg_owner) (operation : Z) : io_control_wait_key :=
  WaitKey (css o) (css_serial o) (major o) (minor o) operation 0.

Section Tracer.
Context {M : BpfMapOps}.

Record bt_state := BtState {
  status : option io_control_status;
  owner_map : hmap Z blk_throtl_blkg_owner;
  retired_map : hmap io_control_retired_key Z;
  pending_map : hmap Z Z;
  pop_call_map : hmap Z bool;
  wait_agg_map : hmap io_control_wait_key (percpu Z);
}.

Definition set_status st x :=
  BtState x (owner_map st) (retired_map st) (pending_map st) (pop_call_map st) (wait_agg_map st).
Definition set_owner_map st x :=
  BtState (status st) x (retired_map st) (pending_map st) (pop_call_map st) (wait_agg_map st).
Definition set_retired_map st x :=
  BtState (status st) (owner_map st) x (pending_map st) (pop_call_map st) (wait_agg_map st).
Definition set_pending_map st x :=
  BtState (status st) (owner_map st) (retired_map st) x (pop_call_map st) (wait_agg_map st).
Definition set_pop_call_map st x :=
  BtState (status st) (owner_map st) (retired_map st) (pending_map st) x (wait_agg_map st).
Definition set_wait_agg_map st x :=
  BtState (status st) (owner_map st) (retired_map st) (pending_map st) (pop_call_map st) x.

(** ** Helpers *)

Definition blk_throtl_unhealthy (st : bt_state) : bool := status_unhealthy (status st).

Definition blk_throtl_fail (reason error : Z) (st : bt_state) : bt_state :=
  set_status st (status_fail reason error (status st)).

Definition blk_throtl_delete_pending (bio : Z) (st : bt_state) : bool * bt_state :=
  let '(ret, m) := bpf_map_delete_elem (pending_map st) bio in
  let st := set_pending_map st m in
  if (ret =? 0) || (ret =? - BLK_THROTL_ENOENT) then (true, st)
  else (false, blk_throtl_fail BLK_THROTL_FAILURE_PENDING_DELETE ret st).

Definition blk_throtl_delete_owner (blkg : Z) (st : bt_state) : bool * bt_state :=
  let '(ret, m) := bpf_map_delete_elem (owner_map st) blkg in
  let st := set_owner_map st m in
  if (ret =? 0) || (ret =? - BLK_THROTL_ENOENT) then (true, st)
  else (false, blk_throtl_fail BLK_THROTL_FAILURE_OWNER ret st).

Definition blk_throtl_retire_aggregate (owner : blk_throtl_blkg_owner) (st : bt_state) : bt_state :=
  let '(ret, m) :=
    bpf_map_update_elem (retired_map st) (owner_retired_key owner) 1 BPF_NOEXIST in
  let st := set_retired_map st m in
  if ctrue ret && negb (ret =? - BLK_THROTL_EEXIST)
  then blk_throtl_fail BLK_THROTL_FAILURE_RETIRE ret st else st.

(** [Some operation] when the C function returns true. *)
Definition blk_throtl_wait_bio_operation (kr : bt_kernel) (bio : Z) : option Z :=
  let current := Z.land (u32 (bio_bi_opf kr bio)) REQ_OP_MASK in
  let bytes := u64 (bio_bi_size kr bio) in
  if (negb (current =? REQ_OP_READ) && negb (current =? REQ_OP_WRITE)) || (bytes =? 0)
  then None else Some current.

(** Identity of a group and the disk of a bio, as first observed. *)
Definition initial_owner (kr : bt_kernel) (blkcg disk : Z) : blk_throtl_blkg_owner :=
  Owner (blkcg +64 blkcg_css_offset kr) (u64 (blkcg_css_serial_nr kr blkcg))
    (u32 (disk_major kr disk)) (u32 (disk_first_minor kr disk)).

Definition blk_throtl_lookup_or_create_owner (kr : bt_kernel) (blkg bio : Z) (st : bt_state)
    : option blk_throtl_blkg_owner * bt_state :=
  match bpf_map_lookup_elem (owner_map st) blkg with
  | Some owner => (Some owner, st)
  | None =>
      let blkcg := blkg_blkcg kr blkg in
      let disk := bio_disk (bt_blkio kr) bio in
      if (blkcg =? 0) || (disk =? 0)
      then (None, blk_throtl_fail BLK_THROTL_FAILURE_OWNER 0 st)
      else
        let '(ret, m) :=
          bpf_map_update_elem (owner_map st) blkg (initial_owner kr blkcg disk) BPF_NOEXIST in
        let st := set_owner_map st m in
        match bpf_map_lookup_elem (owner_map st) blkg with
        | None => (None, blk_throtl_fail BLK_THROTL_FAILURE_OWNER ret st)
        | Some owner => (Some owner, st)
        end
  end.

(** The program runs on [cpu] and sees that CPU's slot of the word. *)
Definition blk_throtl_account_wait (cpu : Z) (key : io_control_wait_key) (wait_ns : Z)
    (st : bt_state) : bt_state :=
  let '(ret, st) :=
    match bpf_map_lookup_elem (wait_agg_map st) key with
    | Some _ => (0, st)
    | None =>
        let '(ret, m) :=
          bpf_map_update_elem (wait_agg_map st) key (percpu_set ∅ cpu 0) BPF_NOEXIST in
        (ret, set_wait_agg_map st m)
    end in
  match bpf_map_lookup_elem (wait_agg_map st) key with
  | None => blk_throtl_fail BLK_THROTL_FAILURE_AGGREGATE ret st
  | Some slots =>
      set_wait_agg_map st
        (map_store (wait_agg_map st) key
           (percpu_set slots cpu (io_control_wait_add (percpu_get 0 slots cpu) wait_ns)))
  end.

(** ** Probes *)

Definition kprobe_blk_throtl_add_bio_tg (cfg : bt_config) (kr : bt_kernel)
    (caller bio now : Z) (st : bt_state) : bt_state :=
  if (blk_throtl_ignored_caller_start cfg <=? caller) &&
     (caller <? blk_throtl_ignored_caller_end cfg) then st
  else if (caller <? blk_throtl_tracked_caller_start cfg) ||
          (blk_throtl_tracked_caller_end cfg <=? caller)
  then blk_throtl_fail BLK_THROTL_FAILURE_UNKNOWN_CALLER 0 st
  else if blk_throtl_unhealthy st then st
  else if bio =? 0 then st
  else match blk_throtl_wait_bio_operation kr bio with
  | None => st
  | Some _ =>
      let '(ret, m) := bpf_map_update_elem (pending_map st) bio now BPF_NOEXIST in
      let st := set_pending_map st m in
      if ctrue ret
      then blk_throtl_fail
             (if ret =? - BLK_THROTL_EEXIST then BLK_THROTL_FAILURE_PENDING_COLLISION
              else BLK_THROTL_FAILURE_PENDING_INSERT) ret st
      else st
  end.

Definition kprobe_blk_throtl_pop_queued (task parm2 : Z) (st : bt_state) : bt_state :=
  if ctrue parm2 then st
  else
    let '(ret, m) := bpf_map_update_elem (pop_call_map st) task true BPF_NOEXIST in
    let st := set_pop_call_map st m in
    if ctrue ret then blk_throtl_fail BLK_THROTL_FAILURE_POP_STATE ret st else st.

(** The accounting of a matched pop, up to the label [out]. *)
Definition pop_settle (kr : bt_kernel) (cpu bio operation start_ns now : Z) (st : bt_state)
    : bt_state :=
  if blk_throtl_unhealthy st then st
  else if now <? start_ns then blk_throtl_fail BLK_THROTL_FAILURE_TIME_ROLLBACK 0 st
  else
    let blkg := bio_bi_blkg kr bio in
    if blkg =? 0 then blk_throtl_fail BLK_THROTL_FAILURE_OWNER 0 st
    else match blk_throtl_lookup_or_create_owner kr blkg bio st with
    | (None, st) => st
    | (Some owner, st) =>
        blk_throtl_account_wait cpu (owner_wait_key owner operation) (now -64 start_ns) st
    end.

Definition kretprobe_blk_throtl_pop_queued (kr : bt_kernel) (cpu task rc now : Z)
    (st : bt_state) : bt_state :=
  match bpf_map_lookup_elem (pop_call_map st) task with
  | None => st
  | Some _ =>
      let '(ret, m) := bpf_map_delete_elem (pop_call_map st) task in
      let st := set_pop_call_map st m in
      if ctrue ret then blk_throtl_fail BLK_THROTL_FAILURE_POP_STATE ret st
      else if rc =? 0 then st
      else match blk_throtl_wait_bio_operation kr rc with
      | None => st
      | Some operation =>
          match bpf_map_lookup_elem (pending_map st) rc with
          | None => st
          | Some start_ns =>
              snd (blk_throtl_delete_pending rc (pop_settle kr cpu rc operation start_ns now st))
          end
      end
  end.

Definition kprobe_blk_throtl_pd_free (kr : bt_kernel) (pd : Z) (st : bt_state) : bt_state :=
  let blkg := if ctrue pd then pd_blkg kr pd else 0 in
  if blkg =? 0 then st
  else match bpf_map_lookup_elem (owner_map st) blkg with
  | None => st
  | Some owner =>
      snd (blk_throtl_delete_owner blkg (blk_throtl_retire_aggregate owner st))
  end.

(** ** Runs

    Probe invocations in the order they take effect; each one carries the
    kernel memory it reads, its CPU, task and clock. *)

Inductive bt_event :=
| AddBio (caller bio now : Z)
| PopEntry (task parm2 : Z)
| PopReturn (cpu task rc now : Z)
| PdFree (pd : Z)
| DeviceHook (disk_name : Z -> option (list Z)) (e : device_event).

Definition bt_step (cfg : bt_config) (kr : bt_kernel) (e : bt_event) (st : bt_state) : bt_state :=
  match e with
  | AddBio caller bio now => kprobe_blk_throtl_add_bio_tg cfg kr caller bio now st
  | PopEntry task parm2 => kprobe_blk_throtl_pop_queued task parm2 st
  | PopReturn cpu task rc now => kretprobe_blk_throtl_pop_queued kr cpu task rc now st
  | PdFree pd => kprobe_blk_throtl_pd_free kr pd st
  | DeviceHook names e => set_status st (device_hook names e (status st))
  end.

Fixpoint bt_run (cfg : bt_config) (events : list (bt_kernel * bt_event)) (st : bt_state)
    : bt_state :=
  match events with
  | [] => st
  | (kr, e) :: rest => bt_run cfg rest (bt_step cfg kr e st)
  end.
End Tracer.

(** ** The ledger: what the tracer promises

    [spec_step] is the bookkeeping the tracer stands for, on plain finite maps:
    which bios wait since when, which tasks are inside a final pop, the
    identity of each group, and the log of settled waits.  [None] is an
    inconsistency the tracer must not hide: an unknown caller, a bio queued
    twice, a nested pop, time running backwards or a bio without an owner. *)

Record ledger := Ledger {
  lg_pending : gmap Z Z;
  lg_open : gset Z;
  lg_owner : gmap Z blk_throtl_blkg_owner;
  lg_retired : gset io_control_retired_key;
  lg_log : list (io_control_wait_key * Z * Z);
}.

Definition empty_ledger : ledger := Ledger ∅ ∅ ∅ ∅ [].

Definition spec_add (cfg : bt_config) (kr : bt_kernel) (caller bio now : Z) (lg : ledger)
    : option ledger :=
  if (blk_throtl_ignored_caller_start cfg <=? caller) &&
     (caller <? blk_throtl_ignored_caller_end cfg) then Some lg
  else if (caller <? blk_throtl_tracked_caller_start cfg) ||
          (blk_throtl_tracked_caller_end cfg <=? caller) then None
  else if (bio =? 0) || bool_decide (blk_throtl_wait_bio_operation kr bio = None) then Some lg
  else match lg_pending lg !! bio with
  | Some _ => None
  | None => Some (Ledger (<[bio := now]> (lg_pending lg)) (lg_open lg) (lg_owner lg)
                    (lg_retired lg) (lg_log lg))
  end.

Definition spec_pop_entry (task parm2 : Z) (lg : ledger) : option ledger :=
  if ctrue parm2 then Some lg
  else if bool_decide (task ∈ lg_open lg) then None
  else Some (Ledger (lg_pending lg) ({[task]} ∪ lg_open lg) (lg_owner lg) (lg_retired lg) (lg_log lg)).

(** The cached identity of a group, or the one read from the bio. *)
Definition spec_owner (kr : bt_kernel) (blkg bio : Z) (lg : ledger) : option blk_throtl_blkg_owner :=
  match lg_owner lg !! blkg with
  | Some o => Some o
  | None =>
      let blkcg := blkg_blkcg kr blkg in
      let disk := bio_disk (bt_blkio kr) bio in
      if (blkcg =? 0) || (disk =? 0) then None else Some (initial_owner kr blkcg disk)
  end.

Definition spec_settle (kr : bt_kernel) (cpu bio operation start now : Z) (lg : ledger)
    : option ledger :=
  let blkg := bio_bi_blkg kr bio in
  if (now <? start) || (blkg =? 0) then None
  else match spec_owner kr blkg bio lg with
  | None => None
  | Some o =>
      Some (Ledger (delete bio (lg_pending lg)) (lg_open lg) (<[blkg := o]> (lg_owner lg))
              (lg_retired lg) (lg_log lg ++ [(owner_wait_key o operation, cpu, now - start)]))
  end.

Definition spec_close (task : Z) (lg : ledger) : ledger :=
  Ledger (lg_pending lg) (lg_open lg ∖ {[task]}) (lg_owner lg) (lg_retired lg) (lg_log lg).

Definition spec_pop_return (kr : bt_kernel) (cpu task rc now : Z) (lg : ledger) : option ledger :=
  if bool_decide (task ∈ lg_open lg) then
    let lg := spec_close task lg in
    if rc =? 0 then Some lg
    else match blk_throtl_wait_bio_operation kr rc, lg_pending lg !! rc with
    | Some operation, Some start => spec_settle kr cpu rc operation start now lg
    | _, _ => Some lg
    end
  else Some lg.

Definition spec_pd_free (kr : bt_kernel) (pd : Z) (lg : ledger) : ledger :=
  let blkg := if ctrue pd then pd_blkg kr pd else 0 in
  if blkg =? 0 then lg
  else match lg_owner lg !! blkg with
  | None => lg
  | Some o => Ledger (lg_pending lg) (lg_open lg) (delete blkg (lg_owner lg))
                ({[owner_retired_key o]} ∪ lg_retired lg) (lg_log lg)
  end.

Definition spec_step (cfg : bt_config) (kr : bt_kernel) (e : bt_event) (lg : ledger)
    : option ledger :=
  match e with
  | AddBio caller bio now => spec_add cfg kr caller bio now lg
  | PopEntry task parm2 => spec_pop_entry task parm2 lg
  | PopReturn cpu task rc now => spec_pop_return kr cpu task rc now lg
  | PdFree pd => Some (spec_pd_free kr pd lg)
  | DeviceHook _ _ => Some lg
  end.

Fixpoint spec_run (cfg : bt_config) (events : list (bt_kernel * bt_event)) (lg : ledger)
    : option ledger :=
  match events with
  | [] => Some lg
  | (kr, e) :: rest => spec_step cfg kr e lg ≫= spec_run cfg rest
  end.

Section Refinement.
Context {M : BpfMapOps} {L : BpfMapLaws M}.
Implicit Types (st : bt_state) (lg : ledger).

Definition agg_word st : io_control_wait_key -> Z -> Z := row_word (wait_agg_map st).

Record bt_rel st lg : Prop := {
  rel_pending : forall b, bpf_map_lookup_elem (pending_map st) b = lg_pending lg !! b;
  rel_open : forall t, is_Some (bpf_map_lookup_elem (pop_call_map st) t) <-> t ∈ lg_open lg;
  rel_owner : forall b, bpf_map_lookup_elem (owner_map st) b = lg_owner lg !! b;
  rel_retired : forall k, is_Some (bpf_map_lookup_elem (retired_map st) k) <-> k ∈ lg_retired lg;
  rel_agg : forall key cpu,
    agg_word st key cpu = wait_add_all 0 (log_waits key cpu (lg_log lg));
}.

(** *** Failures are sticky *)

Lemma fail_unhealthy reason error st :
  0 < reason < 2 ^ 32 -> blk_throtl_unhealthy (blk_throtl_fail reason error st) = true.
Proof. apply status_fail_unhealthy. Qed.

(** Decide [blk_throtl_unhealthy] of a state built from record updates. *)
Ltac unhealthy_tac :=
  repeat (case_match; simplify_eq/=);
  first [done | by rewrite fail_unhealthy by done | by unfold blk_throtl_unhealthy in *].

Lemma account_sticky cpu key w st :
  blk_throtl_unhealthy st = true -> blk_throtl_unhealthy (blk_throtl_account_wait cpu key w st) = true.
Proof. intros H. unfold blk_throtl_account_wait. unhealthy_tac. Qed.

Lemma owner_sticky kr blkg bio st :
  blk_throtl_unhealthy st = true ->
  blk_throtl_unhealthy (snd (blk_throtl_lookup_or_create_owner kr blkg bio st)) = true.
Proof. intros H. unfold blk_throtl_lookup_or_create_owner. unhealthy_tac. Qed.

Lemma settle_sticky kr cpu bio op start now st :
  blk_throtl_unhealthy st = true -> pop_settle kr cpu bio op start now st = st.
Proof. intros H. unfold pop_settle. by rewrite H. Qed.

Lemma delete_pending_sticky bio st :
  blk_throtl_unhealthy st = true ->
  blk_throtl_unhealthy (snd (blk_throtl_delete_pending bio st)) = true.
Proof. intros H. unfold blk_throtl_delete_pending. unhealthy_tac. Qed.

Lemma delete_owner_sticky blkg st :
  blk_throtl_unhealthy st = true ->
  blk_throtl_unhealthy (snd (blk_throtl_delete_owner blkg st)) = true.
Proof. intros H. unfold blk_throtl_delete_owner. unhealthy_tac. Qed.

Lemma retire_sticky o st :
  blk_throtl_unhealthy st = true ->
  blk_throtl_unhealthy (blk_throtl_retire_aggregate o st) = true.
Proof. intros H. unfold blk_throtl_retire_aggregate. unhealthy_tac. Qed.

Lemma step_sticky cfg kr e st :
  blk_throtl_unhealthy st = true -> blk_throtl_unhealthy (bt_step cfg kr e st) = true.
Proof.
  intros H. destruct e; simpl.
  - unfold kprobe_blk_throtl_add_bio_tg. rewrite H. unhealthy_tac.
  - unfold kprobe_blk_throtl_pop_queued. unhealthy_tac.
  - unfold kretprobe_blk_throtl_pop_queued. repeat (case_match; simplify_eq/=); try unhealthy_tac.
    apply delete_pending_sticky. by rewrite settle_sticky.
  - unfold kprobe_blk_throtl_pd_free. repeat (case_match; simplify_eq/=); try done.
    by apply delete_owner_sticky, retire_sticky.
  - unfold blk_throtl_unhealthy. simpl. by rewrite device_hook_unhealthy.
Qed.

Lemma step_healthy cfg kr e st :
  blk_throtl_unhealthy (bt_step cfg kr e st) = false -> blk_throtl_unhealthy st = false.
Proof.
  intros H. destruct (blk_throtl_unhealthy st) eqn:E; [|done].
  by rewrite step_sticky in H.
Qed.

(** *** Each probe refines its ledger step *)

Lemma healthy_fail reason error st :
  0 < reason < 2 ^ 32 -> blk_throtl_unhealthy (blk_throtl_fail reason error st) = false -> False.
Proof. intros Hr. by rewrite fail_unhealthy. Qed.

Lemma delete_pending_healthy bio st :
  blk_throtl_unhealthy (snd (blk_throtl_delete_pending bio st)) = false ->
  exists m, snd (blk_throtl_delete_pending bio st) = set_pending_map st m /\
    forall k, bpf_map_lookup_elem m k =
      if decide (bio = k) then None else bpf_map_lookup_elem (pending_map st) k.
Proof.
  unfold blk_throtl_delete_pending. pose proof (bm_delete_done (pending_map st) bio) as H.
  destruct (bpf_map_delete_elem _ bio) as [ret m]. simpl in *.
  destruct (_ || _) eqn:E; simpl; [|intros F; by apply healthy_fail in F].
  intros _. exists m. split; [done|]. intros k. apply H.
  zify_bools. unfold ENOENT, BLK_THROTL_ENOENT in *. destruct E; zify_bools; auto.
Qed.

Lemma delete_owner_healthy blkg st :
  blk_throtl_unhealthy (snd (blk_throtl_delete_owner blkg st)) = false ->
  exists m, snd (blk_throtl_delete_owner blkg st) = set_owner_map st m /\
    forall k, bpf_map_lookup_elem m k =
      if decide (blkg = k) then None else bpf_map_lookup_elem (owner_map st) k.
Proof.
  unfold blk_throtl_delete_owner. pose proof (bm_delete_done (owner_map st) blkg) as H.
  destruct (bpf_map_delete_elem _ blkg) as [ret m]. simpl in *.
  destruct (_ || _) eqn:E; simpl; [|intros F; by apply healthy_fail in F].
  intros _. exists m. split; [done|]. intros k. apply H.
  zify_bools. unfold ENOENT, BLK_THROTL_ENOENT in *. destruct E; zify_bools; auto.
Qed.

Lemma retire_healthy o st :
  blk_throtl_unhealthy (blk_throtl_retire_aggregate o st) = false ->
  exists m, blk_throtl_retire_aggregate o st = set_retired_map st m /\
    forall k, is_Some (bpf_map_lookup_elem m k) <->
      k = owner_retired_key o \/ is_Some (bpf_map_lookup_elem (retired_map st) k).
Proof.
  unfold blk_throtl_retire_aggregate.
  pose proof (bm_noexist_done (retired_map st) (owner_retired_key o) 1) as H.
  destruct (bpf_map_update_elem _ _ _ _) as [ret m]. simpl in *.
  destruct (_ && _) eqn:E; simpl; [intros F; by apply healthy_fail in F|].
  intros _. exists m. split; [done|]. intros k. apply H.
  unfold EEXIST, BLK_THROTL_EEXIST in *. zify_bools. destruct E; zify_bools; auto.
Qed.

Lemma owner_healthy kr blkg bio st lg :
  bt_rel st lg -> 
  blk_throtl_unhealthy (snd (blk_throtl_lookup_or_create_owner kr blkg bio st)) = false ->
  exists o m, blk_throtl_lookup_or_create_owner kr blkg bio st = (Some o, set_owner_map st m) /\
    spec_owner kr blkg bio lg = Some o /\
    forall k, bpf_map_lookup_elem m k = <[blkg := o]> (lg_owner lg) !! k.
Proof.
  intros R. unfold blk_throtl_lookup_or_create_owner, spec_owner.
  rewrite <- (rel_owner _ _ R).
  destruct (bpf_map_lookup_elem (owner_map st) blkg) as [o|] eqn:Ho.
  { intros _. exists o, (owner_map st). split_and!; [by destruct st|done|].
    intros k. rewrite lookup_insert. case_decide; subst; [done|apply R]. }
  destruct (_ || _); [intros F; by apply healthy_fail in F|].
  set (o := initial_owner _ _ _).
  destruct (Z.eq_dec (fst (bpf_map_update_elem (owner_map st) blkg o BPF_NOEXIST)) 0) as [E|E].
  - destruct (bm_noexist_ok _ _ _ E) as [_ Hk].
    destruct (bpf_map_update_elem _ _ _ _) as [ret m]. simpl in *.
    rewrite Hk. case_decide; [|done]. intros _. exists o, m. split_and!; [done..|].
    intros k. rewrite Hk, lookup_insert. case_decide; [done|apply R].
  - pose proof (update_err (owner_map st) blkg o BPF_NOEXIST blkg E) as Hk.
    destruct (bpf_map_update_elem _ _ _ _) as [ret m]. simpl in *.
    rewrite Hk, Ho. simpl. intros F; by apply healthy_fail in F.
Qed.

Lemma account_healthy cpu key w st :
  blk_throtl_unhealthy (blk_throtl_account_wait cpu key w st) = false ->
  exists m, blk_throtl_account_wait cpu key w st = set_wait_agg_map st m /\
    forall k c, agg_word (set_wait_agg_map st m) k c =
      if decide ((key, cpu) = (k, c)) then io_control_wait_add (agg_word st key cpu) w
      else agg_word st k c.
Proof.
  unfold blk_throtl_account_wait, agg_word.
  destruct (bpf_map_lookup_elem (wait_agg_map st) key) as [slots|] eqn:Hk; cycle 1.
  - pose proof (row_word_create (wait_agg_map st) key cpu) as Hc.
    destruct (bpf_map_update_elem _ _ _ _) as [ret m]. simpl in *.
    destruct (bpf_map_lookup_elem m key) as [slots|] eqn:Hl; [|intros F; by apply healthy_fail in F].
    intros _. eexists. split; [done|]. intros k c. simpl.
    rewrite (row_word_store _ _ _ _ _ _ _ Hl), <- !Hc. unfold row_word at 2. by rewrite Hl.
  - simpl. rewrite Hk. intros _. eexists. split; [done|]. intros k c. simpl.
    rewrite (row_word_store _ _ _ _ _ _ _ Hk). unfold row_word at 2. by rewrite Hk.
Qed.

(** Transport the relation over an update of one map. *)
Ltac rel_split R := destruct R as [Rp Ro Rw Rr Ra]; split; simpl; try done.

Lemma add_refines cfg kr caller bio now st lg :
  bt_rel st lg ->
  blk_throtl_unhealthy (kprobe_blk_throtl_add_bio_tg cfg kr caller bio now st) = false ->
  exists lg', spec_add cfg kr caller bio now lg = Some lg' /\
    bt_rel (kprobe_blk_throtl_add_bio_tg cfg kr caller bio now st) lg'.
Proof.
  intros R. unfold kprobe_blk_throtl_add_bio_tg, spec_add.
  destruct (_ && _); [eauto|].
  destruct (_ || _); [intros F; by apply healthy_fail in F|].
  destruct (blk_throtl_unhealthy st) eqn:Hu; [congruence|].
  destruct (bio =? 0); [eauto|]. simpl.
  destruct (blk_throtl_wait_bio_operation kr bio) as [op|]; simpl; [|eauto].
  pose proof (bm_noexist_ok (pending_map st) bio now) as Hok.
  destruct (bpf_map_update_elem _ _ _ _) as [ret m]. simpl in *.
  destruct (ctrue ret) eqn:Er; [intros F; apply healthy_fail in F; [done|by case_if]|].
  intros _. zify_bools. destruct (Hok Er) as [Hn Hk].
  rewrite (rel_pending _ _ R) in Hn. rewrite Hn. eexists. split; [done|].
  rel_split R. intros b. rewrite Hk, lookup_insert. by case_decide.
Qed.

Lemma pop_entry_refines task parm2 st lg :
  bt_rel st lg ->
  blk_throtl_unhealthy (kprobe_blk_throtl_pop_queued task parm2 st) = false ->
  exists lg', spec_pop_entry task parm2 lg = Some lg' /\
    bt_rel (kprobe_blk_throtl_pop_queued task parm2 st) lg'.
Proof.
  intros R. unfold kprobe_blk_throtl_pop_queued, spec_pop_entry.
  destruct (ctrue parm2); [eauto|].
  pose proof (bm_noexist_ok (pop_call_map st) task true) as Hok.
  destruct (bpf_map_update_elem _ _ _ _) as [ret m]. simpl in *.
  destruct (ctrue ret) eqn:Er; [intros F; by apply healthy_fail in F|].
  intros _. zify_bools. destruct (Hok Er) as [Hn Hk].
  rewrite bool_decide_false; [|rewrite <- (rel_open _ _ R), Hn; by intros []].
  eexists. split; [done|]. rel_split R. intros t. rewrite Hk. specialize (Ro t).
  case_decide; subst; set_solver.
Qed.

Lemma settle_refines kr cpu bio op start now st lg :
  bt_rel st lg -> is_u64 start -> is_u64 now -> blk_throtl_unhealthy st = false ->
  let st' := snd (blk_throtl_delete_pending bio (pop_settle kr cpu bio op start now st)) in
  blk_throtl_unhealthy st' = false ->
  exists lg', spec_settle kr cpu bio op start now lg = Some lg' /\ bt_rel st' lg'.
Proof.
  intros R Hs Hn Hu st' Hh. subst st'.
  destruct (delete_pending_healthy _ _ Hh) as (mp & Heq & Hp). rewrite Heq in *.
  change (blk_throtl_unhealthy (set_pending_map ?x mp)) with (blk_throtl_unhealthy x) in Hh.
  clear Heq. unfold pop_settle, spec_settle in *. rewrite Hu in *.
  destruct (Z.ltb_spec now start) as [Hlt|Hle]; [by apply healthy_fail in Hh|]. simpl.
  destruct (_ =? 0); [by apply healthy_fail in Hh|]. simpl in *.
  destruct (blk_throtl_unhealthy (snd (blk_throtl_lookup_or_create_owner kr
             (bio_bi_blkg kr bio) bio st))) eqn:Ho.
  { exfalso. destruct (blk_throtl_lookup_or_create_owner _ _ _ _) as [[o|] st2]; simpl in *;
      [by rewrite account_sticky in Hh|congruence]. }
  destruct (owner_healthy _ _ _ _ _ R Ho) as (o & mo & Hlk & Hspec & Hmo).
  rewrite Hlk in *. rewrite Hspec. simpl in *.
  destruct (account_healthy _ _ _ _ Hh) as (ma & Eac & Ha). rewrite Eac in *. simpl in *.
  rewrite u64_sub_exact in Ha by done.
  eexists. split; [done|]. rel_split R.
  - intros b. rewrite Hp, lookup_delete. by case_decide.
  - intros k c. change (agg_word (set_pending_map ?x mp) k c) with (agg_word x k c).
    rewrite Ha, log_waits_snoc. change (agg_word (set_owner_map st mo)) with (agg_word st).
    rewrite !Ra. case_decide; simplify_eq; [|by rewrite app_nil_r].
    unfold wait_add_all. by rewrite fold_left_app.
Qed.

Lemma pop_return_refines kr cpu task rc now st lg :
  bt_rel st lg -> is_u64 now -> (forall b s, lg_pending lg !! b = Some s -> is_u64 s) ->
  blk_throtl_unhealthy st = false ->
  blk_throtl_unhealthy (kretprobe_blk_throtl_pop_queued kr cpu task rc now st) = false ->
  exists lg', spec_pop_return kr cpu task rc now lg = Some lg' /\
    bt_rel (kretprobe_blk_throtl_pop_queued kr cpu task rc now st) lg'.
Proof.
  intros R Hnow Hstart Hu. unfold kretprobe_blk_throtl_pop_queued, spec_pop_return.
  destruct (bpf_map_lookup_elem (pop_call_map st) task) as [b|] eqn:Ht.
  2:{ rewrite bool_decide_false; [eauto|]. rewrite <- (rel_open _ _ R), Ht. by intros []. }
  rewrite bool_decide_true by (rewrite <- (rel_open _ _ R), Ht; eauto).
  pose proof (delete_ok (pop_call_map st) task) as Hd.
  destruct (bpf_map_delete_elem _ task) as [ret m]. simpl in *.
  destruct (ctrue ret) eqn:Er; [intros F; by apply healthy_fail in F|]. zify_bools.
  assert (R' : bt_rel (set_pop_call_map st m) (spec_close task lg)).
  { rel_split R. intros t. rewrite Hd by done. specialize (Ro t). case_decide; subst.
    - split; [by intros []|set_solver].
    - set_solver. }
  destruct (rc =? 0); [eauto|].
  destruct (blk_throtl_wait_bio_operation kr rc) as [op|]; [|eauto].
  pose proof (rel_pending _ _ R' rc) as Hrc. simpl in Hrc. rewrite Hrc.
  destruct (lg_pending lg !! rc) as [start|] eqn:Hl; [|eauto].
  intros Hh. apply settle_refines; eauto.
Qed.

Lemma pd_free_refines kr pd st lg :
  bt_rel st lg ->
  blk_throtl_unhealthy (kprobe_blk_throtl_pd_free kr pd st) = false ->
  bt_rel (kprobe_blk_throtl_pd_free kr pd st) (spec_pd_free kr pd lg).
Proof.
  intros R. unfold kprobe_blk_throtl_pd_free, spec_pd_free.
  destruct (_ =? 0); [done|]. rewrite (rel_owner _ _ R).
  destruct (lg_owner lg !! _) as [o|]; [|done]. intros Hh.
  destruct (delete_owner_healthy _ _ Hh) as (mo & Heq & Hmo). rewrite Heq in *. clear Heq.
  change (blk_throtl_unhealthy (set_owner_map ?x mo)) with (blk_throtl_unhealthy x) in Hh.
  destruct (retire_healthy _ _ Hh) as (mr & Er & Hmr). rewrite Er in *. simpl in *.
  rel_split R.
  - intros b. rewrite Hmo, lookup_delete. by case_decide.
  - intros k. rewrite Hmr, Rr. set_solver.
Qed.

(** The clock readings of an event are 64-bit. *)
Definition event_clock_ok (e : bt_event) : Prop :=
  match e with
  | AddBio _ _ now | PopReturn _ _ _ now => is_u64 now
  | _ => True
  end.

Definition starts_ok lg : Prop := forall b s, lg_pending lg !! b = Some s -> is_u64 s.

Lemma spec_step_starts cfg kr e lg lg' :
  starts_ok lg -> event_clock_ok e -> spec_step cfg kr e lg = Some lg' -> starts_ok lg'.
Proof.
  intros H He. unfold starts_ok. destruct e; simpl in *;
    unfold spec_add, spec_pop_entry, spec_pop_return, spec_settle, spec_pd_free;
    repeat case_match; intros; simplify_eq/=; eauto;
    repeat match goal with
    | H : <[_ := _]> _ !! _ = Some _ |- _ => apply lookup_insert_Some in H as [[_ <-]|[_ ?]]
    | H : delete _ _ !! _ = Some _ |- _ => apply lookup_delete_Some in H as [_ ?]
    end; eauto.
Qed.

Lemma step_refines cfg kr e st lg :
  bt_rel st lg -> starts_ok lg -> event_clock_ok e ->
  blk_throtl_unhealthy (bt_step cfg kr e st) = false ->
  exists lg', spec_step cfg kr e lg = Some lg' /\ bt_rel (bt_step cfg kr e st) lg'.
Proof.
  intros R Hs He Hh. pose proof (step_healthy _ _ _ _ Hh) as Hu.
  destruct e; simpl in *.
  - by apply add_refines.
  - by apply pop_entry_refines.
  - by apply pop_return_refines.
  - eexists. split; [done|]. by apply pd_free_refines.
  - eexists. split; [done|]. by rel_split R.
Qed.

Lemma run_sticky cfg events st :
  blk_throtl_unhealthy st = true -> blk_throtl_unhealthy (bt_run cfg events st) = true.
Proof.
  revert st. induction events as [|[kr e] rest IH]; intros st H; [done|].
  simpl. apply IH. by apply step_sticky.
Qed.

Lemma run_refines cfg events st lg :
  bt_rel st lg -> starts_ok lg -> Forall (fun x => event_clock_ok (snd x)) events ->
  blk_throtl_unhealthy (bt_run cfg events st) = false ->
  exists lg', spec_run cfg events lg = Some lg' /\ bt_rel (bt_run cfg events st) lg'.
Proof.
  revert st lg. induction events as [|[kr e] rest IH]; intros st lg R Hs Hc Hh; [by eauto|].
  apply Forall_cons_1 in Hc as [He Hc]. simpl in *.
  destruct (blk_throtl_unhealthy (bt_step cfg kr e st)) eqn:Hu.
  { by rewrite run_sticky in Hh. }
  destruct (step_refines cfg kr e st lg R Hs He Hu) as (lg1 & Hsp & R1).
  rewrite Hsp. simpl. apply IH; eauto using spec_step_starts.
Qed.

(** *** A consistent run fails only through a helper error *)

Definition helper_error st : Prop := status_helper_error (status st).
Definition ok_or_helper_error st : Prop := status_ok_or_helper (status st).

Lemma fail_helper_error reason err st :
  is_Some (status st) -> - 4095 <= err < 0 -> ok_or_helper_error (blk_throtl_fail reason err st).
Proof. apply status_fail_helper. Qed.

Lemma healthy_ok st : blk_throtl_unhealthy st = false -> ok_or_helper_error st.
Proof. apply status_healthy_ok. Qed.

Lemma delete_pending_ok bio st :
  ok_or_helper_error st -> ok_or_helper_error (snd (blk_throtl_delete_pending bio st)).
Proof.
  intros [H1 H2]. unfold blk_throtl_delete_pending.
  pose proof (delete_nonzero (pending_map st) bio) as Hd.
  destruct (bpf_map_delete_elem _ _) as [ret m]; simpl in *.
  case_if; simpl; [done|]. zify_bools. by apply fail_helper_error, Hd.
Qed.

Lemma delete_owner_ok blkg st :
  ok_or_helper_error st -> ok_or_helper_error (snd (blk_throtl_delete_owner blkg st)).
Proof.
  intros [H1 H2]. unfold blk_throtl_delete_owner.
  pose proof (delete_nonzero (owner_map st) blkg) as Hd.
  destruct (bpf_map_delete_elem _ _) as [ret m]; simpl in *.
  case_if; simpl; [done|]. zify_bools. by apply fail_helper_error, Hd.
Qed.

Lemma retire_ok o st :
  ok_or_helper_error st -> ok_or_helper_error (blk_throtl_retire_aggregate o st).
Proof.
  intros [H1 H2]. unfold blk_throtl_retire_aggregate.
  pose proof (update_nonzero (retired_map st) (owner_retired_key o) 1 BPF_NOEXIST) as Hd.
  destruct (bpf_map_update_elem _ _ _ _) as [ret m]; simpl in *.
  case_if; simpl; [|done]. zify_bools. by apply fail_helper_error, Hd.
Qed.

Lemma account_ok cpu key w st :
  ok_or_helper_error st -> ok_or_helper_error (blk_throtl_account_wait cpu key w st).
Proof.
  intros H. unfold blk_throtl_account_wait.
  destruct (bpf_map_lookup_elem (wait_agg_map st) key) eqn:Hk; cycle 1.
  - set (z := percpu_set ∅ cpu 0).
    pose proof (update_nonzero (wait_agg_map st) key z BPF_NOEXIST) as Hn.
    pose proof (bm_update_eq (wait_agg_map st) key z BPF_NOEXIST) as Hu.
    destruct (bpf_map_update_elem _ _ _ _) as [ret m]; simpl in *.
    destruct (bpf_map_lookup_elem m key); [done|].
    apply fail_helper_error; [apply H|]. apply Hn. intros E. by specialize (Hu E).
  - simpl. by rewrite Hk.
Qed.

Lemma owner_ok kr blkg bio st lg :
  bt_rel st lg -> blk_throtl_unhealthy st = false -> spec_owner kr blkg bio lg <> None ->
  ok_or_helper_error (snd (blk_throtl_lookup_or_create_owner kr blkg bio st)).
Proof.
  intros R Hu. unfold blk_throtl_lookup_or_create_owner, spec_owner. rewrite <- (rel_owner _ _ R).
  destruct (bpf_map_lookup_elem (owner_map st) blkg); [intros _; by apply healthy_ok|].
  destruct (_ || _); [done|]. intros _. set (o := initial_owner _ _ _).
  pose proof (update_nonzero (owner_map st) blkg o BPF_NOEXIST) as Hn.
  pose proof (bm_update_eq (owner_map st) blkg o BPF_NOEXIST) as Hk.
  destruct (bpf_map_update_elem _ _ _ _) as [ret m]; simpl in *.
  destruct (bpf_map_lookup_elem m blkg); simpl; [by apply (healthy_ok st)|].
  apply fail_helper_error; [by apply (healthy_ok st)|]. apply Hn. intros E. by specialize (Hk E).
Qed.

Lemma settle_ok kr cpu bio op start now st lg :
  bt_rel st lg -> blk_throtl_unhealthy st = false ->
  is_Some (spec_settle kr cpu bio op start now lg) ->
  ok_or_helper_error (pop_settle kr cpu bio op start now st).
Proof.
  intros R Hu. unfold spec_settle, pop_settle. rewrite Hu.
  destruct (now <? start); [by intros []|]. simpl.
  destruct (_ =? 0); [by intros []|].
  destruct (spec_owner _ _ _ _) eqn:Eo; [intros _|by intros []].
  pose proof (owner_ok kr (bio_bi_blkg kr bio) bio st lg R Hu ltac:(by rewrite Eo)) as Hok.
  destruct (blk_throtl_lookup_or_create_owner _ _ _ _) as [[o|] st']; [|done].
  by apply account_ok.
Qed.

Lemma pop_return_ok kr cpu task rc now st lg :
  bt_rel st lg -> blk_throtl_unhealthy st = false ->
  is_Some (spec_pop_return kr cpu task rc now lg) ->
  ok_or_helper_error (kretprobe_blk_throtl_pop_queued kr cpu task rc now st).
Proof.
  intros R Hu. pose proof (healthy_ok st Hu) as Hok.
  unfold spec_pop_return, kretprobe_blk_throtl_pop_queued.
  destruct (bpf_map_lookup_elem (pop_call_map st) task) as [b|] eqn:Ht; [|done].
  rewrite bool_decide_true by (rewrite <- (rel_open _ _ R), Ht; eauto).
  pose proof (delete_nonzero (pop_call_map st) task) as Hn.
  pose proof (delete_ok (pop_call_map st) task) as Hd.
  destruct (bpf_map_delete_elem _ task) as [ret m]. simpl in *.
  destruct (ctrue ret) eqn:Er; zify_bools; [intros _; apply fail_helper_error; [apply Hok|auto]|].
  destruct (rc =? 0); [done|].
  destruct (blk_throtl_wait_bio_operation kr rc) as [op|]; [|done].
  rewrite (rel_pending _ _ R). destruct (lg_pending lg !! rc) as [start|]; [|done].
  intros Hs. apply delete_pending_ok.
  apply (settle_ok _ _ _ _ _ _ _ (spec_close task lg)); [|done..].
  rel_split R. intros t. rewrite Hd by done. specialize (Ro t). case_decide; subst.
  - split; [by intros []|set_solver].
  - set_solver.
Qed.

Lemma add_ok cfg kr caller bio now st lg :
  bt_rel st lg -> blk_throtl_unhealthy st = false ->
  is_Some (spec_add cfg kr caller bio now lg) ->
  ok_or_helper_error (kprobe_blk_throtl_add_bio_tg cfg kr caller bio now st).
Proof.
  intros R Hu. pose proof (healthy_ok st Hu) as Hok.
  unfold spec_add, kprobe_blk_throtl_add_bio_tg. rewrite Hu.
  destruct (_ && _); [done|]. destruct (_ || _); [by intros []|].
  destruct (bio =? 0); [done|]. destruct (blk_throtl_wait_bio_operation kr bio); [|done]. intros _.
  pose proof (update_nonzero (pending_map st) bio now BPF_NOEXIST) as Hn.
  destruct (bpf_map_update_elem _ _ _ _) as [ret m]. simpl in *.
  destruct (ctrue ret) eqn:Er; zify_bools; [|done].
  apply fail_helper_error; [apply Hok|auto].
Qed.

Lemma pop_entry_ok task parm2 st :
  blk_throtl_unhealthy st = false ->
  ok_or_helper_error (kprobe_blk_throtl_pop_queued task parm2 st).
Proof.
  intros Hu. pose proof (healthy_ok st Hu) as Hok. unfold kprobe_blk_throtl_pop_queued.
  destruct (ctrue parm2); [done|].
  pose proof (update_nonzero (pop_call_map st) task true BPF_NOEXIST) as Hn.
  destruct (bpf_map_update_elem _ _ _ _) as [ret m]. simpl in *.
  destruct (ctrue ret) eqn:Er; zify_bools; [|done].
  apply fail_helper_error; [apply Hok|auto].
Qed.

Lemma step_ok cfg kr e st lg :
  bt_rel st lg -> blk_throtl_unhealthy st = false -> is_Some (spec_step cfg kr e lg) ->
  ok_or_helper_error (bt_step cfg kr e st).
Proof.
  intros R Hu Hs. destruct e; simpl in *.
  - by eapply add_ok.
  - by apply pop_entry_ok.
  - by eapply pop_return_ok.
  - unfold kprobe_blk_throtl_pd_free. repeat case_match; try by apply healthy_ok.
    apply delete_owner_ok, retire_ok. by apply healthy_ok.
  - apply healthy_ok. unfold blk_throtl_unhealthy. simpl. by rewrite device_hook_unhealthy.
Qed.

(** *** Stopped tracers do not account *)

Lemma unhealthy_frame cfg kr e st :
  blk_throtl_unhealthy st = true ->
  (forall key cpu, agg_word (bt_step cfg kr e st) key cpu = agg_word st key cpu) /\
  (forall b s, bpf_map_lookup_elem (pending_map (bt_step cfg kr e st)) b = Some s ->
     bpf_map_lookup_elem (pending_map st) b = Some s).
Proof.
  intros Hu. destruct e; simpl.
  - unfold kprobe_blk_throtl_add_bio_tg. rewrite Hu. by repeat case_match.
  - unfold kprobe_blk_throtl_pop_queued. repeat (case_match; simplify_eq/=); done.
  - unfold kretprobe_blk_throtl_pop_queued, blk_throtl_delete_pending.
    repeat (case_match; simplify_eq/=); try done;
      rewrite settle_sticky in * by done; simpl in *;
      (split; [done|]; intros b1 s1; pose proof (bm_delete_sub (pending_map st) rc b1 s1) as Hsub;
       match goal with H : bpf_map_delete_elem _ rc = _ |- _ => rewrite H in Hsub end; auto).
  - unfold kprobe_blk_throtl_pd_free, blk_throtl_delete_owner, blk_throtl_retire_aggregate.
    repeat (case_match; simplify_eq/=); done.
  - done.
Qed.

(** ** Theorems *)

(** All maps empty and the status healthy: the tracer right after load. *)
Definition bt_loaded st : Prop :=
  blk_throtl_unhealthy st = false /\
  (forall k, bpf_map_lookup_elem (owner_map st) k = None) /\
  (forall k, bpf_map_lookup_elem (retired_map st) k = None) /\
  (forall k, bpf_map_lookup_elem (pending_map st) k = None) /\
  (forall k, bpf_map_lookup_elem (pop_call_map st) k = None) /\
  (forall k, bpf_map_lookup_elem (wait_agg_map st) k = None).

Lemma loaded_rel st : bt_loaded st -> bt_rel st empty_ledger.
Proof.
  intros (_ & Ho & Hr & Hp & Hc & Ha). split; simpl.
  - intros. by rewrite Hp, lookup_empty.
  - intros. rewrite Hc. split; [by intros []|set_solver].
  - intros. by rewrite Ho, lookup_empty.
  - intros. rewrite Hr. split; [by intros []|set_solver].
  - intros. unfold agg_word, row_word. by rewrite Ha.
Qed.

(** C1: refinement of the ledger.  Whatever the map implementation does (full
    maps, transient errors) and however probes interleave, if the status is
    still healthy after a run then the run was consistent, the pending, owner,
    pop-call and retirement maps are those of the ledger, and the packed word of
    every key and CPU holds exactly the settled waits of that key and CPU, each
    once. *)
Theorem healthy_run_is_ledger cfg events st :
  bt_loaded st -> Forall (fun x => event_clock_ok (snd x)) events ->
  blk_throtl_unhealthy (bt_run cfg events st) = false ->
  exists lg, spec_run cfg events empty_ledger = Some lg /\ bt_rel (bt_run cfg events st) lg.
Proof.
  intros Hl Hc Hh. apply run_refines; [by apply loaded_rel| |done..].
  intros b s. simpl. by rewrite lookup_empty.
Qed.

(** C20: no false alarm.  A run the ledger accepts ends healthy, unless at some
    step a map helper returned an error, in which case the status then shows
    that error code. *)
Theorem consistent_run_fails_only_on_helper_error cfg events lg st :
  bt_loaded st -> Forall (fun x => event_clock_ok (snd x)) events ->
  spec_run cfg events empty_ledger = Some lg ->
  blk_throtl_unhealthy (bt_run cfg events st) = false \/
  exists pre kr e post, events = pre ++ (kr, e) :: post /\
    blk_throtl_unhealthy (bt_run cfg pre st) = false /\
    helper_error (bt_step cfg kr e (bt_run cfg pre st)).
Proof.
  intros Hl Hc. pose proof (loaded_rel _ Hl) as R. destruct Hl as [Hu _].
  assert (Hs : starts_ok empty_ledger) by (intros b s; simpl; by rewrite lookup_empty).
  revert st R Hs Hu Hc. generalize empty_ledger as lg0.
  induction events as [|[kr e] rest IH]; intros lg0 st R Hs Hu Hc; [by left|].
  apply Forall_cons_1 in Hc as [He Hc]. simpl in *.
  destruct (spec_step cfg kr e lg0) as [lg1|] eqn:Es; simpl; [|done]. intros Hrun.
  pose proof (step_ok cfg kr e st lg0 R Hu ltac:(by rewrite Es)) as [_ Hok].
  destruct (blk_throtl_unhealthy (bt_step cfg kr e st)) eqn:Hu1.
  { right. exists [], kr, e, rest. split_and!; [done..|]. by apply Hok. }
  destruct (step_refines cfg kr e st lg0 R Hs He Hu1) as (lg1' & Es' & R1). simplify_eq.
  destruct (IH lg1 (bt_step cfg kr e st)) as [|(pre & kr' & e' & post & -> & ?)];
    eauto using spec_step_starts.
  right. by exists ((kr, e) :: pre), kr', e', post.
Qed.

(** Fail stop.  Once the status shows a failure it does so forever, no word
    changes any more and no bio becomes pending, so a reader that sees a healthy
    status after reading has read words no failure has touched. *)
Theorem failure_is_sticky_and_freezes cfg events st :
  blk_throtl_unhealthy st = true ->
  blk_throtl_unhealthy (bt_run cfg events st) = true /\
  (forall key cpu, agg_word (bt_run cfg events st) key cpu = agg_word st key cpu) /\
  (forall b s, bpf_map_lookup_elem (pending_map (bt_run cfg events st)) b = Some s ->
     bpf_map_lookup_elem (pending_map st) b = Some s).
Proof.
  intros Hu. split; [by apply run_sticky|].
  revert st Hu. induction events as [|[kr e] rest IH]; intros st Hu; [done|]. simpl.
  destruct (unhealthy_frame cfg kr e st Hu) as [Ha Hp].
  destruct (IH (bt_step cfg kr e st) ltac:(by apply step_sticky)) as [IHa IHp].
  split; intros; [by rewrite IHa|auto].
Qed.

End Refinement.

(** ** A concrete run *)

Definition demo_cfg : bt_config := BtConfig 100 200 300 400.
Definition demo_kernel : bt_kernel :=
  BtKernel (BlkioKernel true (fun _ => 70) (fun _ => 0) (fun _ => 0))
    (fun _ => 1) (fun _ => 4096) (fun _ => 50) (fun _ => 60) (fun _ => 9) 16
    (fun _ => 8) (fun _ => 0) (fun _ => 50).
Definition demo_state : @bt_state faulty_ops :=
  BtState (Some (Status 0 0)) (FaultyHash ∅ 4096 []) (FaultyHash ∅ 4096 [])
    (FaultyHash ∅ 10240 []) (FaultyHash ∅ 4096 []) (FaultyHash ∅ 8192 []).
Definition demo_events : list (bt_kernel * bt_event) :=
  (fun e => (demo_kernel, e)) <$>
    [AddBio 150 7 1000; AddBio 350 9 1500; PopEntry 3 0; PopReturn 1 3 7 91000; PdFree 5].

Lemma demo_loaded : bt_loaded demo_state.
Proof. repeat split; intros; apply lookup_empty. Qed.

Lemma healthy_run_is_ledger_witness :
  exists lg, spec_run demo_cfg demo_events empty_ledger = Some lg /\
    bt_rel (bt_run demo_cfg demo_events demo_state) lg.
Proof.
  apply healthy_run_is_ledger; [apply demo_loaded| |vm_compute; reflexivity].
  repeat constructor; unfold is_u64; simpl; lia.
Defined.

Lemma consistent_run_fails_only_on_helper_error_witness :
  exists lg, spec_run demo_cfg demo_events empty_ledger = Some lg /\
  (blk_throtl_unhealthy (bt_run demo_cfg demo_events demo_state) = false \/
  exists pre kr e post, demo_events = pre ++ (kr, e) :: post /\
    blk_throtl_unhealthy (bt_run demo_cfg pre demo_state) = false /\
    helper_error (bt_step demo_cfg kr e (bt_run demo_cfg pre demo_state))).
Proof.
  eexists. split; [vm_compute; reflexivity|].
  eapply consistent_run_fails_only_on_helper_error; [apply demo_loaded| |vm_compute; reflexivity].
  repeat constructor; unfold is_u64; simpl; lia.
Defined.

Lemma failure_is_sticky_and_freezes_witness :
  blk_throtl_unhealthy (bt_run demo_cfg demo_events
    (blk_throtl_fail BLK_THROTL_FAILURE_POP_STATE (- 16) demo_state)) = true.
Proof. apply failure_is_sticky_and_freezes. vm_compute. reflexivity. Defined.

End BlkThrotl.
