(* ===== verification/IoCost.v ===== *)
(** * iocost wait tracer ([bpf/iocost_tracing.c])

    Module [IoCost] models the probes on [iocg_kick_waitq], [iocg_wake_fn]
    (entry and return) and [ioc_pd_free].  A wait is pending from the kick that
    queues its bio; the wake entry moves the sample into a per-CPU frame and
    removes the pending record, because the woken task may reuse the bio before
    the return probe runs; the return settles the frame, restores the pending
    record, or fails, according to the callback's result.

    As for the blk-throttle tracer, an abstract ledger specifies the tracer and
    the refinement theorem says that a healthy status certifies it. *)

From Stdlib Require Import ZArith Lia.
From stdpp Require Import base option list gmap tactics.
From S2P Require Import Prelude BpfMap IoControl.

Local Open Scope Z_scope.
Local Open Scope bpf_scope.

Module IoCost.
Import IoControl.

(** ** Constants and data *)

Definition IOCOST_ENOENT : Z := 2.
Definition IOCOST_EEXIST : Z := 17.
Definition REQ_OP_MASK : Z := (1 <<32 8) -32 1.
Definition REQ_OP_READ : Z := 0.
Definition REQ_OP_WRITE : Z := 1.

Definition IOCOST_FAILURE_IDENTITY : Z := 1.
Definition IOCOST_FAILURE_PENDING_COLLISION : Z := 2.
Definition IOCOST_FAILURE_PENDING_INSERT : Z := 3.
Definition IOCOST_FAILURE_PENDING_DELETE : Z := 4.
Definition IOCOST_FAILURE_AGGREGATE_INSERT : Z := 5.
Definition IOCOST_FAILURE_WAKE_FRAME : Z := 6.
Definition IOCOST_FAILURE_TIME_ROLLBACK : Z := 7.
Definition IOCOST_FAILURE_OWNER_INSERT : Z := 8.
Definition IOCOST_FAILURE_OWNER_DELETE : Z := 10.
Definition IOCOST_FAILURE_RETIRE : Z := 11.

Record iocost_config := IocostConfig {
  iocost_throttle_caller_start : Z;
  iocost_throttle_caller_end : Z;
  iocost_over_budget_caller_start : Z;
  iocost_over_budget_caller_end : Z;
}.

(** Kernel memory as one invocation reads it; [None] is a failed
    [IOCOST_CORE_READ].  The offsets are CO-RE relocations. *)
Record iocost_kernel := IocostKernel {
  ic_blkio : blkio_kernel;
  bio_bi_opf : Z -> option Z;
  iocg_pd_blkg : Z -> option Z;
  blkg_blkcg : Z -> option Z;
  blkcg_css_serial_nr : Z -> option Z;
  disk_major : Z -> option Z;
  disk_first_minor : Z -> option Z;
  waitq_head_prev : Z -> option Z;
  iocg_wait_bio : Z -> option Z;
  wake_ctx_iocg : Z -> option Z;
  blkcg_css_offset : Z;
  iocg_waitq_offset : Z;
  wq_entry_offset : Z;
  iocg_wait_wait_offset : Z;
  iocg_pd_offset : Z;
}.

Record iocost_owner_state := Owner {
  css : Z;
  css_serial : Z;
  major : Z;
  minor : Z;
}.

Record iocost_pending := Pending {
  start_ns : Z;
  operation : Z;
  reserved : Z;
}.

Record iocost_wake_frame := Frame {
  bio_ptr : Z;
  end_ns : Z;
  frame_pending : iocost_pending;
  frame_key : io_control_wait_key;
}.

Definition zero_frame : iocost_wake_frame :=
  Frame 0 0 (Pending 0 0 0) (WaitKey 0 0 0 0 0 0).

Definition owner_retired_key (o : iocost_owner_state) : io_control_retired_key :=
  RetiredKey (css o) (css_serial o) (major o) (minor o).
Definition owner_wait_key (o : iocost_owner_state) (op : Z) : io_control_wait_key :=
  WaitKey (css o) (css_serial o) (major o) (minor o) op 0.

Section Tracer.
Context {M : BpfMapOps}.

(** [wake_frames] is the per-CPU array; [None] is a lookup that returns NULL. *)
Record ic_state := IcState {
  status : option io_control_status;
  owner_map : hmap Z iocost_owner_state;
  retired_map : hmap io_control_retired_key Z;
  pending_map : hmap Z iocost_pending;
  wait_agg_map : hmap io_control_wait_key (percpu Z);
  wake_frames : option (percpu iocost_wake_frame);
}.

Definition set_status st x :=
  IcState x (owner_map st) (retired_map st) (pending_map st) (wait_agg_map st) (wake_frames st).
Definition set_owner_map st x :=
  IcState (status st) x (retired_map st) (pending_map st) (wait_agg_map st) (wake_frames st).
Definition set_retired_map st x :=
  IcState (status st) (owner_map st) x (pending_map st) (wait_agg_map st) (wake_frames st).
Definition set_pending_map st x :=
  IcState (status st) (owner_map st) (retired_map st) x (wait_agg_map st) (wake_frames st).
Definition set_wait_agg_map st x :=
  IcState (status st) (owner_map st) (retired_map st) (pending_map st) x (wake_frames st).
Definition set_wake_frames st x :=
  IcState (status st) (owner_map st) (retired_map st) (pending_map st) (wait_agg_map st) x.

(** ** Helpers *)

Definition iocost_unhealthy (st : ic_state) : bool := status_unhealthy (status st).

Definition iocost_fail (reason error : Z) (st : ic_state) : ic_state :=
  set_status st (status_fail reason error (status st)).

Definition iocost_classify_pending_update_ret (ret : Z) (st : ic_state) : ic_state :=
  if ctrue ret
  then iocost_fail (if ret =? - IOCOST_EEXIST then IOCOST_FAILURE_PENDING_COLLISION
                    else IOCOST_FAILURE_PENDING_INSERT) ret st
  else st.

Definition iocost_range_contains (address start stop : Z) : bool :=
  (start <? stop) && (start <=? address) && (address <? stop).

Definition iocost_enqueue_caller (cfg : iocost_config) (address : Z) : bool :=
  if iocost_range_contains address (iocost_throttle_caller_start cfg)
       (iocost_throttle_caller_end cfg)
  then true
  else iocost_range_contains address (iocost_over_budget_caller_start cfg)
         (iocost_over_budget_caller_end cfg).

(** Result code and the operation it stores: 1 for READ/WRITE, 0 for an ignored
    operation and -1 on a read error. *)
Definition iocost_read_bio (kr : iocost_kernel) (raw_bio : Z) : Z * Z :=
  if raw_bio =? 0 then (-1, 0)
  else match bio_bi_opf kr raw_bio with
  | None => (-1, 0)
  | Some opf =>
      let op := Z.land (u32 opf) REQ_OP_MASK in
      if negb (op =? REQ_OP_READ) && negb (op =? REQ_OP_WRITE) then (0, 0) else (1, op)
  end.

Definition iocost_retire_aggregate (owner : iocost_owner_state) (st : ic_state) : ic_state :=
  let '(ret, m) :=
    bpf_map_update_elem (retired_map st) (owner_retired_key owner) 1 BPF_NOEXIST in
  let st := set_retired_map st m in
  if ctrue ret && negb (ret =? - IOCOST_EEXIST)
  then iocost_fail IOCOST_FAILURE_RETIRE ret st else st.

(** The identity read for a group seen the first time; [None] when a read fails
    or yields a null pointer or serial. *)
Definition read_nonzero (r : option Z) : option Z :=
  match r with Some v => if v =? 0 then None else Some v | None => None end.

Definition initial_owner (kr : iocost_kernel) (raw_iocg bio : Z) : option iocost_owner_state :=
  let disk := bio_disk (ic_blkio kr) bio in
  if (raw_iocg =? 0) || (bio =? 0) then None
  else
    blkg ← read_nonzero (iocg_pd_blkg kr raw_iocg);
    blkcg ← read_nonzero (blkg_blkcg kr blkg);
    serial ← read_nonzero (u64 <$> blkcg_css_serial_nr kr blkcg);
    if disk =? 0 then None
    else
      major ← disk_major kr disk;
      minor ← disk_first_minor kr disk;
      Some (Owner (blkcg +64 blkcg_css_offset kr) serial (u32 major) (u32 minor)).

Definition iocost_ensure_owner (kr : iocost_kernel) (raw_iocg bio : Z) (st : ic_state)
    : option iocost_owner_state * ic_state :=
  match bpf_map_lookup_elem (owner_map st) raw_iocg with
  | Some owner => (Some owner, st)
  | None =>
      match initial_owner kr raw_iocg bio with
      | None => (None, iocost_fail IOCOST_FAILURE_IDENTITY 0 st)
      | Some initial =>
          let '(ret, m) := bpf_map_update_elem (owner_map st) raw_iocg initial BPF_NOEXIST in
          let st := set_owner_map st m in
          if ctrue ret && negb (ret =? - IOCOST_EEXIST)
          then (None, iocost_fail IOCOST_FAILURE_OWNER_INSERT ret st)
          else match bpf_map_lookup_elem (owner_map st) raw_iocg with
          | None => (None, iocost_fail IOCOST_FAILURE_OWNER_INSERT (- IOCOST_ENOENT) st)
          | Some owner => (Some owner, st)
          end
      end
  end.

Definition iocost_ensure_aggregate (cpu : Z) (key : io_control_wait_key) (st : ic_state)
    : bool * ic_state :=
  match bpf_map_lookup_elem (wait_agg_map st) key with
  | Some _ => (true, st)
  | None =>
      let '(ret, m) :=
        bpf_map_update_elem (wait_agg_map st) key (percpu_set ∅ cpu 0) BPF_NOEXIST in
      let st := set_wait_agg_map st m in
      if ctrue ret && negb (ret =? - IOCOST_EEXIST)
      then (false, iocost_fail IOCOST_FAILURE_AGGREGATE_INSERT ret st)
      else (true, st)
  end.

(** The bio of the waiter at the tail of the group's wait queue; 0 is NULL. *)
Definition iocost_tail_waiter (kr : iocost_kernel) (raw_iocg : Z) : Z :=
  if raw_iocg =? 0 then 0
  else
    let waitq := raw_iocg +64 iocg_waitq_offset kr in
    match read_nonzero (waitq_head_prev kr waitq) with
    | None => 0
    | Some raw_tail =>
        let waiter_offset := iocg_wait_wait_offset kr +64 wq_entry_offset kr in
        if raw_tail <? waiter_offset then 0
        else default 0 (read_nonzero (iocg_wait_bio kr (raw_tail -64 waiter_offset)))
    end.

(** [iocost_wake_frame()]: the frame of the running CPU. *)
Definition iocost_wake_frame_of (cpu : Z) (st : ic_state) : option iocost_wake_frame :=
  (fun fs => percpu_get zero_frame fs cpu) <$> wake_frames st.

(** Store through the frame pointer. *)
Definition store_frame (cpu : Z) (f : iocost_wake_frame) (st : ic_state) : ic_state :=
  set_wake_frames st ((fun fs => percpu_set fs cpu f) <$> wake_frames st).

Definition iocost_clear_wake_frame (f : iocost_wake_frame) : iocost_wake_frame :=
  Frame 0 (end_ns f) (frame_pending f) (frame_key f).

Definition iocost_delete_pending (bio : Z) (st : ic_state) : bool * ic_state :=
  let '(ret, m) := bpf_map_delete_elem (pending_map st) bio in
  let st := set_pending_map st m in
  if negb (ctrue ret) then (true, st)
  else (false, iocost_fail IOCOST_FAILURE_PENDING_DELETE ret st).

(** ** Probes *)

Definition kprobe_iocg_kick_waitq (cfg : iocost_config) (kr : iocost_kernel)
    (caller iocg now : Z) (st : ic_state) : ic_state :=
  if negb (iocost_enqueue_caller cfg caller) then st
  else if iocost_unhealthy st then st
  else
    let bio := iocost_tail_waiter kr iocg in
    if bio =? 0 then iocost_fail IOCOST_FAILURE_IDENTITY 0 st
    else
      let '(bio_result, op) := iocost_read_bio kr bio in
      if bio_result =? 0 then st
      else if bio_result <? 0 then iocost_fail IOCOST_FAILURE_IDENTITY 0 st
      else
        let '(ret, m) := bpf_map_update_elem (pending_map st) bio (Pending now op 0) BPF_ANY in
        iocost_classify_pending_update_ret ret (set_pending_map st m).

(** The group and the bio a wake callback is about; [None] when the code fails
    with IDENTITY. *)
Definition wake_identity (kr : iocost_kernel) (wq_entry wake_ctx : Z) : option (Z * Z) :=
  if (wq_entry =? 0) || (wake_ctx =? 0) then None
  else
    iocg ← read_nonzero (wake_ctx_iocg kr wake_ctx);
    if wq_entry <? iocg_wait_wait_offset kr then None
    else
      bio ← read_nonzero (iocg_wait_bio kr (wq_entry -64 iocg_wait_wait_offset kr));
      Some (iocg, bio).

(** The entry probe once the pending sample is copied into the frame: prepare the
    identity and the row, take the pending record, publish the frame last. *)
Definition wake_publish (kr : iocost_kernel) (cpu iocg bio : Z) (f : iocost_wake_frame)
    (st : ic_state) : ic_state :=
  match iocost_ensure_owner kr iocg bio st with
  | (None, st) => st
  | (Some owner, st) =>
      let f := Frame (bio_ptr f) (end_ns f) (frame_pending f)
                 (owner_wait_key owner (operation (frame_pending f))) in
      let st := store_frame cpu f st in
      let '(ensured, st) := iocost_ensure_aggregate cpu (frame_key f) st in
      if negb ensured then st
      else
        let '(deleted, st) := iocost_delete_pending bio st in
        if negb deleted then store_frame cpu (iocost_clear_wake_frame f) st
        else store_frame cpu (Frame bio (end_ns f) (frame_pending f) (frame_key f)) st
  end.

Definition kprobe_iocg_wake_fn (kr : iocost_kernel) (cpu wq_entry wake_ctx now : Z)
    (st : ic_state) : ic_state :=
  match iocost_wake_frame_of cpu st with
  | None => iocost_fail IOCOST_FAILURE_WAKE_FRAME 0 st
  | Some f =>
      let f := iocost_clear_wake_frame f in
      let st := store_frame cpu f st in
      if iocost_unhealthy st then st
      else match wake_identity kr wq_entry wake_ctx with
      | None => iocost_fail IOCOST_FAILURE_IDENTITY 0 st
      | Some (iocg, bio) =>
          match bpf_map_lookup_elem (pending_map st) bio with
          | None => st
          | Some pending =>
              if (start_ns pending =? 0) || ctrue (reserved pending)
              then iocost_fail IOCOST_FAILURE_IDENTITY 0 st
              else
                let f := Frame (bio_ptr f) now pending (frame_key f) in
                let st := store_frame cpu f st in
                wake_publish kr cpu iocg bio f st
          end
      end
  end.

Definition kretprobe_iocg_wake_fn (cpu rc : Z) (st : ic_state) : ic_state :=
  match iocost_wake_frame_of cpu st with
  | None => iocost_fail IOCOST_FAILURE_WAKE_FRAME 0 st
  | Some f =>
      if bio_ptr f =? 0 then st
      else
        let ret := s32 rc in
        if ret =? -1 then
          let '(update_ret, m) :=
            bpf_map_update_elem (pending_map st) (bio_ptr f) (frame_pending f) BPF_NOEXIST in
          store_frame cpu (iocost_clear_wake_frame f)
            (iocost_classify_pending_update_ret update_ret (set_pending_map st m))
        else if negb (ret =? 0) then
          store_frame cpu (iocost_clear_wake_frame f) (iocost_fail IOCOST_FAILURE_WAKE_FRAME 0 st)
        else
          let pending := frame_pending f in
          match bpf_map_lookup_elem (wait_agg_map st) (frame_key f) with
          | None => store_frame cpu (iocost_clear_wake_frame f) st
          | Some slots =>
              if end_ns f <? start_ns pending
              then store_frame cpu (iocost_clear_wake_frame f)
                     (iocost_fail IOCOST_FAILURE_TIME_ROLLBACK 0 st)
              else
                let packed := io_control_wait_add (percpu_get 0 slots cpu)
                                (end_ns f -64 start_ns pending) in
                store_frame cpu (iocost_clear_wake_frame f)
                  (set_wait_agg_map st
                     (map_store (wait_agg_map st) (frame_key f) (percpu_set slots cpu packed)))
          end
  end.

Definition kprobe_ioc_pd_free (kr : iocost_kernel) (pd : Z) (st : ic_state) : ic_state :=
  if pd =? 0 then st
  else if pd <? iocg_pd_offset kr then iocost_fail IOCOST_FAILURE_IDENTITY 0 st
  else
    let iocg_ptr := pd -64 iocg_pd_offset kr in
    match bpf_map_lookup_elem (owner_map st) iocg_ptr with
    | None => st
    | Some owner =>
        let st := iocost_retire_aggregate owner st in
        let '(ret, m) := bpf_map_delete_elem (owner_map st) iocg_ptr in
        let st := set_owner_map st m in
        if ctrue ret then iocost_fail IOCOST_FAILURE_OWNER_DELETE ret st else st
    end.

(** ** Runs *)

Inductive ic_event :=
| Kick (caller iocg now : Z)
| WakeEntry (cpu wq_entry wake_ctx now : Z)
| WakeReturn (cpu rc : Z)
| PdFree (pd : Z)
| DeviceHook (disk_name : Z -> option (list Z)) (e : device_event).

Definition ic_step (cfg : iocost_config) (kr : iocost_kernel) (e : ic_event) (st : ic_state)
    : ic_state :=
  match e with
  | Kick caller iocg now => kprobe_iocg_kick_waitq cfg kr caller iocg now st
  | WakeEntry cpu wq ctx now => kprobe_iocg_wake_fn kr cpu wq ctx now st
  | WakeReturn cpu rc => kretprobe_iocg_wake_fn cpu rc st
  | PdFree pd => kprobe_ioc_pd_free kr pd st
  | DeviceHook names e => set_status st (device_hook names e (status st))
  end.

Fixpoint ic_run (cfg : iocost_config) (events : list (iocost_kernel * ic_event)) (st : ic_state)
    : ic_state :=
  match events with
  | [] => st
  | (kr, e) :: rest => ic_run cfg rest (ic_step cfg kr e st)
  end.
End Tracer.

(** ** The ledger

    Waiting bios, the sample each CPU's callback owns, group identities and the
    settled waits.  [None] marks an inconsistency. *)

Record ledger := Ledger {
  lg_pending : gmap Z iocost_pending;
  lg_frame : gmap Z iocost_wake_frame;
  lg_owner : gmap Z iocost_owner_state;
  lg_retired : gset io_control_retired_key;
  lg_log : list (io_control_wait_key * Z * Z);
}.

Definition empty_ledger : ledger := Ledger ∅ ∅ ∅ ∅ [].

Definition spec_kick (cfg : iocost_config) (kr : iocost_kernel) (caller iocg now : Z)
    (lg : ledger) : option ledger :=
  if negb (iocost_enqueue_caller cfg caller) then Some lg
  else
    let bio := iocost_tail_waiter kr iocg in
    if bio =? 0 then None
    else
      let '(r, op) := iocost_read_bio kr bio in
      if r =? 0 then Some lg
      else if r <? 0 then None
      else Some (Ledger (<[bio := Pending now op 0]> (lg_pending lg)) (lg_frame lg) (lg_owner lg)
                   (lg_retired lg) (lg_log lg)).

Definition spec_owner (kr : iocost_kernel) (iocg bio : Z) (lg : ledger)
    : option iocost_owner_state :=
  match lg_owner lg !! iocg with Some o => Some o | None => initial_owner kr iocg bio end.

(** An entry drops whatever its CPU's frame held, then moves the pending sample
    of the bio, if any, into the frame. *)
Definition spec_wake_entry (kr : iocost_kernel) (cpu wq_entry wake_ctx now : Z) (lg : ledger)
    : option ledger :=
  '(iocg, bio) ← wake_identity kr wq_entry wake_ctx;
  match lg_pending lg !! bio with
  | None => Some (Ledger (lg_pending lg) (delete cpu (lg_frame lg)) (lg_owner lg)
                    (lg_retired lg) (lg_log lg))
  | Some p =>
      if (start_ns p =? 0) || ctrue (reserved p) then None
      else
        o ← spec_owner kr iocg bio lg;
        Some (Ledger (delete bio (lg_pending lg))
                (<[cpu := Frame bio now p (owner_wait_key o (operation p))]> (lg_frame lg))
                (<[iocg := o]> (lg_owner lg)) (lg_retired lg) (lg_log lg))
  end.

(** A return settles the sample (0), gives it back (-1) or is inconsistent. *)
Definition spec_wake_return (cpu rc : Z) (lg : ledger) : option ledger :=
  match lg_frame lg !! cpu with
  | None => Some lg
  | Some f =>
      let frames := delete cpu (lg_frame lg) in
      if s32 rc =? -1 then
        match lg_pending lg !! bio_ptr f with
        | Some _ => None
        | None => Some (Ledger (<[bio_ptr f := frame_pending f]> (lg_pending lg)) frames
                          (lg_owner lg) (lg_retired lg) (lg_log lg))
        end
      else if negb (s32 rc =? 0) then None
      else if end_ns f <? start_ns (frame_pending f) then None
      else Some (Ledger (lg_pending lg) frames (lg_owner lg) (lg_retired lg)
                   (lg_log lg ++ [(frame_key f, cpu, end_ns f - start_ns (frame_pending f))]))
  end.

Definition spec_pd_free (kr : iocost_kernel) (pd : Z) (lg : ledger) : option ledger :=
  if pd =? 0 then Some lg
  else if pd <? iocg_pd_offset kr then None
  else
    let iocg := pd -64 iocg_pd_offset kr in
    match lg_owner lg !! iocg with
    | None => Some lg
    | Some o => Some (Ledger (lg_pending lg) (lg_frame lg) (delete iocg (lg_owner lg))
                        ({[owner_retired_key o]} ∪ lg_retired lg) (lg_log lg))
    end.

Definition spec_step (cfg : iocost_config) (kr : iocost_kernel) (e : ic_event) (lg : ledger)
    : option ledger :=
  match e with
  | Kick caller iocg now => spec_kick cfg kr caller iocg now lg
  | WakeEntry cpu wq ctx now => spec_wake_entry kr cpu wq ctx now lg
  | WakeReturn cpu rc => spec_wake_return cpu rc lg
  | PdFree pd => spec_pd_free kr pd lg
  | DeviceHook _ _ => Some lg
  end.

Fixpoint spec_run (cfg : iocost_config) (events : list (iocost_kernel * ic_event)) (lg : ledger)
    : option ledger :=
  match events with
  | [] => Some lg
  | (kr, e) :: rest => spec_step cfg kr e lg ≫= spec_run cfg rest
  end.

(** Clock readings of events, and of the samples of a ledger, are 64-bit. *)
Definition event_clock_ok (e : ic_event) : Prop :=
  match e with Kick _ _ now | WakeEntry _ _ _ now => is_u64 now | _ => True end.

Definition clocks_ok (lg : ledger) : Prop :=
  (forall b p, lg_pending lg !! b = Some p -> is_u64 (start_ns p)) /\
  (forall c f, lg_frame lg !! c = Some f -> is_u64 (start_ns (frame_pending f)) /\ is_u64 (end_ns f)).

Lemma spec_step_clocks cfg kr e lg lg' :
  clocks_ok lg -> event_clock_ok e -> spec_step cfg kr e lg = Some lg' -> clocks_ok lg'.
Proof.
  intros [Hp Hf] He Hs.
  assert (Hf' : forall cpu c f, delete cpu (lg_frame lg) !! c = Some f ->
            is_u64 (start_ns (frame_pending f)) /\ is_u64 (end_ns f)).
  { intros cpu c f H. apply lookup_delete_Some in H as [_ ?]. eauto. }
  destruct e as [caller iocg now|cpu wq ctx now|cpu rc|pd|names d]; simpl in *;
    unfold spec_kick, spec_wake_entry, spec_wake_return, spec_pd_free in Hs;
    repeat (case_match || simplify_option_eq); try (by split);
    (split; intros k v Hk; simpl in *;
     first [apply lookup_insert_Some in Hk as [[_ <-]|[_ Hk]]
           |apply lookup_delete_Some in Hk as [_ Hk]|idtac]; simpl; eauto).
  by edestruct Hf.
Qed.

Section Refinement.
Context {M : BpfMapOps} {L : BpfMapLaws M}.
Implicit Types (st : ic_state) (lg : ledger).

Definition agg_word st : io_control_wait_key -> Z -> Z := row_word (wait_agg_map st).

(** The sample a CPU's frame owns: a zero [bio_ptr] means the frame is idle. *)
Definition frame_sample (f : iocost_wake_frame) : option iocost_wake_frame :=
  if bio_ptr f =? 0 then None else Some f.
Definition active st (cpu : Z) : option iocost_wake_frame :=
  iocost_wake_frame_of cpu st ≫= frame_sample.

Lemma active_store st c f c' :
  is_Some (wake_frames st) ->
  active (store_frame c f st) c' = if decide (c = c') then frame_sample f else active st c'.
Proof.
  intros [fs Hfs]. unfold active, store_frame, iocost_wake_frame_of. simpl. rewrite Hfs. simpl.
  rewrite percpu_get_set. by case_decide.
Qed.

Record ic_rel st lg : Prop := {
  rel_pending : forall b, bpf_map_lookup_elem (pending_map st) b = lg_pending lg !! b;
  rel_frames : is_Some (wake_frames st);
  rel_active : forall c, active st c = lg_frame lg !! c;
  rel_owner : forall g, bpf_map_lookup_elem (owner_map st) g = lg_owner lg !! g;
  rel_retired : forall k, is_Some (bpf_map_lookup_elem (retired_map st) k) <-> k ∈ lg_retired lg;
  rel_rows : forall c f, lg_frame lg !! c = Some f ->
    is_Some (bpf_map_lookup_elem (wait_agg_map st) (frame_key f));
  rel_agg : forall key cpu,
    agg_word st key cpu = wait_add_all 0 (log_waits key cpu (lg_log lg));
}.

(** *** Failures are sticky *)

Lemma ic_fail_unhealthy reason error st :
  0 < reason < 2 ^ 32 -> iocost_unhealthy (iocost_fail reason error st) = true.
Proof. apply status_fail_unhealthy. Qed.

Lemma ic_healthy_fail reason error st :
  0 < reason < 2 ^ 32 -> iocost_unhealthy (iocost_fail reason error st) = false -> False.
Proof. intros Hr. by rewrite ic_fail_unhealthy. Qed.

Lemma store_frame_unhealthy c f st : iocost_unhealthy (store_frame c f st) = iocost_unhealthy st.
Proof. done. Qed.

Ltac unhealthy_tac :=
  repeat (case_match; simplify_eq/=);
  first [done | by rewrite ic_fail_unhealthy by done | by unfold iocost_unhealthy in *].

Lemma classify_sticky ret st :
  iocost_unhealthy st = true -> iocost_unhealthy (iocost_classify_pending_update_ret ret st) = true.
Proof.
  intros H. unfold iocost_classify_pending_update_ret. destruct (ctrue ret); [|done].
  rewrite ic_fail_unhealthy; [done|by case_if].
Qed.

Lemma ic_owner_sticky kr iocg bio st :
  iocost_unhealthy st = true -> iocost_unhealthy (snd (iocost_ensure_owner kr iocg bio st)) = true.
Proof. intros H. unfold iocost_ensure_owner. unhealthy_tac. Qed.

Lemma aggregate_sticky cpu key st :
  iocost_unhealthy st = true -> iocost_unhealthy (snd (iocost_ensure_aggregate cpu key st)) = true.
Proof. intros H. unfold iocost_ensure_aggregate. unhealthy_tac. Qed.

Lemma ic_delete_pending_sticky bio st :
  iocost_unhealthy st = true -> iocost_unhealthy (snd (iocost_delete_pending bio st)) = true.
Proof. intros H. unfold iocost_delete_pending. unhealthy_tac. Qed.

Lemma ic_retire_sticky o st :
  iocost_unhealthy st = true -> iocost_unhealthy (iocost_retire_aggregate o st) = true.
Proof. intros H. unfold iocost_retire_aggregate. unhealthy_tac. Qed.

Lemma ic_step_sticky cfg kr e st :
  iocost_unhealthy st = true -> iocost_unhealthy (ic_step cfg kr e st) = true.
Proof.
  intros H. destruct e as [caller iocg now|cpu wq ctx now|cpu rc|pd|names d]; simpl.
  - unfold kprobe_iocg_kick_waitq. rewrite H. unhealthy_tac.
  - unfold kprobe_iocg_wake_fn. destruct (iocost_wake_frame_of cpu st); [|by rewrite ic_fail_unhealthy].
    by rewrite store_frame_unhealthy, H.
  - unfold kretprobe_iocg_wake_fn.
    repeat (case_match; simplify_eq/=); rewrite ?store_frame_unhealthy;
      try unhealthy_tac. by apply classify_sticky.
  - unfold kprobe_ioc_pd_free. repeat (case_match; simplify_eq/=); try unhealthy_tac.
    change (iocost_unhealthy (set_owner_map ?x ?y)) with (iocost_unhealthy x). by apply ic_retire_sticky.
  - unfold iocost_unhealthy. simpl. by rewrite device_hook_unhealthy.
Qed.

Lemma ic_step_healthy cfg kr e st :
  iocost_unhealthy (ic_step cfg kr e st) = false -> iocost_unhealthy st = false.
Proof.
  intros H. destruct (iocost_unhealthy st) eqn:E; [|done]. by rewrite ic_step_sticky in H.
Qed.

Lemma ic_run_sticky cfg events st :
  iocost_unhealthy st = true -> iocost_unhealthy (ic_run cfg events st) = true.
Proof.
  revert st. induction events as [|[kr e] rest IH]; intros st H; [done|].
  simpl. apply IH. by apply ic_step_sticky.
Qed.

(** *** Helpers that stay healthy did their work *)

Lemma ic_delete_pending_healthy bio st :
  iocost_unhealthy (snd (iocost_delete_pending bio st)) = false ->
  exists m, iocost_delete_pending bio st = (true, set_pending_map st m) /\
    forall k, bpf_map_lookup_elem m k =
      if decide (bio = k) then None else bpf_map_lookup_elem (pending_map st) k.
Proof.
  unfold iocost_delete_pending. pose proof (delete_ok (pending_map st) bio) as H.
  destruct (bpf_map_delete_elem _ bio) as [ret m]. simpl in *.
  destruct (ctrue ret) eqn:E; simpl; [intros F; by apply ic_healthy_fail in F|].
  intros _. exists m. split; [done|]. intros k. apply H. by zify_bools.
Qed.

Lemma ic_retire_healthy o st :
  iocost_unhealthy (iocost_retire_aggregate o st) = false ->
  exists m, iocost_retire_aggregate o st = set_retired_map st m /\
    forall k, is_Some (bpf_map_lookup_elem m k) <->
      k = owner_retired_key o \/ is_Some (bpf_map_lookup_elem (retired_map st) k).
Proof.
  unfold iocost_retire_aggregate.
  pose proof (bm_noexist_done (retired_map st) (owner_retired_key o) 1) as H.
  destruct (bpf_map_update_elem _ _ _ _) as [ret m]. simpl in *.
  destruct (_ && _) eqn:E; simpl; [intros F; by apply ic_healthy_fail in F|].
  intros _. exists m. split; [done|]. intros k. apply H.
  unfold EEXIST, IOCOST_EEXIST in *. zify_bools. destruct E; zify_bools; auto.
Qed.

Lemma ic_owner_healthy kr iocg bio st lg :
  (forall g, bpf_map_lookup_elem (owner_map st) g = lg_owner lg !! g) ->
  iocost_unhealthy (snd (iocost_ensure_owner kr iocg bio st)) = false ->
  exists o m, iocost_ensure_owner kr iocg bio st = (Some o, set_owner_map st m) /\
    spec_owner kr iocg bio lg = Some o /\
    forall g, bpf_map_lookup_elem m g = <[iocg := o]> (lg_owner lg) !! g.
Proof.
  intros R. unfold iocost_ensure_owner, spec_owner. rewrite <- R.
  destruct (bpf_map_lookup_elem (owner_map st) iocg) as [o|] eqn:Ho.
  { intros _. exists o, (owner_map st). split_and!; [by destruct st|done|].
    intros k. rewrite lookup_insert. case_decide; subst; [done|apply R]. }
  destruct (initial_owner kr iocg bio) as [o|]; [|intros F; by apply ic_healthy_fail in F].
  pose proof (bm_noexist_ok (owner_map st) iocg o) as Hok.
  pose proof (update_eexist (owner_map st) iocg o BPF_NOEXIST) as Hex.
  destruct (bpf_map_update_elem _ _ _ _) as [ret m]. simpl in *.
  destruct (_ && _) eqn:E; [intros F; by apply ic_healthy_fail in F|].
  assert (ret = 0) as Hr.
  { zify_bools. unfold EEXIST, IOCOST_EEXIST in *. destruct E; zify_bools; [done|].
    destruct Hex as [_ [? ?]]; [done|congruence]. }
  destruct (Hok Hr) as [_ Hk]. rewrite Hk, decide_True by done. intros _.
  exists o, m. split_and!; [done..|]. intros k. rewrite Hk, lookup_insert.
  case_decide; [done|apply R].
Qed.

Lemma aggregate_healthy cpu key st :
  iocost_unhealthy (snd (iocost_ensure_aggregate cpu key st)) = false ->
  exists m, iocost_ensure_aggregate cpu key st = (true, set_wait_agg_map st m) /\
    (forall k c, row_word m k c = agg_word st k c) /\
    (forall k, k = key \/ is_Some (bpf_map_lookup_elem (wait_agg_map st) k) ->
       is_Some (bpf_map_lookup_elem m k)).
Proof.
  unfold iocost_ensure_aggregate.
  destruct (bpf_map_lookup_elem (wait_agg_map st) key) as [slots|] eqn:Hk.
  { intros _. exists (wait_agg_map st). split_and!; [by destruct st|done|].
    intros k [->|]; [by rewrite Hk|done]. }
  pose proof (row_word_create (wait_agg_map st) key cpu) as Hw.
  pose proof (bm_noexist_done (wait_agg_map st) key (percpu_set ∅ cpu 0)) as Hd.
  destruct (bpf_map_update_elem _ _ _ _) as [ret m]. simpl in *.
  destruct (_ && _) eqn:E; [intros F; by apply ic_healthy_fail in F|]. intros _.
  exists m. split_and!; [done..|]. intros k Hor. apply Hd; [|done].
  zify_bools. unfold EEXIST, IOCOST_EEXIST in *. destruct E; zify_bools; auto.
Qed.

(** *** Each probe refines its ledger step *)

Ltac rel_split R := destruct R as [Rp Rf Ra Ro Rr Rw Rg]; split; simpl; try done.

Lemma kick_refines cfg kr caller iocg now st lg :
  ic_rel st lg ->
  iocost_unhealthy (kprobe_iocg_kick_waitq cfg kr caller iocg now st) = false ->
  exists lg', spec_kick cfg kr caller iocg now lg = Some lg' /\
    ic_rel (kprobe_iocg_kick_waitq cfg kr caller iocg now st) lg'.
Proof.
  intros R. unfold kprobe_iocg_kick_waitq, spec_kick.
  destruct (negb _); [eauto|].
  destruct (iocost_unhealthy st) eqn:Hu; [congruence|].
  destruct (_ =? 0); [intros F; by apply ic_healthy_fail in F|].
  destruct (iocost_read_bio _ _) as [r op].
  destruct (r =? 0); [eauto|]. destruct (r <? 0); [intros F; by apply ic_healthy_fail in F|].
  set (bio := iocost_tail_waiter kr iocg).
  pose proof (update_ok (pending_map st) bio (Pending now op 0) BPF_ANY) as Hok.
  destruct (bpf_map_update_elem _ _ _ _) as [ret m]. simpl in *.
  unfold iocost_classify_pending_update_ret.
  destruct (ctrue ret) eqn:Er; [intros F; apply ic_healthy_fail in F; [done|by case_if]|].
  intros _. zify_bools. eexists. split; [done|].
  rel_split R. intros b. rewrite Hok, lookup_insert by done. by case_decide.
Qed.

Lemma wake_identity_bio kr wq ctx iocg bio :
  wake_identity kr wq ctx = Some (iocg, bio) -> bio <> 0.
Proof.
  unfold wake_identity, read_nonzero. intros H.
  repeat (case_match || simplify_option_eq); by zify_bools.
Qed.

(** A publication that stays healthy moved the sample from the pending map to
    the frame and prepared its owner and row. *)
Lemma wake_publish_healthy kr cpu iocg bio f st lg :
  (forall g, bpf_map_lookup_elem (owner_map st) g = lg_owner lg !! g) ->
  iocost_unhealthy (wake_publish kr cpu iocg bio f st) = false ->
  exists o mo ma mp f2, spec_owner kr iocg bio lg = Some o /\
    (forall g, bpf_map_lookup_elem mo g = <[iocg := o]> (lg_owner lg) !! g) /\
    (forall k, bpf_map_lookup_elem mp k =
       if decide (bio = k) then None else bpf_map_lookup_elem (pending_map st) k) /\
    (forall k c, row_word ma k c = agg_word st k c) /\
    (forall k, k = owner_wait_key o (operation (frame_pending f)) \/
       is_Some (bpf_map_lookup_elem (wait_agg_map st) k) -> is_Some (bpf_map_lookup_elem ma k)) /\
    wake_publish kr cpu iocg bio f st =
      store_frame cpu
        (Frame bio (end_ns f) (frame_pending f) (owner_wait_key o (operation (frame_pending f))))
        (set_pending_map (set_wait_agg_map (store_frame cpu f2 (set_owner_map st mo)) ma) mp).
Proof.
  intros R Hh. unfold wake_publish in *.
  assert (Hs : forall b k st1, iocost_unhealthy st1 = true ->
     iocost_unhealthy (let '(e, st2) := iocost_ensure_aggregate cpu k st1 in
       if negb e then st2 else let '(d, st3) := iocost_delete_pending bio st2 in
       if negb d then store_frame cpu b st3
       else store_frame cpu (Frame bio (end_ns f) (frame_pending f) k) st3) = true).
  { intros b k st1 H. apply (aggregate_sticky cpu k) in H.
    destruct (iocost_ensure_aggregate _ _ _) as [[] st2]; simpl in *; [|done].
    apply (ic_delete_pending_sticky bio) in H.
    by destruct (iocost_delete_pending _ _) as [[] st3]. }
  destruct (iocost_unhealthy (snd (iocost_ensure_owner kr iocg bio st))) eqn:Ho.
  { exfalso. destruct (iocost_ensure_owner _ _ _ _) as [[o|] st1]; simpl in *; [|congruence].
    rewrite Hs in Hh; done. }
  destruct (ic_owner_healthy kr iocg bio _ lg R Ho) as (o & mo & Heq & Hspec & Hmo).
  rewrite Heq in Hh |- *. simpl in Hh |- *. clear Ho Heq.
  set (f2 := Frame _ _ _ (owner_wait_key o _)) in *. set (st1 := store_frame cpu f2 _) in *.
  set (key := owner_wait_key o _) in *.
  destruct (iocost_unhealthy (snd (iocost_ensure_aggregate cpu key st1))) eqn:Ha.
  { exfalso. destruct (iocost_ensure_aggregate _ _ _) as [[] st2]; simpl in *; [|congruence].
    apply (ic_delete_pending_sticky bio) in Ha.
    destruct (iocost_delete_pending _ _) as [[] st3]; simpl in *;
      rewrite store_frame_unhealthy in Hh; congruence. }
  destruct (aggregate_healthy _ _ _ Ha) as (ma & Heq & Hw & Hrow). rewrite Heq in Hh |- *.
  clear Ha Heq. simpl in Hh |- *.
  destruct (iocost_unhealthy (snd (iocost_delete_pending bio (set_wait_agg_map st1 ma)))) eqn:Hd.
  { exfalso. destruct (iocost_delete_pending _ _) as [[] st3]; simpl in *;
      rewrite store_frame_unhealthy in Hh; congruence. }
  destruct (ic_delete_pending_healthy _ _ Hd) as (mp & Heq & Hp). rewrite Heq. simpl.
  exists o, mo, ma, mp, f2. split_and!; try done.
Qed.

Lemma wake_entry_refines kr cpu wq ctx now st lg :
  ic_rel st lg -> iocost_unhealthy st = false ->
  iocost_unhealthy (kprobe_iocg_wake_fn kr cpu wq ctx now st) = false ->
  exists lg', spec_wake_entry kr cpu wq ctx now lg = Some lg' /\
    ic_rel (kprobe_iocg_wake_fn kr cpu wq ctx now st) lg'.
Proof.
  intros R Hu. unfold kprobe_iocg_wake_fn, spec_wake_entry.
  destruct (iocost_wake_frame_of cpu st) as [f|] eqn:Hf; [|intros F; by apply ic_healthy_fail in F].
  rewrite store_frame_unhealthy, Hu.
  destruct (wake_identity kr wq ctx) as [[iocg bio]|] eqn:Hid; simpl;
    [|intros F; by apply ic_healthy_fail in F].
  rewrite (rel_pending _ _ R). destruct (lg_pending lg !! bio) as [p|] eqn:Hp; cycle 1.
  { intros _. eexists. split; [done|]. rel_split R.
    - destruct Rf as [fs Hfs]. by rewrite Hfs.
    - intros c. rewrite active_store, lookup_delete by done. by case_decide.
    - intros c f0 [_ Hc]%lookup_delete_Some. eauto. }
  destruct (_ || _); [intros F; by apply ic_healthy_fail in F|].
  set (f1 := Frame _ now p _). set (st1 := store_frame cpu f1 _). intros Hh.
  destruct (wake_publish_healthy kr cpu iocg bio f1 st1 lg (rel_owner _ _ R) Hh)
    as (o & mo & ma & mp & f2 & Ho & Hmo & Hmp & Hma & Hrow & ->).
  rewrite Ho. simpl. eexists. split; [done|]. rel_split R.
  - intros b. rewrite Hmp, lookup_delete. simpl. by case_decide.
  - destruct Rf as [fs Hfs]. by rewrite Hfs.
  - intros c. apply wake_identity_bio in Hid. destruct Rf as [fs Hfs].
    unfold active, iocost_wake_frame_of in *. specialize (Ra c). simpl. rewrite Hfs in *. simpl in *.
    rewrite !percpu_get_set, lookup_insert. case_decide; [|done].
    unfold frame_sample. simpl. by rewrite (proj2 (Z.eqb_neq _ _)).
  - intros c f0. rewrite lookup_insert_Some. intros [[_ <-]|[_ Hc]]; apply Hrow; simpl; eauto.
  - intros k c. unfold agg_word. simpl. rewrite Hma. apply Rg.
Qed.

Lemma active_frame st c f : active st c = Some f ->
  iocost_wake_frame_of c st = Some f /\ bio_ptr f <> 0.
Proof.
  unfold active, frame_sample. intros. simplify_option_eq. case_match; simplify_eq. by zify_bools.
Qed.

Lemma idle_return_nop cpu rc st :
  is_Some (wake_frames st) -> active st cpu = None -> kretprobe_iocg_wake_fn cpu rc st = st.
Proof.
  intros [fs Hfs]. unfold kretprobe_iocg_wake_fn, active, frame_sample, iocost_wake_frame_of.
  rewrite Hfs. simpl. by destruct (bio_ptr _ =? 0).
Qed.

Lemma active_cleared st lg c f m :
  ic_rel st lg -> wake_frames m = wake_frames st ->
  forall c', active (store_frame c (iocost_clear_wake_frame f) m) c' =
    delete c (lg_frame lg) !! c'.
Proof.
  intros R Hw c'. rewrite active_store by (rewrite Hw; apply R). rewrite lookup_delete.
  case_decide; [done|]. rewrite <- (rel_active _ _ R). unfold active, iocost_wake_frame_of.
  by rewrite Hw.
Qed.

Lemma wake_return_refines cpu rc st lg :
  ic_rel st lg -> clocks_ok lg ->
  iocost_unhealthy (kretprobe_iocg_wake_fn cpu rc st) = false ->
  exists lg', spec_wake_return cpu rc lg = Some lg' /\
    ic_rel (kretprobe_iocg_wake_fn cpu rc st) lg'.
Proof.
  intros R [_ Hclk]. unfold kretprobe_iocg_wake_fn, spec_wake_return.
  pose proof (rel_active _ _ R cpu) as Hact.
  destruct (iocost_wake_frame_of cpu st) as [f|] eqn:Hf; [|intros F; by apply ic_healthy_fail in F].
  destruct (bio_ptr f =? 0) eqn:Eb.
  { unfold active, frame_sample in Hact. rewrite Hf in Hact. simpl in Hact. rewrite Eb in Hact.
    rewrite <- Hact. eauto. }
  assert (Hl : lg_frame lg !! cpu = Some f).
  { rewrite <- Hact. unfold active, frame_sample. rewrite Hf. simpl. by rewrite Eb. }
  rewrite Hl. destruct (Hclk _ _ Hl) as [Hst Hen].
  pose proof (active_cleared st lg cpu f) as Hcl.
  assert (Hrows : forall c f0, delete cpu (lg_frame lg) !! c = Some f0 ->
            is_Some (bpf_map_lookup_elem (wait_agg_map st) (frame_key f0))).
  { intros c f0 [_ Hc]%lookup_delete_Some. by eapply rel_rows. }
  destruct (s32 rc =? -1).
  - pose proof (bm_noexist_ok (pending_map st) (bio_ptr f) (frame_pending f)) as Hok.
    destruct (bpf_map_update_elem _ _ _ _) as [ret m]. simpl in *.
    unfold iocost_classify_pending_update_ret. rewrite store_frame_unhealthy.
    destruct (ctrue ret) eqn:Er; [intros F; apply ic_healthy_fail in F; [done|by case_if]|].
    intros _. zify_bools. destruct (Hok Er) as [Hn Hk]. rewrite (rel_pending _ _ R) in Hn.
    rewrite Hn. eexists. split; [done|]. specialize (Hcl (set_pending_map st m) R eq_refl).
    rel_split R; [|destruct Rf as [fs Hfs]; by rewrite Hfs].
    intros b. rewrite Hk, lookup_insert. by case_decide.
  - destruct (negb _); [rewrite store_frame_unhealthy; intros F; by apply ic_healthy_fail in F|].
    destruct (rel_rows _ _ R _ _ Hl) as [slots Hs]. rewrite Hs.
    destruct (Z.ltb_spec (end_ns f) (start_ns (frame_pending f)));
      [rewrite store_frame_unhealthy; intros F; by apply ic_healthy_fail in F|].
    intros _. eexists. split; [done|]. rewrite u64_sub_exact by done.
    set (v := io_control_wait_add _ _). set (m := map_store _ _ _).
    specialize (Hcl (set_wait_agg_map st m) R eq_refl).
    assert (Hv : v = io_control_wait_add (agg_word st (frame_key f) cpu)
                       (end_ns f - start_ns (frame_pending f))).
    { unfold agg_word, row_word. by rewrite Hs. }
    rel_split R; [destruct Rf as [fs Hfs]; by rewrite Hfs|..].
    + intros c f0 Hc. subst m. rewrite store_lookup by by rewrite Hs. case_decide; eauto.
    + intros k c. unfold agg_word. simpl. subst m. rewrite (row_word_store _ _ _ _ _ _ _ Hs).
      rewrite log_waits_snoc. fold (agg_word st k c). rewrite Hv, !Rg.
      case_decide; simplify_eq; [|by rewrite app_nil_r].
      unfold wait_add_all. by rewrite fold_left_app.
Qed.

Lemma ic_pd_free_refines kr pd st lg :
  ic_rel st lg -> iocost_unhealthy (kprobe_ioc_pd_free kr pd st) = false ->
  exists lg', spec_pd_free kr pd lg = Some lg' /\ ic_rel (kprobe_ioc_pd_free kr pd st) lg'.
Proof.
  intros R. unfold kprobe_ioc_pd_free, spec_pd_free.
  destruct (pd =? 0); [eauto|]. destruct (_ <? _); [intros F; by apply ic_healthy_fail in F|].
  set (iocg := _ -64 _). rewrite (rel_owner _ _ R).
  destruct (lg_owner lg !! iocg) as [o|]; [|eauto].
  destruct (iocost_unhealthy (iocost_retire_aggregate o st)) eqn:Hr.
  { destruct (bpf_map_delete_elem _ iocg) as [ret m]. case_if; intros F; exfalso.
    - by apply ic_healthy_fail in F.
    - change (iocost_unhealthy (set_owner_map ?x m)) with (iocost_unhealthy x) in F. congruence. }
  destruct (ic_retire_healthy _ _ Hr) as (mr & -> & Hmr). simpl.
  pose proof (delete_ok (owner_map st) iocg) as Hd.
  destruct (bpf_map_delete_elem _ iocg) as [ret m]. simpl in *.
  destruct (ctrue ret) eqn:Er; [intros F; by apply ic_healthy_fail in F|].
  intros _. zify_bools. eexists. split; [done|]. rel_split R.
  - intros g. rewrite Hd, lookup_delete by done. by case_decide.
  - intros k. rewrite Hmr, Rr. set_solver.
Qed.

Lemma ic_step_refines cfg kr e st lg :
  ic_rel st lg -> clocks_ok lg -> iocost_unhealthy (ic_step cfg kr e st) = false ->
  exists lg', spec_step cfg kr e lg = Some lg' /\ ic_rel (ic_step cfg kr e st) lg'.
Proof.
  intros R Hc Hh. pose proof (ic_step_healthy _ _ _ _ Hh) as Hu. destruct e; simpl in *.
  - by apply kick_refines.
  - by apply wake_entry_refines.
  - by apply wake_return_refines.
  - by apply ic_pd_free_refines.
  - eexists. split; [done|]. by rel_split R.
Qed.

Lemma ic_run_refines cfg events st lg :
  ic_rel st lg -> clocks_ok lg -> Forall (fun x => event_clock_ok (snd x)) events ->
  iocost_unhealthy (ic_run cfg events st) = false ->
  exists lg', spec_run cfg events lg = Some lg' /\ ic_rel (ic_run cfg events st) lg' /\ clocks_ok lg'.
Proof.
  revert st lg. induction events as [|[kr e] rest IH]; intros st lg R Hs Hc Hh; [by eauto|].
  apply Forall_cons_1 in Hc as [He Hc]. simpl in *.
  destruct (iocost_unhealthy (ic_step cfg kr e st)) eqn:Hu; [by rewrite ic_run_sticky in Hh|].
  destruct (ic_step_refines cfg kr e st lg R Hs Hu) as (lg1 & Hsp & R1).
  rewrite Hsp. simpl. apply IH; eauto using spec_step_clocks.
Qed.

(** *** A consistent run fails only through a helper error *)

Definition helper_error st : Prop := status_helper_error (status st).
Definition ok_or_helper_error st : Prop := status_ok_or_helper (status st).

Lemma ic_fail_helper_error reason err st :
  is_Some (status st) -> - 4095 <= err < 0 -> ok_or_helper_error (iocost_fail reason err st).
Proof. apply status_fail_helper. Qed.

Lemma ic_healthy_ok st : iocost_unhealthy st = false -> ok_or_helper_error st.
Proof. apply status_healthy_ok. Qed.

Lemma classify_ok ret st :
  ok_or_helper_error st -> (ret <> 0 -> - 4095 <= ret < 0) ->
  ok_or_helper_error (iocost_classify_pending_update_ret ret st).
Proof.
  intros H Hr. unfold iocost_classify_pending_update_ret.
  destruct (ctrue ret) eqn:E; zify_bools; [|done]. apply ic_fail_helper_error; [apply H|auto].
Qed.

Lemma ic_owner_ok kr iocg bio st lg :
  (forall g, bpf_map_lookup_elem (owner_map st) g = lg_owner lg !! g) ->
  ok_or_helper_error st -> spec_owner kr iocg bio lg <> None ->
  ok_or_helper_error (snd (iocost_ensure_owner kr iocg bio st)).
Proof.
  intros R H. unfold iocost_ensure_owner, spec_owner. rewrite <- R.
  destruct (bpf_map_lookup_elem (owner_map st) iocg) eqn:Ho; [done|].
  destruct (initial_owner kr iocg bio) as [o|]; [intros _|done].
  pose proof (update_nonzero (owner_map st) iocg o BPF_NOEXIST) as Hn.
  pose proof (bm_noexist_done (owner_map st) iocg o iocg) as Hk.
  destruct (bpf_map_update_elem _ _ _ _) as [ret m]; simpl in *.
  destruct (_ && _) eqn:E; zify_bools; simpl.
  { by apply ic_fail_helper_error; [apply H|apply Hn]. }
  unfold EEXIST, IOCOST_EEXIST in *.
  destruct Hk as [_ Hk]; [by destruct E; zify_bools; auto|].
  destruct Hk as [? ->]; [by left|]. done.
Qed.

Lemma aggregate_ok cpu key st :
  ok_or_helper_error st -> ok_or_helper_error (snd (iocost_ensure_aggregate cpu key st)).
Proof.
  intros H. unfold iocost_ensure_aggregate.
  destruct (bpf_map_lookup_elem (wait_agg_map st) key); [done|].
  pose proof (update_nonzero (wait_agg_map st) key (percpu_set ∅ cpu 0) BPF_NOEXIST) as Hn.
  destruct (bpf_map_update_elem _ _ _ _) as [ret m]; simpl in *.
  destruct (_ && _) eqn:E; zify_bools; simpl; [|done].
  by apply ic_fail_helper_error; [apply H|apply Hn].
Qed.

Lemma ic_delete_pending_ok bio st :
  ok_or_helper_error st -> ok_or_helper_error (snd (iocost_delete_pending bio st)).
Proof.
  intros H. unfold iocost_delete_pending. pose proof (delete_nonzero (pending_map st) bio) as Hn.
  destruct (bpf_map_delete_elem _ _) as [ret m]; simpl in *.
  destruct (ctrue ret) eqn:E; zify_bools; simpl; [|done].
  by apply ic_fail_helper_error; [apply H|apply Hn].
Qed.

Lemma ic_retire_ok o st :
  ok_or_helper_error st -> ok_or_helper_error (iocost_retire_aggregate o st).
Proof.
  intros H. unfold iocost_retire_aggregate.
  pose proof (update_nonzero (retired_map st) (owner_retired_key o) 1 BPF_NOEXIST) as Hn.
  destruct (bpf_map_update_elem _ _ _ _) as [ret m]; simpl in *.
  destruct (_ && _) eqn:E; zify_bools; simpl; [|done].
  by apply ic_fail_helper_error; [apply H|apply Hn].
Qed.

Lemma wake_publish_ok kr cpu iocg bio f st lg :
  (forall g, bpf_map_lookup_elem (owner_map st) g = lg_owner lg !! g) ->
  ok_or_helper_error st -> spec_owner kr iocg bio lg <> None ->
  ok_or_helper_error (wake_publish kr cpu iocg bio f st).
Proof.
  intros R H Ho. unfold wake_publish.
  pose proof (ic_owner_ok kr iocg bio st lg R H Ho) as H1.
  destruct (iocost_ensure_owner _ _ _ _) as [[o|] st1]; [|done]. simpl in *.
  match goal with |- context [iocost_ensure_aggregate cpu ?k ?s] =>
    pose proof (aggregate_ok cpu k s H1) as H2 end.
  destruct (iocost_ensure_aggregate _ _ _) as [[] st2]; [|done]. simpl in *.
  pose proof (ic_delete_pending_ok bio st2 H2) as H3.
  by destruct (iocost_delete_pending _ _) as [[] st3].
Qed.

Lemma wake_entry_ok kr cpu wq ctx now st lg :
  ic_rel st lg -> iocost_unhealthy st = false ->
  is_Some (spec_wake_entry kr cpu wq ctx now lg) ->
  ok_or_helper_error (kprobe_iocg_wake_fn kr cpu wq ctx now st).
Proof.
  intros R Hu. pose proof (ic_healthy_ok st Hu) as Hok.
  unfold spec_wake_entry, kprobe_iocg_wake_fn.
  destruct (rel_frames _ _ R) as [fs Hfs].
  unfold iocost_wake_frame_of. rewrite Hfs. simpl. rewrite store_frame_unhealthy, Hu.
  destruct (wake_identity kr wq ctx) as [[iocg bio]|]; [|by intros []]. simpl.
  rewrite (rel_pending _ _ R). destruct (lg_pending lg !! bio); [|done].
  destruct (_ || _); [by intros []|].
  destruct (spec_owner _ _ _ _) eqn:Eo; [intros _|by intros []].
  by apply (wake_publish_ok _ _ _ _ _ _ lg); [apply R| |congruence].
Qed.

Lemma ic_step_ok cfg kr e st lg :
  ic_rel st lg -> iocost_unhealthy st = false -> is_Some (spec_step cfg kr e lg) ->
  ok_or_helper_error (ic_step cfg kr e st).
Proof.
  intros R Hu Hs. pose proof (ic_healthy_ok st Hu) as Hok.
  destruct e as [caller iocg now|cpu wq ctx now|cpu rc|pd|names d]; simpl in *.
  - revert Hs. unfold spec_kick, kprobe_iocg_kick_waitq. rewrite Hu.
    destruct (negb _); [done|]. destruct (_ =? 0); [by intros []|].
    destruct (iocost_read_bio _ _) as [r op]. destruct (r =? 0); [done|].
    destruct (r <? 0); [by intros []|]. intros _.
    set (bio := iocost_tail_waiter kr iocg).
    pose proof (update_nonzero (pending_map st) bio (Pending now op 0) BPF_ANY) as Hn.
    destruct (bpf_map_update_elem _ _ _ _) as [ret m]. by apply classify_ok.
  - by eapply wake_entry_ok.
  - revert Hs. unfold spec_wake_return, kretprobe_iocg_wake_fn.
    destruct (rel_frames _ _ R) as [fs Hfs]. rewrite <- (rel_active _ _ R).
    unfold active, iocost_wake_frame_of. rewrite Hfs. simpl.
    set (f := percpu_get _ _ _). unfold frame_sample. destruct (bio_ptr f =? 0); [done|].
    destruct (s32 rc =? -1); [intros _|].
    + pose proof (update_nonzero (pending_map st) (bio_ptr f) (frame_pending f) BPF_NOEXIST) as Hn.
      destruct (bpf_map_update_elem _ _ _ _) as [ret m]. by apply classify_ok.
    + destruct (negb _); [by intros []|]. destruct (_ <? _); [by intros []|]. intros _.
      by destruct (bpf_map_lookup_elem _ _).
  - revert Hs. unfold spec_pd_free, kprobe_ioc_pd_free. destruct (pd =? 0); [done|].
    destruct (_ <? _); [by intros []|]. intros _. set (iocg := _ -64 _).
    destruct (bpf_map_lookup_elem (owner_map st) iocg) as [o|]; [|done].
    pose proof (ic_retire_ok o st Hok) as Hr.
    pose proof (delete_nonzero (owner_map (iocost_retire_aggregate o st)) iocg) as Hn.
    destruct (bpf_map_delete_elem _ iocg) as [ret m]. simpl in *.
    destruct (ctrue ret) eqn:E; zify_bools; [|done]. apply ic_fail_helper_error; [apply Hr|auto].
  - apply ic_healthy_ok. unfold iocost_unhealthy. simpl. by rewrite device_hook_unhealthy.
Qed.

(** *** After a failure no sample enters a frame *)

Lemma unhealthy_active cfg kr e st c f :
  iocost_unhealthy st = true -> active (ic_step cfg kr e st) c = Some f -> active st c = Some f.
Proof.
  intros Hu. destruct (wake_frames st) as [fs|] eqn:Hfs; cycle 1.
  { assert (Hn : forall st', wake_frames st' = None -> active st' c = None).
    { intros st' Hs. unfold active, iocost_wake_frame_of. by rewrite Hs. }
    rewrite Hn; [done|].
    destruct e; simpl; unfold kprobe_iocg_kick_waitq, kprobe_iocg_wake_fn, kretprobe_iocg_wake_fn,
      kprobe_ioc_pd_free, iocost_wake_frame_of, iocost_retire_aggregate; rewrite ?Hu, ?Hfs; simpl;
      repeat (case_match; simplify_eq/=); done. }
  assert (Hcl : forall st' cpu f', wake_frames st' = wake_frames st ->
     active (store_frame cpu (iocost_clear_wake_frame f') st') c = Some f -> active st c = Some f).
  { intros st' cpu f' Hs. rewrite active_store by (rewrite Hs, Hfs; done). case_decide; [done|].
    unfold active, iocost_wake_frame_of. by rewrite Hs. }
  destruct e; simpl.
  - unfold kprobe_iocg_kick_waitq. rewrite Hu. by case_match.
  - unfold kprobe_iocg_wake_fn, iocost_wake_frame_of. rewrite Hfs. simpl.
    rewrite store_frame_unhealthy, Hu. by apply Hcl.
  - unfold kretprobe_iocg_wake_fn, iocost_classify_pending_update_ret.
    repeat (case_match; simplify_eq/=); try done; by apply Hcl.
  - unfold kprobe_ioc_pd_free, iocost_retire_aggregate.
    repeat (case_match; simplify_eq/=); done.
  - done.
Qed.

(** ** Theorems *)

(** All maps empty, all frames idle and the status healthy. *)
Definition ic_loaded st : Prop :=
  iocost_unhealthy st = false /\ wake_frames st = Some ∅ /\
  (forall k, bpf_map_lookup_elem (owner_map st) k = None) /\
  (forall k, bpf_map_lookup_elem (retired_map st) k = None) /\
  (forall k, bpf_map_lookup_elem (pending_map st) k = None) /\
  (forall k, bpf_map_lookup_elem (wait_agg_map st) k = None).

Lemma ic_loaded_rel st : ic_loaded st -> ic_rel st empty_ledger.
Proof.
  intros (_ & Hf & Ho & Hr & Hp & Ha). split; simpl.
  - intros. by rewrite Hp, lookup_empty.
  - by rewrite Hf.
  - intros. unfold active, iocost_wake_frame_of. by rewrite Hf, lookup_empty.
  - intros. by rewrite Ho, lookup_empty.
  - intros. rewrite Hr. split; [by intros []|set_solver].
  - intros c f. by rewrite lookup_empty.
  - intros. unfold agg_word, row_word. by rewrite Ha.
Qed.

Lemma empty_clocks : clocks_ok empty_ledger.
Proof. split; intros ? ?; simpl; by rewrite lookup_empty. Qed.

(** C5: refinement of the iocost ledger.  If the status is healthy after a run,
    for any interleaving of kicks, wake entries and returns on any CPUs and any
    map behaviour, then the run was consistent, the pending and owner maps and
    the active frames are those of the ledger, and every packed word holds the
    waits the ledger settled for its key and CPU, each once. *)
Theorem iocost_healthy_run_is_ledger cfg events st :
  ic_loaded st -> Forall (fun x => event_clock_ok (snd x)) events ->
  iocost_unhealthy (ic_run cfg events st) = false ->
  exists lg, spec_run cfg events empty_ledger = Some lg /\ ic_rel (ic_run cfg events st) lg.
Proof.
  intros Hl Hc Hh.
  destruct (ic_run_refines cfg events st empty_ledger) as (lg & ? & ? & _); eauto using ic_loaded_rel, empty_clocks.
Qed.

(** C25: no false alarm in the iocost tracer.  A run the ledger accepts stays
    healthy unless a map helper returned an error at some step, whose code the
    status then shows. *)
Theorem iocost_fails_only_on_helper_error cfg events lg st :
  ic_loaded st -> Forall (fun x => event_clock_ok (snd x)) events ->
  spec_run cfg events empty_ledger = Some lg ->
  iocost_unhealthy (ic_run cfg events st) = false \/
  exists pre kr e post, events = pre ++ (kr, e) :: post /\
    iocost_unhealthy (ic_run cfg pre st) = false /\
    helper_error (ic_step cfg kr e (ic_run cfg pre st)).
Proof.
  intros Hl Hc. pose proof (ic_loaded_rel _ Hl) as R. destruct Hl as [Hu _].
  pose proof empty_clocks as Hs. revert st R Hs Hu Hc. generalize empty_ledger as lg0.
  induction events as [|[kr e] rest IH]; intros lg0 st R Hs Hu Hc; [by left|].
  apply Forall_cons_1 in Hc as [He Hc]. simpl in *.
  destruct (spec_step cfg kr e lg0) as [lg1|] eqn:Es; simpl; [|done]. intros Hrun.
  pose proof (ic_step_ok cfg kr e st lg0 R Hu ltac:(by rewrite Es)) as [_ Hok].
  destruct (iocost_unhealthy (ic_step cfg kr e st)) eqn:Hu1.
  { right. exists [], kr, e, rest. split_and!; [done..|]. by apply Hok. }
  destruct (ic_step_refines cfg kr e st lg0 R Hs Hu1) as (lg1' & Es' & R1). simplify_eq.
  destruct (IH lg1 (ic_step cfg kr e st)) as [|(pre & kr' & e' & post & -> & ?)];
    eauto using spec_step_clocks.
  right. by exists ((kr, e) :: pre), kr', e', post.
Qed.

(** A declined wake is a round trip.  When the callback of a wake entry
    returns -1 and the status is still healthy, the pending record of every bio
    and every packed word are what they were before the entry, and the CPU's
    frame is idle again. *)
Theorem declined_wake_restores cfg events st kr kr' cpu wq ctx now rc :
  ic_loaded st -> Forall (fun x => event_clock_ok (snd x)) events -> is_u64 now -> s32 rc = -1 ->
  let st0 := ic_run cfg events st in
  let st2 := ic_step cfg kr' (WakeReturn cpu rc) (ic_step cfg kr (WakeEntry cpu wq ctx now) st0) in
  iocost_unhealthy st2 = false ->
  (forall b, bpf_map_lookup_elem (pending_map st2) b = bpf_map_lookup_elem (pending_map st0) b) /\
  (forall key c, agg_word st2 key c = agg_word st0 key c) /\
  active st2 cpu = None.
Proof.
  intros Hl Hc Hn Hrc st0 st2 Hh.
  pose proof (ic_step_healthy _ _ _ _ Hh) as Hh1. pose proof (ic_step_healthy _ _ _ _ Hh1) as Hh0.
  destruct (ic_run_refines cfg events st empty_ledger) as (lg0 & _ & R0 & C0);
    eauto using ic_loaded_rel, empty_clocks.
  destruct (ic_step_refines _ _ _ _ _ R0 C0 Hh1) as (lg1 & E1 & R1).
  pose proof (spec_step_clocks cfg kr (WakeEntry cpu wq ctx now) _ _ C0 Hn E1) as C1.
  destruct (ic_step_refines _ _ _ _ _ R1 C1 Hh) as (lg2 & E2 & R2).
  assert (H : lg_pending lg2 = lg_pending lg0 /\ lg_log lg2 = lg_log lg0 /\ lg_frame lg2 !! cpu = None).
  { simpl in E1, E2. unfold spec_wake_entry in E1. unfold spec_wake_return in E2. rewrite Hrc in E2.
    destruct (wake_identity kr wq ctx) as [[iocg bio]|]; simplify_eq/=.
    destruct (lg_pending lg0 !! bio) as [p|] eqn:Hp.
    - destruct (_ || _); [done|]. destruct (spec_owner _ _ _ _); simplify_eq/=.
      rewrite lookup_insert_eq in E2. simpl in E2. rewrite lookup_delete_eq in E2. simplify_eq/=.
      rewrite insert_delete_id by done. by rewrite lookup_delete_eq.
    - simplify_eq/=. rewrite lookup_delete_eq in E2. simplify_eq/=. by rewrite lookup_delete_eq. }
  destruct H as (Hp & Hg & Hf). split_and!; intros.
  - by rewrite (rel_pending _ _ R2), (rel_pending _ _ R0), Hp.
  - by rewrite (rel_agg _ _ R2), (rel_agg _ _ R0), Hg.
  - by rewrite (rel_active _ _ R2).
Qed.

(** An accepted wake settles its sample exactly once.  When a bio waits since
    [start_ns p] and the callback of its wake entry at [now] returns 0 with a
    healthy status, the wait [now - start_ns p] is added to one word of this CPU,
    under a key with the bio's operation, all other words are unchanged, the bio
    is no longer pending, and a second return changes nothing. *)
Theorem accepted_wake_settles_once cfg events st kr kr' cpu wq ctx now rc iocg bio p :
  ic_loaded st -> Forall (fun x => event_clock_ok (snd x)) events -> is_u64 now -> s32 rc = 0 ->
  let st0 := ic_run cfg events st in
  let st2 := ic_step cfg kr' (WakeReturn cpu rc) (ic_step cfg kr (WakeEntry cpu wq ctx now) st0) in
  wake_identity kr wq ctx = Some (iocg, bio) ->
  bpf_map_lookup_elem (pending_map st0) bio = Some p ->
  iocost_unhealthy st2 = false ->
  start_ns p <= now /\
  (exists key, wk_operation key = operation p /\
    forall k c, agg_word st2 k c =
      if decide ((key, cpu) = (k, c))
      then io_control_wait_add (agg_word st0 k c) (now - start_ns p) else agg_word st0 k c) /\
  bpf_map_lookup_elem (pending_map st2) bio = None /\
  ic_step cfg kr' (WakeReturn cpu rc) st2 = st2.
Proof.
  intros Hl Hc Hn Hrc st0 st2 Hid Hpd Hh.
  pose proof (ic_step_healthy _ _ _ _ Hh) as Hh1. pose proof (ic_step_healthy _ _ _ _ Hh1) as Hh0.
  destruct (ic_run_refines cfg events st empty_ledger) as (lg0 & _ & R0 & C0);
    eauto using ic_loaded_rel, empty_clocks.
  destruct (ic_step_refines _ _ _ _ _ R0 C0 Hh1) as (lg1 & E1 & R1).
  pose proof (spec_step_clocks cfg kr (WakeEntry cpu wq ctx now) _ _ C0 Hn E1) as C1.
  destruct (ic_step_refines _ _ _ _ _ R1 C1 Hh) as (lg2 & E2 & R2).
  rewrite (rel_pending _ _ R0) in Hpd.
  simpl in E1, E2. unfold spec_wake_entry in E1. unfold spec_wake_return in E2.
  rewrite Hrc in E2. rewrite Hid in E1. simpl in E1. rewrite Hpd in E1.
  destruct (_ || _); [done|]. destruct (spec_owner _ _ _ _) as [o|]; simplify_eq/=.
  rewrite lookup_insert_eq in E2. simpl in E2.
  destruct (Z.ltb_spec now (start_ns p)); simplify_eq/=.
  split_and!; [done| | |].
  - exists (owner_wait_key o (operation p)). split; [done|]. intros k c.
    rewrite (rel_agg _ _ R2), (rel_agg _ _ R0). simpl. rewrite log_waits_snoc.
    case_decide; [|by rewrite app_nil_r]. unfold wait_add_all. by rewrite fold_left_app.
  - by rewrite (rel_pending _ _ R2); simpl; rewrite lookup_delete_eq.
  - apply idle_return_nop; [apply R2|]. rewrite (rel_active _ _ R2). apply lookup_delete_eq.
Qed.

(** An iocost failure is permanent, and from then on no wake entry takes a
    new sample: a frame that is active later was already active at the failure. *)
Theorem iocost_failure_is_sticky cfg events st :
  iocost_unhealthy st = true ->
  iocost_unhealthy (ic_run cfg events st) = true /\
  forall c f, active (ic_run cfg events st) c = Some f -> active st c = Some f.
Proof.
  intros Hu. split; [by apply ic_run_sticky|].
  revert st Hu. induction events as [|[kr e] rest IH]; intros st Hu c f; [done|]. simpl.
  intros H. apply IH in H; [|by apply ic_step_sticky]. by eapply unhealthy_active.
Qed.

End Refinement.

(** ** A concrete run *)

Definition demo_cfg : iocost_config := IocostConfig 100 200 0 0.
Definition demo_kernel : iocost_kernel :=
  IocostKernel (BlkioKernel true (fun _ => 70) (fun _ => 0) (fun _ => 0))
    (fun _ => Some 1) (fun _ => Some 50) (fun _ => Some 60) (fun _ => Some 9) (fun _ => Some 8)
    (fun _ => Some 0) (fun _ => Some 4000) (fun _ => Some 7) (fun _ => Some 5) 16 32 8 0 0.
Definition demo_state : @ic_state faulty_ops :=
  IcState (Some (Status 0 0)) (FaultyHash ∅ 4096 []) (FaultyHash ∅ 4096 [])
    (FaultyHash ∅ 10240 []) (FaultyHash ∅ 8192 []) (Some ∅).
Definition demo_events : list (iocost_kernel * ic_event) :=
  (fun e => (demo_kernel, e)) <$> [Kick 150 5 1000; Kick 250 5 1500].

Lemma ic_demo_loaded : ic_loaded demo_state.
Proof. repeat split; intros; apply lookup_empty. Qed.
Lemma demo_clocks : Forall (fun x => event_clock_ok (snd x)) demo_events.
Proof. repeat constructor; unfold is_u64; simpl; lia. Qed.

Lemma iocost_healthy_run_is_ledger_witness :
  exists lg, spec_run demo_cfg demo_events empty_ledger = Some lg /\
    ic_rel (ic_run demo_cfg demo_events demo_state) lg.
Proof.
  apply iocost_healthy_run_is_ledger; [apply ic_demo_loaded|apply demo_clocks|vm_compute; reflexivity].
Defined.

Lemma iocost_fails_only_on_helper_error_witness :
  exists lg, spec_run demo_cfg demo_events empty_ledger = Some lg /\
  (iocost_unhealthy (ic_run demo_cfg demo_events demo_state) = false \/
  exists pre kr e post, demo_events = pre ++ (kr, e) :: post /\
    iocost_unhealthy (ic_run demo_cfg pre demo_state) = false /\
    helper_error (ic_step demo_cfg kr e (ic_run demo_cfg pre demo_state))).
Proof.
  eexists. split; [vm_compute; reflexivity|].
  eapply iocost_fails_only_on_helper_error;
    [apply ic_demo_loaded|apply demo_clocks|vm_compute; reflexivity].
Defined.

Lemma declined_wake_restores_witness :
  let st0 := ic_run demo_cfg demo_events demo_state in
  let st2 := ic_step demo_cfg demo_kernel (WakeReturn 0 (2 ^ 32 - 1))
               (ic_step demo_cfg demo_kernel (WakeEntry 0 4000 5 91000) st0) in
  bpf_map_lookup_elem (pending_map st2) 7 = bpf_map_lookup_elem (pending_map st0) 7.
Proof.
  apply (declined_wake_restores demo_cfg demo_events demo_state demo_kernel demo_kernel
           0 4000 5 91000 (2 ^ 32 - 1)); [apply ic_demo_loaded|apply demo_clocks| | |];
    [unfold is_u64; lia|reflexivity|vm_compute; reflexivity].
Defined.

Lemma accepted_wake_settles_once_witness :
  let st0 := ic_run demo_cfg demo_events demo_state in
  let st2 := ic_step demo_cfg demo_kernel (WakeReturn 0 0)
               (ic_step demo_cfg demo_kernel (WakeEntry 0 4000 5 91000) st0) in
  bpf_map_lookup_elem (pending_map st2) 7 = None /\
  ic_step demo_cfg demo_kernel (WakeReturn 0 0) st2 = st2.
Proof.
  apply (accepted_wake_settles_once demo_cfg demo_events demo_state demo_kernel demo_kernel
           0 4000 5 91000 0 5 7 (Pending 1000 1 0)); [apply ic_demo_loaded|apply demo_clocks|..];
    [unfold is_u64; lia|reflexivity|reflexivity|vm_compute; reflexivity|vm_compute; reflexivity].
Defined.

Lemma iocost_failure_is_sticky_witness :
  iocost_unhealthy (ic_run demo_cfg demo_events
    (iocost_fail IOCOST_FAILURE_RETIRE (- 12) demo_state)) = true.
Proof. apply iocost_failure_is_sticky. vm_compute. reflexivity. Defined.

End IoCost.
