(* ===== verification/SchedBlame.v ===== *)
(** * Scheduler blame: the model ([bpf/sched_blame.c], [abi/sched_blame_types.h])

    The tracer keeps, per CPU, a bitmap of the target cgroups that have runnable
    but not running work ("waiting"), and on each context switch emits a packed
    slice: how long the previous task ran, for which cgroup, and which targets
    waited meanwhile.  Slices are batched per CPU.  Module [SchedBlame] is the
    program as written, in its default build ([EXTRA_BITMAP_U64_COUNT] = 1); the
    properties are in [SchedBlameBatch] and [SchedBlameWaiting]. *)

From Stdlib Require Import ZArith Lia.
From stdpp Require Import base option list gmap tactics countable.
From S2P Require Import Prelude BpfMap.

Local Open Scope Z_scope.
Local Open Scope bpf_scope.

Module SchedBlame.

(** ** Constants *)

Definition EXTRA_BITMAP_U64_COUNT : Z := 1.
Definition MAX_CPUS : Z := 512.
Definition CSS_ID_BITS : Z := 12.
Definition MAX_CSS_IDS : Z := 1 <<32 CSS_ID_BITS.
Definition BASE_BITMAP_BITS : Z := 20.
Definition BASE_BITMAP_MASK : Z := (1 <<32 BASE_BITMAP_BITS) -32 1.
Definition MAX_TARGETS : Z := BASE_BITMAP_BITS + 64 * EXTRA_BITMAP_U64_COUNT.
Definition NON_TARGET : Z := 255.
Definition MAX_DURATION_NS : Z := 4294967295.
Definition IDENTITY_EVENT_MAGIC : Z := 4369.
Definition THROTTLE_EVENT_MAGIC : Z := 8738.
Definition SLICE_BATCH_MAGIC : Z := 13107.
Definition MAX_SLICES_PER_BATCH : Z := 128.
Definition SLICE_BATCH_MAX_AGE_NS : Z := 10000000.
Definition TASK_RUNNING : Z := 0.

(** Constants user space rewrites before load. *)
Record sb_config := SbConfig {
  SLICE_KEEP_THRESHOLD : Z;
  KEEP_ALL_SLICES : Z;
  SLICE_BATCH_SIZE : Z;
}.

(** ** Data *)

Record waiting_target_bitmap := Bitmap {
  bitmap_base : Z;
  bitmap_extra : Z;
}.
Definition zero_bitmap : waiting_target_bitmap := Bitmap 0 0.

Record sched_blame_packed_slice := PackedSlice {
  packed_base : Z;
  ps_bitmap_extra : Z;
}.
Definition zero_slice : sched_blame_packed_slice := PackedSlice 0 0.

Record sched_blame_slice_batch_event := SliceBatch {
  batch_magic : Z;
  batch_extra_u64_count : Z;
  batch_count : Z;
  packed_slices : carr sched_blame_packed_slice;
}.
Definition zero_batch : sched_blame_slice_batch_event := SliceBatch 0 0 0 ∅.

(** Records as they leave through the perf ring of a CPU.  A batch is cut to
    [capacity] slices. *)
Inductive sb_event :=
| IdentityEvent (cpu magic css_id cgid : Z)
| ThrottleEvent (cpu magic dense_id duration_ns : Z)
| SliceBatchEvent (cpu magic extra_u64_count count : Z) (slices : list sched_blame_packed_slice).

Inductive sb_counter :=
| n_perf_submission_failures | n_perf_submission_failed_slices
| n_throttle_event_submission_failures | n_slice_probability_drops | n_idle_drops
| n_sampled_slices | n_cpu_overflow | n_css_overflow | n_duration_overflow
| n_throttle_duration_overflow | n_invalid_throttle_duration | n_invalid_runnable_nr
| n_invalid_target_dense_id.

#[export] Instance sb_counter_eq_dec : EqDecision sb_counter.
Proof. solve_decision. Defined.
Definition sb_counter_code (c : sb_counter) : nat :=
  match c with
  | n_perf_submission_failures => 0 | n_perf_submission_failed_slices => 1
  | n_throttle_event_submission_failures => 2 | n_slice_probability_drops => 3
  | n_idle_drops => 4 | n_sampled_slices => 5 | n_cpu_overflow => 6 | n_css_overflow => 7
  | n_duration_overflow => 8 | n_throttle_duration_overflow => 9
  | n_invalid_throttle_duration => 10 | n_invalid_runnable_nr => 11
  | n_invalid_target_dense_id => 12
  end%nat.
Definition sb_counter_decode (n : nat) : option sb_counter :=
  match n with
  | 0 => Some n_perf_submission_failures | 1 => Some n_perf_submission_failed_slices
  | 2 => Some n_throttle_event_submission_failures | 3 => Some n_slice_probability_drops
  | 4 => Some n_idle_drops | 5 => Some n_sampled_slices | 6 => Some n_cpu_overflow
  | 7 => Some n_css_overflow | 8 => Some n_duration_overflow
  | 9 => Some n_throttle_duration_overflow | 10 => Some n_invalid_throttle_duration
  | 11 => Some n_invalid_runnable_nr | 12 => Some n_invalid_target_dense_id
  | _ => None
  end%nat.
#[export] Instance sb_counter_countable : Countable sb_counter.
Proof. refine (inj_countable sb_counter_code sb_counter_decode _). by intros []. Defined.

(** Kernel memory as one invocation reads it. *)
Record sb_kernel := SbKernel {
  kr_task_pid : Z -> Z;
  kr_task_sched_task_group : Z -> Z;
  kr_tg_css_id : Z -> Z;
  kr_task_state_exists : bool;
  kr_task_state : Z -> Z;
  kr_task___state : Z -> Z;
  kr_task_cpu_exists : bool;
  kr_task_cpu : Z -> Z;
  kr_task_thread_cpu_exists : bool;
  kr_task_thread_info_cpu : Z -> Z;
  kr_task_se_cfs_rq : Z -> Z;
  kr_cfs_rq_h_nr_running : Z -> Z;
  kr_cfs_rq_throttled : Z -> Z;
  kr_cfs_rq_rq : Z -> Z;
  kr_cfs_rq_tg : Z -> Z;
  kr_cfs_rq_throttled_clock : Z -> Z;
  kr_rq_cpu : Z -> Z;
  kr_rq_clock : Z -> Z;
}.

Section Program.
Context {M : BpfMapOps}.

(** [slice_batches] is the per-CPU array ([None]: the lookup returns NULL);
    [counters] the thirteen counter maps; [perf_rets] the results the coming
    perf submissions will have (0 when exhausted). *)
Record sb_state := SbState {
  target_css_id_epoch : Z;
  target_cgid_to_dense : hmap Z Z;
  slice_batches : option (percpu sched_blame_slice_batch_event);
  counters : gmap (sb_counter * Z) Z;
  css_id_to_dense_id : carr Z;
  waiting_target_bitmap_by_cpu : carr waiting_target_bitmap;
  waiting_epoch_by_cpu : carr Z;
  observed_identity : carr Z;
  previous_switch_ns_by_cpu : carr Z;
  batch_first_ts_ns_by_cpu : carr Z;
  running_css_id_by_cpu : carr Z;
  unthrottle_entry_cfs_rq_by_cpu : carr Z;
  events : list sb_event;
  perf_rets : list Z;
}.

Definition set_batches (x : option (percpu sched_blame_slice_batch_event)) st :=
  SbState (target_css_id_epoch st) (target_cgid_to_dense st) x (counters st)
    (css_id_to_dense_id st) (waiting_target_bitmap_by_cpu st) (waiting_epoch_by_cpu st)
    (observed_identity st) (previous_switch_ns_by_cpu st) (batch_first_ts_ns_by_cpu st)
    (running_css_id_by_cpu st) (unthrottle_entry_cfs_rq_by_cpu st) (events st) (perf_rets st).
Definition set_counters (x : gmap (sb_counter * Z) Z) st :=
  SbState (target_css_id_epoch st) (target_cgid_to_dense st) (slice_batches st) x
    (css_id_to_dense_id st) (waiting_target_bitmap_by_cpu st) (waiting_epoch_by_cpu st)
    (observed_identity st) (previous_switch_ns_by_cpu st) (batch_first_ts_ns_by_cpu st)
    (running_css_id_by_cpu st) (unthrottle_entry_cfs_rq_by_cpu st) (events st) (perf_rets st).
Definition set_cache (x : carr Z) st :=
  SbState (target_css_id_epoch st) (target_cgid_to_dense st) (slice_batches st) (counters st)
    x (waiting_target_bitmap_by_cpu st) (waiting_epoch_by_cpu st)
    (observed_identity st) (previous_switch_ns_by_cpu st) (batch_first_ts_ns_by_cpu st)
    (running_css_id_by_cpu st) (unthrottle_entry_cfs_rq_by_cpu st) (events st) (perf_rets st).
Definition set_bitmaps (x : carr waiting_target_bitmap) st :=
  SbState (target_css_id_epoch st) (target_cgid_to_dense st) (slice_batches st) (counters st)
    (css_id_to_dense_id st) x (waiting_epoch_by_cpu st)
    (observed_identity st) (previous_switch_ns_by_cpu st) (batch_first_ts_ns_by_cpu st)
    (running_css_id_by_cpu st) (unthrottle_entry_cfs_rq_by_cpu st) (events st) (perf_rets st).
Definition set_waiting_epochs (x : carr Z) st :=
  SbState (target_css_id_epoch st) (target_cgid_to_dense st) (slice_batches st) (counters st)
    (css_id_to_dense_id st) (waiting_target_bitmap_by_cpu st) x
    (observed_identity st) (previous_switch_ns_by_cpu st) (batch_first_ts_ns_by_cpu st)
    (running_css_id_by_cpu st) (unthrottle_entry_cfs_rq_by_cpu st) (events st) (perf_rets st).
Definition set_observed (x : carr Z) st :=
  SbState (target_css_id_epoch st) (target_cgid_to_dense st) (slice_batches st) (counters st)
    (css_id_to_dense_id st) (waiting_target_bitmap_by_cpu st) (waiting_epoch_by_cpu st)
    x (previous_switch_ns_by_cpu st) (batch_first_ts_ns_by_cpu st)
    (running_css_id_by_cpu st) (unthrottle_entry_cfs_rq_by_cpu st) (events st) (perf_rets st).
Definition set_previous_switch (x : carr Z) st :=
  SbState (target_css_id_epoch st) (target_cgid_to_dense st) (slice_batches st) (counters st)
    (css_id_to_dense_id st) (waiting_target_bitmap_by_cpu st) (waiting_epoch_by_cpu st)
    (observed_identity st) x (batch_first_ts_ns_by_cpu st)
    (running_css_id_by_cpu st) (unthrottle_entry_cfs_rq_by_cpu st) (events st) (perf_rets st).
Definition set_first_ts (x : carr Z) st :=
  SbState (target_css_id_epoch st) (target_cgid_to_dense st) (slice_batches st) (counters st)
    (css_id_to_dense_id st) (waiting_target_bitmap_by_cpu st) (waiting_epoch_by_cpu st)
    (observed_identity st) (previous_switch_ns_by_cpu st) x
    (running_css_id_by_cpu st) (unthrottle_entry_cfs_rq_by_cpu st) (events st) (perf_rets st).
Definition set_running (x : carr Z) st :=
  SbState (target_css_id_epoch st) (target_cgid_to_dense st) (slice_batches st) (counters st)
    (css_id_to_dense_id st) (waiting_target_bitmap_by_cpu st) (waiting_epoch_by_cpu st)
    (observed_identity st) (previous_switch_ns_by_cpu st) (batch_first_ts_ns_by_cpu st)
    x (unthrottle_entry_cfs_rq_by_cpu st) (events st) (perf_rets st).
Definition set_unthrottle (x : carr Z) st :=
  SbState (target_css_id_epoch st) (target_cgid_to_dense st) (slice_batches st) (counters st)
    (css_id_to_dense_id st) (waiting_target_bitmap_by_cpu st) (waiting_epoch_by_cpu st)
    (observed_identity st) (previous_switch_ns_by_cpu st) (batch_first_ts_ns_by_cpu st)
    (running_css_id_by_cpu st) x (events st) (perf_rets st).
Definition set_events (x : list sb_event) (r : list Z) st :=
  SbState (target_css_id_epoch st) (target_cgid_to_dense st) (slice_batches st) (counters st)
    (css_id_to_dense_id st) (waiting_target_bitmap_by_cpu st) (waiting_epoch_by_cpu st)
    (observed_identity st) (previous_switch_ns_by_cpu st) (batch_first_ts_ns_by_cpu st)
    (running_css_id_by_cpu st) (unthrottle_entry_cfs_rq_by_cpu st) x r.

(** ** Helpers *)

(** The counter maps are per-CPU arrays: [count] touches the slot of the CPU the
    program runs on. *)
Definition counter_value (c : sb_counter) (cpu : Z) (st : sb_state) : Z :=
  default 0 (counters st !! (c, cpu)).
Definition count_add (c : sb_counter) (cpu delta : Z) (st : sb_state) : sb_state :=
  set_counters (<[(c, cpu) := counter_value c cpu st +64 delta]> (counters st)) st.
Definition count (c : sb_counter) (cpu : Z) (st : sb_state) : sb_state := count_add c cpu 1 st.

(** One perf submission: its result, and the delivered record if it succeeds. *)
Definition perf_output (e : sb_event) (st : sb_state) : Z * sb_state :=
  let '(ret, ring) := bpf_perf_event_output (hd 0 (perf_rets st)) e (events st) in
  (ret, set_events ring (tail (perf_rets st)) st).

Definition pack_slice (cpu duration_ns : Z) (snapshot : waiting_target_bitmap) (css_index : Z)
    (st : sb_state) : sched_blame_packed_slice * sb_state :=
  let '(duration_ns, st) :=
    if MAX_DURATION_NS <? duration_ns
    then (MAX_DURATION_NS, count n_duration_overflow cpu st) else (duration_ns, st) in
  (PackedSlice
     (Z.lor (Z.lor (duration_ns <<64 32)
                   (Z.land (bitmap_base snapshot) BASE_BITMAP_MASK <<64 CSS_ID_BITS))
            css_index)
     (bitmap_extra snapshot), st).

Definition snapshot_waiting_targets (cpu_index : Z) (st : sb_state) : waiting_target_bitmap :=
  let cpu_index := Z.land cpu_index 511 in
  Bitmap (bitmap_base (arr_get zero_bitmap (waiting_target_bitmap_by_cpu st) cpu_index))
         (bitmap_extra (arr_get zero_bitmap (waiting_target_bitmap_by_cpu st) cpu_index)).

Definition task_group_of (kr : sb_kernel) (task : Z) : Z := kr_task_sched_task_group kr task.
Definition task_group_css_id (kr : sb_kernel) (tg : Z) : Z := u32 (kr_tg_css_id kr tg).
Definition task_pid (kr : sb_kernel) (task : Z) : Z := u32 (kr_task_pid kr task).
Definition task_state (kr : sb_kernel) (task : Z) : Z :=
  if kr_task_state_exists kr then s64 (kr_task_state kr task) else u32 (kr_task___state kr task).
Definition task_is_runnable (kr : sb_kernel) (task : Z) : bool := task_state kr task =? TASK_RUNNING.
Definition task_cpu (kr : sb_kernel) (smp_processor_id task : Z) : Z :=
  if kr_task_cpu_exists kr then u32 (kr_task_cpu kr task)
  else if kr_task_thread_cpu_exists kr then u32 (kr_task_thread_info_cpu kr task)
  else u32 smp_processor_id.
Definition task_cfs_h_nr_running (kr : sb_kernel) (task : Z) : Z :=
  let cfs_rq := kr_task_se_cfs_rq kr task in
  if cfs_rq =? 0 then 0 else u32 (kr_cfs_rq_h_nr_running kr cfs_rq).
Definition task_cfs_rq_is_throttled (kr : sb_kernel) (task : Z) : bool :=
  let cfs_rq := kr_task_se_cfs_rq kr task in
  if cfs_rq =? 0 then false else negb (kr_cfs_rq_throttled kr cfs_rq =? 0).

Definition pack_dense_id_cache (epoch dense_id : Z) : Z := Z.lor (epoch <<64 32) dense_id.
Definition cache_epoch (cached : Z) : Z := u32 (Z.shiftr cached 32).
Definition cache_dense_id (cached : Z) : Z := u8 (Z.land cached 255).

Definition ensure_waiting_bitmap_epoch (cpu_index epoch : Z) (st : sb_state) : sb_state :=
  let cpu_index := Z.land cpu_index 511 in
  if arr_get 0 (waiting_epoch_by_cpu st) cpu_index =? epoch then st
  else
    let st := set_bitmaps (arr_set (waiting_target_bitmap_by_cpu st) cpu_index (Bitmap 0 0)) st in
    set_waiting_epochs (arr_set (waiting_epoch_by_cpu st) cpu_index epoch) st.

Definition resolve_target_dense_id (cpu cgid css_index epoch : Z) (st : sb_state) : Z * sb_state :=
  let css_index := Z.land css_index 4095 in
  let cached := arr_get 0 (css_id_to_dense_id st) css_index in
  if cache_epoch cached =? epoch then (cache_dense_id cached, st)
  else
    let '(dense_id, st) :=
      match bpf_map_lookup_elem (target_cgid_to_dense st) cgid with
      | None => (NON_TARGET, st)
      | Some mapped =>
          if MAX_TARGETS <=? mapped then (NON_TARGET, count n_invalid_target_dense_id cpu st)
          else (mapped, st)
      end in
    (dense_id,
     set_cache (arr_set (css_id_to_dense_id st) css_index (pack_dense_id_cache epoch dense_id)) st).

Definition set_waiting (cpu cpu_index dense_id : Z) (waiting cfs_rq_is_throttled : bool)
    (st : sb_state) : sb_state :=
  if MAX_TARGETS <=? dense_id then count n_invalid_target_dense_id cpu st
  else
    let cpu_index := Z.land cpu_index 511 in
    let waiting := if cfs_rq_is_throttled then false else waiting in
    let b := arr_get zero_bitmap (waiting_target_bitmap_by_cpu st) cpu_index in
    if dense_id <? BASE_BITMAP_BITS then
      let base_mask := 1 <<32 dense_id in
      let base := if waiting then Z.lor (bitmap_base b) base_mask
                  else Z.land (bitmap_base b) (u32 (Z.lnot base_mask)) in
      set_bitmaps (arr_set (waiting_target_bitmap_by_cpu st) cpu_index
                     (Bitmap base (bitmap_extra b))) st
    else
      let dense_id := dense_id -32 BASE_BITMAP_BITS in
      if dense_id <? 64 then
        let extra_mask := 1 <<64 dense_id in
        let extra := if waiting then Z.lor (bitmap_extra b) extra_mask
                     else Z.land (bitmap_extra b) (u64 (Z.lnot extra_mask)) in
        set_bitmaps (arr_set (waiting_target_bitmap_by_cpu st) cpu_index
                       (Bitmap (bitmap_base b) extra)) st
      else st.

Definition set_running_css_id (cpu_index css_index : Z) (st : sb_state) : sb_state :=
  set_running (arr_set (running_css_id_by_cpu st) (Z.land cpu_index 511)
                 (u32 (Z.land css_index 4095) +32 1)) st.
Definition clear_running_css_id (cpu_index : Z) (st : sb_state) : sb_state :=
  set_running (arr_set (running_css_id_by_cpu st) (Z.land cpu_index 511) 0) st.
Definition cpu_is_running_css_id (cpu_index css_index : Z) (st : sb_state) : bool :=
  arr_get 0 (running_css_id_by_cpu st) (Z.land cpu_index 511) =?
    (u32 (Z.land css_index 4095) +32 1).

(** ** Emission *)

Definition maybe_emit_identity (event_cpu_index tg css_index : Z) (st : sb_state) : sb_state :=
  if tg =? 0 then st
  else
    let cgid := tg in
    let css_index := Z.land css_index 4095 in
    if arr_get 0 (observed_identity st) css_index =? cgid then st
    else
      let event_cpu_index := Z.land event_cpu_index 511 in
      let '(ret, st) :=
        perf_output (IdentityEvent event_cpu_index IDENTITY_EVENT_MAGIC (u16 css_index) cgid) st in
      if ret <? 0 then st
      else set_observed (arr_set (observed_identity st) css_index cgid) st.

Definition emit_throttle_event (cpu event_cpu_index dense_id duration_ns : Z) (st : sb_state)
    : sb_state :=
  let '(duration_ns, st) :=
    if MAX_DURATION_NS <? duration_ns
    then (MAX_DURATION_NS, count n_throttle_duration_overflow cpu st) else (duration_ns, st) in
  let '(ret, st) :=
    perf_output (ThrottleEvent (Z.land event_cpu_index 511) THROTTLE_EVENT_MAGIC
                   (u16 dense_id) (u32 duration_ns)) st in
  if ret <? 0 then count n_throttle_event_submission_failures cpu st else st.

(** The number of slices of the chosen [SLICE_BATCH_OUTPUT_SIZE]. *)
Definition batch_capacity (count : Z) : nat :=
  if count <=? 1 then 1 else if count <=? 2 then 2 else if count <=? 4 then 4
  else if count <=? 8 then 8 else if count <=? 16 then 16 else if count <=? 32 then 32
  else if count <=? 64 then 64 else 128.

(** The first [n] slices of the batch memory. *)
Definition slices_prefix (n : nat) (b : sched_blame_slice_batch_event)
    : list sched_blame_packed_slice :=
  (fun i => arr_get zero_slice (packed_slices b) (Z.of_nat i)) <$> seq 0 n.

Definition output_slice_batch (cpu_index : Z) (b : sched_blame_slice_batch_event) (count : Z)
    (st : sb_state) : Z * sb_state :=
  perf_output (SliceBatchEvent cpu_index (batch_magic b) (batch_extra_u64_count b) (batch_count b)
                 (slices_prefix (batch_capacity count) b)) st.

(** The batch of the running CPU, and a store through its pointer. *)
Definition batch_lookup (cpu : Z) (st : sb_state) : option sched_blame_slice_batch_event :=
  (fun bs => percpu_get zero_batch bs cpu) <$> slice_batches st.
Definition batch_store (cpu : Z) (b : sched_blame_slice_batch_event) (st : sb_state) : sb_state :=
  set_batches ((fun bs => percpu_set bs cpu b) <$> slice_batches st) st.
Definition set_batch_count (n : Z) (b : sched_blame_slice_batch_event) :=
  SliceBatch (batch_magic b) (batch_extra_u64_count b) n (packed_slices b).

(** [b] is the batch of [cpu]: the C code reads and writes it through a pointer. *)
Definition emit_slice_batch (cpu cpu_index : Z) (b : sched_blame_slice_batch_event)
    (st : sb_state) : sb_state :=
  let submitted := batch_count b in
  if (submitted =? 0) || (MAX_SLICES_PER_BATCH <? submitted) then st
  else
    let cpu_index := Z.land cpu_index 511 in
    let '(result, st) := output_slice_batch cpu_index b submitted st in
    let st := batch_store cpu (set_batch_count 0 b) st in
    let st := set_first_ts (arr_set (batch_first_ts_ns_by_cpu st) cpu_index 0) st in
    if result <? 0
    then count_add n_perf_submission_failed_slices cpu submitted
           (count n_perf_submission_failures cpu st)
    else st.

Definition flush_slice_batch_if_aged (cpu cpu_index now : Z) (st : sb_state) : sb_state :=
  let cpu_index := Z.land cpu_index 511 in
  let first := arr_get 0 (batch_first_ts_ns_by_cpu st) cpu_index in
  if (first =? 0) || (now -64 first <? SLICE_BATCH_MAX_AGE_NS) then st
  else match batch_lookup cpu st with
  | None => st
  | Some b => emit_slice_batch cpu cpu_index b st
  end.

Definition clamp_batch_size (cfg : sb_config) : Z :=
  let size := SLICE_BATCH_SIZE cfg in
  let size := if size <? 1 then 1 else size in
  if MAX_SLICES_PER_BATCH <? size then MAX_SLICES_PER_BATCH else size.

Definition append_sampled_slice (cfg : sb_config) (cpu cpu_index now : Z)
    (slice : sched_blame_packed_slice) (st : sb_state) : sb_state :=
  let slice_batch_size := clamp_batch_size cfg in
  match batch_lookup cpu st with
  | None => st
  | Some b =>
      let index := batch_count b in
      let '(index, b, st) :=
        if MAX_SLICES_PER_BATCH <=? index
        then let st := emit_slice_batch cpu cpu_index b st in
             (0, default zero_batch (batch_lookup cpu st), st)
        else (index, b, st) in
      let index := Z.land index 127 in
      let '(b, st) :=
        if index =? 0
        then (SliceBatch SLICE_BATCH_MAGIC EXTRA_BITMAP_U64_COUNT (batch_count b) (packed_slices b),
              set_first_ts (arr_set (batch_first_ts_ns_by_cpu st) (Z.land cpu_index 511) now) st)
        else (b, st) in
      let b := SliceBatch (batch_magic b) (batch_extra_u64_count b) (index +32 1)
                 (arr_set (packed_slices b) index slice) in
      let st := batch_store cpu b st in
      if slice_batch_size <=? batch_count b then emit_slice_batch cpu cpu_index b st else st
  end.

Definition keep_slice (cfg : sb_config) (prandom : Z) : bool :=
  ctrue (KEEP_ALL_SLICES cfg) || (u32 prandom <? SLICE_KEEP_THRESHOLD cfg).

(** ** Tracepoints and probes *)

(** The cgroup part of [on_sched_switch] for one task: its group (null for the
    idle task), css id, bounded index, and the identity announcement. *)
Definition switch_identity (cpu cpu_index tg css_id : Z) (st : sb_state) : Z * sb_state :=
  if tg =? 0 then (0, st)
  else if MAX_CSS_IDS <=? css_id then (0, count n_css_overflow cpu st)
  else
    let css_index := Z.land css_id 4095 in
    (css_index, maybe_emit_identity cpu_index tg css_index st).

(** The interval [prev] ran, with the pre-switch bitmap. *)
Definition switch_sample (cfg : sb_config) (cpu cpu_index now prev_start_ns prandom : Z)
    (prev_pid prev_tg prev_css_id prev_css_index : Z) (st : sb_state) : sb_state :=
  if negb (prev_start_ns =? 0) then
    if prev_pid =? 0 then count n_idle_drops cpu st
    else if negb (prev_tg =? 0) && (prev_css_id <? MAX_CSS_IDS) then
      if negb (keep_slice cfg prandom) then count n_slice_probability_drops cpu st
      else
        let snapshot := snapshot_waiting_targets cpu_index st in
        let '(slice, st) := pack_slice cpu (now -64 prev_start_ns) snapshot prev_css_index st in
        let st := count n_sampled_slices cpu st in
        append_sampled_slice cfg cpu cpu_index now slice st
    else st
  else st.

(** The waiting truth for the interval in which [next] will run. *)
Definition switch_waiting (kr : sb_kernel) (cpu cpu_index epoch prev next : Z)
    (prev_tg prev_css_id prev_css_index next_tg next_css_id next_css_index : Z) (st : sb_state)
    : sb_state :=
  let st :=
    if negb (prev_tg =? 0) && (prev_css_id <? MAX_CSS_IDS) then
      let '(prev_dense_id, st) := resolve_target_dense_id cpu prev_tg prev_css_index epoch st in
      if negb (prev_dense_id =? NON_TARGET)
      then set_waiting cpu cpu_index prev_dense_id (1 <=? task_cfs_h_nr_running kr prev)
             (task_cfs_rq_is_throttled kr prev) st
      else st
    else st in
  let st := clear_running_css_id cpu_index st in
  if negb (next_tg =? 0) && (next_css_id <? MAX_CSS_IDS) then
    let '(next_dense_id, st) := resolve_target_dense_id cpu next_tg next_css_index epoch st in
    let st :=
      if negb (next_dense_id =? NON_TARGET)
      then set_waiting cpu cpu_index next_dense_id (2 <=? task_cfs_h_nr_running kr next) false st
      else st in
    set_running_css_id cpu_index next_css_index st
  else st.

Definition on_sched_switch (cfg : sb_config) (kr : sb_kernel) (cpu now prandom prev next : Z)
    (st : sb_state) : sb_state :=
  if MAX_CPUS <=? cpu then count n_cpu_overflow cpu st
  else
    let cpu_index := Z.land cpu 511 in
    let epoch := target_css_id_epoch st in
    let st := ensure_waiting_bitmap_epoch cpu_index epoch st in
    let prev_start_ns := arr_get 0 (previous_switch_ns_by_cpu st) cpu_index in
    let st := set_previous_switch (arr_set (previous_switch_ns_by_cpu st) cpu_index now) st in
    let st := flush_slice_batch_if_aged cpu cpu_index now st in
    let prev_pid := task_pid kr prev in
    let next_pid := task_pid kr next in
    let prev_tg := if prev_pid =? 0 then 0 else task_group_of kr prev in
    let next_tg := if next_pid =? 0 then 0 else task_group_of kr next in
    let prev_css_id := if prev_tg =? 0 then 0 else task_group_css_id kr prev_tg in
    let '(prev_css_index, st) := switch_identity cpu cpu_index prev_tg prev_css_id st in
    let next_css_id := if next_tg =? 0 then 0 else task_group_css_id kr next_tg in
    let '(next_css_index, st) := switch_identity cpu cpu_index next_tg next_css_id st in
    let st := switch_sample cfg cpu cpu_index now prev_start_ns prandom
                prev_pid prev_tg prev_css_id prev_css_index st in
    switch_waiting kr cpu cpu_index epoch prev next
      prev_tg prev_css_id prev_css_index next_tg next_css_id next_css_index st.

Definition update_wakeup_waiting (kr : sb_kernel) (event_cpu current task : Z) (st : sb_state)
    : sb_state :=
  let dst_cpu := task_cpu kr event_cpu task in
  if (MAX_CPUS <=? event_cpu) || (MAX_CPUS <=? dst_cpu) then count n_cpu_overflow event_cpu st
  else if negb (task_is_runnable kr task) then st
  else if task =? current then st
  else
    let tg := task_group_of kr task in
    if tg =? 0 then st
    else
      let css_id := task_group_css_id kr tg in
      if MAX_CSS_IDS <=? css_id then count n_css_overflow event_cpu st
      else
        let event_cpu_index := Z.land event_cpu 511 in
        let dst_cpu_index := Z.land dst_cpu 511 in
        let css_index := Z.land css_id 4095 in
        let epoch := target_css_id_epoch st in
        let st := ensure_waiting_bitmap_epoch dst_cpu_index epoch st in
        let st := maybe_emit_identity event_cpu_index tg css_index st in
        let '(dense_id, st) := resolve_target_dense_id event_cpu tg css_index epoch st in
        if dense_id =? NON_TARGET then st
        else
          let runnable_nr := task_cfs_h_nr_running kr task in
          if runnable_nr =? 0 then count n_invalid_runnable_nr event_cpu st
          else
            let waiting_nr :=
              if cpu_is_running_css_id dst_cpu_index css_index st
              then runnable_nr -32 1 else runnable_nr in
            set_waiting event_cpu dst_cpu_index dense_id (1 <=? waiting_nr)
              (task_cfs_rq_is_throttled kr task) st.

Definition on_sched_wakeup (kr : sb_kernel) (event_cpu current task : Z) (st : sb_state) : sb_state :=
  update_wakeup_waiting kr event_cpu current task st.
Definition on_sched_wakeup_new (kr : sb_kernel) (event_cpu current task : Z) (st : sb_state)
    : sb_state :=
  update_wakeup_waiting kr event_cpu current task st.

Definition on_sched_migrate_task (kr : sb_kernel) (event_cpu task arg1 : Z) (st : sb_state)
    : sb_state :=
  let dst_cpu := u32 arg1 in
  if negb (task_is_runnable kr task) then st
  else
    let src_cpu := task_cpu kr event_cpu task in
    if (MAX_CPUS <=? src_cpu) || (MAX_CPUS <=? dst_cpu) then count n_cpu_overflow event_cpu st
    else
      let tg := task_group_of kr task in
      if tg =? 0 then st
      else
        let css_id := task_group_css_id kr tg in
        if MAX_CSS_IDS <=? css_id then count n_css_overflow event_cpu st
        else
          let src_cpu_index := Z.land src_cpu 511 in
          let css_index := Z.land css_id 4095 in
          let epoch := target_css_id_epoch st in
          let st := ensure_waiting_bitmap_epoch src_cpu_index epoch st in
          let '(dense_id, st) := resolve_target_dense_id event_cpu tg css_index epoch st in
          if dense_id =? NON_TARGET then st
          else
            let src_cpu_runnable_nr := task_cfs_h_nr_running kr task in
            let src_cpu_waiting_nr :=
              if cpu_is_running_css_id src_cpu_index css_index st
              then src_cpu_runnable_nr -32 1 else src_cpu_runnable_nr in
            set_waiting event_cpu src_cpu_index dense_id (1 <=? src_cpu_waiting_nr)
              (task_cfs_rq_is_throttled kr task) st.

Definition on_unthrottle_cfs_rq_entry (event_cpu cfs_rq : Z) (st : sb_state) : sb_state :=
  if MAX_CPUS <=? event_cpu then count n_cpu_overflow event_cpu st
  else
    set_unthrottle (arr_set (unthrottle_entry_cfs_rq_by_cpu st) (Z.land event_cpu 511) cfs_rq) st.

Definition on_unthrottle_cfs_rq_return (kr : sb_kernel) (event_cpu : Z) (st : sb_state) : sb_state :=
  if MAX_CPUS <=? event_cpu then count n_cpu_overflow event_cpu st
  else
    let event_cpu_index := Z.land event_cpu 511 in
    let cfs_rq := arr_get 0 (unthrottle_entry_cfs_rq_by_cpu st) event_cpu_index in
    let st := set_unthrottle (arr_set (unthrottle_entry_cfs_rq_by_cpu st) event_cpu_index 0) st in
    if (cfs_rq =? 0) || ctrue (kr_cfs_rq_throttled kr cfs_rq) then st
    else
      let rq := kr_cfs_rq_rq kr cfs_rq in
      let tg := kr_cfs_rq_tg kr cfs_rq in
      if (rq =? 0) || (tg =? 0) then st
      else
        let target_cpu := u32 (kr_rq_cpu kr rq) in
        if MAX_CPUS <=? target_cpu then count n_cpu_overflow event_cpu st
        else
          let css_id := task_group_css_id kr tg in
          if MAX_CSS_IDS <=? css_id then count n_css_overflow event_cpu st
          else
            let target_cpu_index := Z.land target_cpu 511 in
            let css_index := Z.land css_id 4095 in
            let epoch := target_css_id_epoch st in
            let st := ensure_waiting_bitmap_epoch target_cpu_index epoch st in
            let '(dense_id, st) := resolve_target_dense_id event_cpu tg css_index epoch st in
            if dense_id =? NON_TARGET then st
            else
              let st := set_waiting event_cpu target_cpu_index dense_id
                          (1 <=? u32 (kr_cfs_rq_h_nr_running kr cfs_rq)) false st in
              let end_clock := u64 (kr_rq_clock kr rq) in
              let start_clock := u64 (kr_cfs_rq_throttled_clock kr cfs_rq) in
              if end_clock <? start_clock then count n_invalid_throttle_duration event_cpu st
              else emit_throttle_event event_cpu event_cpu_index dense_id
                     (end_clock -64 start_clock) st.

(** ** Runs

    The hooks in the order they take effect, plus the map writes of user space.
    [publishSchedBlameTargets] deletes the items of the target map one by one, writes
    the new ones and then stores the next epoch; hooks run between these writes, and a
    failing write ends the publication before the epoch. *)

Inductive sb_input :=
| SchedSwitch (kr : sb_kernel) (cpu now prandom prev next : Z)
| SchedWakeup (kr : sb_kernel) (cpu current task : Z)
| SchedWakeupNew (kr : sb_kernel) (cpu current task : Z)
| SchedMigrateTask (kr : sb_kernel) (cpu task arg1 : Z)
| UnthrottleEntry (cpu cfs_rq : Z)
| UnthrottleReturn (kr : sb_kernel) (cpu : Z)
| DeleteTarget (cgid : Z)
| WriteTarget (cgid dense_id : Z)
| PublishEpoch (epoch : Z).

Definition publish (epoch : Z) (targets : hmap Z Z) (st : sb_state) : sb_state :=
  SbState epoch targets (slice_batches st) (counters st)
    (css_id_to_dense_id st) (waiting_target_bitmap_by_cpu st) (waiting_epoch_by_cpu st)
    (observed_identity st) (previous_switch_ns_by_cpu st) (batch_first_ts_ns_by_cpu st)
    (running_css_id_by_cpu st) (unthrottle_entry_cfs_rq_by_cpu st) (events st) (perf_rets st).

Definition sb_step (cfg : sb_config) (i : sb_input) (st : sb_state) : sb_state :=
  match i with
  | SchedSwitch kr cpu now prandom prev next => on_sched_switch cfg kr cpu now prandom prev next st
  | SchedWakeup kr cpu current task => on_sched_wakeup kr cpu current task st
  | SchedWakeupNew kr cpu current task => on_sched_wakeup_new kr cpu current task st
  | SchedMigrateTask kr cpu task arg1 => on_sched_migrate_task kr cpu task arg1 st
  | UnthrottleEntry cpu cfs_rq => on_unthrottle_cfs_rq_entry cpu cfs_rq st
  | UnthrottleReturn kr cpu => on_unthrottle_cfs_rq_return kr cpu st
  | DeleteTarget cgid =>
      publish (target_css_id_epoch st) (snd (bpf_map_delete_elem (target_cgid_to_dense st) cgid)) st
  | WriteTarget cgid dense_id =>
      publish (target_css_id_epoch st) (snd (bpf_map_update_elem (target_cgid_to_dense st) cgid dense_id BPF_ANY)) st
  | PublishEpoch epoch => publish epoch (target_cgid_to_dense st) st
  end.

Definition sb_run (cfg : sb_config) (inputs : list sb_input) (st : sb_state) : sb_state :=
  fold_left (fun st i => sb_step cfg i st) inputs st.
End Program.
End SchedBlame.
