(* ===== verification/SchedBlameBatch.v ===== *)
(** * Scheduler blame: slices and their batches

    Properties of the emission half of [SchedBlame]: the packed slice encoding,
    the per-CPU batch as a refinement of an abstract queue, in-order delivery
    and the accounting of failed submissions. *)

From Stdlib Require Import ZArith Lia.
From stdpp Require Import base option list gmap tactics.
From S2P Require Import Prelude BpfMap SchedBlame.

Local Open Scope Z_scope.
Local Open Scope bpf_scope.

Module SchedBlameBatch.
Import SchedBlame.

(** ** Packed slices *)

(** How user space decodes a slice. *)
Definition slice_duration (p : sched_blame_packed_slice) : Z := Z.shiftr (packed_base p) 32.
Definition slice_base_bitmap (p : sched_blame_packed_slice) : Z :=
  Z.land (Z.shiftr (packed_base p) CSS_ID_BITS) BASE_BITMAP_MASK.
Definition slice_css (p : sched_blame_packed_slice) : Z := Z.land (packed_base p) (MAX_CSS_IDS - 1).

Lemma pack_base_fields d b c :
  0 <= d < 2 ^ 32 -> 0 <= b < 2 ^ 20 -> 0 <= c < 2 ^ 12 ->
  let w := Z.lor (Z.lor (d <<64 32) (b <<64 12)) c in
  Z.shiftr w 32 = d /\ Z.land (Z.shiftr w 12) (2 ^ 20 - 1) = b /\ Z.land w (2 ^ 12 - 1) = c.
Proof.
  intros Hd Hb Hc w. subst w.
  rewrite (u64_small (Z.shiftl d 32)) by (unfold is_u64; rewrite Z.shiftl_mul_pow2; lia).
  rewrite (u64_small (Z.shiftl b 12)) by (unfold is_u64; rewrite Z.shiftl_mul_pow2; lia).
  assert (E : Z.lor (Z.shiftl d 32) (Z.shiftl b 12) = Z.shiftl (Z.lor (Z.shiftl d 20) b) 12).
  { rewrite Z.shiftl_lor, Z.shiftl_shiftl by lia. done. }
  rewrite E. split_and!.
  - change 32 with (12 + 20). rewrite <- Z.shiftr_shiftr by lia.
    rewrite pack_high by lia. by apply pack_high.
  - rewrite pack_high by lia. by apply pack_low.
  - by apply pack_low.
Qed.

(** ** Output sizes *)

Lemma batch_capacity_enough n : 0 < n <= 128 -> (Z.to_nat n <= batch_capacity n <= 128)%nat.
Proof. intros. unfold batch_capacity. repeat case_if; zify_bools; lia. Qed.

Lemma slices_prefix_take n m b :
  (n <= m)%nat -> take n (slices_prefix m b) = slices_prefix n b.
Proof.
  intros H. unfold slices_prefix. rewrite <- fmap_take. f_equal.
  rewrite take_seq. f_equal. lia.
Qed.

Lemma slices_prefix_length n b : length (slices_prefix n b) = n.
Proof. unfold slices_prefix. by rewrite length_fmap, length_seq. Qed.

Lemma slices_prefix_snoc n m x c b s :
  slices_prefix (S n) (SliceBatch m x c (arr_set (packed_slices b) (Z.of_nat n) s)) =
  slices_prefix n b ++ [s].
Proof.
  unfold slices_prefix. rewrite seq_S, fmap_app. simpl. f_equal.
  - apply list_fmap_ext. intros i k Hk. apply lookup_seq in Hk. cbn [packed_slices].
    rewrite arr_get_set_ne; [done|lia].
  - by rewrite arr_get_set_eq.
Qed.

(** ** The abstract queue of a CPU

    What batching promises: slices queue up in order; a full or aged queue is
    handed over as a whole, or lost as a whole and counted. *)

Record queue := Queue {
  q_buf : list sched_blame_packed_slice;
  q_first : Z;
  q_out : list sched_blame_packed_slice;
  q_failed : Z;
  q_sampled : Z;
}.

Definition q_flush (ret : Z) (q : queue) : queue :=
  if ret <? 0
  then Queue [] 0 (q_out q) (q_failed q +64 Z.of_nat (length (q_buf q))) (q_sampled q)
  else Queue [] 0 (q_out q ++ q_buf q) (q_failed q) (q_sampled q).

Definition q_aged (now ret : Z) (q : queue) : queue :=
  if (q_first q =? 0) || (now -64 q_first q <? SLICE_BATCH_MAX_AGE_NS) then q else q_flush ret q.

Definition q_append (size now ret : Z) (s : sched_blame_packed_slice) (q : queue) : queue :=
  let q1 := Queue (q_buf q ++ [s]) (if decide (q_buf q = []) then now else q_first q)
              (q_out q) (q_failed q) (q_sampled q) in
  if size <=? Z.of_nat (length (q_buf q1)) then q_flush ret q1 else q1.

Definition q_count (q : queue) : queue :=
  Queue (q_buf q) (q_first q) (q_out q) (q_failed q) (q_sampled q +64 1).

Section Batches.
Context {M : BpfMapOps}.
Implicit Types st : sb_state.

Definition batch_of c st : sched_blame_slice_batch_event := default zero_batch (batch_lookup c st).

(** Slices user space received from a CPU, in order. *)
Definition event_slices (c : Z) (e : sb_event) : list sched_blame_packed_slice :=
  match e with
  | SliceBatchEvent cpu _ _ n sl => if decide (cpu = c) then take (Z.to_nat n) sl else []
  | _ => []
  end.
Definition delivered c st : list sched_blame_packed_slice :=
  concat (event_slices c <$> events st).

(** Slices still in the CPU's batch. *)
Definition buffered c st : list sched_blame_packed_slice :=
  slices_prefix (Z.to_nat (batch_count (batch_of c st))) (batch_of c st).

Definition queue_of c st : queue :=
  Queue (buffered c st) (arr_get 0 (batch_first_ts_ns_by_cpu st) c) (delivered c st)
    (counter_value n_perf_submission_failed_slices c st) (counter_value n_sampled_slices c st).

(** The well-formedness of the batch memory. *)
Record batches_ok st : Prop := {
  bo_some : is_Some (slice_batches st);
  bo_count : forall c, 0 <= c < MAX_CPUS -> 0 <= batch_count (batch_of c st) < MAX_SLICES_PER_BATCH;
  bo_first : forall c, 0 <= c < MAX_CPUS ->
    arr_get 0 (batch_first_ts_ns_by_cpu st) c <> 0 -> 0 < batch_count (batch_of c st);
}.

(** States that agree on everything batching depends on; only the oracle of
    results may have advanced. *)
Definition same_batches st st' : Prop :=
  slice_batches st' = slice_batches st /\
  batch_first_ts_ns_by_cpu st' = batch_first_ts_ns_by_cpu st /\
  (forall c, delivered c st' = delivered c st) /\
  (forall k c, k = n_perf_submission_failed_slices \/ k = n_sampled_slices ->
     counter_value k c st' = counter_value k c st) /\
  exists n, perf_rets st' = drop n (perf_rets st).

#[local] Instance same_batches_preorder : PreOrder same_batches.
Proof.
  split.
  - intros st. split_and!; try done. by exists 0%nat.
  - intros s1 s2 s3 (A1 & A2 & A3 & A4 & n & A5) (B1 & B2 & B3 & B4 & m & B5).
    unfold same_batches. split; [congruence|]. split; [congruence|]. split; [|split].
    + intros c. by rewrite B3, A3.
    + intros k c Hk. by rewrite B4, A4.
    + exists (n + m)%nat. by rewrite B5, A5, drop_drop.
Qed.

Lemma counter_value_add k c k' c' d st :
  counter_value k c (count_add k' c' d st) =
    if decide ((k', c') = (k, c)) then counter_value k c st +64 d else counter_value k c st.
Proof.
  unfold counter_value, count_add. simpl. rewrite lookup_insert. by case_decide; simplify_eq.
Qed.

(** *** Helpers that leave the batches alone *)

Ltac same_refl := split_and!; try done; by exists 0%nat.

Lemma same_count k c st :
  k <> n_perf_submission_failed_slices -> k <> n_sampled_slices -> same_batches st (count k c st).
Proof.
  intros H1 H2. split_and!; try done; [|by exists 0%nat].
  intros k' c' Hk. unfold count. rewrite counter_value_add. case_decide; [naive_solver|done].
Qed.

Lemma same_perf_output e st :
  (forall c, event_slices c e = []) -> same_batches st (snd (perf_output e st)).
Proof.
  intros He. unfold perf_output, bpf_perf_event_output. simpl.
  split_and!; try done; [|exists 1%nat; by destruct (perf_rets st)].
  intros c. unfold delivered. simpl. case_if; [done|].
  by rewrite fmap_app, concat_app; simpl; rewrite He, !app_nil_r.
Qed.

Lemma same_ensure_epoch c e st : same_batches st (ensure_waiting_bitmap_epoch c e st).
Proof. unfold ensure_waiting_bitmap_epoch. case_if; same_refl. Qed.

Lemma same_resolve cpu cgid css e st :
  same_batches st (snd (resolve_target_dense_id cpu cgid css e st)).
Proof.
  unfold resolve_target_dense_id. case_if; simpl; [same_refl|].
  destruct (bpf_map_lookup_elem _ _) as [d|]; [case_if|]; simpl; try same_refl.
  transitivity (count n_invalid_target_dense_id cpu st); [by apply same_count|same_refl].
Qed.

Lemma same_set_waiting cpu c d w t st : same_batches st (set_waiting cpu c d w t st).
Proof.
  unfold set_waiting. case_if; [by apply same_count|]. repeat case_if; same_refl.
Qed.

Lemma same_identity c tg css st : same_batches st (maybe_emit_identity c tg css st).
Proof.
  unfold maybe_emit_identity. repeat (case_if; [same_refl|]).
  match goal with |- context [perf_output ?e st] => pose proof (same_perf_output e st) as H end.
  destruct (perf_output _ st) as [ret st']. simpl in *.
  etransitivity; [by apply H|]. case_if; same_refl.
Qed.

Lemma same_throttle cpu c d n st : same_batches st (emit_throttle_event cpu c d n st).
Proof.
  unfold emit_throttle_event.
  set (pr := if MAX_DURATION_NS <? n then (MAX_DURATION_NS, count n_throttle_duration_overflow cpu st) else (n, st)).
  assert (H : same_batches st (snd pr)).
  { subst pr. case_if; [by apply same_count|same_refl]. }
  destruct pr as [n' st1]. simpl in H. etransitivity; [exact H|].
  match goal with |- context [perf_output ?e st1] => pose proof (same_perf_output e st1) as H1 end.
  destruct (perf_output _ st1) as [ret st2]. simpl in *.
  etransitivity; [by apply H1|]. case_if; [by apply same_count|same_refl].
Qed.

Lemma same_pack cpu d b css st : same_batches st (snd (pack_slice cpu d b css st)).
Proof. unfold pack_slice. case_if; simpl; [by apply same_count|same_refl]. Qed.

Lemma same_switch_identity cpu c tg css st : same_batches st (snd (switch_identity cpu c tg css st)).
Proof.
  unfold switch_identity. case_if; [same_refl|]. case_if; [by apply same_count|apply same_identity].
Qed.

Lemma same_switch_waiting kr cpu c e prev next ptg pid pix ntg nid nix st :
  same_batches st (switch_waiting kr cpu c e prev next ptg pid pix ntg nid nix st).
Proof.
  unfold switch_waiting.
  set (st1 := if negb (ptg =? 0) && _ then _ else st).
  assert (H1 : same_batches st st1).
  { subst st1. case_if; [|same_refl].
    pose proof (same_resolve cpu ptg pix e st) as H.
    destruct (resolve_target_dense_id _ _ _ _ _) as [d st']. simpl in H.
    etransitivity; [exact H|]. case_if; [apply same_set_waiting|same_refl]. }
  clearbody st1. etransitivity; [exact H1|].
  assert (H2 : same_batches st1 (clear_running_css_id c st1)) by same_refl.
  etransitivity; [exact H2|]. case_if; [|same_refl].
  pose proof (same_resolve cpu ntg nix e (clear_running_css_id c st1)) as H.
  destruct (resolve_target_dense_id _ _ _ _ _) as [d st']. simpl in H.
  etransitivity; [exact H|]. etransitivity; [|same_refl].
  case_if; [apply same_set_waiting|same_refl].
Qed.

Lemma same_wakeup kr cpu cur task st : same_batches st (update_wakeup_waiting kr cpu cur task st).
Proof.
  unfold update_wakeup_waiting.
  repeat (case_if; [first [same_refl | by apply same_count]|]).
  set (st1 := ensure_waiting_bitmap_epoch _ _ st). set (st2 := maybe_emit_identity _ _ _ st1).
  transitivity st2; [transitivity st1; [apply same_ensure_epoch|apply same_identity]|].
  clearbody st2. clear st1.
  match goal with |- context [resolve_target_dense_id ?a ?b ?c ?d st2] =>
    pose proof (same_resolve a b c d st2) as H end.
  destruct (resolve_target_dense_id _ _ _ _ st2) as [d st3]. simpl in H.
  etransitivity; [exact H|].
  repeat (case_if; [first [same_refl | by apply same_count | apply same_set_waiting]|]).
  apply same_set_waiting.
Qed.

Lemma same_migrate kr cpu task a st : same_batches st (on_sched_migrate_task kr cpu task a st).
Proof.
  unfold on_sched_migrate_task.
  repeat (case_if; [first [same_refl | by apply same_count]|]).
  set (st1 := ensure_waiting_bitmap_epoch _ _ st).
  transitivity st1; [apply same_ensure_epoch|]. clearbody st1.
  match goal with |- context [resolve_target_dense_id ?a ?b ?c ?d st1] =>
    pose proof (same_resolve a b c d st1) as H end.
  destruct (resolve_target_dense_id _ _ _ _ st1) as [d st3]. simpl in H.
  etransitivity; [exact H|]. case_if; [same_refl|apply same_set_waiting].
Qed.

Lemma same_unthrottle_return kr cpu st : same_batches st (on_unthrottle_cfs_rq_return kr cpu st).
Proof.
  unfold on_unthrottle_cfs_rq_return. case_if; [by apply same_count|].
  set (st1 := set_unthrottle _ st). transitivity st1; [same_refl|]. clearbody st1.
  set (rqp := arr_get 0 _ _). clearbody rqp.
  repeat (case_if; [first [same_refl | by apply same_count]|]).
  set (st2 := ensure_waiting_bitmap_epoch _ _ st1).
  transitivity st2; [apply same_ensure_epoch|]. clearbody st2.
  match goal with |- context [resolve_target_dense_id ?a ?b ?c ?d st2] =>
    pose proof (same_resolve a b c d st2) as H end.
  destruct (resolve_target_dense_id _ _ _ _ st2) as [d st3]. simpl in H.
  etransitivity; [exact H|]. case_if; [same_refl|].
  etransitivity; [apply same_set_waiting|]. case_if; [by apply same_count|apply same_throttle].
Qed.

(** *** Emission on the queue *)

Lemma land_511 c : 0 <= c < MAX_CPUS -> Z.land c 511 = c.
Proof.
  intros H. change 511 with (2 ^ 9 - 1). rewrite land_mask by lia.
  apply Z.mod_small. unfold MAX_CPUS in H. lia.
Qed.

Lemma queue_same c st st' : same_batches st st' -> queue_of c st' = queue_of c st.
Proof.
  intros (A1 & A2 & A3 & A4 & _). unfold queue_of, buffered, batch_of, batch_lookup.
  rewrite A1, A2, A3, !A4 by auto. done.
Qed.

Lemma batches_ok_same st st' : same_batches st st' -> batches_ok st -> batches_ok st'.
Proof.
  intros (A1 & A2 & _) [B1 B2 B3]. unfold batch_of, batch_lookup in *.
  split; unfold batch_of, batch_lookup; rewrite ?A1, ?A2; auto.
Qed.

Lemma batch_of_store c b st c' :
  is_Some (slice_batches st) ->
  batch_of c' (batch_store c b st) = if decide (c = c') then b else batch_of c' st.
Proof.
  intros [bs Hbs]. unfold batch_of, batch_lookup, batch_store. simpl. rewrite Hbs. simpl.
  rewrite percpu_get_set. by case_decide.
Qed.

Lemma batch_lookup_of c st :
  is_Some (slice_batches st) -> batch_lookup c st = Some (batch_of c st).
Proof. intros [bs Hbs]. unfold batch_of, batch_lookup. by rewrite Hbs. Qed.

(** Emitting the current batch of a CPU flushes its queue and no other. *)
(** Counting the slices of a failed submission. *)
Lemma failed_submission_queue cpu n c st :
  queue_of c (count_add n_perf_submission_failed_slices cpu n
                (count n_perf_submission_failures cpu st)) =
  let q := queue_of c st in
  if decide (cpu = c)
  then Queue (q_buf q) (q_first q) (q_out q) (q_failed q +64 n) (q_sampled q)
  else q.
Proof.
  unfold queue_of. rewrite !counter_value_add. unfold count. rewrite !counter_value_add.
  repeat case_decide; simplify_eq; done.
Qed.

Lemma emit_queue cpu b st :
  0 <= cpu < MAX_CPUS -> is_Some (slice_batches st) -> batch_of cpu st = b ->
  0 < batch_count b <= MAX_SLICES_PER_BATCH ->
  let st' := emit_slice_batch cpu cpu b st in
  is_Some (slice_batches st') /\
  (forall c, batch_of c st' = if decide (cpu = c) then set_batch_count 0 b else batch_of c st) /\
  (forall c, queue_of c st' =
     if decide (cpu = c) then q_flush (hd 0 (perf_rets st)) (queue_of c st) else queue_of c st) /\
  exists n, perf_rets st' = drop n (perf_rets st).
Proof.
  intros Hc Hs Hb Hn. unfold emit_slice_batch.
  rewrite (proj2 (Z.eqb_neq _ _)), (proj2 (Z.ltb_ge _ _)) by lia. simpl orb. cbv iota.
  rewrite land_511 by done. unfold output_slice_batch, perf_output, bpf_perf_event_output.
  set (e := SliceBatchEvent _ _ _ _ _). set (ret := hd 0 (perf_rets st)).
  set (st1 := set_events _ _ st).
  assert (He : forall c, event_slices c e = if decide (cpu = c) then buffered cpu st else []).
  { intros c. subst e. simpl. case_decide; [|done]. unfold buffered. rewrite Hb.
    apply slices_prefix_take. apply batch_capacity_enough. unfold MAX_SLICES_PER_BATCH in Hn. lia. }
  clearbody e.
  assert (Hlen : batch_count b = Z.of_nat (length (buffered cpu st))).
  { unfold buffered. rewrite slices_prefix_length, Hb. lia. }
  assert (Hd : forall c, delivered c st1 =
     delivered c st ++ (if ret <? 0 then [] else if decide (cpu = c) then buffered cpu st else [])).
  { intros c. subst st1. unfold delivered. simpl. destruct (ret <? 0); [by rewrite app_nil_r|].
    by rewrite fmap_app, concat_app; simpl; rewrite He, app_nil_r. }
  set (st2 := batch_store cpu (set_batch_count 0 b) st1).
  set (st3 := set_first_ts _ st2).
  assert (Hbo : forall c, batch_of c st3 = if decide (cpu = c) then set_batch_count 0 b else batch_of c st).
  { intros c. change (batch_of c st3) with (batch_of c st2). subst st2. rewrite batch_of_store; done. }
  assert (Hq : forall c, queue_of c st3 =
     if decide (cpu = c)
     then Queue [] 0 (delivered c st1) (q_failed (queue_of c st)) (q_sampled (queue_of c st))
     else Queue (buffered c st) (q_first (queue_of c st)) (delivered c st1)
            (q_failed (queue_of c st)) (q_sampled (queue_of c st))).
  { intros c. unfold queue_of at 1, buffered. rewrite Hbo.
    change (batch_first_ts_ns_by_cpu st3) with (arr_set (batch_first_ts_ns_by_cpu st) cpu 0).
    rewrite arr_get_set. change (delivered c st3) with (delivered c st1). by case_decide. }
  assert (Hsome : is_Some (slice_batches st3)).
  { destruct Hs as [bs Hbs]. subst st3 st2 st1. simpl. rewrite Hbs. by eexists. }
  assert (Hr : exists n, perf_rets st3 = drop n (perf_rets st)).
  { exists 1%nat. subst st3 st2 st1. simpl. by destruct (perf_rets st). }
  clearbody st3. clear st2. destruct (ret <? 0) eqn:Er.
  - split_and!; [done|done| |done]. intros c.
    rewrite failed_submission_queue, Hq, Hd. simpl. rewrite app_nil_r. case_decide; [|done].
    unfold q_flush. subst c. by rewrite Er, Hlen.
  - split_and!; [done|done| |done]. intros c. rewrite Hq, Hd. unfold q_flush. rewrite Er.
    case_decide; [by subst c|by rewrite app_nil_r].
Qed.

Lemma land_127 i : 0 <= i < 128 -> Z.land i 127 = i.
Proof.
  intros H. change 127 with (2 ^ 7 - 1). rewrite land_mask by lia. apply Z.mod_small. lia.
Qed.

Lemma clamp_range cfg : 1 <= clamp_batch_size cfg <= MAX_SLICES_PER_BATCH.
Proof.
  unfold clamp_batch_size, MAX_SLICES_PER_BATCH. repeat case_if; zify_bools; lia.
Qed.

Lemma buffered_nil c st : 0 <= batch_count (batch_of c st) ->
  (buffered c st = [] <-> batch_count (batch_of c st) = 0).
Proof.
  intros H. unfold buffered. split.
  - intros E. apply (f_equal length) in E. rewrite slices_prefix_length in E. simpl in E. lia.
  - intros ->. done.
Qed.

(** The batch and the state [append_sampled_slice] reaches before it decides to
    emit. *)
Lemma append_fill cfg cpu now s st :
  0 <= cpu < MAX_CPUS -> batches_ok st ->
  let n := batch_count (batch_of cpu st) in
  exists b1 st2,
    append_sampled_slice cfg cpu cpu now s st =
      (if clamp_batch_size cfg <=? n + 1 then emit_slice_batch cpu cpu b1 st2 else st2) /\
    batch_count b1 = n + 1 /\ is_Some (slice_batches st2) /\ perf_rets st2 = perf_rets st /\
    (forall c, batch_of c st2 = if decide (cpu = c) then b1 else batch_of c st) /\
    (forall c, queue_of c st2 = if decide (cpu = c) then
       Queue (buffered c st ++ [s]) (if decide (buffered c st = []) then now else q_first (queue_of c st))
         (delivered c st) (q_failed (queue_of c st)) (q_sampled (queue_of c st))
       else queue_of c st).
Proof.
  intros Hc [Bs Bc Bf] n. unfold append_sampled_slice. rewrite batch_lookup_of by done.
  pose proof (Bc cpu Hc) as Hn. unfold MAX_SLICES_PER_BATCH in Hn. fold n in Hn |- *.
  rewrite (proj2 (Z.leb_gt MAX_SLICES_PER_BATCH _)) by (unfold MAX_SLICES_PER_BATCH; lia).
  cbv beta iota zeta. rewrite land_127, land_511 by done.
  set (pr := if n =? 0 then _ else (batch_of cpu st, st)).
  assert (Hp : packed_slices (fst pr) = packed_slices (batch_of cpu st)) by (subst pr; by case_if).
  assert (Hpr : exists f1, snd pr = set_first_ts f1 st /\
     forall c, arr_get 0 f1 c = if decide (cpu = c) then
         (if decide (buffered c st = []) then now else arr_get 0 (batch_first_ts_ns_by_cpu st) c)
       else arr_get 0 (batch_first_ts_ns_by_cpu st) c).
  { subst pr. destruct (Z.eqb_spec n 0) as [E|E]; simpl.
    - eexists. split; [done|]. intros c. rewrite arr_get_set. case_decide; [subst|done].
      by rewrite decide_True by (apply buffered_nil; [lia|done]).
    - exists (batch_first_ts_ns_by_cpu st). split; [by destruct st|]. intros c.
      case_decide; [subst|done]. rewrite decide_False; [done|].
      rewrite buffered_nil by lia. done. }
  destruct pr as [b st1]. simpl in Hp, Hpr. destruct Hpr as (f1 & -> & Hf1).
  rewrite (u32_small (n + 1)) by (unfold is_u32; lia).
  set (b1 := SliceBatch _ _ (n + 1) _). set (st2 := batch_store cpu b1 _).
  assert (Hb2 : forall c, batch_of c st2 = if decide (cpu = c) then b1 else batch_of c st).
  { intros c. subst st2. by rewrite batch_of_store by done. }
  exists b1, st2. split_and!; [done|done| |done|done|].
  - destruct Bs as [bs Hbs]. subst st2. simpl. rewrite Hbs. by eexists.
  - intros c. unfold queue_of. change (batch_first_ts_ns_by_cpu st2) with f1. rewrite Hf1.
    unfold buffered. rewrite Hb2. destruct (decide (cpu = c)) as [<-|Hne]; [|done]. simpl.
    f_equal. replace (Z.to_nat (n + 1)) with (S (Z.to_nat n)) by lia.
    subst b1. rewrite Hp. replace (arr_set (packed_slices (batch_of cpu st)) n s)
      with (arr_set (packed_slices (batch_of cpu st)) (Z.of_nat (Z.to_nat n)) s) by (f_equal; lia).
    apply slices_prefix_snoc.
Qed.

(** Appending a slice is the abstract append on the CPU's queue. *)
Lemma append_queue cfg cpu now s st :
  0 <= cpu < MAX_CPUS -> batches_ok st ->
  let st' := append_sampled_slice cfg cpu cpu now s st in
  batches_ok st' /\
  (forall c, queue_of c st' =
     if decide (cpu = c) then q_append (clamp_batch_size cfg) now (hd 0 (perf_rets st)) s (queue_of c st)
     else queue_of c st) /\
  exists n, perf_rets st' = drop n (perf_rets st).
Proof.
  intros Hc HB. destruct (append_fill cfg cpu now s st Hc HB)
    as (b1 & st2 & -> & Hn1 & Hs2 & Hr2 & Hb2 & Hq2).
  destruct HB as [Bs Bc Bf]. pose proof (Bc cpu Hc) as Hn. unfold MAX_SLICES_PER_BATCH in *.
  set (n := batch_count (batch_of cpu st)) in *.
  assert (Hlen : Z.of_nat (length (buffered cpu st ++ [s])) = n + 1).
  { rewrite length_app. unfold buffered. rewrite slices_prefix_length. simpl. lia. }
  pose proof (clamp_range cfg) as Hcl. unfold MAX_SLICES_PER_BATCH in Hcl.
  assert (Hf2 : forall c, cpu <> c ->
     arr_get 0 (batch_first_ts_ns_by_cpu st2) c = arr_get 0 (batch_first_ts_ns_by_cpu st) c).
  { intros c Hne. pose proof (f_equal q_first (Hq2 c)) as H. by rewrite decide_False in H. }
  destruct (Z.leb_spec (clamp_batch_size cfg) (n + 1)) as [Hle|Hlt].
  - destruct (emit_queue cpu b1 st2 Hc Hs2) as (E1 & E2 & E3 & E4);
      [by rewrite Hb2, decide_True|unfold MAX_SLICES_PER_BATCH; lia|].
    rewrite Hr2 in E3, E4. split_and!; [split; [done|..]| |done].
    + intros c Hcc. rewrite E2, Hb2. destruct (decide (cpu = c)); [done|]. by apply Bc.
    + intros c Hcc Hf. pose proof (f_equal q_first (E3 c)) as E3c. simpl in E3c.
      rewrite E2, Hb2. destruct (decide (cpu = c)) as [<-|Hne].
      * exfalso. apply Hf. rewrite E3c. unfold q_flush. by case_if.
      * apply Bf; [done|]. by rewrite E3c in Hf; simpl in Hf; rewrite Hf2 in Hf.
    + intros c. rewrite E3, Hq2. destruct (decide (cpu = c)) as [<-|]; [|done].
      unfold q_append. cbn [q_buf queue_of]. by rewrite Hlen, (proj2 (Z.leb_le _ _)).
  - split_and!; [split; [done|..]| |by exists 0%nat].
    + intros c Hcc. rewrite Hb2. unfold MAX_SLICES_PER_BATCH.
      destruct (decide (cpu = c)) as [<-|Hne]; [lia|by apply Bc].
    + intros c Hcc Hf. rewrite Hb2. destruct (decide (cpu = c)) as [<-|Hne]; [lia|].
      apply Bf; [done|]. by rewrite Hf2 in Hf.
    + intros c. rewrite Hq2. destruct (decide (cpu = c)) as [<-|]; [|done].
      unfold q_append. cbn [q_buf queue_of]. by rewrite Hlen, (proj2 (Z.leb_gt _ _)).
Qed.

(** Flushing an aged batch is the abstract flush on the CPU's queue. *)
Lemma aged_queue cpu now st :
  0 <= cpu < MAX_CPUS -> batches_ok st ->
  let st' := flush_slice_batch_if_aged cpu cpu now st in
  batches_ok st' /\
  (forall c, queue_of c st' =
     if decide (cpu = c) then q_aged now (hd 0 (perf_rets st)) (queue_of c st) else queue_of c st) /\
  exists n, perf_rets st' = drop n (perf_rets st).
Proof.
  intros Hc HB. unfold flush_slice_batch_if_aged. rewrite land_511 by done.
  unfold q_aged. cbn [q_first queue_of].
  destruct (_ || _) eqn:E.
  { split_and!; [done| |by exists 0%nat]. intros c.
    destruct (decide (cpu = c)) as [<-|]; [by rewrite E|done]. }
  zify_bools. destruct HB as [Bs Bc Bf].
  rewrite batch_lookup_of by done. pose proof (Bc cpu Hc) as Hn. pose proof (Bf cpu Hc H) as Hpos.
  destruct (emit_queue cpu (batch_of cpu st) st Hc Bs eq_refl) as (E1 & E2 & E3 & E4); [lia|].
  split_and!; [split; [done|..]| |done].
  - intros c Hcc. rewrite E2. destruct (decide (cpu = c)); [done|auto].
  - intros c Hcc Hf. pose proof (f_equal q_first (E3 c)) as E3c. simpl in E3c. rewrite E2.
    destruct (decide (cpu = c)) as [<-|Hne].
    + exfalso. apply Hf. rewrite E3c. unfold q_flush. by case_if.
    + apply Bf; [done|]. by rewrite E3c in Hf.
  - intros c. rewrite E3. destruct (decide (cpu = c)) as [<-|]; [|done].
    rewrite (proj2 (Z.eqb_neq _ _) H), (proj2 (Z.ltb_ge _ _)) by lia. done.
Qed.

(** ** A context switch on the queue *)

(** The slice a switch contributes, from the state before it. *)
Definition switch_slice (cfg : sb_config) (kr : sb_kernel) (cpu now prandom prev : Z) st
    : option sched_blame_packed_slice :=
  let start := arr_get 0 (previous_switch_ns_by_cpu st) cpu in
  let pid := task_pid kr prev in
  let tg := if pid =? 0 then 0 else task_group_of kr prev in
  let css_id := if tg =? 0 then 0 else task_group_css_id kr tg in
  if (start =? 0) || (pid =? 0) || (tg =? 0) || (MAX_CSS_IDS <=? css_id) ||
     negb (keep_slice cfg prandom)
  then None
  else Some (fst (pack_slice cpu (now -64 start)
                    (snapshot_waiting_targets cpu
                       (ensure_waiting_bitmap_epoch cpu (target_css_id_epoch st) st))
                    (Z.land css_id 4095) st)).

Lemma pack_slice_fst cpu d b css st st' :
  fst (pack_slice cpu d b css st) = fst (pack_slice cpu d b css st').
Proof. unfold pack_slice. by case_if. Qed.

Lemma bitmap_emit cpu c b st :
  waiting_target_bitmap_by_cpu (emit_slice_batch cpu c b st) = waiting_target_bitmap_by_cpu st.
Proof.
  unfold emit_slice_batch, output_slice_batch, perf_output, bpf_perf_event_output.
  by repeat case_if.
Qed.

Lemma bitmap_aged cpu c now st :
  waiting_target_bitmap_by_cpu (flush_slice_batch_if_aged cpu c now st) =
  waiting_target_bitmap_by_cpu st.
Proof.
  unfold flush_slice_batch_if_aged. case_if; [done|]. case_match; [apply bitmap_emit|done].
Qed.

Lemma bitmap_switch_identity cpu c tg css st :
  waiting_target_bitmap_by_cpu (snd (switch_identity cpu c tg css st)) =
  waiting_target_bitmap_by_cpu st.
Proof.
  unfold switch_identity, maybe_emit_identity, perf_output, bpf_perf_event_output.
  by repeat case_if.
Qed.

Lemma snapshot_same c st st' :
  waiting_target_bitmap_by_cpu st' = waiting_target_bitmap_by_cpu st ->
  snapshot_waiting_targets c st' = snapshot_waiting_targets c st.
Proof. intros H. unfold snapshot_waiting_targets. by rewrite H. Qed.

Lemma queue_count_sampled cpu st c :
  queue_of c (count n_sampled_slices cpu st) =
    if decide (cpu = c) then q_count (queue_of c st) else queue_of c st.
Proof.
  unfold queue_of, count. rewrite !counter_value_add.
  repeat case_decide; simplify_eq; done.
Qed.

(** Sampling appends the slice to the queue and counts it. *)
Lemma sample_queue cfg cpu now start prandom pid tg css_id css_index st :
  0 <= cpu < MAX_CPUS -> batches_ok st ->
  let st' := switch_sample cfg cpu cpu now start prandom pid tg css_id css_index st in
  batches_ok st' /\
  (forall c, queue_of c st' =
     if decide (cpu = c) then
       if (start =? 0) || (pid =? 0) || (tg =? 0) || (MAX_CSS_IDS <=? css_id) ||
          negb (keep_slice cfg prandom)
       then queue_of c st
       else q_append (clamp_batch_size cfg) now (hd 0 (perf_rets st))
              (fst (pack_slice cpu (now -64 start) (snapshot_waiting_targets cpu st) css_index st))
              (q_count (queue_of c st))
     else queue_of c st) /\
  exists n, perf_rets st' = drop n (perf_rets st).
Proof.
  intros Hc HB. unfold switch_sample.
  assert (Hsame : forall st', same_batches st st' ->
     batches_ok st' /\ (forall c, queue_of c st' = if decide (cpu = c) then queue_of c st else queue_of c st)
     /\ exists n, perf_rets st' = drop n (perf_rets st)).
  { intros st' Hs. split_and!; [by eapply batches_ok_same| |apply Hs].
    intros c. rewrite (queue_same c _ _ Hs). by case_decide. }
  destruct (start =? 0); cbn [orb negb andb]; [apply Hsame; same_refl|].
  destruct (pid =? 0); cbn [orb negb andb]; [apply Hsame; by apply same_count|].
  destruct (tg =? 0); cbn [orb negb andb]; [apply Hsame; same_refl|].
  rewrite Z.ltb_antisym.
  destruct (MAX_CSS_IDS <=? css_id); cbn [orb negb andb]; [apply Hsame; same_refl|].
  destruct (keep_slice cfg prandom); cbn [orb negb andb]; [|apply Hsame; by apply same_count].
  set (d := now -64 start). set (snap := snapshot_waiting_targets cpu st).
  pose proof (same_pack cpu d snap css_index st) as Hp.
  destruct (pack_slice cpu d snap css_index st) as [s st1] eqn:Epk. simpl in Hp |- *.
  set (st2 := count n_sampled_slices cpu st1).
  assert (HB2 : batches_ok st2).
  { destruct (batches_ok_same _ _ Hp HB) as [B1 B2 B3]. by split. }
  destruct (append_queue cfg cpu now s st2 Hc HB2) as (A1 & A2 & k & A3).
  destruct Hp as (P1 & P2 & P3 & P4 & j & P5).
  assert (Hrets : perf_rets st1 = perf_rets st).
  { revert Epk. unfold pack_slice. case_if; intros; simplify_eq; done. }
  change (perf_rets st2) with (perf_rets st1) in A2, A3. rewrite Hrets in A2, A3.
  split_and!; [done| |by exists k].
  intros c. rewrite A2. subst st2. rewrite queue_count_sampled.
  rewrite (queue_same c st st1) by by split_and!; [..|exists j].
  by destruct (decide (cpu = c)).
Qed.

(** One switch: the aged batch may leave, then the slice joins; nothing happens
    to other CPUs' queues. *)
Lemma switch_queue cfg kr cpu now prandom prev next st :
  0 <= cpu < MAX_CPUS -> batches_ok st ->
  let st' := on_sched_switch cfg kr cpu now prandom prev next st in
  batches_ok st' /\
  (exists k, perf_rets st' = drop k (perf_rets st)) /\
  exists i j, forall c, queue_of c st' =
     if decide (cpu = c) then
       let q := q_aged now (hd 0 (drop i (perf_rets st))) (queue_of c st) in
       match switch_slice cfg kr cpu now prandom prev st with
       | Some s => q_append (clamp_batch_size cfg) now (hd 0 (drop j (perf_rets st))) s (q_count q)
       | None => q
       end
     else queue_of c st.
Proof.
  intros Hc HB. unfold on_sched_switch, switch_slice.
  rewrite (proj2 (Z.leb_gt MAX_CPUS cpu)) by lia. rewrite land_511 by done. cbv zeta.
  set (epoch := target_css_id_epoch st).
  set (st1 := ensure_waiting_bitmap_epoch cpu epoch st).
  pose proof (same_ensure_epoch cpu epoch st) as S1. fold st1 in S1.
  assert (Hprev : previous_switch_ns_by_cpu st1 = previous_switch_ns_by_cpu st).
  { subst st1. unfold ensure_waiting_bitmap_epoch. by case_if. }
  rewrite Hprev. set (start := arr_get 0 _ cpu).
  set (st2 := set_previous_switch _ st1).
  assert (S2 : same_batches st st2) by (etransitivity; [exact S1|same_refl]).
  destruct (aged_queue cpu now st2 Hc (batches_ok_same _ _ S2 HB)) as (B3 & Q3 & k3 & R3).
  pose proof (bitmap_aged cpu cpu now st2) as M3.
  set (st3 := flush_slice_batch_if_aged cpu cpu now st2) in *.
  set (pid := task_pid kr prev). set (tg := if pid =? 0 then 0 else task_group_of kr prev).
  set (css := if tg =? 0 then 0 else task_group_css_id kr tg).
  pose proof (same_switch_identity cpu cpu tg css st3) as S4.
  pose proof (bitmap_switch_identity cpu cpu tg css st3) as M4.
  assert (Hix : negb (tg =? 0) && (css <? MAX_CSS_IDS) = true ->
                fst (switch_identity cpu cpu tg css st3) = Z.land css 4095).
  { unfold switch_identity. intros H. zify_bools.
    rewrite (proj2 (Z.eqb_neq tg 0)), (proj2 (Z.leb_gt _ css)) by lia. done. }
  destruct (switch_identity cpu cpu tg css st3) as [pix st4]. simpl in S4, M4, Hix.
  set (ntg := if task_pid kr next =? 0 then 0 else _).
  set (ncss := if ntg =? 0 then 0 else task_group_css_id kr ntg).
  pose proof (same_switch_identity cpu cpu ntg ncss st4) as S5.
  pose proof (bitmap_switch_identity cpu cpu ntg ncss st4) as M5.
  destruct (switch_identity cpu cpu ntg ncss st4) as [nix st5]. simpl in S5, M5.
  assert (S35 : same_batches st3 st5) by by etransitivity.
  destruct (sample_queue cfg cpu now start prandom pid tg css pix st5 Hc
              (batches_ok_same _ _ S35 B3)) as (B6 & Q6 & k6 & R6).
  set (st6 := switch_sample _ _ _ _ _ _ _ _ _ _ st5) in *.
  pose proof (same_switch_waiting kr cpu cpu epoch prev next tg css pix ntg ncss nix st6) as S7.
  pose proof S7 as (_ & _ & _ & _ & k7 & W5).
  pose proof S35 as (_ & _ & _ & _ & k5 & R5). pose proof S2 as (_ & _ & _ & _ & k2 & R2).
  assert (Hsnap : snapshot_waiting_targets cpu st5 = snapshot_waiting_targets cpu st1).
  { apply snapshot_same. by rewrite M5, M4, M3. }
  split_and!; [by eapply batches_ok_same| |].
  { rewrite W5, R6, R5, R3, R2, !drop_drop. by eexists. }
  exists k2, (k2 + (k3 + k5))%nat. intros c.
  rewrite (queue_same c _ _ S7), Q6, (queue_same c _ _ S35), Q3, (queue_same c _ _ S2).
  rewrite R5, R3, R2, !drop_drop, Hsnap.
  destruct (decide (cpu = c)) as [<-|]; [|done].
  destruct (_ || negb (keep_slice cfg prandom)) eqn:Ecase; [done|].
  rewrite Hix; [by rewrite (pack_slice_fst _ _ _ _ _ st)|].
  zify_bools. rewrite (proj2 (Z.eqb_neq tg 0)), (proj2 (Z.ltb_lt _ _)) by lia. done.
Qed.

(** Every other input leaves every queue alone. *)
Lemma other_inputs_same cfg i st :
  match i with SchedSwitch _ cpu _ _ _ _ => MAX_CPUS <= cpu | _ => True end ->
  same_batches st (sb_step cfg i st).
Proof.
  destruct i; simpl; intros Hc.
  - unfold on_sched_switch. rewrite (proj2 (Z.leb_le _ _)) by done. by apply same_count.
  - apply same_wakeup.
  - apply same_wakeup.
  - apply same_migrate.
  - unfold on_unthrottle_cfs_rq_entry. case_if; [by apply same_count|same_refl].
  - apply same_unthrottle_return.
  - same_refl.
  - same_refl.
  - same_refl.
Qed.

(** CPU numbers are nonnegative: [bpf_get_smp_processor_id] is unsigned. *)
Definition input_ok (i : sb_input) : Prop :=
  match i with SchedSwitch _ cpu _ _ _ _ => 0 <= cpu | _ => True end.

(** The slice of an input for a CPU, and of a whole run, in order. *)
Definition input_slice (cfg : sb_config) (c : Z) (i : sb_input) st
    : option sched_blame_packed_slice :=
  match i with
  | SchedSwitch kr cpu now prandom prev _ =>
      if (cpu =? c) && (cpu <? MAX_CPUS) then switch_slice cfg kr cpu now prandom prev st else None
  | _ => None
  end.
Fixpoint run_slices (cfg : sb_config) (c : Z) (inputs : list sb_input) st
    : list sched_blame_packed_slice :=
  match inputs with
  | [] => []
  | i :: rest => option_list (input_slice cfg c i st) ++ run_slices cfg c rest (sb_step cfg i st)
  end.

Lemma step_queue cfg i st :
  input_ok i -> batches_ok st ->
  batches_ok (sb_step cfg i st) /\
  (exists k, perf_rets (sb_step cfg i st) = drop k (perf_rets st)) /\
  forall c, exists now i1 j1 aged, queue_of c (sb_step cfg i st) =
    let q := if aged : bool then q_aged now (hd 0 (drop i1 (perf_rets st))) (queue_of c st)
             else queue_of c st in
    match input_slice cfg c i st with
    | Some s => q_append (clamp_batch_size cfg) now (hd 0 (drop j1 (perf_rets st))) s (q_count q)
    | None => q
    end.
Proof.
  intros Hi HB.
  assert (Hsame : same_batches st (sb_step cfg i st) -> (forall c, input_slice cfg c i st = None) ->
    batches_ok (sb_step cfg i st) /\ (exists k, perf_rets (sb_step cfg i st) = drop k (perf_rets st)) /\
    forall c, exists now i1 j1 aged, queue_of c (sb_step cfg i st) =
      let q := if aged : bool then q_aged now (hd 0 (drop i1 (perf_rets st))) (queue_of c st)
               else queue_of c st in
      match input_slice cfg c i st with
      | Some s => q_append (clamp_batch_size cfg) now (hd 0 (drop j1 (perf_rets st))) s (q_count q)
      | None => q
      end).
  { intros Hs Hn. split_and!; [by eapply batches_ok_same|apply Hs|]. intros c.
    exists 0, 0%nat, 0%nat, false. rewrite Hn. by apply queue_same. }
  destruct i as [kr cpu now prandom prev next|?|?|?|?|?|?|?|?]; try by apply Hsame; [apply other_inputs_same|].
  destruct (Z.lt_ge_cases cpu MAX_CPUS) as [Hlt|Hge].
  - simpl in *. destruct (switch_queue cfg kr cpu now prandom prev next st) as (B & R & k & j & Q);
      [lia|done|].
    split_and!; [done..|]. intros c. exists now, k, j, (bool_decide (cpu = c)). rewrite Q.
    rewrite (proj2 (Z.ltb_lt _ _) Hlt), andb_true_r.
    destruct (Z.eqb_spec cpu c); [by rewrite decide_True, bool_decide_true by done|].
    by rewrite decide_False, bool_decide_false by done.
  - apply Hsame; [by apply other_inputs_same|]. intros c. simpl.
    by rewrite (proj2 (Z.ltb_ge _ _) Hge), andb_false_r.
Qed.

(** *** Accounting *)

Definition q_balanced (q : queue) : Prop :=
  is_u64 (q_sampled q) /\
  q_sampled q = u64 (Z.of_nat (length (q_out q)) + q_failed q + Z.of_nat (length (q_buf q))).

Lemma q_flush_balanced r q : q_balanced q -> q_balanced (q_flush r q).
Proof.
  intros [H1 H2]. unfold q_flush, q_balanced.
  case_if; simpl; (split; [done|]); rewrite ?length_app, H2, ?Nat2Z.inj_add.
  - rewrite Z.add_0_r, u64_add_idemp_r. f_equal. lia.
  - f_equal. lia.
Qed.

Lemma q_aged_balanced now r q : q_balanced q -> q_balanced (q_aged now r q).
Proof. intros H. unfold q_aged. case_if; [done|by apply q_flush_balanced]. Qed.

Lemma q_append_balanced size now r s q : q_balanced q -> q_balanced (q_append size now r s (q_count q)).
Proof.
  intros [H1 H2]. unfold q_append.
  match goal with |- q_balanced (if _ then q_flush _ ?q1 else _) => assert (H : q_balanced q1) end.
  { split; simpl; [apply u64_range|]. rewrite H2, length_app, Nat2Z.inj_add, u64_add_idemp_l.
    simpl. f_equal. lia. }
  case_if; [by apply q_flush_balanced|done].
Qed.

Lemma step_balanced cfg c i st :
  input_ok i -> batches_ok st -> q_balanced (queue_of c st) -> q_balanced (queue_of c (sb_step cfg i st)).
Proof.
  intros Hi HB Hq. destruct (step_queue cfg i st Hi HB) as (_ & _ & H).
  destruct (H c) as (now & i1 & j1 & aged & ->). simpl.
  assert (Hq1 : q_balanced (if aged then q_aged now (hd 0 (drop i1 (perf_rets st))) (queue_of c st)
             else queue_of c st)) by (destruct aged; [by apply q_aged_balanced|done]).
  destruct (input_slice cfg c i st); [by apply q_append_balanced|done].
Qed.

(** *** Order *)

Definition rets_ok (rets : list Z) : Prop := Forall (fun r => 0 <= r) rets.

Lemma rets_ok_drop n rets : rets_ok rets -> rets_ok (drop n rets).
Proof. apply Forall_drop. Qed.

Lemma rets_ok_hd n rets : rets_ok rets -> 0 <= hd 0 (drop n rets).
Proof.
  intros H. apply (rets_ok_drop n) in H. destruct (drop n rets); simpl; [lia|].
  by apply Forall_cons_1 in H as [? _].
Qed.

Definition q_stream (q : queue) : list sched_blame_packed_slice := q_out q ++ q_buf q.

Lemma q_flush_stream r q : 0 <= r -> q_stream (q_flush r q) = q_stream q.
Proof.
  intros. unfold q_flush, q_stream. rewrite (proj2 (Z.ltb_ge _ _)) by done. simpl.
  by rewrite app_nil_r.
Qed.

Lemma q_aged_stream now r q : 0 <= r -> q_stream (q_aged now r q) = q_stream q.
Proof. intros. unfold q_aged. case_if; [done|by apply q_flush_stream]. Qed.

Lemma q_append_stream size now r s q :
  0 <= r -> q_stream (q_append size now r s (q_count q)) = q_stream q ++ [s].
Proof.
  intros. unfold q_append. case_if; [rewrite q_flush_stream by done|]; unfold q_stream; simpl;
    by rewrite app_assoc.
Qed.

(** ** Theorems *)

Definition sb_loaded st : Prop :=
  slice_batches st = Some ∅ /\ counters st = ∅ /\ events st = [] /\
  batch_first_ts_ns_by_cpu st = ∅ /\ css_id_to_dense_id st = ∅ /\ observed_identity st = ∅ /\
  waiting_target_bitmap_by_cpu st = ∅ /\ running_css_id_by_cpu st = ∅.

Lemma loaded_batches_ok st : sb_loaded st -> batches_ok st.
Proof.
  intros (Hb & _ & _ & Hf & _). split; [by rewrite Hb|..]; intros c Hc;
    unfold batch_of, batch_lookup; rewrite Hb; simpl.
  - unfold percpu_get, arr_get. rewrite lookup_empty. simpl. unfold MAX_SLICES_PER_BATCH. lia.
  - rewrite Hf. unfold arr_get. by rewrite lookup_empty.
Qed.

Lemma loaded_queue c st : sb_loaded st -> queue_of c st = Queue [] 0 [] 0 0.
Proof.
  intros (Hb & Hc & He & Hf & _). unfold queue_of, buffered, batch_of, batch_lookup, delivered,
    counter_value. rewrite Hb, Hc, He, Hf. simpl.
  unfold percpu_get, arr_get. by rewrite !lookup_empty.
Qed.

(** The batch memory is well formed after any run of hooks and publications:
    a CPU's batch holds fewer than 128 slices, so indices never leave the array
    and the full-batch guard never fires, and a nonzero first timestamp implies
    that the batch is not empty, as [flush_slice_batch_if_aged] assumes. *)
Theorem batch_memory_well_formed cfg inputs st :
  sb_loaded st -> Forall input_ok inputs -> batches_ok (sb_run cfg inputs st).
Proof.
  intros Hl. apply loaded_batches_ok in Hl. revert st Hl.
  induction inputs as [|i rest IH]; intros st HB Hi; [done|].
  apply Forall_cons_1 in Hi as [Hi Hr]. simpl. apply IH; [|done]. by apply step_queue.
Qed.

(** One run appends the sampled slices of a CPU to its stream. *)
Lemma run_stream cfg c inputs : forall st,
  batches_ok st -> Forall input_ok inputs -> rets_ok (perf_rets st) ->
  q_stream (queue_of c (sb_run cfg inputs st)) = q_stream (queue_of c st) ++ run_slices cfg c inputs st.
Proof.
  induction inputs as [|i rest IH]; intros st HB Hi Hr.
  { by rewrite app_nil_r. }
  apply Forall_cons_1 in Hi as [Hi Hrest].
  destruct (step_queue cfg i st Hi HB) as (B & [k Hk] & Q). cbn [sb_run fold_left run_slices].
  change (fold_left _ rest ?x) with (sb_run cfg rest x).
  rewrite IH; [|done..|rewrite Hk; by apply rets_ok_drop].
  rewrite app_assoc. f_equal. destruct (Q c) as (now & i1 & j1 & aged & ->). simpl.
  pose proof (rets_ok_hd i1 _ Hr). pose proof (rets_ok_hd j1 _ Hr).
  destruct (input_slice cfg c i st); simpl;
    rewrite ?q_append_stream by done; destruct aged; rewrite ?q_aged_stream, ?app_nil_r by done; done.
Qed.

Lemma loaded_run_stream cfg c inputs st :
  sb_loaded st -> Forall input_ok inputs -> rets_ok (perf_rets st) ->
  q_stream (queue_of c (sb_run cfg inputs st)) = run_slices cfg c inputs st.
Proof. intros Hl Hi Hr. by rewrite run_stream, loaded_queue by (try done; by apply loaded_batches_ok). Qed.

(** C3: in-order delivery.  When no perf submission fails, the slices user space
    received from a CPU followed by those still in its batch are exactly the
    slices of that CPU's context switches, in order, without loss or
    duplication, for every batch size, age flush and interleaving of hooks. *)
Theorem slices_delivered_in_order cfg inputs st c :
  sb_loaded st -> Forall input_ok inputs -> rets_ok (perf_rets st) ->
  delivered c (sb_run cfg inputs st) ++ buffered c (sb_run cfg inputs st) =
    run_slices cfg c inputs st.
Proof. exact (loaded_run_stream cfg c inputs st). Qed.

(** C29: no slice disappears silently, whatever submissions fail: after any run the
    sampled counter of a CPU is the number of slices delivered from it plus the
    failed-slice counter plus the slices still in its batch, modulo 2^64. *)
Theorem slices_accounted cfg inputs st c :
  sb_loaded st -> Forall input_ok inputs ->
  let st' := sb_run cfg inputs st in
  counter_value n_sampled_slices c st' =
    u64 (Z.of_nat (length (delivered c st')) + counter_value n_perf_submission_failed_slices c st' +
         Z.of_nat (length (buffered c st'))).
Proof.
  intros Hl Hi. enough (H : q_balanced (queue_of c (sb_run cfg inputs st))) by apply H.
  assert (Hq : q_balanced (queue_of c st)) by (rewrite loaded_queue by done; by split).
  apply loaded_batches_ok in Hl. revert st Hl Hq.
  induction inputs as [|i rest IH]; intros st HB Hq; [done|].
  apply Forall_cons_1 in Hi as [Hi Hr]. simpl.
  apply IH; [done|by apply step_queue|by apply step_balanced].
Qed.

(** The packed slice round-trips: user space decodes the run time clamped to
    32 bits, the css index and all 84 waiting bits exactly as packed, and the
    overflow counter moves exactly when the run time was clamped. *)
Theorem packed_slice_roundtrip cpu d b css st :
  0 <= d < 2 ^ 64 -> is_u32 (bitmap_base b) -> 0 <= css < MAX_CSS_IDS ->
  let '(p, st') := pack_slice cpu d b css st in
  slice_duration p = Z.min d MAX_DURATION_NS /\
  slice_base_bitmap p = Z.land (bitmap_base b) BASE_BITMAP_MASK /\
  slice_css p = css /\ ps_bitmap_extra p = bitmap_extra b /\
  counter_value n_duration_overflow cpu st' =
    (if MAX_DURATION_NS <? d then counter_value n_duration_overflow cpu st +64 1
     else counter_value n_duration_overflow cpu st).
Proof.
  intros Hd Hb Hc. unfold pack_slice.
  change BASE_BITMAP_MASK with (2 ^ 20 - 1). change CSS_ID_BITS with 12.
  change MAX_CSS_IDS with (2 ^ 12) in *. rewrite land_mask by lia.
  pose proof (Z.mod_pos_bound (bitmap_base b) (2 ^ 20) ltac:(lia)) as Hm.
  set (pr := if MAX_DURATION_NS <? d then _ else (d, st)).
  assert (Hpr : fst pr = Z.min d MAX_DURATION_NS /\ counter_value n_duration_overflow cpu (snd pr) =
    (if MAX_DURATION_NS <? d then counter_value n_duration_overflow cpu st +64 1
     else counter_value n_duration_overflow cpu st)).
  { subst pr. destruct (Z.ltb_spec MAX_DURATION_NS d); simpl; (split; [lia|]); [|done].
    unfold count. by rewrite counter_value_add, decide_True. }
  destruct pr as [d' st']. simpl in Hpr. destruct Hpr as [-> Hov].
  unfold MAX_DURATION_NS in *.
  destruct (pack_base_fields (Z.min d 4294967295) (bitmap_base b mod 2 ^ 20) css) as (F1 & F2 & F3);
    [lia..|].
  split_and!; [exact F1|exact F2|exact F3|done|done].
Qed.

End Batches.

(** ** Concrete runs

    Tasks 1 and 2 run in the groups 101 and 102 with css ids 11 and 12; task 0 is
    idle. *)

Definition demo_cfg : sb_config := SbConfig 0 1 2.
Definition demo_kernel : sb_kernel :=
  SbKernel (fun t => t) (fun t => if t =? 1 then 101 else if t =? 2 then 102 else 0)
    (fun tg => tg - 90) true (fun _ => 0) (fun _ => 0)
    true (fun _ => 3) false (fun _ => 0) (fun t => t + 200) (fun _ => 2) (fun _ => 0)
    (fun _ => 300) (fun q => if q =? 201 then 101 else if q =? 202 then 102 else 0)
    (fun _ => 1000) (fun _ => 3) (fun _ => 5000).
Definition demo_state : @sb_state faulty_ops :=
  SbState 1 (FaultyHash {[101 := 4; 102 := 33]} 84 []) (Some ∅) ∅ ∅ ∅ ∅ ∅ ∅ ∅ ∅ ∅ [] [].
Definition demo_inputs : list sb_input :=
  [SchedSwitch demo_kernel 3 100 0 1 2; SchedSwitch demo_kernel 3 250 0 2 1;
   SchedWakeup demo_kernel 0 9 2; SchedSwitch demo_kernel 3 400 0 1 0;
   SchedSwitch demo_kernel 3 900 0 0 1; SchedSwitch demo_kernel 3 1000 0 1 2].

Lemma demo_loaded_state : sb_loaded demo_state.
Proof. done. Qed.
Lemma demo_inputs_ok : Forall input_ok demo_inputs.
Proof. repeat constructor; simpl; lia. Qed.

Lemma batch_memory_well_formed_witness : batches_ok (sb_run demo_cfg demo_inputs demo_state).
Proof. apply batch_memory_well_formed; [apply demo_loaded_state|apply demo_inputs_ok]. Defined.

Lemma slices_delivered_in_order_witness :
  delivered 3 (sb_run demo_cfg demo_inputs demo_state) ++
  buffered 3 (sb_run demo_cfg demo_inputs demo_state) =
    run_slices demo_cfg 3 demo_inputs demo_state /\
  length (run_slices demo_cfg 3 demo_inputs demo_state) = 3%nat.
Proof.
  split; [|vm_compute; reflexivity].
  apply slices_delivered_in_order; [apply demo_loaded_state|apply demo_inputs_ok|constructor].
Defined.

Lemma slices_accounted_witness :
  let st' := sb_run demo_cfg demo_inputs demo_state in
  counter_value n_sampled_slices 3 st' =
    u64 (Z.of_nat (length (delivered 3 st')) + counter_value n_perf_submission_failed_slices 3 st' +
         Z.of_nat (length (buffered 3 st'))).
Proof. apply slices_accounted; [apply demo_loaded_state|apply demo_inputs_ok]. Defined.

Lemma packed_slice_roundtrip_witness :
  let '(p, _) := pack_slice 3 (2 ^ 33) (Bitmap 5 9) 77 demo_state in
  slice_duration p = MAX_DURATION_NS /\ slice_css p = 77.
Proof.
  pose proof (packed_slice_roundtrip 3 (2 ^ 33) (Bitmap 5 9) 77 demo_state) as H.
  destruct (pack_slice 3 (2 ^ 33) (Bitmap 5 9) 77 demo_state) as [p st'].
  destruct H as (H1 & _ & H3 & _); [lia|unfold is_u32; simpl; lia|done|]. split; [exact H1|exact H3].
Defined.

End SchedBlameBatch.
