(* ===== verification/SchedBlameWaiting.v ===== *)
(** * Scheduler blame: the waiting bitmap

    Properties of the classification half of [SchedBlame]: the bit-exact effect
    of [set_waiting], the coherence of the dense-id cache across publications,
    and what each hook establishes about the waiting bits of the CPU it
    concerns. *)

From Stdlib Require Import ZArith Lia.
From stdpp Require Import base option list gmap tactics.
From S2P Require Import Prelude BpfMap SchedBlame SchedBlameBatch.

Local Open Scope Z_scope.
Local Open Scope bpf_scope.

Module SchedBlameWaiting.
Import SchedBlame SchedBlameBatch.

(** ** Bits *)

(** The waiting bit of a dense id: 20 ids in the base word, 64 in the extra. *)
Definition waiting_bit (b : waiting_target_bitmap) (d : Z) : bool :=
  if d <? BASE_BITMAP_BITS then Z.testbit (bitmap_base b) d
  else Z.testbit (bitmap_extra b) (d - BASE_BITMAP_BITS).

Lemma testbit_set x i j : 0 <= i -> 0 <= j ->
  Z.testbit (Z.lor x (Z.shiftl 1 i)) j = (i =? j) || Z.testbit x j.
Proof.
  intros. rewrite Z.lor_spec, Z.shiftl_1_l, Z.pow2_bits_eqb by lia. by rewrite orb_comm.
Qed.

Lemma testbit_clear x i j w : 0 <= i -> 0 <= j < w ->
  Z.testbit (Z.land x (Z.lnot (Z.shiftl 1 i) mod 2 ^ w)) j = negb (i =? j) && Z.testbit x j.
Proof.
  intros. rewrite Z.land_spec, Z.mod_pow2_bits_low, Z.lnot_spec by lia.
  rewrite Z.shiftl_1_l, Z.pow2_bits_eqb by lia. by rewrite andb_comm.
Qed.

Section Waiting.
Context {M : BpfMapOps} {L : BpfMapLaws M}.
Implicit Types st : sb_state.

Definition bit_of st (c d : Z) : bool :=
  waiting_bit (arr_get zero_bitmap (waiting_target_bitmap_by_cpu st) c) d.

Lemma shl1_u32 d : 0 <= d < 32 -> 1 <<32 d = Z.shiftl 1 d.
Proof.
  intros. apply u32_small. unfold is_u32. rewrite Z.shiftl_1_l.
  split; [lia|]. apply Z.pow_lt_mono_r; lia.
Qed.
Lemma shl1_u64 d : 0 <= d < 64 -> 1 <<64 d = Z.shiftl 1 d.
Proof.
  intros. apply u64_small. unfold is_u64. rewrite Z.shiftl_1_l.
  split; [lia|]. apply Z.pow_lt_mono_r; lia.
Qed.

(** [set_waiting] writes exactly one of the 512 x 84 waiting bits. *)
Lemma set_waiting_bit cpu c d w t st c' d' :
  0 <= c < MAX_CPUS -> 0 <= d < MAX_TARGETS -> 0 <= d' < MAX_TARGETS ->
  bit_of (set_waiting cpu c d w t st) c' d' =
    if decide (c = c' /\ d = d') then w && negb t else bit_of st c' d'.
Proof.
  change MAX_TARGETS with 84. intros Hc Hd Hd'. unfold set_waiting. change MAX_TARGETS with 84.
  rewrite (proj2 (Z.leb_gt _ _)) by lia.
  rewrite land_511 by done.
  set (b := arr_get zero_bitmap (waiting_target_bitmap_by_cpu st) c).
  assert (Hw : (if t then false else w) = w && negb t) by (destruct t, w; done).
  rewrite Hw. set (v := w && negb t). unfold bit_of, waiting_bit, BASE_BITMAP_BITS.
  destruct (Z.ltb_spec d 20) as [Hlo|Hhi].
  - cbn [waiting_target_bitmap_by_cpu set_bitmaps]. rewrite arr_get_set.
    destruct (decide (c = c')) as [<-|Hne]; [|by rewrite decide_False by tauto]. fold b. simpl.
    destruct (Z.ltb_spec d' 20) as [Hlo'|Hhi'].
    + rewrite shl1_u32 by lia. unfold u32. destruct v.
      * rewrite testbit_set by lia. destruct (Z.eqb_spec d d'); [by rewrite decide_True by done|].
        by rewrite decide_False by tauto.
      * rewrite testbit_clear by lia. destruct (Z.eqb_spec d d'); [by rewrite decide_True by done|].
        by rewrite decide_False by tauto.
    + rewrite decide_False by lia. done.
  - rewrite (u32_small (d - 20)) by (unfold is_u32; lia).
    rewrite (proj2 (Z.ltb_lt (d - 20) 64)) by lia.
    cbn [waiting_target_bitmap_by_cpu set_bitmaps]. rewrite arr_get_set.
    destruct (decide (c = c')) as [<-|Hne]; [|by rewrite decide_False by tauto]. fold b. simpl.
    destruct (Z.ltb_spec d' 20) as [Hlo'|Hhi']; [by rewrite decide_False by lia|].
    rewrite shl1_u64 by lia. unfold u64. destruct v.
    + rewrite testbit_set by lia. destruct (Z.eqb_spec (d - 20) (d' - 20));
        [by rewrite decide_True by (split; lia)|by rewrite decide_False by lia].
    + rewrite testbit_clear by lia. destruct (Z.eqb_spec (d - 20) (d' - 20));
        [by rewrite decide_True by (split; lia)|by rewrite decide_False by lia].
Qed.

Lemma set_waiting_shape cpu c d w t st :
  0 <= d < MAX_TARGETS -> exists b, set_waiting cpu c d w t st = set_bitmaps b st.
Proof.
  intros Hd. unfold set_waiting. rewrite (proj2 (Z.leb_gt _ _)) by lia.
  repeat case_if; eauto. exists (waiting_target_bitmap_by_cpu st). by destruct st.
Qed.

(** A stale bitmap is cleared before it is used under a new epoch. *)
Lemma ensure_epoch_bit c e st c' d :
  0 <= c < MAX_CPUS ->
  bit_of (ensure_waiting_bitmap_epoch c e st) c' d =
    if decide (c = c') then
      (arr_get 0 (waiting_epoch_by_cpu st) c =? e) && bit_of st c d
    else bit_of st c' d.
Proof.
  intros Hc. unfold ensure_waiting_bitmap_epoch. rewrite land_511 by done.
  destruct (_ =? e); unfold bit_of; simpl; [by case_decide; subst|].
  rewrite arr_get_set. case_decide; [|done]. unfold waiting_bit. simpl.
  by rewrite !Z.bits_0; case_if.
Qed.

(** ** Classification *)

(** The class user space published for a group. *)
Definition classify (targets : hmap Z Z) (cgid : Z) : Z :=
  match bpf_map_lookup_elem targets cgid with
  | Some d => if MAX_TARGETS <=? d then NON_TARGET else d
  | None => NON_TARGET
  end.

Definition targets_ok (targets : hmap Z Z) : Prop :=
  forall g d, bpf_map_lookup_elem targets g = Some d -> is_u8 d.

Lemma classify_u8 targets g : targets_ok targets -> is_u8 (classify targets g).
Proof.
  intros H. unfold classify. case_match eqn:E; [|done]. case_if; [done|]. by apply (H g).
Qed.

Lemma classify_target targets g :
  targets_ok targets -> classify targets g <> NON_TARGET -> 0 <= classify targets g < MAX_TARGETS.
Proof.
  intros H. unfold classify. case_match eqn:E; [|done]. case_if; [done|]. zify_bools.
  apply H in E. unfold is_u8 in E. lia.
Qed.

Lemma cache_roundtrip e d :
  is_u32 e -> is_u8 d ->
  cache_epoch (pack_dense_id_cache e d) = e /\ cache_dense_id (pack_dense_id_cache e d) = d.
Proof.
  intros He Hd. unfold is_u32, is_u8 in *. unfold cache_epoch, cache_dense_id, pack_dense_id_cache.
  rewrite (u64_small (Z.shiftl e 32)) by (unfold is_u64; rewrite Z.shiftl_mul_pow2; lia).
  rewrite pack_high, (u32_small e) by (unfold is_u32; lia). split; [done|].
  change 255 with (2 ^ 8 - 1). rewrite land_mask, lor_shiftl_add by lia.
  replace (e * 2 ^ 32 + d) with (d + (e * 2 ^ 24) * 2 ^ 8) by lia.
  rewrite Z_mod_plus_full. rewrite (Z.mod_small d) by lia. by apply u8_small.
Qed.

(** The cache never runs ahead of the published epoch, and its entries of the
    current epoch are the published classes; [ident] names the group of a css
    id. *)
Record cache_ok (ident : Z -> Z) st : Prop := {
  ck_epoch : 0 < target_css_id_epoch st < 2 ^ 32;
  ck_targets : targets_ok (target_cgid_to_dense st);
  ck_old : forall i, cache_epoch (arr_get 0 (css_id_to_dense_id st) i) <= target_css_id_epoch st;
  ck_new : forall i, cache_epoch (arr_get 0 (css_id_to_dense_id st) i) = target_css_id_epoch st ->
    cache_dense_id (arr_get 0 (css_id_to_dense_id st) i) =
      classify (target_cgid_to_dense st) (ident i);
}.

Lemma land_4095 c : 0 <= c < MAX_CSS_IDS -> Z.land c 4095 = c.
Proof.
  intros H. change 4095 with (2 ^ 12 - 1). rewrite land_mask by lia. apply Z.mod_small.
  change MAX_CSS_IDS with (2 ^ 12) in H. lia.
Qed.

(** A lookup in the target map, as the hooks do it. *)
Lemma classified cpu g st : exists cs,
  match bpf_map_lookup_elem (target_cgid_to_dense st) g with
  | None => (NON_TARGET, st)
  | Some mapped => if MAX_TARGETS <=? mapped then (NON_TARGET, count n_invalid_target_dense_id cpu st) else (mapped, st)
  end = (classify (target_cgid_to_dense st) g, set_counters cs st).
Proof. unfold classify. case_match; [case_if|]; [by eexists|exists (counters st); by destruct st..]. Qed.

(** Under a coherent cache a lookup is the classification, and stays coherent. *)
Lemma resolve_classify ident cpu g css st :
  cache_ok ident st -> 0 <= css < MAX_CSS_IDS -> ident css = g ->
  let '(d, st') := resolve_target_dense_id cpu g css (target_css_id_epoch st) st in
  d = classify (target_cgid_to_dense st) g /\ cache_ok ident st' /\
  waiting_target_bitmap_by_cpu st' = waiting_target_bitmap_by_cpu st /\
  target_css_id_epoch st' = target_css_id_epoch st /\
  target_cgid_to_dense st' = target_cgid_to_dense st /\
  waiting_epoch_by_cpu st' = waiting_epoch_by_cpu st /\
  running_css_id_by_cpu st' = running_css_id_by_cpu st /\
  unthrottle_entry_cfs_rq_by_cpu st' = unthrottle_entry_cfs_rq_by_cpu st /\
  events st' = events st /\ perf_rets st' = perf_rets st.
Proof.
  intros [He Ht Ho Hn] Hc <-. unfold resolve_target_dense_id. rewrite land_4095 by done.
  destruct (Z.eqb_spec (cache_epoch (arr_get 0 (css_id_to_dense_id st) css)) (target_css_id_epoch st))
    as [E|E].
  { by rewrite (Hn _ E). }
  destruct (classified cpu (ident css) st) as (cs & ->).
  split_and!; [done| |done..].
  destruct (cache_roundtrip (target_css_id_epoch st)
    (classify (target_cgid_to_dense st) (ident css))) as [R1 R2];
    [unfold is_u32; lia|by apply classify_u8|].
  split; simpl; [done|done| |].
  - intros i. rewrite arr_get_set. case_decide; [by rewrite R1|auto].
  - intros i. rewrite arr_get_set. case_decide; [subst; by rewrite R2|auto].
Qed.

(** ** Emission does not touch the classification *)

Definition same_class st st' : Prop :=
  target_css_id_epoch st' = target_css_id_epoch st /\
  target_cgid_to_dense st' = target_cgid_to_dense st /\
  css_id_to_dense_id st' = css_id_to_dense_id st /\
  waiting_target_bitmap_by_cpu st' = waiting_target_bitmap_by_cpu st /\
  waiting_epoch_by_cpu st' = waiting_epoch_by_cpu st /\
  running_css_id_by_cpu st' = running_css_id_by_cpu st /\
  unthrottle_entry_cfs_rq_by_cpu st' = unthrottle_entry_cfs_rq_by_cpu st.

#[local] Instance same_class_preorder : PreOrder same_class.
Proof. split; unfold same_class; [done|]. intros s1 s2 s3. intuition congruence. Qed.

Lemma class_perf_output e st : same_class st (snd (perf_output e st)).
Proof. unfold perf_output, bpf_perf_event_output. by case_if. Qed.

Lemma class_emit cpu c b st : same_class st (emit_slice_batch cpu c b st).
Proof.
  unfold emit_slice_batch, output_slice_batch, perf_output, bpf_perf_event_output.
  by repeat case_if.
Qed.

Lemma class_aged cpu c now st : same_class st (flush_slice_batch_if_aged cpu c now st).
Proof. unfold flush_slice_batch_if_aged. case_if; [done|]. case_match; [apply class_emit|done]. Qed.

Lemma class_identity c tg css st : same_class st (maybe_emit_identity c tg css st).
Proof.
  unfold maybe_emit_identity, perf_output, bpf_perf_event_output. by repeat case_if.
Qed.

Lemma class_switch_identity cpu c tg css st : same_class st (snd (switch_identity cpu c tg css st)).
Proof. unfold switch_identity. repeat case_if; try done. apply class_identity. Qed.

Lemma class_append cfg cpu c now s st : same_class st (append_sampled_slice cfg cpu c now s st).
Proof.
  unfold append_sampled_slice. destruct (batch_lookup cpu st) as [b|]; [|done].
  destruct (MAX_SLICES_PER_BATCH <=? batch_count b);
    [transitivity (emit_slice_batch cpu c b st); [apply class_emit|]|].
  - set (st1 := emit_slice_batch _ _ _ _). clearbody st1. simpl.
    case_if; [|done]. etransitivity; [|apply class_emit]. done.
  - case_if; (case_if; [etransitivity; [|apply class_emit]|]); done.
Qed.

Lemma class_sample cfg cpu c now start rnd pid tg css ix st :
  same_class st (switch_sample cfg cpu c now start rnd pid tg css ix st).
Proof.
  unfold switch_sample. repeat (case_if; try done).
  destruct (pack_slice _ _ _ _ _) as [p st1] eqn:Epk. etransitivity; [|apply class_append].
  revert Epk. unfold pack_slice. case_if; intros; by simplify_eq.
Qed.

Lemma cache_ok_class ident st st' : same_class st st' -> cache_ok ident st -> cache_ok ident st'.
Proof.
  intros (E1 & E2 & E3 & _) [A B C D]. split; rewrite ?E1, ?E2, ?E3; auto.
Qed.

Lemma cache_ok_ensure ident c e st :
  cache_ok ident st -> cache_ok ident (ensure_waiting_bitmap_epoch c e st).
Proof. intros [A B C D]. unfold ensure_waiting_bitmap_epoch. by case_if. Qed.

(** ** The context switch *)

(** A task the switch accounts to a group: not idle, with a group whose css id
    is in range. *)
Definition task_group_id (kr : sb_kernel) (task : Z) : option (Z * Z) :=
  if task_pid kr task =? 0 then None
  else
    let tg := task_group_of kr task in
    if tg =? 0 then None
    else if MAX_CSS_IDS <=? task_group_css_id kr tg then None
    else Some (tg, task_group_css_id kr tg).

(** [ident] names the groups the hook reads. *)
Definition ident_ok (ident : Z -> Z) (kr : sb_kernel) : Prop :=
  (forall t, task_group_css_id kr (task_group_of kr t) < MAX_CSS_IDS ->
     ident (task_group_css_id kr (task_group_of kr t)) = task_group_of kr t) /\
  (forall q, task_group_css_id kr (kr_cfs_rq_tg kr q) < MAX_CSS_IDS ->
     ident (task_group_css_id kr (kr_cfs_rq_tg kr q)) = kr_cfs_rq_tg kr q).

(** The dense id of a task's group, when it is a target. *)
Definition task_target (kr : sb_kernel) (task : Z) st : option Z :=
  '(tg, _) ← task_group_id kr task;
  let d := classify (target_cgid_to_dense st) tg in
  if d =? NON_TARGET then None else Some d.

Lemma css_id_range kr tg : 0 <= task_group_css_id kr tg.
Proof. unfold task_group_css_id. pose proof (u32_range (kr_tg_css_id kr tg)) as H. apply H. Qed.

(** Resolve a task's group and write its bit if it is a target. *)
Lemma resolve_set_bit ident cpu c g css w t st c' d' :
  cache_ok ident st -> 0 <= c < MAX_CPUS -> 0 <= css < MAX_CSS_IDS -> ident css = g ->
  0 <= d' < MAX_TARGETS ->
  let st' := (let '(d, st1) := resolve_target_dense_id cpu g css (target_css_id_epoch st) st in
              if negb (d =? NON_TARGET) then set_waiting cpu c d w t st1 else st1) in
  cache_ok ident st' /\ target_css_id_epoch st' = target_css_id_epoch st /\
  target_cgid_to_dense st' = target_cgid_to_dense st /\
  running_css_id_by_cpu st' = running_css_id_by_cpu st /\
  bit_of st' c' d' =
    (let d := classify (target_cgid_to_dense st) g in
     if decide (c = c' /\ d = d') then w && negb t else bit_of st c' d').
Proof.
  intros Hk Hc Hcss Hid Hd'.
  pose proof (resolve_classify ident cpu g css st Hk Hcss Hid) as H.
  destruct (resolve_target_dense_id cpu g css _ st) as [d st1].
  destruct H as (-> & Hk1 & Hb & He & Ht & Hw & Hr & _). cbv zeta.
  assert (Hbit : bit_of st1 c' d' = bit_of st c' d') by (unfold bit_of; by rewrite Hb).
  destruct (Z.eqb_spec (classify (target_cgid_to_dense st) g) NON_TARGET) as [E|E]; simpl.
  - split_and!; [done..|]. rewrite Hbit, decide_False; [done|].
    intros [_ Heq]. rewrite E in Heq. subst d'. by destruct Hd'.
  - pose proof (classify_target _ _ (ck_targets _ _ Hk) E) as Hrange.
    rewrite set_waiting_bit, Hbit by done.
    destruct (set_waiting_shape cpu c _ w t st1 Hrange) as [b ->].
    split_and!; try done. by destruct Hk1.
Qed.

(** What one task's part of [switch_waiting] does to a bit. *)
Definition task_bit (kr : sb_kernel) (task : Z) (w : bool) st (d : Z) (old : bool) : bool :=
  if decide (task_target kr task st = Some d) then w else old.

(** The group variables of [on_sched_switch] against [task_group_id]. *)
Lemma switch_group kr task cpu c st :
  let tg := if task_pid kr task =? 0 then 0 else task_group_of kr task in
  let css := if tg =? 0 then 0 else task_group_css_id kr tg in
  match task_group_id kr task with
  | Some (g, id) =>
      negb (tg =? 0) && (css <? MAX_CSS_IDS) = true /\ tg = g /\ css = id /\
      0 <= id < MAX_CSS_IDS /\ g = task_group_of kr task /\ id = task_group_css_id kr g /\
      fst (switch_identity cpu c tg css st) = id
  | None => negb (tg =? 0) && (css <? MAX_CSS_IDS) = false
  end.
Proof.
  cbv zeta. unfold task_group_id. destruct (task_pid kr task =? 0); [done|].
  set (tg := task_group_of kr task). destruct (tg =? 0) eqn:Et; [done|].
  rewrite Z.ltb_antisym. destruct (Z.leb_spec MAX_CSS_IDS (task_group_css_id kr tg)); [done|].
  pose proof (css_id_range kr tg). split_and!; try done. unfold switch_identity.
  rewrite Et, (proj2 (Z.leb_gt _ _)) by lia. simpl. by apply land_4095.
Qed.

Lemma task_target_some kr task g id st d :
  task_group_id kr task = Some (g, id) -> 0 <= d < MAX_TARGETS ->
  (task_target kr task st = Some d <-> classify (target_cgid_to_dense st) g = d).
Proof.
  intros H Hd. unfold task_target. rewrite H. simpl.
  destruct (Z.eqb_spec (classify (target_cgid_to_dense st) g) NON_TARGET) as [E|E].
  - split; [done|]. intros <-. rewrite E in Hd. by destruct Hd.
  - naive_solver.
Qed.

(** The half of a switch that updates the bit of the task that leaves. *)
Lemma prev_waiting_bits ident kr cpu t ix w throttled st d :
  0 <= cpu < MAX_CPUS -> cache_ok ident st -> ident_ok ident kr -> 0 <= d < MAX_TARGETS ->
  let tg := if task_pid kr t =? 0 then 0 else task_group_of kr t in
  let css := if tg =? 0 then 0 else task_group_css_id kr tg in
  (forall g id, task_group_id kr t = Some (g, id) -> ix = id) ->
  let st1 :=
    if negb (tg =? 0) && (css <? MAX_CSS_IDS) then
      let '(dense_id, st) := resolve_target_dense_id cpu tg ix (target_css_id_epoch st) st in
      if negb (dense_id =? NON_TARGET) then set_waiting cpu cpu dense_id w throttled st else st
    else st in
  cache_ok ident st1 /\ target_css_id_epoch st1 = target_css_id_epoch st /\
  target_cgid_to_dense st1 = target_cgid_to_dense st /\
  running_css_id_by_cpu st1 = running_css_id_by_cpu st /\
  forall c, bit_of st1 c d =
    if decide (cpu = c) then task_bit kr t (w && negb throttled) st d (bit_of st cpu d)
    else bit_of st c d.
Proof.
  intros Hc Hk Hid Hd tg css Hix st1.
  pose proof (switch_group kr t cpu cpu st) as Gp. cbv zeta in Gp. fold tg in Gp. fold css in Gp.
  subst st1. unfold task_bit. destruct (task_group_id kr t) as [[g id]|] eqn:Ep.
  - destruct Gp as (-> & -> & _ & Hr & Hg & Hi & _). rewrite (Hix _ _ eq_refl).
    assert (Hident : ident id = g) by (rewrite Hi, Hg; apply Hid; rewrite <- Hg, <- Hi; lia).
    pose proof (fun c' => resolve_set_bit ident cpu cpu g id w throttled st c' d Hk Hc Hr Hident Hd) as H.
    cbv zeta in H. destruct (H cpu) as (A & B & C & D & _). split_and!; [done..|].
    intros c. destruct (H c) as (_ & _ & _ & _ & ->).
    pose proof (task_target_some kr t g id st d Ep Hd) as Ht.
    repeat case_decide; subst; tauto.
  - rewrite Gp. split_and!; [done..|]. intros c. unfold task_target. rewrite Ep. simpl.
    by case_decide; subst.
Qed.

Lemma switch_waiting_bits ident kr cpu prev next pix nix st d :
  0 <= cpu < MAX_CPUS -> cache_ok ident st -> ident_ok ident kr -> 0 <= d < MAX_TARGETS ->
  let gtg t := if task_pid kr t =? 0 then 0 else task_group_of kr t in
  let gcss t := if gtg t =? 0 then 0 else task_group_css_id kr (gtg t) in
  (forall g id, task_group_id kr prev = Some (g, id) -> pix = id) ->
  (forall g id, task_group_id kr next = Some (g, id) -> nix = id) ->
  let st' := switch_waiting kr cpu cpu (target_css_id_epoch st) prev next
               (gtg prev) (gcss prev) pix (gtg next) (gcss next) nix st in
  cache_ok ident st' /\
  (forall c, bit_of st' c d =
     if decide (cpu = c) then
       task_bit kr next (2 <=? task_cfs_h_nr_running kr next) st d
         (task_bit kr prev ((1 <=? task_cfs_h_nr_running kr prev) && negb (task_cfs_rq_is_throttled kr prev))
            st d (bit_of st cpu d))
     else bit_of st c d) /\
  (forall c, arr_get 0 (running_css_id_by_cpu st') c =
     if decide (cpu = c) then match task_group_id kr next with Some (_, id) => id + 1 | None => 0 end
     else arr_get 0 (running_css_id_by_cpu st) c).
Proof.
  intros Hc Hk Hid Hd gtg gcss Hpix Hnix. unfold switch_waiting.
  pose proof (switch_group kr next cpu cpu st) as Gn.
  cbv zeta in Gn. fold (gtg next) in Gn. fold (gcss next) in Gn.
  pose proof (prev_waiting_bits ident kr cpu prev pix (1 <=? task_cfs_h_nr_running kr prev)
    (task_cfs_rq_is_throttled kr prev) st d Hc Hk Hid Hd Hpix) as H1.
  cbv zeta in H1. fold (gtg prev) in H1. fold (gcss prev) in H1.
  set (st1 := if negb (gtg prev =? 0) && _ then _ else st) in *.
  clearbody st1. destruct H1 as (Hk1 & He1 & Ht1 & Hr1 & Hb1).
  set (st2 := clear_running_css_id cpu st1).
  assert (Hk2 : cache_ok ident st2) by by destruct Hk1.
  assert (Hb2 : forall c, bit_of st2 c d = bit_of st1 c d) by done.
  assert (Hr2 : running_css_id_by_cpu st2 = arr_set (running_css_id_by_cpu st) cpu 0).
  { subst st2. simpl. by rewrite Hr1, land_511. }
  change (target_css_id_epoch st) with (target_css_id_epoch st) in *.
  destruct (task_group_id kr next) as [[g id]|] eqn:En.
  - destruct Gn as (-> & -> & _ & Hr & Hg & Hi & _). rewrite (Hnix _ _ eq_refl).
    assert (Hident : ident id = g) by (rewrite Hi, Hg; apply Hid; rewrite <- Hg, <- Hi; lia).
    pose proof (fun c' => resolve_set_bit ident cpu cpu g id (2 <=? task_cfs_h_nr_running kr next)
                  false st2 c' d Hk2 Hc Hr Hident Hd) as H.
    cbv zeta in H. change (target_css_id_epoch st2) with (target_css_id_epoch st1) in H.
    rewrite He1 in H. change (target_cgid_to_dense st2) with (target_cgid_to_dense st1) in H.
    rewrite Ht1 in H. destruct (resolve_target_dense_id cpu g id _ st2) as [dd st3].
    set (st4 := if negb _ then _ else st3) in *. clearbody st4.
    destruct (H cpu) as (A & _ & _ & D & _).
    split_and!.
    + by destruct A.
    + intros c. change (bit_of (set_running_css_id cpu id st4) c d) with (bit_of st4 c d).
      destruct (H c) as (_ & _ & _ & _ & ->). rewrite Hb2, Hb1. unfold task_bit.
      pose proof (task_target_some kr next g id st d En Hd) as Ht. rewrite andb_true_r.
      repeat case_decide; subst; tauto.
    + intros c. simpl. rewrite D, Hr2, land_511, !arr_get_set, land_4095 by done.
      change MAX_CSS_IDS with 4096 in Hr.
      rewrite (u32_small id), (u32_small (id + 1)) by (unfold is_u32; lia). by repeat case_decide.
  - rewrite Gn. split_and!; [done| |].
    + intros c. rewrite Hb2, Hb1. case_decide; [|done]. symmetry. unfold task_bit at 1.
      rewrite decide_False; [done|]. unfold task_target. by rewrite En.
    + intros c. rewrite Hr2, arr_get_set. done.
Qed.

(** The whole switch: everything before [switch_waiting] only prepares the epoch. *)
Lemma switch_bits ident cfg kr cpu now rnd prev next st d :
  0 <= cpu < MAX_CPUS -> cache_ok ident st -> ident_ok ident kr -> 0 <= d < MAX_TARGETS ->
  let st' := on_sched_switch cfg kr cpu now rnd prev next st in
  cache_ok ident st' /\
  (forall c, bit_of st' c d =
     if decide (cpu = c) then
       task_bit kr next (2 <=? task_cfs_h_nr_running kr next) st d
         (task_bit kr prev ((1 <=? task_cfs_h_nr_running kr prev) && negb (task_cfs_rq_is_throttled kr prev))
            st d ((arr_get 0 (waiting_epoch_by_cpu st) cpu =? target_css_id_epoch st) && bit_of st cpu d))
     else bit_of st c d) /\
  (forall c, arr_get 0 (running_css_id_by_cpu st') c =
     if decide (cpu = c) then match task_group_id kr next with Some (_, id) => id + 1 | None => 0 end
     else arr_get 0 (running_css_id_by_cpu st) c).
Proof.
  intros Hc Hk Hid Hd. unfold on_sched_switch.
  rewrite (proj2 (Z.leb_gt MAX_CPUS cpu)), land_511 by lia. cbv zeta.
  set (st1 := ensure_waiting_bitmap_epoch cpu (target_css_id_epoch st) st).
  assert (H1 : target_css_id_epoch st1 = target_css_id_epoch st /\
    target_cgid_to_dense st1 = target_cgid_to_dense st /\
    running_css_id_by_cpu st1 = running_css_id_by_cpu st).
  { subst st1. unfold ensure_waiting_bitmap_epoch. by case_if. }
  destruct H1 as (He1 & Ht1 & Hr1).
  pose proof (cache_ok_ensure ident cpu (target_css_id_epoch st) st Hk) as Hk1. fold st1 in Hk1.
  pose proof (fun c => ensure_epoch_bit cpu (target_css_id_epoch st) st c d Hc) as Hb1. fold st1 in Hb1.
  set (st3 := flush_slice_batch_if_aged _ _ _ _).
  assert (C3 : same_class st1 st3) by (etransitivity; [|apply class_aged]; done).
  clearbody st3. set (start := arr_get 0 _ cpu). clearbody start.
  pose proof (switch_group kr prev cpu cpu st3) as Gp. cbv zeta in Gp.
  match goal with |- context [switch_identity cpu cpu ?tg ?css st3] =>
    pose proof (class_switch_identity cpu cpu tg css st3) as C4;
    destruct (switch_identity cpu cpu tg css st3) as [pix st4] end.
  pose proof (switch_group kr next cpu cpu st4) as Gn. cbv zeta in Gn.
  match goal with |- context [switch_identity cpu cpu ?tg ?css st4] =>
    pose proof (class_switch_identity cpu cpu tg css st4) as C5;
    destruct (switch_identity cpu cpu tg css st4) as [nix st5] end.
  simpl in Gp, Gn, C4, C5. set (st6 := switch_sample _ _ _ _ _ _ _ _ _ _ st5).
  assert (C6 : same_class st1 st6).
  { etransitivity; [exact C3|]. etransitivity; [exact C4|]. etransitivity; [exact C5|].
    apply class_sample. }
  clearbody st6. clear C3 C4 C5. pose proof C6 as (E1 & E2 & _ & E4 & _ & E6 & _).
  pose proof (switch_waiting_bits ident kr cpu prev next pix nix st6 d Hc
                (cache_ok_class _ _ _ C6 Hk1) Hid Hd) as H. cbv zeta in H.
  rewrite E1, He1 in H. destruct H as (A & B & D).
  { intros g id Hg. rewrite Hg in Gp. tauto. }
  { intros g id Hg. rewrite Hg in Gn. tauto. }
  split_and!; [exact A| |].
  - intros c. rewrite B. unfold task_bit, task_target. rewrite E2, Ht1.
    assert (Hbit : forall c, bit_of st6 c d = bit_of st1 c d) by (intros; unfold bit_of; by rewrite E4).
    rewrite !Hbit, !Hb1, (decide_True (P := cpu = cpu)) by done. by destruct (decide (cpu = c)).
  - intros c. by rewrite D, E6, Hr1.
Qed.

(** ** Wakeups, migrations and unthrottling *)

Definition group_target (kr : sb_kernel) (tg : Z) st : option Z :=
  if (tg =? 0) || (MAX_CSS_IDS <=? task_group_css_id kr tg) then None
  else
    let d := classify (target_cgid_to_dense st) tg in
    if d =? NON_TARGET then None else Some d.

Lemma ensure_frame c e st :
  let st1 := ensure_waiting_bitmap_epoch c e st in
  target_css_id_epoch st1 = target_css_id_epoch st /\
  target_cgid_to_dense st1 = target_cgid_to_dense st /\
  running_css_id_by_cpu st1 = running_css_id_by_cpu st /\
  unthrottle_entry_cfs_rq_by_cpu st1 = unthrottle_entry_cfs_rq_by_cpu st /\
  events st1 = events st /\ perf_rets st1 = perf_rets st.
Proof. unfold ensure_waiting_bitmap_epoch. by case_if. Qed.

(** The bit a CPU's bitmap shows once its epoch is current. *)
Definition current_bit st (c d : Z) : bool :=
  (arr_get 0 (waiting_epoch_by_cpu st) c =? target_css_id_epoch st) && bit_of st c d.

(** Ensure the epoch, announce the identity, resolve, and, for a target, decide on
    a bit of CPU [dst] from the running state: the common shape of the wakeup,
    migration and unthrottle hooks. *)
Lemma ensured_resolve ident cpu dst g css st st1 :
  cache_ok ident st -> 0 <= dst < MAX_CPUS -> 0 <= css < MAX_CSS_IDS -> ident css = g ->
  same_class (ensure_waiting_bitmap_epoch dst (target_css_id_epoch st) st) st1 ->
  let '(d, st2) := resolve_target_dense_id cpu g css (target_css_id_epoch st) st1 in
  d = classify (target_cgid_to_dense st) g /\ cache_ok ident st2 /\
  running_css_id_by_cpu st2 = running_css_id_by_cpu st /\
  unthrottle_entry_cfs_rq_by_cpu st2 = unthrottle_entry_cfs_rq_by_cpu st /\
  events st2 = events st1 /\ perf_rets st2 = perf_rets st1 /\
  (forall c d', bit_of st2 c d' = if decide (dst = c) then current_bit st c d' else bit_of st c d').
Proof.
  intros Hk Hd Hcss Hid C. set (st0 := ensure_waiting_bitmap_epoch _ _ st) in *.
  destruct (ensure_frame dst (target_css_id_epoch st) st) as (E1 & E2 & E3 & E4 & _).
  fold st0 in E1, E2, E3, E4.
  pose proof (cache_ok_ensure ident dst (target_css_id_epoch st) st Hk) as Hk0. fold st0 in Hk0.
  pose proof (cache_ok_class _ _ _ C Hk0) as Hk1. pose proof C as (C1 & C2 & _ & C4 & _ & C6 & C7).
  pose proof (resolve_classify ident cpu g css st1 Hk1 Hcss Hid) as H.
  rewrite C1, E1 in H. destruct (resolve_target_dense_id _ _ _ _ st1) as [d st2].
  destruct H as (-> & Hk2 & Hb & _ & _ & _ & Hr & Hu & Hev & Hrt). rewrite C2, E2.
  split_and!; try done; [by rewrite Hr, C6, E3|by rewrite Hu, C7, E4|].
  intros c d'. unfold bit_of at 1. rewrite Hb, C4. fold (bit_of st0 c d'). subst st0.
  rewrite ensure_epoch_bit by done. unfold current_bit. by case_decide; subst.
Qed.

Lemma wakeup_bits ident kr cpu current task st d :
  0 <= cpu < MAX_CPUS -> 0 <= task_cpu kr cpu task < MAX_CPUS ->
  cache_ok ident st -> ident_ok ident kr -> 0 <= d < MAX_TARGETS ->
  task_is_runnable kr task = true -> task <> current ->
  let dst := task_cpu kr cpu task in
  let nr := task_cfs_h_nr_running kr task in
  group_target kr (task_group_of kr task) st = Some d -> 0 < nr ->
  let running := arr_get 0 (running_css_id_by_cpu st) dst =?
                   task_group_css_id kr (task_group_of kr task) + 1 in
  let st' := update_wakeup_waiting kr cpu current task st in
  (forall c d', 0 <= d' < MAX_TARGETS -> bit_of st' c d' =
     if decide (dst = c /\ d' = d)
     then (if running then 2 <=? nr else true) && negb (task_cfs_rq_is_throttled kr task)
     else if decide (dst = c) then current_bit st c d' else bit_of st c d').
Proof.
  intros Hc Hdst Hk Hid Hd Hrun Hcur dst nr Hg Hnr running st' c d' Hd'.
  subst st'. unfold update_wakeup_waiting. fold dst. unfold group_target in Hg.
  set (tg := task_group_of kr task) in *. destruct (_ || _) eqn:Eg in Hg; [done|]. zify_bools.
  pose proof (css_id_range kr tg) as Hge.
  rewrite (proj2 (Z.leb_gt _ cpu)), (proj2 (Z.leb_gt _ dst)), Hrun by lia.
  rewrite (proj2 (Z.eqb_neq task current)), (proj2 (Z.eqb_neq tg 0)) by done.
  rewrite (proj2 (Z.leb_gt _ (task_group_css_id kr tg))) by lia. cbn [orb negb].
  set (css := task_group_css_id kr tg) in *. cbv zeta. rewrite !land_511, land_4095 by lia.
  pose proof (ensured_resolve ident cpu dst tg css st
    (maybe_emit_identity cpu tg css (ensure_waiting_bitmap_epoch dst (target_css_id_epoch st) st))
    Hk Hdst ltac:(lia) ltac:(apply Hid; fold tg; lia) ltac:(apply class_identity)) as Hres.
  destruct (resolve_target_dense_id _ _ _ _ _) as [dd st2].
  destruct Hres as (-> & _ & Hr & _ & _ & _ & Hb).
  destruct (Z.eqb_spec (classify (target_cgid_to_dense st) tg) NON_TARGET); simplify_eq.
  fold nr. rewrite (proj2 (Z.eqb_neq nr 0)) by lia.
  rewrite set_waiting_bit, Hb by done.
  assert (Hnr32 : 0 <= nr < 2 ^ 32).
  { subst nr. unfold task_cfs_h_nr_running. case_if; [lia|]. apply u32_range. }
  assert (Hw : (1 <=? (if cpu_is_running_css_id dst css st2 then nr -32 1 else nr)) =
               (if running then 2 <=? nr else true)).
  { unfold cpu_is_running_css_id. rewrite Hr, land_511, land_4095 by lia.
    change MAX_CSS_IDS with 4096 in *.
    rewrite (u32_small css), (u32_small (css + 1)) by (unfold is_u32; lia). fold running.
    destruct running; [rewrite u32_small by (unfold is_u32; lia)|];
      [destruct (Z.leb_spec 1 (nr - 1)), (Z.leb_spec 2 nr); done || lia|apply Z.leb_le; lia]. }
  rewrite Hw. repeat case_decide; naive_solver.
Qed.

Lemma migrate_bits ident kr cpu task arg1 st d :
  0 <= task_cpu kr cpu task < MAX_CPUS -> u32 arg1 < MAX_CPUS ->
  cache_ok ident st -> ident_ok ident kr -> 0 <= d < MAX_TARGETS ->
  task_is_runnable kr task = true ->
  let src := task_cpu kr cpu task in
  let nr := task_cfs_h_nr_running kr task in
  group_target kr (task_group_of kr task) st = Some d ->
  let running := arr_get 0 (running_css_id_by_cpu st) src =?
                   task_group_css_id kr (task_group_of kr task) + 1 in
  (running = true -> 1 <= nr) ->
  let st' := on_sched_migrate_task kr cpu task arg1 st in
  (forall c d', 0 <= d' < MAX_TARGETS -> bit_of st' c d' =
     if decide (src = c /\ d' = d)
     then ((if running then 2 else 1) <=? nr) && negb (task_cfs_rq_is_throttled kr task)
     else if decide (src = c) then current_bit st c d' else bit_of st c d').
Proof.
  intros Hsrc Hdst Hk Hid Hd Hrun src nr Hg running Hnr st' c d' Hd'.
  subst st'. unfold on_sched_migrate_task. fold src. unfold group_target in Hg.
  set (tg := task_group_of kr task) in *. destruct (_ || _) eqn:Eg in Hg; [done|]. zify_bools.
  pose proof (css_id_range kr tg) as Hge.
  rewrite (proj2 (Z.leb_gt _ src)), (proj2 (Z.leb_gt _ (u32 arg1))), Hrun by lia.
  rewrite (proj2 (Z.eqb_neq tg 0)), (proj2 (Z.leb_gt _ (task_group_css_id kr tg))) by lia.
  cbn [orb negb]. set (css := task_group_css_id kr tg) in *. cbv zeta.
  rewrite !land_511, land_4095 by lia.
  pose proof (ensured_resolve ident cpu src tg css st _
    Hk Hsrc ltac:(lia) ltac:(apply Hid; fold tg; lia) (reflexivity _)) as Hres.
  destruct (resolve_target_dense_id _ _ _ _ _) as [dd st2].
  destruct Hres as (-> & _ & Hr & _ & _ & _ & Hb).
  destruct (Z.eqb_spec (classify (target_cgid_to_dense st) tg) NON_TARGET); simplify_eq.
  rewrite set_waiting_bit, Hb by done. fold nr.
  assert (Hnr32 : 0 <= nr < 2 ^ 32).
  { subst nr. unfold task_cfs_h_nr_running. case_if; [lia|]. apply u32_range. }
  assert (Hw : (1 <=? (if cpu_is_running_css_id src css st2 then nr -32 1 else nr)) =
               ((if running then 2 else 1) <=? nr)).
  { unfold cpu_is_running_css_id. rewrite Hr, land_511, land_4095 by lia.
    change MAX_CSS_IDS with 4096 in *.
    rewrite (u32_small css), (u32_small (css + 1)) by (unfold is_u32; lia). fold running.
    destruct running; [|done]. rewrite u32_small by (unfold is_u32; specialize (Hnr eq_refl); lia).
    destruct (Z.leb_spec 1 (nr - 1)), (Z.leb_spec 2 nr); done || lia. }
  rewrite Hw. repeat case_decide; naive_solver.
Qed.

Lemma emit_throttle_effect cpu d dur st :
  0 <= cpu < MAX_CPUS -> 0 <= d < 84 -> 0 <= dur ->
  let st' := emit_throttle_event cpu cpu d dur st in
  events st' = (if hd 0 (perf_rets st) <? 0 then events st
                else events st ++ [ThrottleEvent cpu THROTTLE_EVENT_MAGIC d (Z.min dur MAX_DURATION_NS)]) /\
  same_class st st'.
Proof.
  intros Hc Hd Hdur. unfold emit_throttle_event. rewrite land_511 by lia.
  set (pr := if MAX_DURATION_NS <? dur then _ else (dur, st)).
  assert (Hpr : fst pr = Z.min dur MAX_DURATION_NS /\ exists cs, snd pr = set_counters cs st).
  { subst pr. destruct (Z.ltb_spec MAX_DURATION_NS dur); simpl; (split; [lia|]);
      [by eexists|exists (counters st); by destruct st]. }
  destruct pr as [dur' st3]. simpl in Hpr. destruct Hpr as (-> & cs & ->).
  unfold perf_output, bpf_perf_event_output. simpl.
  unfold u16. rewrite (Z.mod_small d) by lia.
  rewrite (u32_small (Z.min _ _)) by (unfold is_u32, MAX_DURATION_NS; lia).
  by destruct (hd 0 (perf_rets st) <? 0).
Qed.

Lemma unthrottle_effect ident kr cpu st d :
  let q := arr_get 0 (unthrottle_entry_cfs_rq_by_cpu st) cpu in
  let rq := kr_cfs_rq_rq kr q in
  let dst := u32 (kr_rq_cpu kr rq) in
  let t0 := u64 (kr_cfs_rq_throttled_clock kr q) in
  let t1 := u64 (kr_rq_clock kr rq) in
  0 <= cpu < MAX_CPUS -> cache_ok ident st -> ident_ok ident kr -> 0 <= d < MAX_TARGETS ->
  q <> 0 -> kr_cfs_rq_throttled kr q = 0 -> rq <> 0 -> dst < MAX_CPUS ->
  group_target kr (kr_cfs_rq_tg kr q) st = Some d -> t0 <= t1 ->
  let st' := on_unthrottle_cfs_rq_return kr cpu st in
  (forall c d', 0 <= d' < MAX_TARGETS -> bit_of st' c d' =
     if decide (dst = c /\ d' = d) then 1 <=? u32 (kr_cfs_rq_h_nr_running kr q)
     else if decide (dst = c) then current_bit st c d' else bit_of st c d') /\
  events st' = (if hd 0 (perf_rets st) <? 0 then events st
                else events st ++ [ThrottleEvent cpu THROTTLE_EVENT_MAGIC d (Z.min (t1 - t0) MAX_DURATION_NS)]) /\
  arr_get 0 (unthrottle_entry_cfs_rq_by_cpu st') cpu = 0.
Proof.
  intros q rq dst t0 t1 Hc Hk Hid Hd Hq Hthr Hrq Hdst Hg Ht st'. subst st'.
  unfold on_unthrottle_cfs_rq_return. unfold group_target in Hg.
  set (tg := kr_cfs_rq_tg kr q) in *. destruct (_ || _) eqn:Eg in Hg; [done|]. zify_bools.
  pose proof (css_id_range kr tg) as Hge. pose proof (u32_range (kr_rq_cpu kr rq)) as Hdst0.
  fold dst in Hdst0. unfold is_u32 in Hdst0.
  rewrite (proj2 (Z.leb_gt _ cpu)), land_511 by lia. cbv zeta. fold q. rewrite Hthr.
  rewrite (proj2 (Z.eqb_neq q 0)) by done. cbn [orb ctrue negb Z.eqb]. fold rq tg.
  rewrite (proj2 (Z.eqb_neq rq 0)), (proj2 (Z.eqb_neq tg 0)) by done. cbn [orb]. fold dst.
  rewrite (proj2 (Z.leb_gt _ dst)), (proj2 (Z.leb_gt _ (task_group_css_id kr tg))) by lia.
  set (css := task_group_css_id kr tg) in *. rewrite land_511, land_4095 by lia.
  set (st0 := set_unthrottle _ st).
  assert (Hk0 : cache_ok ident st0) by by destruct Hk.
  pose proof (ensured_resolve ident cpu dst tg css st0 _
    Hk0 ltac:(lia) ltac:(lia) ltac:(apply Hid; fold tg; lia) (reflexivity _)) as Hres.
  change (target_css_id_epoch st0) with (target_css_id_epoch st) in *.
  destruct (resolve_target_dense_id _ _ _ _ _) as [dd st2].
  destruct Hres as (-> & _ & _ & Hun & Hev & Hrt & Hb).
  destruct (ensure_frame dst (target_css_id_epoch st) st0) as (_ & _ & _ & _ & Ev0 & Rt0).
  change (target_cgid_to_dense st0) with (target_cgid_to_dense st).
  destruct (Z.eqb_spec (classify (target_cgid_to_dense st) tg) NON_TARGET); simplify_eq.
  set (w := 1 <=? u32 _). set (d := classify _ tg) in *.
  pose proof (fun c d' => set_waiting_bit cpu dst d w false st2 c d') as Hbits.
  destruct (set_waiting_shape cpu dst d w false st2 Hd) as [bm Hsh]. rewrite Hsh in *.
  fold t0 t1. rewrite (proj2 (Z.ltb_ge t1 t0)) by lia.
  pose proof (u64_range (kr_cfs_rq_throttled_clock kr q)) as R0. fold t0 in R0.
  pose proof (u64_range (kr_rq_clock kr rq)) as R1. fold t1 in R1.
  rewrite u64_sub_exact by done. change MAX_TARGETS with 84 in *. unfold is_u64 in *.
  destruct (emit_throttle_effect cpu d (t1 - t0) (set_bitmaps bm st2)) as (Et & Ct); [lia..|].
  destruct Ct as (_ & _ & _ & Ct4 & _ & _ & Ct7). split_and!.
  - intros c d' Hd'. unfold bit_of at 1. rewrite Ct4. fold (bit_of (set_bitmaps bm st2) c d').
    rewrite Hbits, Hb by lia. rewrite andb_true_r.
    change (current_bit st0 c d') with (current_bit st c d').
    change (bit_of st0 c d') with (bit_of st c d'). repeat case_decide; naive_solver.
  - rewrite Et. cbn [perf_rets events set_bitmaps]. by rewrite Hrt, Rt0, Hev, Ev0.
  - rewrite Ct7. cbn [unthrottle_entry_cfs_rq_by_cpu set_bitmaps]. rewrite Hun.
    apply arr_get_set_eq.
Qed.

(** ** Coherence over runs

    [oid] is [Some ident] while the current epoch is coherent under [ident].  With [None]
    only the tags are known: while user space rewrites the target map, hooks still cache
    classes under the old epoch. *)

Record cache_state (oid : option (Z -> Z)) st : Prop := {
  cs_epoch : 0 <= target_css_id_epoch st < 2 ^ 32;
  cs_targets : targets_ok (target_cgid_to_dense st);
  cs_old : forall i, cache_epoch (arr_get 0 (css_id_to_dense_id st) i) <= target_css_id_epoch st;
  cs_new : forall i ident, oid = Some ident ->
    cache_epoch (arr_get 0 (css_id_to_dense_id st) i) = target_css_id_epoch st ->
    cache_dense_id (arr_get 0 (css_id_to_dense_id st) i) = classify (target_cgid_to_dense st) (ident i);
}.

Lemma cache_state_ok ident st : cache_state (Some ident) st -> 0 < target_css_id_epoch st -> cache_ok ident st.
Proof. intros [A B C D] He. split; auto. lia. Qed.

Definition cache_at (oid : option (Z -> Z)) (e : Z) st : Prop :=
  cache_state oid st /\ target_css_id_epoch st = e.

(** What is known of the groups the hooks see. *)
Definition known (oid : option (Z -> Z)) (kr : sb_kernel) : Prop := forall ident, oid = Some ident -> ident_ok ident kr.
Definition names (oid : option (Z -> Z)) (css g : Z) : Prop := forall ident, oid = Some ident -> ident css = g.

Lemma known_task oid kr t :
  known oid kr -> task_group_css_id kr (task_group_of kr t) < MAX_CSS_IDS ->
  names oid (task_group_css_id kr (task_group_of kr t)) (task_group_of kr t).
Proof. intros H Hc ident E. by apply (proj1 (H ident E)). Qed.

Lemma known_cfs_rq oid kr q :
  known oid kr -> task_group_css_id kr (kr_cfs_rq_tg kr q) < MAX_CSS_IDS ->
  names oid (task_group_css_id kr (kr_cfs_rq_tg kr q)) (kr_cfs_rq_tg kr q).
Proof. intros H Hc ident E. by apply (proj2 (H ident E)). Qed.

Lemma cache_at_class oid e st st' : same_class st st' -> cache_at oid e st -> cache_at oid e st'.
Proof.
  intros (E1 & E2 & E3 & _) [[A B C D] <-]. split; [|done]. split; rewrite ?E1, ?E2, ?E3; auto.
Qed.

Lemma cache_at_ensure oid e c st :
  cache_at oid e st -> cache_at oid e (ensure_waiting_bitmap_epoch c e st).
Proof.
  intros [[A B C D] <-]. unfold ensure_waiting_bitmap_epoch. by case_if.
Qed.

Lemma cache_at_resolve oid e cpu g css st :
  cache_at oid e st -> 0 <= css < MAX_CSS_IDS -> names oid css g ->
  cache_at oid e (snd (resolve_target_dense_id cpu g css e st)).
Proof.
  intros [[He Ht Ho Hn] <-] Hc Hid. unfold resolve_target_dense_id. rewrite land_4095 by done.
  destruct (Z.eqb_spec (cache_epoch (arr_get 0 (css_id_to_dense_id st) css)) (target_css_id_epoch st)) as [E|E]; [done|].
  destruct (classified cpu g st) as (cs & ->). cbn [snd].
  destruct (cache_roundtrip (target_css_id_epoch st) (classify (target_cgid_to_dense st) g)) as [R1 R2];
    [unfold is_u32; lia|by apply classify_u8|].
  split; [|done]. split; simpl; [done|done|..]; intros i; rewrite arr_get_set; case_decide; subst; auto.
  - by rewrite R1.
  - intros ident Hi _. by rewrite R2, (Hid ident Hi).
Qed.

Lemma cache_at_count oid e k c st : cache_at oid e st -> cache_at oid e (count k c st).
Proof. intros [[] <-]. by split. Qed.

Lemma cache_at_set_waiting oid e cpu c d w t st :
  cache_at oid e st -> cache_at oid e (set_waiting cpu c d w t st).
Proof. intros [[A B C D] <-]. unfold set_waiting. by repeat case_if. Qed.

Ltac cache_guards :=
  repeat (case_if; [first [done | by apply cache_at_count]|]); zify_bools.

Lemma cache_at_wakeup oid e kr cpu current task st :
  cache_at oid e st -> known oid kr ->
  cache_at oid e (update_wakeup_waiting kr cpu current task st).
Proof.
  intros Hk Hid. unfold update_wakeup_waiting. cache_guards. rewrite (proj2 Hk).
  set (tg := task_group_of kr task) in *. pose proof (css_id_range kr tg). rewrite land_4095 by lia.
  match goal with |- context [resolve_target_dense_id ?a ?b ?c e ?s1] =>
    pose proof (cache_at_resolve oid e a b c s1) as Hr;
    destruct (resolve_target_dense_id a b c e s1) as [dd st2] end. simpl in Hr.
  assert (Hk2 : cache_at oid e st2).
  { apply Hr; [|lia|apply known_task; [done|fold tg; lia]].
    eapply cache_at_class; [apply class_identity|]. by apply cache_at_ensure. }
  repeat case_if; auto using cache_at_count, cache_at_set_waiting.
Qed.

Lemma cache_at_migrate oid e kr cpu task arg1 st :
  cache_at oid e st -> known oid kr ->
  cache_at oid e (on_sched_migrate_task kr cpu task arg1 st).
Proof.
  intros Hk Hid. unfold on_sched_migrate_task. cache_guards. rewrite (proj2 Hk).
  set (tg := task_group_of kr task) in *. pose proof (css_id_range kr tg). rewrite land_4095 by lia.
  match goal with |- context [resolve_target_dense_id ?a ?b ?c e ?s1] =>
    pose proof (cache_at_resolve oid e a b c s1) as Hr;
    destruct (resolve_target_dense_id a b c e s1) as [dd st2] end. simpl in Hr.
  assert (Hk2 : cache_at oid e st2).
  { apply Hr; [|lia|apply known_task; [done|fold tg; lia]]. by apply cache_at_ensure. }
  repeat case_if; auto using cache_at_count, cache_at_set_waiting.
Qed.

Lemma cache_at_unthrottle oid e kr cpu st :
  cache_at oid e st -> known oid kr ->
  cache_at oid e (on_unthrottle_cfs_rq_return kr cpu st).
Proof.
  intros Hk Hid. unfold on_unthrottle_cfs_rq_return. case_if; [by apply cache_at_count|].
  set (q := arr_get 0 _ _). clearbody q. set (st0 := set_unthrottle _ st).
  assert (Hk0 : cache_at oid e st0) by by destruct Hk as [[] <-]. clearbody st0. clear Hk st.
  cache_guards. rewrite (proj2 Hk0).
  set (tg := kr_cfs_rq_tg kr q) in *. pose proof (css_id_range kr tg). rewrite land_4095 by lia.
  match goal with |- context [resolve_target_dense_id ?a ?b ?c e ?s1] =>
    pose proof (cache_at_resolve oid e a b c s1) as Hr;
    destruct (resolve_target_dense_id a b c e s1) as [dd st2] end. simpl in Hr.
  assert (Hk2 : cache_at oid e st2).
  { apply Hr; [|lia|apply known_cfs_rq; [done|fold tg; lia]]. by apply cache_at_ensure. }
  case_if; [done|]. case_if; [by apply cache_at_count, cache_at_set_waiting|].
  match goal with |- cache_at _ _ (emit_throttle_event _ _ _ _ ?s) => apply (cache_at_class _ _ s) end;
    [|by apply cache_at_set_waiting].
  unfold emit_throttle_event, perf_output, bpf_perf_event_output. by repeat case_if.
Qed.

Lemma cache_at_switch_part oid e kr cpu c task tg css ix w t st :
  cache_at oid e st -> known oid kr ->
  tg = (if task_pid kr task =? 0 then 0 else task_group_of kr task) ->
  css = (if tg =? 0 then 0 else task_group_css_id kr tg) ->
  ix = (if (tg =? 0) || (MAX_CSS_IDS <=? css) then 0 else css) ->
  negb (tg =? 0) && (css <? MAX_CSS_IDS) = true ->
  cache_at oid e
    (let '(d, st1) := resolve_target_dense_id cpu tg ix e st in
     if negb (d =? NON_TARGET) then set_waiting cpu c d w t st1 else st1).
Proof.
  intros Hk Hid Htg Hcss Hix Hc. zify_bools. pose proof (css_id_range kr tg).
  rewrite (proj2 (Z.eqb_neq tg 0)) in Hcss, Hix by done.
  rewrite (proj2 (Z.leb_gt _ css)) in Hix by lia. simpl in Hix. subst ix.
  destruct (task_pid kr task =? 0); [done|].
  pose proof (cache_at_resolve oid e cpu tg css st Hk ltac:(lia)) as Hr.
  destruct (resolve_target_dense_id cpu tg css e st) as [d st1]. simpl in Hr.
  assert (cache_at oid e st1) by (apply Hr; subst css tg; apply known_task; [done|lia]).
  case_if; auto using cache_at_set_waiting.
Qed.

Lemma cache_at_switch oid e cfg kr cpu now rnd prev next st :
  cache_at oid e st -> known oid kr -> 0 <= cpu ->
  cache_at oid e (on_sched_switch cfg kr cpu now rnd prev next st).
Proof.
  intros Hk Hid Hc. destruct (Z.lt_ge_cases cpu MAX_CPUS) as [Hlt|Hge]; cycle 1.
  { unfold on_sched_switch. rewrite (proj2 (Z.leb_le _ _)) by done. by apply cache_at_count. }
  unfold on_sched_switch. rewrite (proj2 (Z.leb_gt MAX_CPUS cpu)) by lia. cbv zeta.
  rewrite (proj2 Hk).
  apply (cache_at_ensure oid e (Z.land cpu 511)) in Hk. revert Hk.
  generalize (ensure_waiting_bitmap_epoch (Z.land cpu 511) e st). clear st. intros st1 Hk.
  set (st3 := flush_slice_batch_if_aged _ _ _ _).
  assert (Hk3 : cache_at oid e st3).
  { eapply cache_at_class; [|exact Hk]. etransitivity; [|apply class_aged]. done. }
  clearbody st3. set (start := arr_get 0 _ _). clearbody start. clear st1 Hk.
  set (ptg := if task_pid kr prev =? 0 then 0 else _).
  set (pcss := if ptg =? 0 then 0 else _).
  pose proof (class_switch_identity cpu (Z.land cpu 511) ptg pcss st3) as C4.
  destruct (switch_identity cpu (Z.land cpu 511) ptg pcss st3) as [pix st4] eqn:E4.
  set (ntg := if task_pid kr next =? 0 then 0 else _).
  set (ncss := if ntg =? 0 then 0 else _).
  pose proof (class_switch_identity cpu (Z.land cpu 511) ntg ncss st4) as C5.
  destruct (switch_identity cpu (Z.land cpu 511) ntg ncss st4) as [nix st5] eqn:E5.
  assert (Hix : forall tg css st ix st', switch_identity cpu (Z.land cpu 511) tg css st = (ix, st') ->
     0 <= css -> ix = (if (tg =? 0) || (MAX_CSS_IDS <=? css) then 0 else css)).
  { intros tg css s ix s' H Hge. unfold switch_identity in H. destruct (tg =? 0); [by simplify_eq|].
    destruct (Z.leb_spec MAX_CSS_IDS css); simplify_eq; [done|]. by apply land_4095. }
  assert (Hp : 0 <= pcss) by (subst pcss; case_if; [lia|apply css_id_range]).
  assert (Hn : 0 <= ncss) by (subst ncss; case_if; [lia|apply css_id_range]).
  apply Hix in E4, E5; [|done..]. clear Hix. simpl in C4, C5.
  set (st6 := switch_sample _ _ _ _ _ _ _ _ _ _ st5).
  assert (Hk6 : cache_at oid e st6).
  { eapply cache_at_class; [|exact Hk3].
    etransitivity; [exact C4|]. etransitivity; [exact C5|]. apply class_sample. }
  clearbody st6. clear C4 C5 Hk3 st3 st4 st5. unfold switch_waiting.
  set (st7 := if negb (ptg =? 0) && _ then _ else st6).
  assert (Hk7 : cache_at oid e st7).
  { subst st7. case_if; [|done]. by eapply cache_at_switch_part. }
  clearbody st7. cbv zeta.
  assert (Hk8 : cache_at oid e (clear_running_css_id (Z.land cpu 511) st7)) by by destruct Hk7 as [[] <-].
  case_if; [|done].
  pose proof (cache_at_switch_part oid e kr cpu (Z.land cpu 511) next ntg ncss nix
    (2 <=? task_cfs_h_nr_running kr next) false _ Hk8 Hid eq_refl eq_refl E5 ltac:(done)) as Hk9.
  destruct (resolve_target_dense_id _ _ _ _ _) as [dd st9]. destruct Hk9 as [[] <-]. done.
Qed.

(** The input is a hook, and the groups its kernel state shows are the known ones. *)
Definition hook_ok (oid : option (Z -> Z)) (i : sb_input) : Prop :=
  match i with
  | SchedSwitch kr cpu _ _ _ _ => 0 <= cpu /\ known oid kr
  | SchedWakeup kr _ _ _ | SchedWakeupNew kr _ _ _ | SchedMigrateTask kr _ _ _ | UnthrottleReturn kr _ => known oid kr
  | UnthrottleEntry _ _ => True
  | DeleteTarget _ | WriteTarget _ _ | PublishEpoch _ => False
  end.

Lemma cache_at_hook oid e cfg i st : cache_at oid e st -> hook_ok oid i -> cache_at oid e (sb_step cfg i st).
Proof.
  intros Hk Hi. destruct i; cbn [hook_ok sb_step] in *; try done.
  - by apply cache_at_switch; [done|apply Hi..].
  - by apply cache_at_wakeup.
  - by apply cache_at_wakeup.
  - by apply cache_at_migrate.
  - unfold on_unthrottle_cfs_rq_entry. case_if; [by apply cache_at_count|]. by destruct Hk as [[] <-].
  - by apply cache_at_unthrottle.
Qed.

Lemma cache_at_hooks oid e cfg inputs : forall st,
  cache_at oid e st -> Forall (hook_ok oid) inputs -> cache_at oid e (sb_run cfg inputs st).
Proof.
  induction inputs as [|i rest IH]; intros st Hk Hi; [done|]. apply Forall_cons_1 in Hi as [Hi Hr].
  apply (IH (sb_step cfg i st)); [|done]. by apply cache_at_hook.
Qed.

(** Any history: hooks, whatever groups they see, and writes of user space in any order,
    with byte-sized dense ids and growing 32-bit epochs. *)
Fixpoint history (epoch : Z) (inputs : list sb_input) : Prop :=
  match inputs with
  | [] => True
  | WriteTarget _ d :: rest => is_u8 d /\ history epoch rest
  | DeleteTarget _ :: rest => history epoch rest
  | PublishEpoch e :: rest => epoch < e < 2 ^ 32 /\ history e rest
  | SchedSwitch _ cpu _ _ _ _ :: rest => 0 <= cpu /\ history epoch rest
  | _ :: rest => history epoch rest
  end.

Lemma cache_at_targets e targets st :
  cache_at None e st -> targets_ok targets -> cache_at None e (publish (target_css_id_epoch st) targets st).
Proof. intros [[A B C D] <-] Ht. split; [|done]. by split. Qed.

Lemma written_ok (targets : hmap Z Z) g d :
  targets_ok targets -> is_u8 d -> targets_ok (snd (bpf_map_update_elem targets g d BPF_ANY)).
Proof.
  intros Ht Hd g' d'. destruct (Z.eq_dec (fst (bpf_map_update_elem targets g d BPF_ANY)) 0) as [E|E].
  - rewrite update_ok by done. case_decide; [intros [= <-]; done|apply Ht].
  - rewrite update_err by done. apply Ht.
Qed.

Lemma deleted_ok (targets : hmap Z Z) g : targets_ok targets -> targets_ok (snd (bpf_map_delete_elem targets g)).
Proof.
  intros Ht g' d'. destruct (Z.eq_dec (fst (bpf_map_delete_elem targets g)) 0) as [E|E].
  - rewrite delete_ok by done. case_decide; [done|apply Ht].
  - rewrite delete_err by done. apply Ht.
Qed.

(** The next epoch makes every cached entry stale. *)
Lemma cache_at_epoch ident e e' st :
  cache_at None e st -> e < e' < 2 ^ 32 -> cache_at (Some ident) e' (publish e' (target_cgid_to_dense st) st).
Proof.
  intros [[A B C D] <-] He. split; [|done]. split; simpl; [lia|done|..]; intros i.
  - specialize (C i). lia.
  - intros id _ E. specialize (C i). lia.
Qed.

Lemma cache_at_forget oid e st : cache_at oid e st -> cache_at None e st.
Proof. intros [[A B C D] <-]. by split. Qed.

Lemma cache_at_history cfg inputs : forall e st,
  cache_at None e st -> history e inputs -> exists e', cache_at None e' (sb_run cfg inputs st).
Proof.
  assert (Hn : forall kr, known None kr) by done.
  induction inputs as [|i rest IH]; intros e st Hk Hi; [by exists e|].
  change (sb_run cfg (i :: rest) st) with (sb_run cfg rest (sb_step cfg i st)).
  destruct i; cbn [history] in Hi;
    try (apply (IH e); [apply cache_at_hook; [done|]; cbn [hook_ok]; split_and?; done || exact (proj1 Hi)|tauto]).
  - apply (IH e); [|done]. apply cache_at_targets; [done|]. apply deleted_ok, Hk.
  - apply (IH e); [|tauto]. apply cache_at_targets; [done|]. apply written_ok; [apply Hk|tauto].
  - apply (IH epoch); [|tauto]. apply (cache_at_forget (Some (fun _ => 0))).
    apply cache_at_epoch with e; [done|tauto].
Qed.

(** ** Theorems *)

(** C28: a class cached in an earlier epoch is never used in a later one.  Whatever
    hooks ran before and however user space rewrote the target map between them, item by
    item and then the epoch, once an epoch larger than all before it has been stored, and
    until the map is written again, every lookup returns the class the target map has for
    the group.  What it takes: since that epoch was stored, a css id below 4096 has named
    one group.  Classes looked up while a publication is under way are not covered. *)
Theorem dense_cache_transparent ident cfg before epoch after st cpu css :
  cache_state None st -> history (target_css_id_epoch st) before ->
  let st1 := sb_run cfg before st in
  target_css_id_epoch st1 < epoch < 2 ^ 32 -> Forall (hook_ok (Some ident)) after -> 0 <= css < MAX_CSS_IDS ->
  let st' := sb_run cfg (PublishEpoch epoch :: after) st1 in
  fst (resolve_target_dense_id cpu (ident css) css (target_css_id_epoch st') st') =
    classify (target_cgid_to_dense st') (ident css).
Proof.
  intros Hs Hb st1 He Ha Hc st'. destruct (cache_at_history cfg before _ st (conj Hs eq_refl) Hb) as (e & Hk). fold st1 in Hk.
  assert (Hk' : cache_at (Some ident) epoch st').
  { apply (cache_at_hooks (Some ident) epoch cfg after (sb_step cfg (PublishEpoch epoch) st1)); [|done].
    apply (cache_at_epoch ident e); [done|]. destruct Hk as [_ <-]. done. }
  destruct Hk' as [Hk' Ee]. destruct Hk as [[H0 _ _ _] _]. apply cache_state_ok in Hk'; [|lia].
  pose proof (resolve_classify ident cpu (ident css) css st' Hk' Hc eq_refl) as H.
  destruct (resolve_target_dense_id _ _ _ _ _). by destruct H as [-> _].
Qed.

(** C4: a context switch establishes the waiting truth of its CPU.  While the class cache
    is coherent with the target map and a css id names one group, after the hook
    the bit of the next task's target is set exactly if at least two of its tasks
    are runnable, the bit of the previous task's target (if different) exactly if
    one is still runnable and it is not throttled, all other bits keep their
    value, or are cleared if the targets were republished; the bitmaps of other
    CPUs are untouched and the running group is the next task's. *)
Theorem switch_establishes_waiting ident cfg kr cpu now rnd prev next st d :
  0 <= cpu < MAX_CPUS -> cache_ok ident st -> ident_ok ident kr -> 0 <= d < MAX_TARGETS ->
  let st' := on_sched_switch cfg kr cpu now rnd prev next st in
  bit_of st' cpu d =
    (if decide (task_target kr next st = Some d) then 2 <=? task_cfs_h_nr_running kr next
     else if decide (task_target kr prev st = Some d)
     then (1 <=? task_cfs_h_nr_running kr prev) && negb (task_cfs_rq_is_throttled kr prev)
     else current_bit st cpu d) /\
  (forall c, c <> cpu -> bit_of st' c d = bit_of st c d) /\
  arr_get 0 (running_css_id_by_cpu st') cpu =
    match task_group_id kr next with Some (_, id) => id + 1 | None => 0 end.
Proof.
  intros Hc Hk Hid Hd st'.
  destruct (switch_bits ident cfg kr cpu now rnd prev next st d Hc Hk Hid Hd) as (_ & B & R).
  split_and!.
  - subst st'. rewrite B, decide_True by done. unfold task_bit, current_bit. done.
  - intros c Hne. subst st'. by rewrite B, decide_False.
  - subst st'. by rewrite R, decide_True.
Qed.

(** A wakeup updates exactly one bit, on the CPU the task was placed on.  For
    a runnable task of a target with runnable work, the bit is set unless the
    group is throttled or its only runnable task is the one that runs there;
    every other bit of every CPU keeps its (current-epoch) value. *)
Theorem wakeup_updates_one_bit ident kr cpu current task st d :
  0 <= cpu < MAX_CPUS -> 0 <= task_cpu kr cpu task < MAX_CPUS ->
  cache_ok ident st -> ident_ok ident kr -> 0 <= d < MAX_TARGETS ->
  task_is_runnable kr task = true -> task <> current ->
  let dst := task_cpu kr cpu task in
  let nr := task_cfs_h_nr_running kr task in
  group_target kr (task_group_of kr task) st = Some d -> 0 < nr ->
  let running := arr_get 0 (running_css_id_by_cpu st) dst =?
                   task_group_css_id kr (task_group_of kr task) + 1 in
  let st' := on_sched_wakeup kr cpu current task st in
  forall c d', 0 <= d' < MAX_TARGETS -> bit_of st' c d' =
     if decide (dst = c /\ d' = d)
     then (if running then 2 <=? nr else true) && negb (task_cfs_rq_is_throttled kr task)
     else if decide (dst = c) then current_bit st c d' else bit_of st c d'.
Proof. intros. by apply wakeup_bits with (ident := ident). Qed.

(** A migration repairs exactly the source CPU's bit of the task's target:
    set exactly if runnable work of the group remains there besides the task that
    runs there and the group is not throttled.  The subtraction does not wrap as
    long as a running task of the group is still counted. *)
Theorem migration_repairs_source ident kr cpu task arg1 st d :
  0 <= task_cpu kr cpu task < MAX_CPUS -> u32 arg1 < MAX_CPUS ->
  cache_ok ident st -> ident_ok ident kr -> 0 <= d < MAX_TARGETS ->
  task_is_runnable kr task = true ->
  let src := task_cpu kr cpu task in
  let nr := task_cfs_h_nr_running kr task in
  group_target kr (task_group_of kr task) st = Some d ->
  let running := arr_get 0 (running_css_id_by_cpu st) src =?
                   task_group_css_id kr (task_group_of kr task) + 1 in
  (running = true -> 1 <= nr) ->
  let st' := on_sched_migrate_task kr cpu task arg1 st in
  forall c d', 0 <= d' < MAX_TARGETS -> bit_of st' c d' =
     if decide (src = c /\ d' = d)
     then ((if running then 2 else 1) <=? nr) && negb (task_cfs_rq_is_throttled kr task)
     else if decide (src = c) then current_bit st c d' else bit_of st c d'.
Proof. intros. by apply migrate_bits with (ident := ident). Qed.

(** The unthrottle pair.  When the return probe finds the runqueue its entry
    probe stored, unthrottled and belonging to a target, it sets the target's bit
    on that runqueue's CPU exactly if work is runnable, reports the throttled
    time clamped to 32 bits, and consumes the entry so that a second return does
    nothing. *)
Theorem unthrottle_reports_once ident kr cpu q st d :
  let st1 := on_unthrottle_cfs_rq_entry cpu q st in
  let rq := kr_cfs_rq_rq kr q in
  let dst := u32 (kr_rq_cpu kr rq) in
  let t0 := u64 (kr_cfs_rq_throttled_clock kr q) in
  let t1 := u64 (kr_rq_clock kr rq) in
  0 <= cpu < MAX_CPUS -> cache_ok ident st -> ident_ok ident kr -> 0 <= d < MAX_TARGETS ->
  q <> 0 -> kr_cfs_rq_throttled kr q = 0 -> rq <> 0 -> dst < MAX_CPUS ->
  group_target kr (kr_cfs_rq_tg kr q) st = Some d -> t0 <= t1 ->
  let st2 := on_unthrottle_cfs_rq_return kr cpu st1 in
  bit_of st2 dst d = (1 <=? u32 (kr_cfs_rq_h_nr_running kr q)) /\
  events st2 = (if hd 0 (perf_rets st) <? 0 then events st
                else events st ++ [ThrottleEvent cpu THROTTLE_EVENT_MAGIC d (Z.min (t1 - t0) MAX_DURATION_NS)]) /\
  let st3 := on_unthrottle_cfs_rq_return kr cpu st2 in
  events st3 = events st2 /\ (forall c d', bit_of st3 c d' = bit_of st2 c d').
Proof.
  intros st1 rq dst t0 t1 Hc Hk Hid Hd Hq Hthr Hrq Hdst Hg Ht st2.
  assert (Hst1 : st1 = set_unthrottle (arr_set (unthrottle_entry_cfs_rq_by_cpu st) cpu q) st).
  { subst st1. unfold on_unthrottle_cfs_rq_entry. by rewrite (proj2 (Z.leb_gt _ _)), land_511 by lia. }
  assert (Hq1 : arr_get 0 (unthrottle_entry_cfs_rq_by_cpu st1) cpu = q).
  { rewrite Hst1. apply arr_get_set_eq. }
  pose proof (unthrottle_effect ident kr cpu st1 d) as H. cbv zeta in H. rewrite Hq1 in H.
  assert (Hk1 : cache_ok ident st1) by (rewrite Hst1; by destruct Hk).
  assert (Hg1 : group_target kr (kr_cfs_rq_tg kr q) st1 = Some d) by by rewrite Hst1.
  destruct (H Hc Hk1 Hid Hd Hq Hthr Hrq Hdst Hg1 Ht) as (B & E & Z0). clear H.
  split_and!.
  - subst st2. by rewrite B, decide_True by done.
  - subst st2. by rewrite E, Hst1.
  - fold st2 in Z0. unfold on_unthrottle_cfs_rq_return.
    rewrite (proj2 (Z.leb_gt _ cpu)), land_511 by lia. by rewrite Z0.
Qed.

End Waiting.

(** ** Concrete instances *)

Definition demo_ident (css : Z) : Z := css + 90.

Lemma demo_ident_ok : ident_ok demo_ident demo_kernel.
Proof.
  split; intros t; unfold task_group_of, demo_kernel; simpl; repeat case_if; done.
Qed.

Lemma demo_targets_ok : targets_ok (target_cgid_to_dense demo_state).
Proof.
  intros g d. simpl. rewrite lookup_insert_Some, lookup_singleton_Some. unfold is_u8.
  intros [[_ <-]|[_ [_ <-]]]; lia.
Qed.

Lemma demo_cache_ok : cache_ok demo_ident demo_state.
Proof.
  split; [simpl; lia|apply demo_targets_ok|..]; intros i; simpl;
    unfold arr_get; rewrite lookup_empty; vm_compute; congruence.
Qed.

(** User space moves group 101 from one dense id to another while a switch runs between
    its writes: the switch caches what it finds under the old epoch, and the new epoch
    makes every later lookup use the new dense id. *)
Definition demo_publication : list sb_input :=
  [SchedSwitch demo_kernel 3 100 0 1 2; DeleteTarget 101; SchedSwitch demo_kernel 3 200 0 2 1; WriteTarget 101 7].

Lemma dense_cache_transparent_witness :
  let st1 := sb_run demo_cfg demo_publication demo_state in
  let st' := sb_run demo_cfg [PublishEpoch 2; SchedSwitch demo_kernel 3 300 0 1 2] st1 in
  fst (resolve_target_dense_id 3 101 11 (target_css_id_epoch st1) st1) <> 7 /\
  fst (resolve_target_dense_id 3 101 11 (target_css_id_epoch st') st') = 7.
Proof.
  intros st1 st'. split; [by vm_compute|]. etransitivity;
    [apply (dense_cache_transparent demo_ident demo_cfg demo_publication 2
      [SchedSwitch demo_kernel 3 300 0 1 2] demo_state 3 11)|vm_compute; reflexivity].
  - destruct demo_cache_ok; split; [lia|done..].
  - cbn. unfold is_u8. lia.
  - vm_compute. done.
  - apply Forall_singleton. split; [done|]. intros ident [= <-]. apply demo_ident_ok.
  - done.
Defined.

Lemma switch_establishes_waiting_witness :
  let st' := on_sched_switch demo_cfg demo_kernel 3 100 0 1 2 demo_state in
  bit_of st' 3 33 = true /\ arr_get 0 (running_css_id_by_cpu st') 3 = 13.
Proof.
  destruct (switch_establishes_waiting demo_ident demo_cfg demo_kernel 3 100 0 1 2 demo_state 33)
    as (H1 & _ & H3); [done|apply demo_cache_ok|apply demo_ident_ok|done|].
  split; [rewrite H1; vm_compute; reflexivity|rewrite H3; vm_compute; reflexivity].
Defined.

Lemma wakeup_updates_one_bit_witness :
  bit_of (on_sched_wakeup demo_kernel 0 9 2 demo_state) 3 33 = true.
Proof.
  rewrite (wakeup_updates_one_bit demo_ident demo_kernel 0 9 2 demo_state 33);
    [vm_compute; reflexivity|..]; try apply demo_cache_ok; try apply demo_ident_ok;
    vm_compute; done.
Defined.

Lemma migration_repairs_source_witness :
  bit_of (on_sched_migrate_task demo_kernel 0 2 5 demo_state) 3 33 = true.
Proof.
  rewrite (migration_repairs_source demo_ident demo_kernel 0 2 5 demo_state 33);
    [vm_compute; reflexivity|..]; try apply demo_cache_ok; try apply demo_ident_ok;
    vm_compute; done.
Defined.

Lemma unthrottle_reports_once_witness :
  events (on_unthrottle_cfs_rq_return demo_kernel 6
    (on_unthrottle_cfs_rq_entry 6 202 demo_state)) = [ThrottleEvent 6 8738 33 4000].
Proof.
  destruct (unthrottle_reports_once demo_ident demo_kernel 6 202 demo_state 33) as (_ & H & _);
    [done|apply demo_cache_ok|apply demo_ident_ok|done..|vm_compute; reflexivity|done|].
  rewrite H. vm_compute. reflexivity.
Defined.

End SchedBlameWaiting.
