(* ===== verification/SchedBlameIdentity.v ===== *)
(** * Scheduler blame: identity announcements

    User space learns which group a css id stands for from the identity events.
    The tracer announces a pair when it sees it the first time and again only
    after the css id was reused for another group; an announcement that could not
    be submitted is repeated. *)

From Stdlib Require Import ZArith Lia.
From stdpp Require Import base option list gmap tactics.
From S2P Require Import Prelude BpfMap SchedBlame SchedBlameBatch.

Local Open Scope Z_scope.
Local Open Scope bpf_scope.

Module SchedBlameIdentity.
Import SchedBlame SchedBlameBatch.

(** The groups announced for a css id, in order. *)
Definition announced_by (css : Z) (e : sb_event) : list Z :=
  match e with
  | IdentityEvent _ _ id cgid => if decide (id = css) then [cgid] else []
  | _ => []
  end.
Definition announced (css : Z) (evs : list sb_event) : list Z := concat (announced_by css <$> evs).

(** No entry equals its successor. *)
Definition no_repeat (l : list Z) : Prop :=
  forall k x, l !! k = Some x -> l !! S k <> Some x.

Lemma announced_snoc css evs e : announced css (evs ++ [e]) = announced css evs ++ announced_by css e.
Proof. unfold announced. by rewrite fmap_app, concat_app; simpl; rewrite app_nil_r. Qed.

Lemma no_repeat_snoc l x : no_repeat l -> list.last l <> Some x -> no_repeat (l ++ [x]).
Proof.
  intros Hl Hx k y. rewrite !lookup_app_Some. intros Hk Hs.
  destruct Hs as [Hs|[Hge Hs]].
  - destruct Hk as [Hk|[Hge _]]; [by apply (Hl _ _ Hk)|]. apply lookup_lt_Some in Hs. lia.
  - apply list_lookup_singleton_Some in Hs as [Heq <-].
    destruct Hk as [Hk|[Hge' _]]; [|lia]. apply Hx. rewrite last_lookup.
    by replace (pred (length l)) with k by lia.
Qed.

Section Identity.
Context {M : BpfMapOps}.
Implicit Types st : sb_state.

(** The invariant: the table holds what was last announced. *)
Definition identity_ok st : Prop :=
  forall css, 0 <= css < MAX_CSS_IDS ->
    arr_get 0 (observed_identity st) css = default 0 (list.last (announced css (events st))) /\
    no_repeat (announced css (events st)).

(** Steps that announce nothing. *)
Definition same_identity_view st st' : Prop :=
  observed_identity st' = observed_identity st /\
  forall css, announced css (events st') = announced css (events st).

#[local] Instance same_identity_view_preorder : PreOrder same_identity_view.
Proof.
  split; [by intros st|]. intros s1 s2 s3 [A1 A2] [B1 B2]. split; [congruence|].
  intros css. by rewrite B2, A2.
Qed.

Lemma identity_ok_same st st' : same_identity_view st st' -> identity_ok st -> identity_ok st'.
Proof. intros [A B] H css Hc. rewrite A, !B. by apply H. Qed.

Lemma view_output e st : (forall css, announced_by css e = []) ->
  same_identity_view st (snd (perf_output e st)).
Proof.
  intros He. unfold perf_output, bpf_perf_event_output. simpl. split; [done|]. intros css. simpl.
  case_if; [done|]. by rewrite announced_snoc, He, app_nil_r.
Qed.

Lemma view_emit cpu c b st : same_identity_view st (emit_slice_batch cpu c b st).
Proof.
  unfold emit_slice_batch, output_slice_batch. case_if; [done|].
  match goal with |- context [perf_output ?e st] =>
    pose proof (view_output e st ltac:(done)) as H; destruct (perf_output e st) as [r st1] end.
  etransitivity; [exact H|]. simpl. by case_if.
Qed.

Lemma view_aged cpu c now st : same_identity_view st (flush_slice_batch_if_aged cpu c now st).
Proof. unfold flush_slice_batch_if_aged. case_if; [done|]. case_match; [apply view_emit|done]. Qed.

Lemma view_append cfg cpu c now s st : same_identity_view st (append_sampled_slice cfg cpu c now s st).
Proof.
  unfold append_sampled_slice. destruct (batch_lookup cpu st) as [b|]; [|done].
  destruct (MAX_SLICES_PER_BATCH <=? batch_count b);
    [transitivity (emit_slice_batch cpu c b st); [apply view_emit|]|].
  - set (st1 := emit_slice_batch _ _ _ _). clearbody st1. simpl.
    case_if; [|done]. etransitivity; [|apply view_emit]. done.
  - case_if; (case_if; [etransitivity; [|apply view_emit]|]); done.
Qed.

Lemma view_sample cfg cpu c now start rnd pid tg css ix st :
  same_identity_view st (switch_sample cfg cpu c now start rnd pid tg css ix st).
Proof.
  unfold switch_sample. repeat (case_if; try done).
  destruct (pack_slice _ _ _ _ _) as [p st1] eqn:Epk. etransitivity; [|apply view_append].
  revert Epk. unfold pack_slice. case_if; intros; by simplify_eq.
Qed.

Lemma view_resolve cpu g css e st : same_identity_view st (snd (resolve_target_dense_id cpu g css e st)).
Proof.
  unfold resolve_target_dense_id. case_if; [done|].
  by destruct (bpf_map_lookup_elem _ _); [case_if|].
Qed.

Lemma view_set_waiting cpu c d w t st : same_identity_view st (set_waiting cpu c d w t st).
Proof. unfold set_waiting. by repeat case_if. Qed.

Lemma view_ensure c e st : same_identity_view st (ensure_waiting_bitmap_epoch c e st).
Proof. unfold ensure_waiting_bitmap_epoch. by case_if. Qed.

Lemma view_throttle cpu c d n st : same_identity_view st (emit_throttle_event cpu c d n st).
Proof.
  unfold emit_throttle_event.
  set (pr := if MAX_DURATION_NS <? n then _ else (n, st)).
  assert (H : same_identity_view st (snd pr)) by (subst pr; by case_if).
  destruct pr as [n' st1]. simpl in H. etransitivity; [exact H|].
  match goal with |- context [perf_output ?e st1] =>
    pose proof (view_output e st1 ltac:(done)) as H1; destruct (perf_output e st1) as [r st2] end.
  etransitivity; [exact H1|]. by case_if.
Qed.

(** Resolving and writing a bit, in any of the hooks. *)
Lemma view_resolve_set cpu g css e st (f : Z -> sb_state -> sb_state) :
  (forall d st1, same_identity_view st1 (f d st1)) ->
  same_identity_view st (let '(d, st1) := resolve_target_dense_id cpu g css e st in f d st1).
Proof.
  intros Hf. pose proof (view_resolve cpu g css e st) as H.
  destruct (resolve_target_dense_id cpu g css e st) as [d st1]. simpl in H.
  etransitivity; [exact H|apply Hf].
Qed.

Lemma view_switch_waiting kr cpu c e prev next ptg pid pix ntg nid nix st :
  same_identity_view st (switch_waiting kr cpu c e prev next ptg pid pix ntg nid nix st).
Proof.
  unfold switch_waiting. set (st1 := if negb (ptg =? 0) && _ then _ else st).
  transitivity st1.
  { subst st1. case_if; [|done]. apply view_resolve_set. intros. case_if; [apply view_set_waiting|done]. }
  transitivity (clear_running_css_id c st1); [done|]. case_if; [|done].
  apply view_resolve_set. intros d st2. etransitivity; [|done].
  case_if; [apply view_set_waiting|done].
Qed.

(** The announcement step keeps the invariant. *)
Lemma identity_ok_announce c tg css st :
  0 <= css < MAX_CSS_IDS -> identity_ok st -> identity_ok (maybe_emit_identity c tg css st).
Proof.
  intros Hc H. unfold maybe_emit_identity. destruct (Z.eqb_spec tg 0) as [|Htg]; [done|].
  assert (Hm : Z.land css 4095 = css).
  { change 4095 with (2 ^ 12 - 1). rewrite land_mask by lia. apply Z.mod_small.
    change MAX_CSS_IDS with (2 ^ 12) in Hc. lia. }
  rewrite Hm. destruct (Z.eqb_spec (arr_get 0 (observed_identity st) css) tg) as [|Hne]; [done|].
  unfold perf_output, bpf_perf_event_output. simpl. destruct (hd 0 (perf_rets st) <? 0) eqn:Er; [done|].
  intros i Hi. simpl. rewrite announced_snoc. simpl. unfold u16.
  rewrite (Z.mod_small css) by (change MAX_CSS_IDS with 4096 in Hc; lia).
  rewrite arr_get_set. destruct (H i Hi) as [H1 H2].
  destruct (decide (css = i)) as [<-|]; [|by rewrite app_nil_r].
  split; [by rewrite last_snoc|]. apply no_repeat_snoc; [done|].
  intros Hl. rewrite Hl in H1. simpl in H1. congruence.
Qed.

Lemma identity_ok_switch_identity cpu c tg css st :
  0 <= css -> identity_ok st -> identity_ok (snd (switch_identity cpu c tg css st)).
Proof.
  intros Hc H. unfold switch_identity. case_if; [done|].
  destruct (Z.leb_spec MAX_CSS_IDS css); [by apply (identity_ok_same st)|]. simpl.
  apply identity_ok_announce; [|done].
  change 4095 with (2 ^ 12 - 1). rewrite land_mask by lia. apply Z.mod_pos_bound. done.
Qed.

Lemma identity_ok_switch cfg kr cpu now rnd prev next st :
  identity_ok st -> identity_ok (on_sched_switch cfg kr cpu now rnd prev next st).
Proof.
  intros H. unfold on_sched_switch. case_if; [by apply (identity_ok_same st)|]. cbv zeta.
  eapply identity_ok_same in H; [|apply (view_ensure (Z.land cpu 511) (target_css_id_epoch st))].
  revert H. generalize (ensure_waiting_bitmap_epoch (Z.land cpu 511) (target_css_id_epoch st) st).
  intros st1 H1. set (start := arr_get 0 _ _). clearbody start.
  set (st3 := flush_slice_batch_if_aged _ _ _ _).
  assert (H3 : identity_ok st3).
  { eapply identity_ok_same; [|exact H1]. etransitivity; [|apply view_aged]. done. }
  clearbody st3. set (ptg := if task_pid kr prev =? 0 then 0 else _).
  set (pcss := if ptg =? 0 then 0 else _).
  set (ntg := if task_pid kr next =? 0 then 0 else _).
  set (ncss := if ntg =? 0 then 0 else _).
  assert (Hr : forall tg, 0 <= task_group_css_id kr tg)
    by (intros; unfold task_group_css_id; apply u32_range).
  assert (Hp : 0 <= pcss) by (subst pcss; case_if; [lia|apply Hr]).
  assert (Hn : 0 <= ncss) by (subst ncss; case_if; [lia|apply Hr]).
  pose proof (identity_ok_switch_identity cpu (Z.land cpu 511) ptg pcss st3 Hp H3) as H4.
  destruct (switch_identity cpu (Z.land cpu 511) ptg pcss st3) as [pix st4].
  pose proof (identity_ok_switch_identity cpu (Z.land cpu 511) ntg ncss st4 Hn H4) as H5.
  destruct (switch_identity cpu (Z.land cpu 511) ntg ncss st4) as [nix st5]. simpl in H5.
  eapply identity_ok_same; [|exact H5]. etransitivity; [apply view_sample|apply view_switch_waiting].
Qed.

Lemma identity_ok_wakeup kr cpu current task st :
  identity_ok st -> identity_ok (update_wakeup_waiting kr cpu current task st).
Proof.
  intros H. unfold update_wakeup_waiting.
  repeat (case_if; [first [done | by apply (identity_ok_same st)]|]).
  eapply identity_ok_same;
    [apply view_resolve_set; intros; repeat (case_if; [done|]); apply view_set_waiting|].
  apply identity_ok_announce.
  - change 4095 with (2 ^ 12 - 1). rewrite land_mask by lia. apply Z.mod_pos_bound. done.
  - eapply identity_ok_same; [apply view_ensure|done].
Qed.

Lemma identity_ok_step cfg i st : identity_ok st -> identity_ok (sb_step cfg i st).
Proof.
  intros H. destruct i; simpl.
  - by apply identity_ok_switch.
  - by apply identity_ok_wakeup.
  - by apply identity_ok_wakeup.
  - unfold on_sched_migrate_task.
    repeat (case_if; [first [done | by apply (identity_ok_same st)]|]).
    eapply identity_ok_same; [|exact H]. etransitivity; [apply view_ensure|].
    apply view_resolve_set. intros. case_if; [done|apply view_set_waiting].
  - unfold on_unthrottle_cfs_rq_entry. case_if; by apply (identity_ok_same st).
  - eapply identity_ok_same; [|exact H]. unfold on_unthrottle_cfs_rq_return. case_if; [done|].
    set (st0 := set_unthrottle _ st). transitivity st0; [done|]. clearbody st0.
    set (q := arr_get 0 _ _). clearbody q. repeat (case_if; [done|]).
    etransitivity; [apply view_ensure|]. apply view_resolve_set. intros. case_if; [done|].
    etransitivity; [apply view_set_waiting|]. case_if; [done|apply view_throttle].
  - by apply (identity_ok_same st).
  - by apply (identity_ok_same st).
  - by apply (identity_ok_same st).
Qed.

(** Identity announcements are current and never redundant.  After any run,
    the group the tracer considers announced for a css id is the last one it
    delivered for it (none yet: zero), and no group is announced twice in a row
    for the same css id, whatever submissions failed in between. *)
Theorem identity_announcements_current cfg inputs st css :
  sb_loaded st -> 0 <= css < MAX_CSS_IDS ->
  let st' := sb_run cfg inputs st in
  arr_get 0 (observed_identity st') css = default 0 (list.last (announced css (events st'))) /\
  no_repeat (announced css (events st')).
Proof.
  intros (_ & _ & He & _ & _ & Ho & _) Hc.
  enough (H : identity_ok (sb_run cfg inputs st)) by by apply H.
  assert (H0 : identity_ok st).
  { intros i _. rewrite He, Ho. simpl. unfold arr_get. rewrite lookup_empty. split; [done|].
    intros k x. done. }
  clear He Ho. revert st H0. induction inputs as [|i rest IH]; intros st H; [done|].
  apply IH. by apply identity_ok_step.
Qed.
End Identity.

Lemma identity_announcements_current_witness :
  let st' := sb_run demo_cfg demo_inputs demo_state in
  arr_get 0 (observed_identity st') 11 = default 0 (list.last (announced 11 (events st'))) /\
  announced 11 (events st') = [101].
Proof.
  split; [|vm_compute; reflexivity].
  apply identity_announcements_current; [apply demo_loaded_state|done].
Defined.

End SchedBlameIdentity.
