(* ===== verification/SchedBlameAge.v ===== *)
(** * Age of scheduler slices ([bpf/sched_blame.c], [flush_slice_batch_if_aged])

    A batch that is not full waits for more slices.  Module [SchedBlameAge] bounds
    the wait: every slice of a CPU has been handed to user space by the end of the
    first context switch there that comes [SLICE_BATCH_MAX_AGE_NS] or more after it
    was sampled. *)

From Stdlib Require Import ZArith Lia.
From stdpp Require Import base option list gmap tactics.
From S2P Require Import Prelude BpfMap SchedBlame SchedBlameBatch.
Import SchedBlame SchedBlameBatch.

Local Open Scope Z_scope.
Local Open Scope bpf_scope.

Module SchedBlameAge.

Section Age.
Context {M : BpfMapOps} {L : BpfMapLaws M}.
Implicit Types (st : sb_state) (c t : Z) (q : queue).

(** Switches on [c] are read by a clock that started and has not passed [t]. *)
Definition switched_by c t (i : sb_input) : Prop :=
  match i with SchedSwitch _ cpu now _ _ _ => cpu = c -> 0 < now <= t | _ => True end.

(** ** The queue and its first timestamp *)

Record q_stamped t q : Prop := {
  qs_empty : q_buf q = [] -> q_first q = 0;
  qs_first : q_buf q <> [] -> 0 < q_first q <= t;
}.

Lemma flush_stamped t r q : q_stamped t (q_flush r q).
Proof. unfold q_flush. case_if; by split. Qed.

Lemma aged_stamped t now r q : q_stamped t q -> q_stamped t (q_aged now r q).
Proof. intros H. unfold q_aged. case_if; [done|apply flush_stamped]. Qed.

Lemma append_stamped t size now r s q :
  q_stamped t q -> 0 < now <= t -> q_stamped t (q_append size now r s (q_count q)).
Proof.
  intros [He Hf] Hn. unfold q_append. destruct (size <=? _); [apply flush_stamped|]. split; cbn.
  - by destruct (q_buf q).
  - intros _. case_decide; auto.
Qed.

(** The first [k] slices have left, or the batch they wait in is from before [t]. *)
Definition gone_or_old (k : nat) t q : Prop :=
  (k <= length (q_out q))%nat \/ (q_buf q <> [] /\ 0 < q_first q <= t /\ (k <= length (q_stream q))%nat).

Lemma flush_gone k t r q : 0 <= r -> gone_or_old k t q -> (k <= length (q_out (q_flush r q)))%nat.
Proof.
  intros Hr H. unfold q_flush. rewrite (proj2 (Z.ltb_ge _ _)) by done. cbn. rewrite length_app.
  destruct H as [H|(_ & _ & H)]; [lia|]. unfold q_stream in H. by rewrite length_app in H.
Qed.

Lemma aged_gone k t now r q : 0 <= r -> gone_or_old k t q -> gone_or_old k t (q_aged now r q).
Proof. intros Hr H. unfold q_aged. case_if; [done|]. left. by eapply flush_gone. Qed.

Lemma append_gone k t size now r s q :
  0 <= r -> gone_or_old k t q -> gone_or_old k t (q_append size now r s (q_count q)).
Proof.
  intros Hr H. unfold q_append.
  match goal with |- gone_or_old _ _ (if _ then q_flush _ ?q1 else _) => assert (H1 : gone_or_old k t q1) end.
  { destruct H as [H|(Hb & Hf & Hs)]; [by left|right]. cbn. rewrite decide_False by done.
    split_and!; [by destruct (q_buf q)|lia|lia|]. unfold q_stream in *. cbn. rewrite !length_app in *. cbn. lia. }
  destruct (size <=? _); [left; by eapply flush_gone|done].
Qed.

(** An aged flush leaves nothing of the old batch. *)
Lemma aged_empties k t now r q :
  0 <= r -> gone_or_old k t q -> t + SLICE_BATCH_MAX_AGE_NS <= now < 2 ^ 64 ->
  (k <= length (q_out (q_aged now r q)))%nat.
Proof.
  intros Hr H Hn. unfold q_aged, SLICE_BATCH_MAX_AGE_NS in *. destruct H as [H|(Hb & Hf & Hs)].
  - case_if; [done|]. eapply (flush_gone k t); [done|by left].
  - rewrite (proj2 (Z.eqb_neq _ _)), u64_sub_exact, (proj2 (Z.ltb_ge _ _)) by (unfold is_u64; lia). cbn [orb].
    eapply (flush_gone k t); [done|right; done].
Qed.

Lemma append_keeps k size now r s q :
  0 <= r -> (k <= length (q_out q))%nat -> (k <= length (q_out (q_append size now r s (q_count q))))%nat.
Proof.
  intros Hr H. unfold q_append, q_flush. rewrite (proj2 (Z.ltb_ge _ _)) by done. destruct (size <=? _); [|done].
  cbn. rewrite length_app. lia.
Qed.

(** ** Steps *)

(** The queue of [c] changes only in a switch on [c], as [switch_queue] says. *)
Lemma step_queue_at cfg i st c :
  input_ok i -> batches_ok st ->
  (queue_of c (sb_step cfg i st) = queue_of c st /\ input_slice cfg c i st = None) \/
  exists kr now prandom prev next i1 j1,
    i = SchedSwitch kr c now prandom prev next /\
    queue_of c (sb_step cfg i st) =
      let q := q_aged now (hd 0 (drop i1 (perf_rets st))) (queue_of c st) in
      match input_slice cfg c i st with
      | Some s => q_append (clamp_batch_size cfg) now (hd 0 (drop j1 (perf_rets st))) s (q_count q)
      | None => q
      end.
Proof.
  intros Hi HB.
  destruct i as [kr cpu now prandom prev next|?|?|?|?|?|?|?|?];
    try (left; split; [|done]; apply queue_same; by apply other_inputs_same).
  destruct (Z.lt_ge_cases cpu MAX_CPUS) as [Hlt|Hge].
  - cbn [input_ok] in Hi.
    destruct (switch_queue cfg kr cpu now prandom prev next st) as (_ & _ & i1 & j1 & Q); [lia|done|].
    cbn [sb_step input_slice]. destruct (decide (cpu = c)) as [<-|Hne].
    + right. exists kr, now, prandom, prev, next, i1, j1. split; [done|]. rewrite Q, decide_True by done.
      by rewrite Z.eqb_refl, (proj2 (Z.ltb_lt _ _) Hlt).
    + left. by rewrite Q, decide_False, (proj2 (Z.eqb_neq _ _)) by done.
  - left. split; [apply queue_same; by apply other_inputs_same|].
    cbn [input_slice]. by rewrite (proj2 (Z.ltb_ge _ _) Hge), andb_false_r.
Qed.

(** A property of the queue that flushes and appends keep holds after a run. *)
Lemma run_queue_invariant cfg c (P : queue -> Prop) (ok : sb_input -> Prop) :
  (forall now r q, 0 <= r -> P q -> P (q_aged now r q)) ->
  (forall kr now prandom prev next r s q, ok (SchedSwitch kr c now prandom prev next) -> 0 <= r -> P q ->
     P (q_append (clamp_batch_size cfg) now r s (q_count q))) ->
  forall inputs st, batches_ok st -> Forall input_ok inputs -> Forall ok inputs -> rets_ok (perf_rets st) ->
  P (queue_of c st) -> P (queue_of c (sb_run cfg inputs st)).
Proof.
  intros Haged Happ. induction inputs as [|i rest IH]; intros st HB Hi Hok Hr HP; [done|].
  apply Forall_cons_iff in Hi as [Hi Hrest]. apply Forall_cons_iff in Hok as [Hoki Hok].
  change (sb_run cfg (i :: rest) st) with (sb_run cfg rest (sb_step cfg i st)).
  destruct (step_queue cfg i st Hi HB) as (B & [k Hk] & _).
  apply IH; [done..|rewrite Hk; by apply rets_ok_drop|].
  destruct (step_queue_at cfg i st c Hi HB) as [[-> _]|(kr & now & pr & prev & next & i1 & j1 & -> & ->)]; [done|].
  cbv zeta. case_match; [eapply Happ; [done|by apply rets_ok_hd|]|]; (apply Haged; [by apply rets_ok_hd|done]).
Qed.

Lemma run_batches cfg inputs : forall st,
  batches_ok st -> Forall input_ok inputs -> rets_ok (perf_rets st) ->
  batches_ok (sb_run cfg inputs st) /\ rets_ok (perf_rets (sb_run cfg inputs st)).
Proof.
  induction inputs as [|i rest IH]; intros st HB Hi Hr; [done|]. apply Forall_cons_iff in Hi as [Hi Hrest].
  destruct (step_queue cfg i st Hi HB) as (B & [k Hk] & _).
  apply (IH (sb_step cfg i st)); [done|done|]. rewrite Hk. by apply rets_ok_drop.
Qed.

Lemma run_slices_app cfg c l1 : forall l2 st,
  run_slices cfg c (l1 ++ l2) st = run_slices cfg c l1 st ++ run_slices cfg c l2 (sb_run cfg l1 st).
Proof.
  induction l1 as [|i l1 IH]; intros l2 st; [done|]. cbn [app run_slices].
  by rewrite IH, app_assoc.
Qed.

(** After the slices of [before] and any later inputs, none of them waits in a
    batch younger than [t]. *)
Lemma before_gone_or_old cfg c t before later st :
  sb_loaded st -> Forall input_ok (before ++ later) -> Forall (switched_by c t) before -> rets_ok (perf_rets st) ->
  gone_or_old (length (run_slices cfg c before st)) t (queue_of c (sb_run cfg (before ++ later) st)).
Proof.
  intros Hl Hi Hsw Hr. apply Forall_app in Hi as [Hi1 Hi2]. pose proof (loaded_batches_ok _ Hl) as HB.
  destruct (run_batches cfg before st HB Hi1 Hr) as [HB1 Hr1].
  assert (Hst : q_stamped t (queue_of c (sb_run cfg before st))).
  { apply (run_queue_invariant cfg c (q_stamped t) (switched_by c t)); try done.
    - intros. by apply aged_stamped.
    - intros kr now pr prev next r s q Hok _ Hq. apply append_stamped; [done|]. by apply Hok.
    - rewrite loaded_queue by done. by split. }
  pose proof (loaded_run_stream cfg c before st Hl Hi1 Hr) as Hstream.
  assert (H0 : gone_or_old (length (run_slices cfg c before st)) t (queue_of c (sb_run cfg before st))).
  { rewrite <- Hstream. destruct Hst as [He Hf]. unfold gone_or_old, q_stream. rewrite length_app.
    destruct (decide (q_buf (queue_of c (sb_run cfg before st)) = [])) as [E|E]; [left; rewrite E; cbn; lia|].
    right. split_and!; [done|by apply Hf..|lia]. }
  unfold sb_run. rewrite fold_left_app. fold (sb_run cfg before st).
  apply (run_queue_invariant cfg c _ (fun _ => True)); try done.
  - intros. by apply aged_gone.
  - intros. by apply append_gone.
  - by apply Forall_true.
Qed.

Lemma last_switch_delivers cfg c t k kr now prandom prev next st :
  let last := SchedSwitch kr c now prandom prev next in
  batches_ok st -> input_ok last -> rets_ok (perf_rets st) -> c < MAX_CPUS ->
  gone_or_old k t (queue_of c st) -> t + SLICE_BATCH_MAX_AGE_NS <= now < 2 ^ 64 ->
  (k <= length (q_out (queue_of c (sb_step cfg last st))))%nat.
Proof.
  intros last HB Hi Hr Hc Hg Hn. cbn [input_ok last] in Hi.
  destruct (switch_queue cfg kr c now prandom prev next st) as (_ & _ & i1 & j1 & Q); [lia|done|].
  unfold last. cbn [sb_step]. rewrite Q, decide_True by done. cbv zeta.
  case_match; [apply append_keeps; [by apply rets_ok_hd|]|]; (eapply aged_empties; [by apply rets_ok_hd|done..]).
Qed.

(** C13: bounded delay.  When no perf submission fails, every slice a CPU sampled up
    to time [t] has been handed to user space, in order and ahead of all later ones,
    by the end of a context switch on that CPU at [t + SLICE_BATCH_MAX_AGE_NS] or
    later, whatever happened in between and however few slices filled the batch. *)
Theorem slices_delivered_within_age cfg c t before later kr now prandom prev next st :
  let last := SchedSwitch kr c now prandom prev next in
  sb_loaded st -> Forall input_ok (before ++ later ++ [last]) -> Forall (switched_by c t) before ->
  rets_ok (perf_rets st) -> c < MAX_CPUS -> t + SLICE_BATCH_MAX_AGE_NS <= now < 2 ^ 64 ->
  run_slices cfg c before st `prefix_of` delivered c (sb_run cfg (before ++ later ++ [last]) st).
Proof.
  intros last Hl Hi Hsw Hr Hc Hn.
  pose proof (loaded_run_stream cfg c _ _ Hl Hi Hr) as Hs.
  rewrite run_slices_app in Hs.
  assert (Hlen : (length (run_slices cfg c before st) <=
                  length (q_out (queue_of c (sb_run cfg (before ++ later ++ [last]) st))))%nat).
  { rewrite app_assoc in Hi |- *. apply Forall_app in Hi as [Hi Hlast]. apply Forall_inv in Hlast.
    pose proof (before_gone_or_old cfg c t before later st Hl Hi Hsw Hr) as Hg.
    destruct (run_batches cfg _ st (loaded_batches_ok _ Hl) Hi Hr) as [HB Hr1].
    unfold sb_run at 1. rewrite fold_left_app. fold (sb_run cfg (before ++ later) st). cbn [fold_left].
    exact (last_switch_delivers cfg c t _ kr now prandom prev next _ HB Hlast Hr1 Hc Hg Hn). }
  unfold q_stream in Hs. change (delivered c ?x) with (q_out (queue_of c x)).
  exists (drop (length (run_slices cfg c before st)) (q_out (queue_of c (sb_run cfg (before ++ later ++ [last]) st)))).
  rewrite <- (take_drop (length (run_slices cfg c before st)) (q_out _)) at 1. f_equal.
  apply (f_equal (take (length (run_slices cfg c before st)))) in Hs.
  by rewrite take_app_le, take_app_length in Hs by done.
Qed.
End Age.

Lemma slices_delivered_within_age_witness :
  let last := SchedSwitch demo_kernel 3 (2000 + SLICE_BATCH_MAX_AGE_NS) 0 0 1 in
  run_slices demo_cfg 3 demo_inputs demo_state `prefix_of`
    delivered 3 (sb_run demo_cfg (demo_inputs ++ [] ++ [last]) demo_state) /\
  length (run_slices demo_cfg 3 demo_inputs demo_state) = 3%nat /\
  length (delivered 3 (sb_run demo_cfg demo_inputs demo_state)) = 2%nat.
Proof.
  split_and!; [|vm_compute; reflexivity..].
  apply (slices_delivered_within_age (M := faulty_ops) demo_cfg 3 2000 demo_inputs []);
    [apply demo_loaded_state|repeat constructor; simpl; lia|repeat constructor; simpl; lia|constructor|done|].
  vm_compute. split; [discriminate|reflexivity].
Defined.
End SchedBlameAge.
