(* ===== verification/IoLatHist.v ===== *)
(** * IO latency: classification ([bpf/iolatency_tracing.c], lines 284-347,
    763-798)

    The scalar functions of the IO latency tracer: the branch-free comparison,
    the latency and size histograms, and the reconstruction of a full timestamp
    from the 51-bit submission stamp older kernels keep in a bio. *)

From Stdlib Require Import ZArith Lia.
From stdpp Require Import base option list gmap tactics.
From S2P Require Import Prelude BpfMap.

Local Open Scope Z_scope.
Local Open Scope bpf_scope.

Module IoLatHist.

Definition IO_LATENCY_BUCKETS : Z := 17.
Definition IO_SIZE_BUCKETS : Z := 6.
Definition IO_SIZE_KIB : Z := 1024.
Definition IO_LATENCY_NS_PER_US : Z := 1000.
Definition IO_LATENCY_NS_PER_MS : Z := 1000000.
Definition IO_LATENCY_NS_PER_SEC : Z := 1000000000.

(** ** The code *)

Definition io_histogram_above (value threshold : Z) : Z :=
  let distance := threshold -64 value in
  u32 (Z.shiftr (Z.lor distance value) 63).

Definition io_latency_bucket (start_ns end_ns queue_stage : Z) : Z :=
  if (start_ns =? 0) || (end_ns =? 0) then -1
  else if end_ns <? start_ns then (if ctrue queue_stage then 0 else -1)
  else
    let ns := end_ns -64 start_ns in
    if ns <=? 50 * IO_LATENCY_NS_PER_US then 0
    else
      let bucket := 1 +32 io_histogram_above ns (100 * IO_LATENCY_NS_PER_US)
                      +32 io_histogram_above ns (250 * IO_LATENCY_NS_PER_US)
                      +32 io_histogram_above ns (500 * IO_LATENCY_NS_PER_US)
                      +32 io_histogram_above ns IO_LATENCY_NS_PER_MS in
      let bucket := bucket +32 io_histogram_above ns (2 * IO_LATENCY_NS_PER_MS) in
      let bucket := bucket +32 io_histogram_above ns (4 * IO_LATENCY_NS_PER_MS) in
      let bucket := bucket +32 io_histogram_above ns (8 * IO_LATENCY_NS_PER_MS) in
      let bucket := bucket +32 io_histogram_above ns (16 * IO_LATENCY_NS_PER_MS) in
      let bucket := bucket +32 io_histogram_above ns (32 * IO_LATENCY_NS_PER_MS) in
      let bucket := bucket +32 io_histogram_above ns (64 * IO_LATENCY_NS_PER_MS) in
      let bucket := bucket +32 io_histogram_above ns (128 * IO_LATENCY_NS_PER_MS) in
      let bucket := bucket +32 io_histogram_above ns (256 * IO_LATENCY_NS_PER_MS) in
      let bucket := bucket +32 io_histogram_above ns (512 * IO_LATENCY_NS_PER_MS) in
      let bucket := bucket +32 io_histogram_above ns IO_LATENCY_NS_PER_SEC in
      let bucket := bucket +32 io_histogram_above ns (2 * IO_LATENCY_NS_PER_SEC) in
      s32 bucket.

Definition io_size_bucket (bytes : Z) : Z :=
  let bytes := u32 bytes in
  if bytes <=? 4 * IO_SIZE_KIB then 0
  else
    let bucket := 0 +32 io_histogram_above bytes (4 * IO_SIZE_KIB) in
    let bucket := bucket +32 io_histogram_above bytes (16 * IO_SIZE_KIB) in
    let bucket := bucket +32 io_histogram_above bytes (64 * IO_SIZE_KIB) in
    let bucket := bucket +32 io_histogram_above bytes (256 * IO_SIZE_KIB) in
    let bucket := bucket +32 io_histogram_above bytes (1024 * IO_SIZE_KIB) in
    s32 bucket.

(** What the running kernel keeps in a bio: a packed stamp in [bi_issue], a full
    time in [issue_time_ns], or neither.  Failed reads leave zero. *)
Record stamp_kernel := StampKernel {
  bi_issue_exists : bool;
  bio_bi_issue : Z -> Z;
  issue_time_ns_exists : bool;
  bio_issue_time_ns : Z -> Z;
}.

Definition io_latency_bio_queue_ns (kr : stamp_kernel) (address now : Z) : Z :=
  if bi_issue_exists kr then
    let mask := (1 <<64 51) -64 1 in
    let stamp := Z.land (u64 (bio_bi_issue kr address)) mask in
    if stamp =? 0 then 0
    else
      let age := Z.land (now -64 stamp) mask in
      if age <=? now then now -64 age else 0
  else
    let stamp := if issue_time_ns_exists kr then u64 (bio_issue_time_ns kr address) else 0 in
    if stamp <=? now then stamp else 0.

(** ** The reference histogram *)

(** Number of thresholds a value exceeds. *)
Definition exceeded (thresholds : list Z) (v : Z) : Z :=
  Z.of_nat (length (List.filter (fun t => t <? v) thresholds)).

Definition latency_thresholds : list Z :=
  [50 * 1000; 100 * 1000; 250 * 1000; 500 * 1000;
   1000000; 2 * 1000000; 4 * 1000000; 8 * 1000000; 16 * 1000000; 32 * 1000000; 64 * 1000000;
   128 * 1000000; 256 * 1000000; 512 * 1000000; 1000000000; 2 * 1000000000].
Definition size_thresholds : list Z := [4 * 1024; 16 * 1024; 64 * 1024; 256 * 1024; 1024 * 1024].

Lemma exceeded_cons t ts v : exceeded (t :: ts) v = (if t <? v then 1 else 0) + exceeded ts v.
Proof. unfold exceeded. simpl. case_if; simpl length; lia. Qed.

Lemma exceeded_range ts v : 0 <= exceeded ts v <= Z.of_nat (length ts).
Proof.
  induction ts as [|t ts IH]; [done|]. rewrite exceeded_cons, length_cons. case_if; lia.
Qed.

Lemma exceeded_mono ts v w : v <= w -> exceeded ts v <= exceeded ts w.
Proof.
  intros H. induction ts as [|t ts IH]; [done|]. rewrite !exceeded_cons.
  destruct (Z.ltb_spec t v), (Z.ltb_spec t w); lia.
Qed.

Lemma io_histogram_above_spec v t :
  0 <= v < 2 ^ 64 -> 0 <= t < 2 ^ 63 -> io_histogram_above v t = if t <? v then 1 else 0.
Proof.
  intros Hv Ht. unfold io_histogram_above. rewrite Z.shiftr_lor, !Z.shiftr_div_pow2 by lia.
  assert (Hd : t -64 v = if t <? v then t - v + 2 ^ 64 else t - v).
  { destruct (Z.ltb_spec t v); [apply u64_sub_borrow|apply u64_sub_exact]; unfold is_u64; lia. }
  rewrite Hd. clear Hd. destruct (Z.lt_ge_cases v (2 ^ 63)) as [Hlo|Hhi].
  - rewrite (Z.div_small v) by lia. rewrite Z.lor_0_r. destruct (Z.ltb_spec t v).
    + by replace ((t - v + 2 ^ 64) / 2 ^ 63) with 1 by (apply Z.div_unique with (t - v + 2 ^ 63); lia).
    + by rewrite Z.div_small by lia.
  - replace (v / 2 ^ 63) with 1 by (apply Z.div_unique with (v - 2 ^ 63); lia).
    rewrite (proj2 (Z.ltb_lt t v)) by lia.
    destruct (Z.lt_ge_cases (t - v + 2 ^ 64) (2 ^ 63)).
    + by rewrite Z.div_small by lia.
    + by replace ((t - v + 2 ^ 64) / 2 ^ 63) with 1 by (apply Z.div_unique with (t - v + 2 ^ 63); lia).
Qed.

(** Replace every branch-free comparison by its meaning and drop the casts of
    the small sums. *)
Ltac histogram_eval :=
  rewrite !io_histogram_above_spec by (unfold IO_LATENCY_NS_PER_US, IO_LATENCY_NS_PER_MS,
    IO_LATENCY_NS_PER_SEC, IO_SIZE_KIB; lia);
  rewrite !exceeded_cons; change (exceeded [] ?v) with 0;
  unfold IO_LATENCY_NS_PER_US, IO_LATENCY_NS_PER_MS, IO_LATENCY_NS_PER_SEC, IO_SIZE_KIB.

(** Name each 0/1 comparison and remember its range. *)
Ltac name_tests :=
  repeat match goal with
  | |- context [if ?c then 1 else 0] =>
      let x := fresh "x" in
      set (x := if c then 1 else 0); assert (0 <= x <= 1) by (subst x; case_if; lia); clearbody x
  end.

(** Remove the 32-bit casts of small sums, innermost first. *)
Ltac drop_casts :=
  repeat match goal with
  | |- context [u32 (?a + ?b)] =>
      lazymatch a with context [u32] => fail | _ => rewrite (u32_small (a + b)) by (unfold is_u32; lia) end
  end.

(** The two classifications are the plain histograms. *)
Lemma io_latency_bucket_spec start_ns e queue_stage :
  is_u64 start_ns -> is_u64 e -> io_latency_bucket start_ns e queue_stage =
    (if (start_ns =? 0) || (e =? 0) then -1
     else if e <? start_ns then (if ctrue queue_stage then 0 else -1)
     else exceeded latency_thresholds (e - start_ns)).
Proof.
  intros Hs He. unfold io_latency_bucket. destruct (_ || _); [done|].
  destruct (Z.ltb_spec e start_ns); [done|]. rewrite u64_sub_exact by done.
  set (ns := e - start_ns). assert (0 <= ns < 2 ^ 64) by (unfold is_u64 in *; lia).
  unfold latency_thresholds. destruct (Z.leb_spec ns (50 * IO_LATENCY_NS_PER_US)) as [Hle|Hgt].
  - unfold IO_LATENCY_NS_PER_US in Hle. rewrite !exceeded_cons.
    repeat (rewrite (proj2 (Z.ltb_ge _ ns)) by lia). done.
  - unfold IO_LATENCY_NS_PER_US in Hgt. histogram_eval.
    rewrite (proj2 (Z.ltb_lt (50 * 1000) ns)) by lia. name_tests. drop_casts.
    unfold s32. rewrite u32_small by (unfold is_u32; lia).
    rewrite (proj2 (Z.ltb_lt _ (2 ^ 31))) by lia. lia.
Qed.

Lemma io_size_bucket_spec bytes :
  is_u32 bytes -> io_size_bucket bytes = exceeded size_thresholds bytes.
Proof.
  intros Hb. unfold io_size_bucket, size_thresholds. rewrite (u32_small bytes) by done.
  unfold is_u32 in Hb. destruct (Z.leb_spec bytes (4 * IO_SIZE_KIB)) as [Hle|Hgt].
  - unfold IO_SIZE_KIB in Hle. rewrite !exceeded_cons.
    repeat (rewrite (proj2 (Z.ltb_ge _ bytes)) by lia). done.
  - histogram_eval. name_tests. drop_casts.
    unfold s32. rewrite u32_small by (unfold is_u32; lia).
    rewrite (proj2 (Z.ltb_lt _ (2 ^ 31))) by lia. lia.
Qed.

Lemma io_latency_bucket_range start_ns end_ns queue_stage :
  is_u64 start_ns -> is_u64 end_ns ->
  - 1 <= io_latency_bucket start_ns end_ns queue_stage < IO_LATENCY_BUCKETS.
Proof.
  intros Hs He. rewrite io_latency_bucket_spec by done. unfold IO_LATENCY_BUCKETS.
  destruct (_ || _); [lia|]. destruct (_ <? _); [case_if; lia|].
  pose proof (exceeded_range latency_thresholds (end_ns - start_ns)) as H.
  change (Z.of_nat (length latency_thresholds)) with 16 in H. lia.
Qed.

Lemma io_size_bucket_u32 bytes : io_size_bucket bytes = io_size_bucket (u32 bytes).
Proof. unfold io_size_bucket. by rewrite u32_idemp. Qed.

Lemma io_size_bucket_range bytes : 0 <= io_size_bucket bytes < IO_SIZE_BUCKETS.
Proof.
  rewrite io_size_bucket_u32, io_size_bucket_spec by auto with bpf. unfold IO_SIZE_BUCKETS.
  pose proof (exceeded_range size_thresholds (u32 bytes)) as Hr.
  change (Z.of_nat (length size_thresholds)) with 5 in Hr. lia.
Qed.

(** A reconstructed time is a 64-bit value not after [now]. *)
Lemma io_latency_bio_queue_ns_range kr bio now :
  is_u64 now -> is_u64 (io_latency_bio_queue_ns kr bio now) /\ io_latency_bio_queue_ns kr bio now <= now.
Proof.
  intros Hn. unfold io_latency_bio_queue_ns. destruct (bi_issue_exists kr).
  - case_if; [unfold is_u64 in *; lia|]. case_if; [|unfold is_u64 in *; lia].
    split; [apply u64_range|]. zify_bools. change ((1 <<64 51) -64 1) with (2 ^ 51 - 1) in *.
    rewrite !land_mask in * by lia.
    pose proof (Z.mod_pos_bound (now -64 (u64 (bio_bi_issue kr bio) mod 2 ^ 51)) (2 ^ 51) ltac:(lia)).
    rewrite u64_small; unfold is_u64 in *; lia.
  - destruct (issue_time_ns_exists kr); case_if; zify_bools; unfold is_u64 in *; try lia.
    split; [apply u64_range|lia].
Qed.

(** ** Theorems *)

(** The branch-free latency classification is the plain histogram: missing
    timestamps give no bucket, reversed ones the first bucket in queue stages and
    none otherwise, and every other wait the number of bucket bounds it exceeds,
    a value in 0..16 that never decreases with the wait. *)
Theorem latency_bucket_is_histogram start_ns end_ns queue_stage :
  is_u64 start_ns -> is_u64 end_ns ->
  io_latency_bucket start_ns end_ns queue_stage =
    (if (start_ns =? 0) || (end_ns =? 0) then -1
     else if end_ns <? start_ns then (if ctrue queue_stage then 0 else -1)
     else exceeded latency_thresholds (end_ns - start_ns)) /\
  - 1 <= io_latency_bucket start_ns end_ns queue_stage < IO_LATENCY_BUCKETS /\
  (forall end2, is_u64 end2 -> start_ns <> 0 -> start_ns <= end_ns <= end2 -> end_ns <> 0 ->
     io_latency_bucket start_ns end_ns queue_stage <= io_latency_bucket start_ns end2 queue_stage).
Proof.
  intros Hs He. split; [by apply io_latency_bucket_spec|].
  split; [by apply io_latency_bucket_range|].
  intros e2 He2 Hnz Hle Hez. rewrite !io_latency_bucket_spec by done. unfold is_u64 in Hs.
  rewrite (proj2 (Z.eqb_neq start_ns 0)), (proj2 (Z.eqb_neq end_ns 0)),
    (proj2 (Z.eqb_neq e2 0)) by lia. simpl.
  rewrite !(proj2 (Z.ltb_ge _ start_ns)) by lia. apply exceeded_mono. lia.
Qed.

Lemma latency_bucket_is_histogram_witness : io_latency_bucket 1000 301000 0 = 3.
Proof.
  destruct (latency_bucket_is_histogram 1000 301000 0) as (H & _); [unfold is_u64; lia..|].
  rewrite H. reflexivity.
Defined.

(** The size classification of a 32-bit byte count is the plain histogram over
    4, 16, 64, 256 and 1024 KiB, a value in 0..5. *)
Lemma size_bucket_is_histogram bytes :
  is_u32 bytes ->
  io_size_bucket bytes = exceeded size_thresholds bytes /\
  0 <= io_size_bucket bytes < IO_SIZE_BUCKETS.
Proof.
  intros Hb. split; [by apply io_size_bucket_spec|apply io_size_bucket_range].
Qed.

(** The submission time survives its 51-bit packing: when a bio was queued at
    [t], at most 2^51 ns (26 days) before [now], and the low 51 bits of [t] are
    not zero, the reconstruction returns exactly [t], whatever the upper bits of
    the stamp word hold; it never returns a time after [now]. *)
Theorem queue_stamp_reconstructed kr bio now t hi :
  bi_issue_exists kr = true -> is_u64 now -> 0 <= t <= now -> now - t < 2 ^ 51 ->
  0 <= hi < 2 ^ 13 -> bio_bi_issue kr bio = Z.lor (Z.shiftl hi 51) (t mod 2 ^ 51) ->
  (t mod 2 ^ 51 <> 0 -> io_latency_bio_queue_ns kr bio now = t) /\
  io_latency_bio_queue_ns kr bio now <= now.
Proof.
  intros He Hn Ht Hage Hhi Hw. unfold io_latency_bio_queue_ns. rewrite He, Hw.
  change ((1 <<64 51) -64 1) with (2 ^ 51 - 1).
  pose proof (Z.mod_pos_bound t (2 ^ 51) ltac:(lia)) as Hm. unfold is_u64 in Hn.
  rewrite (u64_small (Z.lor _ _)) by (unfold is_u64; rewrite lor_shiftl_add; lia).
  rewrite pack_low by lia. set (s := t mod 2 ^ 51) in *.
  assert (Hs : (now -64 s) mod 2 ^ 51 = now - t).
  { assert (Hmod : u64 (now - s) mod 2 ^ 51 = (now - s) mod 2 ^ 51).
    { unfold u64. replace (2 ^ 64) with (2 ^ 51 * 2 ^ 13) by lia.
      rewrite Z.rem_mul_r by lia. rewrite (Z.mul_comm (2 ^ 51)), Z_mod_plus_full.
      by rewrite Z.mod_mod by lia. }
    rewrite Hmod. subst s. rewrite (Z.mod_eq t) by lia.
    replace (now - (t - 2 ^ 51 * (t / 2 ^ 51))) with (now - t + (t / 2 ^ 51) * 2 ^ 51) by lia.
    rewrite Z_mod_plus_full. apply Z.mod_small. lia. }
  rewrite !land_mask, Hs by lia. rewrite (proj2 (Z.leb_le (now - t) now)) by lia.
  rewrite (u64_small (now - (now - t))) by (unfold is_u64; lia).
  destruct (Z.eqb_spec s 0); split; intros; lia.
Qed.

Lemma queue_stamp_reconstructed_witness :
  io_latency_bio_queue_ns (StampKernel true (fun _ => Z.lor (Z.shiftl 5 51) 77) false (fun _ => 0))
    1 (2 ^ 51 + 100) = 2 ^ 51 + 77.
Proof.
  apply (queue_stamp_reconstructed _ 1 (2 ^ 51 + 100) (2 ^ 51 + 77) 5);
    [reflexivity|unfold is_u64; lia|lia|lia|lia|reflexivity|discriminate].
Defined.

End IoLatHist.
