(* ===== verification/IoLatency.v ===== *)
(** * IO latency tracer ([bpf/iolatency_tracing.c], [bpf/include/abi/iolatency_types.h])

    Queue, remap and completion hooks of the IO latency tracer, its CSS identity
    cache and its queue probe, as functions on the state of the four maps.  Every
    hook receives the running kernel's view of the block layer as a record of
    reads ([il_kernel]): a failed probe read leaves a zeroed destination, and the
    layout facts CO-RE resolves at load time are flags of that record.  A pointer
    into a map value ([completion.host]) is the key of the entry together with
    the element it points at; the assignment through it is [map_store]. *)

From Stdlib Require Import ZArith Lia.
From stdpp Require Import base option list gmap tactics countable.
From S2P Require Import Prelude BpfMap IoControl IoLatHist.

Local Open Scope Z_scope.
Local Open Scope bpf_scope.

Module IoLatency.
Export IoControl IoLatHist.

(** ** Constants *)

Definition IO_LATENCY_REQUEST_SCAN_BUDGET : Z := 512.
Definition IO_LATENCY_REQUEST_CHUNK_BIOS : Z := 32.
Definition IO_LATENCY_COMPLETION_CHUNK_COUNT : Z :=
  (IO_LATENCY_REQUEST_SCAN_BUDGET - 1 + IO_LATENCY_REQUEST_CHUNK_BIOS - 1)
    / IO_LATENCY_REQUEST_CHUNK_BIOS.

Definition IO_LATENCY_STAGE_Q2D : Z := 0.
Definition IO_LATENCY_STAGE_D2C : Z := 1.
Definition IO_LATENCY_STAGE_Q2G : Z := 2.

Definition IO_LATENCY_ROW_COUNTERS : Z := 0.
Definition IO_LATENCY_CSS_RELEASED : Z := 1.

Definition IO_LATENCY_CHAIN_OVERFLOW : Z := 1.
Definition IO_LATENCY_GROUP_INSERT_FAILED : Z := 3.
Definition IO_LATENCY_GROUP_RELEASE_FAILED : Z := 4.

Definition IO_LATENCY_PROBE_SKIPPED : Z := 1.
Definition IO_LATENCY_PROBE_SUPPORTED : Z := 2.
Definition IO_LATENCY_PROBE_DISABLED : Z := 3.

Definition IO_SIZE_POINT_QUEUE : Z := 0.
Definition IO_SIZE_POINT_ISSUE : Z := 1.

Definition REQ_OP_READ : Z := 0.
Definition REQ_OP_WRITE : Z := 1.
Definition REQ_OP_MASK : Z := (1 <<32 8) -32 1.

(** ** Map keys and values *)

Record iolatency_counters := Counters {
  buckets : gmap (Z * Z) Z;
  queued_size : gmap Z Z;
  issued_size : gmap Z Z;
}.

Definition zero_latency_counters : iolatency_counters := Counters ∅ ∅ ∅.

Record iolatency_host_counters := HostCounters {
  hc_major : Z;
  hc_minor : Z;
  hc_counters : gmap Z iolatency_counters;
  hc_scsi : Z;
}.

Record iolatency_container_key := ContainerKey {
  ck_blkcg : Z;
  ck_serial : Z;
  ck_major : Z;
  ck_minor : Z;
  ck_operation : Z;
  ck_kind : Z;
}.

Record iolatency_queue_probe_result := ProbeResult {
  pr_result : Z;
  pr_major : Z;
  pr_minor : Z;
  pr_disk : Z;
}.

Record io_latency_group_state := GroupState { serial : Z }.

#[export] Instance container_key_eq_dec : EqDecision iolatency_container_key.
Proof. solve_decision. Defined.
#[export] Instance container_key_countable : Countable iolatency_container_key.
Proof.
  refine (inj_countable'
    (fun k => (ck_blkcg k, ck_serial k, ck_major k, ck_minor k, ck_operation k, ck_kind k))
    (fun '(b, s, ma, mi, o, kd) => ContainerKey b s ma mi o kd) _).
  by intros [].
Defined.

(** ** What the hooks read *)

Record il_config := ILConfig {
  block_bio_queue_bio_arg : Z;
  block_bio_remap_bio_arg : Z;
  block_rq_remap_request_arg : Z;
  io_latency_bio_trace_completion : Z;
  io_latency_root_blkcg : Z;
}.

Record il_kernel := ILKernel {
  ik_stamp : stamp_kernel;
  ik_blk : blkio_kernel;
  bio_bi_size : Z -> Z;
  bio_bi_next : Z -> Z;
  bio_bi_opf : Z -> Z;
  bio_bi_flags : Z -> Z;
  bio_blkcg : Z -> Z;              (* bio->bi_blkg->blkcg *)
  blkcg_css_offset : Z;
  css_serial_nr : Z -> Z;
  opf_follows_device : bool;       (* bi_opf lies directly after the device pointer *)
  bi_partno_exists : bool;
  bio_bi_partno : Z -> Z;
  disk_part : Z -> Z -> Z;         (* disk->part_tbl->part[partno] *)
  part_devt : Z -> Z;
  bdev_bd_dev : Z -> Z;
  rq_disk_exists : bool;
  rq_rq_disk : Z -> Z;
  rq_q : Z -> Z;
  q_disk : Z -> Z;
  rq_cmd_flags : Z -> Z;
  rq_data_len : Z -> Z;
  rq_bio : Z -> Z;
  rq_biotail : Z -> Z;
  rq_start_time_ns : Z -> Z;
  rq_io_start_time_ns : Z -> Z;
  header_snapshot : bool;          (* cmd_flags .. biotail fit the one header read *)
  biotail_follows_bio : bool;
  stats_sectors_exists : bool;
  rq_stats_sectors : Z -> Z;
  aux_stats_sectors : Z -> Z;
}.

Section Model.
Context `{M : BpfMapOps}.

(** ** State *)

Record il_state := ILState {
  il_status : option io_control_status;
  io_latency_group_map : hmap Z io_latency_group_state;
  blkdisk_lat_map : hmap Z iolatency_host_counters;
  blkcg_lat_map : hmap iolatency_container_key iolatency_counters;
  io_latency_probe_result : hmap (list Z) iolatency_queue_probe_result;
}.

Definition set_il_status st s :=
  ILState s (io_latency_group_map st) (blkdisk_lat_map st) (blkcg_lat_map st)
    (io_latency_probe_result st).
Definition set_group_map st g :=
  ILState (il_status st) g (blkdisk_lat_map st) (blkcg_lat_map st) (io_latency_probe_result st).
Definition set_host_map st h :=
  ILState (il_status st) (io_latency_group_map st) h (blkcg_lat_map st)
    (io_latency_probe_result st).
Definition set_container_map st c :=
  ILState (il_status st) (io_latency_group_map st) (blkdisk_lat_map st) c
    (io_latency_probe_result st).
Definition set_probe_map st p :=
  ILState (il_status st) (io_latency_group_map st) (blkdisk_lat_map st) (blkcg_lat_map st) p.

(** ** Failure word *)

Definition io_latency_fail (reason error : Z) (st : il_state) : il_state :=
  if error =? - EBUSY then st else set_il_status st (status_fail reason error (il_status st)).

(** ** Counters *)

Definition fetch_add `{Countable K} (a : gmap K Z) (i : K) : gmap K Z :=
  <[i := default 0 (a !! i) +64 1]> a.

Definition increment_latency (c : iolatency_counters) (stage bucket : Z) : iolatency_counters :=
  if stage =? IO_LATENCY_STAGE_Q2D then
    Counters (fetch_add (buckets c) (IO_LATENCY_STAGE_Q2D, bucket)) (queued_size c) (issued_size c)
  else if stage =? IO_LATENCY_STAGE_D2C then
    Counters (fetch_add (buckets c) (IO_LATENCY_STAGE_D2C, bucket)) (queued_size c) (issued_size c)
  else if stage =? IO_LATENCY_STAGE_Q2G then
    Counters (fetch_add (buckets c) (IO_LATENCY_STAGE_Q2G, bucket)) (queued_size c) (issued_size c)
  else c.

Definition increment_io_size (c : iolatency_counters) (point bucket : Z) : iolatency_counters :=
  if point =? IO_SIZE_POINT_QUEUE then
    Counters (buckets c) (fetch_add (queued_size c) bucket) (issued_size c)
  else if point =? IO_SIZE_POINT_ISSUE then
    Counters (buckets c) (queued_size c) (fetch_add (issued_size c) bucket)
  else c.

(** [&counters->counters[operation]] of the host entry at [disk]. *)
Definition host_pointer : Type := Z * Z.

(** An update through a host pointer. *)
Definition host_apply (f : iolatency_counters -> iolatency_counters) (p : host_pointer)
    (st : il_state) : il_state :=
  match bpf_map_lookup_elem (blkdisk_lat_map st) (fst p) with
  | None => st
  | Some h =>
      set_host_map st (map_store (blkdisk_lat_map st) (fst p)
        (HostCounters (hc_major h) (hc_minor h)
           (arr_set (hc_counters h) (snd p)
              (f (arr_get zero_latency_counters (hc_counters h) (snd p))))
           (hc_scsi h)))
  end.

(** An update through the pointer to a container row. *)
Definition container_apply (f : iolatency_counters -> iolatency_counters)
    (key : iolatency_container_key) (st : il_state) : il_state :=
  match bpf_map_lookup_elem (blkcg_lat_map st) key with
  | None => st
  | Some c => set_container_map st (map_store (blkcg_lat_map st) key (f c))
  end.

Definition lookup_host_counters (disk : Z) (st : il_state) : option iolatency_host_counters :=
  bpf_map_lookup_elem (blkdisk_lat_map st) disk.

(** ** CSS identity *)

Definition io_latency_bio_css (cfg : il_config) (kr : il_kernel) (address : Z) : Z :=
  let blkcg := bio_blkcg kr address in
  if (blkcg =? 0) || (blkcg =? io_latency_root_blkcg cfg) then 0
  else blkcg +64 blkcg_css_offset kr.

Definition io_latency_css_serial (kr : il_kernel) (css : Z) (st : il_state) : Z * il_state :=
  let found st := match bpf_map_lookup_elem (io_latency_group_map st) css with
                  | Some group => serial group
                  | None => 0
                  end in
  match bpf_map_lookup_elem (io_latency_group_map st) css with
  | Some group => (serial group, st)
  | None =>
      let initial := GroupState (css_serial_nr kr css) in
      if serial initial =? 0 then (0, st)
      else
        let '(ret, m) := bpf_map_update_elem (io_latency_group_map st) css initial BPF_NOEXIST in
        let st := set_group_map st m in
        if ctrue ret && negb (ret =? - EEXIST)
        then (0, io_latency_fail IO_LATENCY_GROUP_INSERT_FAILED ret st)
        else (found st, st)
  end.

Definition io_latency_bio_identity (cfg : il_config) (kr : il_kernel) (bio : Z)
    (key : iolatency_container_key) (st : il_state) : iolatency_container_key * il_state :=
  let css := io_latency_bio_css cfg kr bio in
  if css =? 0 then (key, st)
  else
    let '(sn, st) := io_latency_css_serial kr css st in
    if ctrue sn
    then (ContainerKey css sn (ck_major key) (ck_minor key) (ck_operation key) (ck_kind key), st)
    else (key, st).

Definition io_latency_css_released (address : Z) (st : il_state) : il_state :=
  match bpf_map_lookup_elem (io_latency_group_map st) address with
  | None => st
  | Some group =>
      if serial group =? 0 then st
      else
        let key := ContainerKey address (serial group) 0 0 0 IO_LATENCY_CSS_RELEASED in
        let '(ret, m) := bpf_map_update_elem (blkcg_lat_map st) key zero_latency_counters
                           BPF_NOEXIST in
        let st := set_container_map st m in
        let st := if ctrue ret && negb (ret =? - EEXIST)
                  then io_latency_fail IO_LATENCY_GROUP_RELEASE_FAILED ret st else st in
        let '(ret, m) := bpf_map_delete_elem (io_latency_group_map st) address in
        let st := set_group_map st m in
        if ctrue ret && negb (ret =? - ENOENT)
        then io_latency_fail IO_LATENCY_GROUP_RELEASE_FAILED ret st else st
  end.

(** The key of the row when it can be accounted, as the pointer to it. *)
Definition lookup_container_counters (state : iolatency_container_key) (st : il_state)
    : option iolatency_container_key * il_state :=
  let key := ContainerKey (ck_blkcg state) (ck_serial state) (ck_major state) (ck_minor state)
               (ck_operation state) 0 in
  if (ck_blkcg state =? 0) || (ck_serial state =? 0) then (None, st)
  else
    match bpf_map_lookup_elem (blkcg_lat_map st) key with
    | Some _ => (Some key, st)
    | None =>
        let '(ret, m) := bpf_map_update_elem (blkcg_lat_map st) key zero_latency_counters
                           BPF_NOEXIST in
        let st := set_container_map st m in
        if ret =? - EBUSY then (None, st)
        else match bpf_map_lookup_elem (blkcg_lat_map st) key with
             | Some _ => (Some key, st)
             | None => (None, st)
             end
    end.

Definition account_io_latency (host : host_pointer) (stage start_ns end_ns : Z) (st : il_state)
    : Z * il_state :=
  let bucket := u64 (io_latency_bucket start_ns end_ns
                       (c_of_bool (negb (stage =? IO_LATENCY_STAGE_D2C)))) in
  if IO_LATENCY_BUCKETS <=? bucket then (-1, st)
  else (s32 bucket, host_apply (fun c => increment_latency c stage bucket) host st).

(** ** Queue and remap hooks *)

Definition io_latency_pointer_argument (args : Z -> Z) (index : Z) : Z :=
  if index =? 0 then args 0 else args 1.

Definition io_latency_request_disk (kr : il_kernel) (req : Z) : Z :=
  if rq_disk_exists kr then rq_rq_disk kr req else q_disk kr (rq_q kr req).

Definition queue_bio_latency (cfg : il_config) (kr : il_kernel) (bio disk operation : Z)
    (st : il_state) : il_state :=
  if negb (operation =? REQ_OP_READ) && negb (operation =? REQ_OP_WRITE) then st
  else
    match lookup_host_counters disk st with
    | None => st
    | Some counters =>
        let bytes := u32 (bio_bi_size kr bio) in
        if bytes =? 0 then st
        else
          let bucket := io_size_bucket bytes in
          let st := host_apply (fun c => increment_io_size c IO_SIZE_POINT_QUEUE bucket)
                      (disk, operation) st in
          let series := ContainerKey 0 0 (hc_major counters) (hc_minor counters)
                          (u32 operation) 0 in
          let '(series, st) := io_latency_bio_identity cfg kr bio series st in
          if ck_blkcg series =? 0 then st
          else
            let '(container, st) := lookup_container_counters series st in
            match container with
            | Some row =>
                container_apply (fun c => increment_io_size c IO_SIZE_POINT_QUEUE bucket) row st
            | None => st
            end
    end.

Definition queue_bio_on_disk cfg kr (bio disk : Z) (st : il_state) : il_state :=
  queue_bio_latency cfg kr bio disk (Z.land (u32 (bio_bi_opf kr bio)) REQ_OP_MASK) st.

Definition trace_bio_queue cfg kr (args : Z -> Z) (st : il_state) : il_state :=
  let bio := io_latency_pointer_argument args (block_bio_queue_bio_arg cfg) in
  if bio =? 0 then st
  else if opf_follows_device kr then
    let device := if bi_disk_exists (ik_blk kr) then bio_bi_disk (ik_blk kr) bio
                  else bio_bi_bdev (ik_blk kr) bio in
    let operation := u32 (bio_bi_opf kr bio) in
    let disk := if bi_disk_exists (ik_blk kr) then device
                else if ctrue device then bdev_bd_disk (ik_blk kr) device else 0 in
    if ctrue disk then queue_bio_latency cfg kr bio disk (Z.land operation REQ_OP_MASK) st else st
  else
    let disk := bio_disk (ik_blk kr) bio in
    if ctrue disk then queue_bio_on_disk cfg kr bio disk st else st.

Definition io_latency_remap_disk (kr : il_kernel) (bio from_dev : Z) : Z :=
  let from_dev := u32 from_dev in
  if bi_partno_exists kr then
    let disk := bio_bi_disk (ik_blk kr) bio in
    let partno := u8 (bio_bi_partno kr bio) in
    if ctrue partno && (ctrue from_dev && (from_dev =? u32 (part_devt kr (disk_part kr disk partno))))
    then 0 else disk
  else
    let bdev := bio_bi_bdev (ik_blk kr) bio in
    if ctrue from_dev && (from_dev =? u32 (bdev_bd_dev kr bdev)) then 0
    else bdev_bd_disk (ik_blk kr) bdev.

Definition trace_bio_remap cfg kr (args : Z -> Z) (st : il_state) : il_state :=
  let bio := io_latency_pointer_argument args (block_bio_remap_bio_arg cfg) in
  let from_dev := if ctrue (block_bio_remap_bio_arg cfg) then args 2 else args 1 in
  if ctrue bio &&
     ctrue (Z.land (bio_bi_flags kr bio) (1 <<32 io_latency_bio_trace_completion cfg)) then
    let disk := io_latency_remap_disk kr bio from_dev in
    if ctrue disk then queue_bio_on_disk cfg kr bio disk st else st
  else st.

(** The [for] loop of [queue_remapped_bios] with [n] iterations left. *)
Fixpoint queue_remapped_loop cfg kr (n : nat) (bio disk operation : Z) (st : il_state)
    : Z * il_state :=
  match n with
  | O => (bio, st)
  | S n =>
      if bio =? 0 then (bio, st)
      else queue_remapped_loop cfg kr n (bio_bi_next kr bio) disk operation
             (queue_bio_latency cfg kr bio disk operation st)
  end.

Definition queue_remapped_bios cfg kr (address disk_address operation : Z) (st : il_state)
    : Z * il_state :=
  queue_remapped_loop cfg kr (Z.to_nat IO_LATENCY_REQUEST_CHUNK_BIOS) address disk_address
    operation st.

(** The chunk loop of [trace_request_remap]. *)
Fixpoint remap_chunks cfg kr (n : nat) (bio disk operation : Z) (st : il_state) : Z * il_state :=
  match n with
  | O => (bio, st)
  | S n =>
      if bio =? 0 then (bio, st)
      else
        let '(bio, st) := queue_remapped_bios cfg kr bio disk operation st in
        remap_chunks cfg kr n bio disk operation st
  end.

Definition trace_request_remap cfg kr (args : Z -> Z) (st : il_state) : il_state :=
  let req := io_latency_pointer_argument args (block_rq_remap_request_arg cfg) in
  if req =? 0 then st
  else
    let disk := io_latency_request_disk kr req in
    match lookup_host_counters disk st with
    | None => st
    | Some _ =>
        let operation := Z.land (u32 (rq_cmd_flags kr req)) REQ_OP_MASK in
        if (negb (operation =? REQ_OP_READ) && negb (operation =? REQ_OP_WRITE)) ||
           (u32 (rq_data_len kr req) =? 0)
        then st
        else
          let '(bio, st) := remap_chunks cfg kr
            (Z.to_nat (IO_LATENCY_REQUEST_SCAN_BUDGET / IO_LATENCY_REQUEST_CHUNK_BIOS))
            (rq_bio kr req) disk operation st in
          if ctrue bio then io_latency_fail IO_LATENCY_CHAIN_OVERFLOW 0 st else st
    end.

(** ** Completion hook *)

Record request_completion := Completion {
  cp_disk : Z;
  cp_operation : Z;
  cp_host : host_pointer;
  cp_get_request_ns : Z;
  cp_issue_ns : Z;
  cp_now : Z;
  cp_d2c_bucket : Z;
}.

Definition account_completed_container cfg kr (address disk operation packed : Z) (st : il_state)
    : il_state :=
  let series := ContainerKey 0 0 (u32 (Z.shiftr disk 32)) (u32 disk) (u32 operation) 0 in
  let q2g := Z.land packed 255 in
  let q2d := Z.land (Z.shiftr packed 8) 255 in
  let d2c := Z.land (Z.shiftr packed 16) 255 in
  let size := Z.land (Z.shiftr packed 24) 255 in
  if packed =? 0xffffffff then st
  else
    let '(series, st) := io_latency_bio_identity cfg kr address series st in
    let '(counters, st) := lookup_container_counters series st in
    match counters with
    | None => st
    | Some row =>
        let st := if q2g <? IO_LATENCY_BUCKETS
                  then container_apply (fun c => increment_latency c IO_LATENCY_STAGE_Q2G q2g) row st
                  else st in
        let st := if q2d <? IO_LATENCY_BUCKETS
                  then container_apply (fun c => increment_latency c IO_LATENCY_STAGE_Q2D q2d) row st
                  else st in
        let st := if d2c <? IO_LATENCY_BUCKETS
                  then container_apply (fun c => increment_latency c IO_LATENCY_STAGE_D2C d2c) row st
                  else st in
        if size <? IO_SIZE_BUCKETS
        then container_apply (fun c => increment_io_size c IO_SIZE_POINT_ISSUE size) row st
        else st
    end.

(** The word [complete_bio_latency] passes: four bytes, 255 for no sample. *)
Definition pack_buckets (q2g q2d d2c size : Z) : Z :=
  Z.lor (Z.lor (Z.lor (u8 q2g) (u8 q2d <<64 8)) (u8 d2c <<64 16)) (u8 size <<64 24).

Definition complete_bio_latency cfg kr (bio : Z) (completion : request_completion)
    (issued_bytes : Z) (st : il_state) : il_state :=
  let d2c_bucket := u32 (cp_d2c_bucket completion) in
  let queue_ns := io_latency_bio_queue_ns (ik_stamp kr) bio (cp_now completion) in
  let '(size, st) :=
    if ctrue issued_bytes then
      let size := io_size_bucket issued_bytes in
      (size, host_apply (fun c => increment_io_size c IO_SIZE_POINT_ISSUE size)
               (cp_host completion) st)
    else (-1, st) in
  let '(d2c_bucket, st) :=
    if d2c_bucket <? IO_LATENCY_BUCKETS then
      (d2c_bucket, host_apply (fun c => increment_latency c IO_LATENCY_STAGE_D2C d2c_bucket)
                     (cp_host completion) st)
    else (255, st) in
  let '(q2g, q2d, st) :=
    if ctrue queue_ns then
      let '(q2g, st) := account_io_latency (cp_host completion) IO_LATENCY_STAGE_Q2G queue_ns
                          (cp_get_request_ns completion) st in
      let '(q2d, st) := account_io_latency (cp_host completion) IO_LATENCY_STAGE_Q2D queue_ns
                          (cp_issue_ns completion) st in
      (q2g, q2d, st)
    else (-1, -1, st) in
  account_completed_container cfg kr bio (cp_disk completion) (cp_operation completion)
    (pack_buckets q2g q2d d2c_bucket size) st.

Record bio_completion_cursor := Cursor {
  cur_bio : Z;
  cur_remaining : Z;
}.

(** The loop of [complete_bio_chunk] with [n] iterations left: the answer, the
    cursor and the state. *)
Fixpoint complete_bio_loop cfg kr (n : nat) (completion : request_completion)
    (old : bio_completion_cursor) (bio remaining : Z) (st : il_state)
    : bool * bio_completion_cursor * il_state :=
  match n with
  | O => (true, Cursor bio remaining, st)
  | S n =>
      if bio =? 0 then (true, Cursor bio remaining, st)
      else
        let bytes := u32 (bio_bi_size kr bio) in
        if remaining <? bytes then (false, old, st)
        else
          let st := complete_bio_latency cfg kr bio completion 0 st in
          let remaining := remaining -32 bytes in
          if remaining =? 0 then (false, old, st)
          else complete_bio_loop cfg kr n completion old (bio_bi_next kr bio) remaining st
  end.

Definition complete_bio_chunk cfg kr (completion : request_completion)
    (cursor : bio_completion_cursor) (limit : Z) (st : il_state)
    : bool * bio_completion_cursor * il_state :=
  complete_bio_loop cfg kr (Z.to_nat limit) completion cursor (cur_bio cursor)
    (cur_remaining cursor) st.

(** The chunk loop of [trace_request_complete] from index [i], with [n] chunks
    left: [None] when a chunk ended the walk. *)
Fixpoint complete_chunks cfg kr (n : nat) (i : Z) (completion : request_completion)
    (cursor : bio_completion_cursor) (st : il_state) : option bio_completion_cursor * il_state :=
  match n with
  | O => (Some cursor, st)
  | S n =>
      if cur_bio cursor =? 0 then (Some cursor, st)
      else
        let limit := if i =? IO_LATENCY_COMPLETION_CHUNK_COUNT - 1
                     then IO_LATENCY_REQUEST_SCAN_BUDGET - 1 -
                          (IO_LATENCY_COMPLETION_CHUNK_COUNT - 1) * IO_LATENCY_REQUEST_CHUNK_BIOS
                     else IO_LATENCY_REQUEST_CHUNK_BIOS in
        let '(go, cursor, st) := complete_bio_chunk cfg kr completion cursor limit st in
        if go then complete_chunks cfg kr n (i + 1) completion cursor st else (None, st)
  end.

(** Bytes issued by the request's last dispatch. *)
Definition request_issued_bytes kr (req remaining request_bytes issue_ns scsi : Z) : Z :=
  if (request_bytes <=? remaining) && ctrue issue_ns then
    if ctrue scsi then
      if stats_sectors_exists kr then u16 (rq_stats_sectors kr req) <<64 9
      else u16 (aux_stats_sectors kr req) <<64 9
    else remaining
  else 0.

(** From the first bio of the request to the end of the hook. *)
Definition complete_request_bios cfg kr (completion : request_completion)
    (bio tail remaining request_bytes issued_bytes : Z) (st : il_state) : il_state :=
  if (remaining =? request_bytes) && (bio =? tail)
  then complete_bio_latency cfg kr bio completion issued_bytes st
  else
    let bytes := u32 (bio_bi_size kr bio) in
    if remaining <? bytes then st
    else
      let st := complete_bio_latency cfg kr bio completion issued_bytes st in
      let remaining := remaining -32 bytes in
      if remaining =? 0 then st
      else
        let '(cursor, st) := complete_chunks cfg kr (Z.to_nat IO_LATENCY_COMPLETION_CHUNK_COUNT) 0
                               completion (Cursor (bio_bi_next kr bio) remaining) st in
        match cursor with
        | Some cursor =>
            if ctrue (cur_bio cursor) then io_latency_fail IO_LATENCY_CHAIN_OVERFLOW 0 st else st
        | None => st
        end.

(** [now] is what [bpf_ktime_get_ns] returns in this invocation. *)
Definition trace_request_complete cfg kr (args : Z -> Z) (now : Z) (st : il_state) : il_state :=
  let req := args 0 in
  if req =? 0 then st
  else
    let remaining := u32 (args 2) in
    if remaining =? 0 then st
    else
      let operation := Z.land (u32 (rq_cmd_flags kr req)) REQ_OP_MASK in
      if negb (operation =? REQ_OP_READ) && negb (operation =? REQ_OP_WRITE) then st
      else
        let disk := io_latency_request_disk kr req in
        if disk =? 0 then st
        else
          match lookup_host_counters disk st with
          | None => st
          | Some counters =>
              let head := rq_bio kr req in
              let tail := if header_snapshot kr || biotail_follows_bio kr
                          then rq_biotail kr req else 0 in
              if head =? 0 then st
              else
                let get_request_ns := u64 (rq_start_time_ns kr req) in
                let issue_ns := u64 (rq_io_start_time_ns kr req) in
                let now := u64 now in
                let completion := Completion
                  (Z.lor (hc_major counters <<64 32) (hc_minor counters))
                  operation (disk, operation) get_request_ns issue_ns now
                  (io_latency_bucket issue_ns now 0) in
                let request_bytes := u32 (rq_data_len kr req) in
                let issued_bytes := request_issued_bytes kr req remaining request_bytes issue_ns
                                      (hc_scsi counters) in
                complete_request_bios cfg kr completion head tail remaining request_bytes
                  issued_bytes st
          end.

(** ** Queue probe *)

(** Reads that report their error: the errno or the value. *)
Record probe_kernel := ProbeKernel {
  attr_name : Z -> Z + Z;
  kobj_parent : Z -> Z + Z;
  kobj_name : Z -> Z + Z;
  bpf_probe_read_str : Z -> Z -> Z * list Z;   (* size, address: result, zero-padded buffer *)
  device_kobj_offset : Z;
  bd_device_exists : bool;
  bd_device_offset : Z;
  probe_bd_disk : Z -> Z;                       (* zero on failure *)
  part0_dev_offset : Z;
  disk_queue : Z -> Z + Z;
  queue_mq_ops : Z -> Z + Z;
  queue_stats : Z -> Z + Z;
  stats_callbacks_next : Z -> Z + Z;
  stats_callbacks_offset : Z;
  accounting_exists : bool;
  stats_accounting : Z -> Z + Z;
  stats_enable_accounting : Z -> Z + Z;
  disk_major : Z -> Z + Z;
  disk_first_minor : Z -> Z + Z;
}.

Definition io_latency_device_disk (pk : probe_kernel) (device : Z) : Z :=
  if bd_device_exists pk then probe_bd_disk pk (device -64 bd_device_offset pk)
  else device -64 part0_dev_offset pk.

(** [goto failed] with the errno. *)
Definition or_failed (r : Z + Z) (k : Z -> iolatency_queue_probe_result)
    : iolatency_queue_probe_result :=
  match r with inl err => ProbeResult err 0 0 0 | inr v => k v end.

Definition nvme_name (name : list Z) : bool :=
  (nth 0 name 0 =? 110) && (nth 1 name 0 =? 118) && (nth 2 name 0 =? 109) && (nth 3 name 0 =? 101).

(** The probe from the disk lookup to the value it publishes. *)
Definition probe_queue_result (pk : probe_kernel) (name : list Z) (parent : Z)
    : iolatency_queue_probe_result :=
  let disk := io_latency_device_disk pk (parent -64 device_kobj_offset pk) in
  if disk =? 0 then ProbeResult (- EFAULT) 0 0 0
  else
    or_failed (disk_queue pk disk) (fun q =>
    let rest :=
      or_failed (queue_stats pk q) (fun stats =>
      or_failed (stats_callbacks_next pk stats) (fun next =>
      or_failed (if accounting_exists pk then stats_accounting pk stats
                 else stats_enable_accounting pk stats) (fun accounting =>
      let enabled := ctrue accounting in
      or_failed (disk_major pk disk) (fun major =>
      or_failed (disk_first_minor pk disk) (fun minor =>
      if negb enabled && (next =? stats +64 stats_callbacks_offset pk)
      then ProbeResult IO_LATENCY_PROBE_DISABLED (u32 major) (u32 minor) disk
      else ProbeResult IO_LATENCY_PROBE_SUPPORTED (u32 major) (u32 minor) disk))))) in
    if nvme_name name then
      or_failed (queue_mq_ops pk q) (fun mq_ops =>
      if mq_ops =? 0 then ProbeResult IO_LATENCY_PROBE_SKIPPED 0 0 0 else rest)
    else rest).

(** "iostats" and its terminator. *)
Definition iostats_attribute (r : Z * list Z) : bool :=
  let c i := nth i (snd r) 0 in
  (fst r =? 8) && (c 0%nat =? 105) && (c 1%nat =? 111) && (c 2%nat =? 115) && (c 3%nat =? 116) &&
  (c 4%nat =? 97) && (c 5%nat =? 116) && (c 6%nat =? 115) && (c 7%nat =? 0).

Definition probe_queue_stats (pk : probe_kernel) (kobj attr : Z) (st : il_state) : il_state :=
  match attr_name pk attr with
  | inl _ => st
  | inr name =>
      if negb (iostats_attribute (bpf_probe_read_str pk 9 name)) then st
      else
        match kobj_parent pk kobj with
        | inl _ => st
        | inr parent =>
            match kobj_name pk parent with
            | inl _ => st
            | inr disk_name =>
                let '(ret, key) := bpf_probe_read_str pk 32 disk_name in
                if ret <? 0 then st
                else
                  match bpf_map_lookup_elem (io_latency_probe_result st) key with
                  | None => st
                  | Some _ =>
                      set_probe_map st
                        (snd (bpf_map_update_elem (io_latency_probe_result st) key
                                (probe_queue_result pk key parent) BPF_EXIST))
                  end
            end
        end
  end.

(** ** Runs *)

(** The hooks of the program, each with what it reads. *)
Inductive il_event :=
| EvBioQueue (kr : il_kernel) (args : Z -> Z)
| EvBioRemap (kr : il_kernel) (args : Z -> Z)
| EvRequestRemap (kr : il_kernel) (args : Z -> Z)
| EvRequestComplete (kr : il_kernel) (args : Z -> Z) (now : Z)
| EvCssReleased (css : Z)
| EvQueueProbe (pk : probe_kernel) (kobj attr : Z)
| EvDevice (disk_name : Z -> option (list Z)) (e : device_event).

Definition il_step (cfg : il_config) (e : il_event) (st : il_state) : il_state :=
  match e with
  | EvBioQueue kr args => trace_bio_queue cfg kr args st
  | EvBioRemap kr args => trace_bio_remap cfg kr args st
  | EvRequestRemap kr args => trace_request_remap cfg kr args st
  | EvRequestComplete kr args now => trace_request_complete cfg kr args now st
  | EvCssReleased css => io_latency_css_released css st
  | EvQueueProbe pk kobj attr => probe_queue_stats pk kobj attr st
  | EvDevice names e => set_il_status st (device_hook names e (il_status st))
  end.

Definition il_run (cfg : il_config) (events : list il_event) (st : il_state) : il_state :=
  fold_left (fun st e => il_step cfg e st) events st.

End Model.
End IoLatency.
