(* ===== verification/IoLatLedger.v ===== *)
(** * IO latency tracer: the ledger

    What the host and container histograms of [IoLatency] hold after any run:
    the number of samples of a reference that walks each bio chain flatly, bio by
    bio, without chunks, fast paths or map state; the container rows count a
    sub-collection of the host samples, tagged with the owning group. *)

From Stdlib Require Import ZArith Lia.
From stdpp Require Import base option list gmap tactics countable.
From S2P Require Import Prelude BpfMap IoControl IoLatHist IoLatency.

Local Open Scope Z_scope.
Local Open Scope bpf_scope.

Module IoLatLedger.
Export IoLatency.

(** ** Cells of a counter row *)

Inductive cell :=
| CLat (stage bucket : Z)
| CQueued (bucket : Z)
| CIssued (bucket : Z).

#[export] Instance cell_eq_dec : EqDecision cell.
Proof. solve_decision. Defined.

(** A read of the 64-bit counter. *)
Definition cell_get (c : iolatency_counters) (x : cell) : Z :=
  u64 match x with
      | CLat stage bucket => default 0 (buckets c !! (stage, bucket))
      | CQueued bucket => default 0 (queued_size c !! bucket)
      | CIssued bucket => default 0 (issued_size c !! bucket)
      end.

(** [f] adds one to the cell [x] and leaves the others. *)
Definition adds (x : cell) (f : iolatency_counters -> iolatency_counters) : Prop :=
  forall c y, cell_get (f c) y = cell_get c y +64 (if decide (x = y) then 1 else 0).

Lemma cell_get_range c x : is_u64 (cell_get c x).
Proof. apply u64_range. Qed.

Lemma cell_get_zero x : cell_get zero_latency_counters x = 0.
Proof. by destruct x. Qed.

Lemma fetch_add_lookup `{Countable K} (a : gmap K Z) i j :
  u64 (default 0 (fetch_add a i !! j)) =
  u64 (default 0 (a !! j)) +64 (if decide (i = j) then 1 else 0).
Proof.
  unfold fetch_add. destruct (decide (i = j)) as [<-|Hne].
  - rewrite lookup_insert_eq. simpl. by rewrite u64_idemp, u64_add_idemp_l.
  - rewrite lookup_insert_ne by done. by rewrite Z.add_0_r, u64_idemp.
Qed.

Lemma u64_cell_add_0 c x : cell_get c x +64 0 = cell_get c x.
Proof. rewrite Z.add_0_r. apply u64_small, cell_get_range. Qed.

(** The cell of a latency stage of the enumeration. *)
Definition is_stage (s : Z) : Prop :=
  s = IO_LATENCY_STAGE_Q2D \/ s = IO_LATENCY_STAGE_D2C \/ s = IO_LATENCY_STAGE_Q2G.

Ltac other_cell := rewrite decide_False by congruence; rewrite u64_cell_add_0; reflexivity.

Lemma increment_latency_adds stage bucket :
  is_stage stage -> adds (CLat stage bucket) (fun c => increment_latency c stage bucket).
Proof.
  intros Hs c y.
  replace (increment_latency c stage bucket) with
    (Counters (fetch_add (buckets c) (stage, bucket)) (queued_size c) (issued_size c))
    by by destruct Hs as [-> | [-> | ->]].
  destruct y; [|other_cell..]. unfold cell_get. simpl. rewrite fetch_add_lookup.
  f_equal. f_equal. repeat case_decide; congruence.
Qed.

Lemma increment_queue_adds bucket :
  adds (CQueued bucket) (fun c => increment_io_size c IO_SIZE_POINT_QUEUE bucket).
Proof.
  intros c y. destruct y; try other_cell. unfold cell_get. simpl. rewrite fetch_add_lookup.
  f_equal. f_equal. repeat case_decide; congruence.
Qed.

Lemma increment_issue_adds bucket :
  adds (CIssued bucket) (fun c => increment_io_size c IO_SIZE_POINT_ISSUE bucket).
Proof.
  intros c y. destruct y; try other_cell. unfold cell_get. simpl. rewrite fetch_add_lookup.
  f_equal. f_equal. repeat case_decide; congruence.
Qed.

Create HintDb iolat.
#[local] Hint Resolve increment_queue_adds increment_issue_adds : iolat.
#[local] Hint Extern 2 (adds _ _) => apply increment_latency_adds; unfold is_stage; tauto : iolat.

(** ** Logs *)

(** A host sample names a disk, an operation and a cell; a container sample a
    row and a cell. *)
Definition host_sample : Type := Z * Z * cell.
Definition cont_sample : Type := iolatency_container_key * cell.

Definition occurs `{EqDecision A} (x : A) (l : list A) : Z :=
  Z.of_nat (length (filter (fun y => y = x) l)).

Lemma occurs_app `{EqDecision A} (x : A) l1 l2 : occurs x (l1 ++ l2) = occurs x l1 + occurs x l2.
Proof. unfold occurs. rewrite list.filter_app, length_app. lia. Qed.

Lemma occurs_cons `{EqDecision A} (x y : A) l :
  occurs x (y :: l) = (if decide (y = x) then 1 else 0) + occurs x l.
Proof. unfold occurs. rewrite filter_cons. case_decide; simpl length; lia. Qed.

Lemma occurs_perm `{EqDecision A} (x : A) l1 l2 : l1 ≡ₚ l2 -> occurs x l1 = occurs x l2.
Proof. intros H. unfold occurs. by rewrite H. Qed.

Section Logs.
Context {M : BpfMapOps} {L : BpfMapLaws M}.
Implicit Types st : il_state.

Definition host_cell st (disk op : Z) (x : cell) : Z :=
  match bpf_map_lookup_elem (blkdisk_lat_map st) disk with
  | Some h => cell_get (arr_get zero_latency_counters (hc_counters h) op) x
  | None => 0
  end.

Definition cont_cell st (key : iolatency_container_key) (x : cell) : Z :=
  match bpf_map_lookup_elem (blkcg_lat_map st) key with
  | Some c => cell_get c x
  | None => 0
  end.

(** The enrolled disk's identity. *)
Definition host_identity st (disk : Z) : option (Z * Z * Z) :=
  (fun h => (hc_major h, hc_minor h, hc_scsi h)) <$>
    bpf_map_lookup_elem (blkdisk_lat_map st) disk.

(** From [st] to [st'], exactly the samples [hl] were added to the host map and
    [cl] to the container map, and no disk was enrolled, dropped or renamed. *)
Record logs st (hl : list host_sample) (cl : list cont_sample) st' : Prop := Logs {
  logs_identity disk : host_identity st' disk = host_identity st disk;
  logs_host disk op x : host_cell st' disk op x = host_cell st disk op x +64 occurs (disk, op, x) hl;
  logs_cont key x : cont_cell st' key x = cont_cell st key x +64 occurs (key, x) cl;
}.

Lemma host_cell_range st disk op x : is_u64 (host_cell st disk op x).
Proof. unfold host_cell. case_match; [apply cell_get_range|]. unfold is_u64. lia. Qed.
Lemma cont_cell_range st key x : is_u64 (cont_cell st key x).
Proof. unfold cont_cell. case_match; [apply cell_get_range|]. unfold is_u64. lia. Qed.

Lemma logs_refl st st' :
  blkdisk_lat_map st' = blkdisk_lat_map st ->
  (forall key x, cont_cell st' key x = cont_cell st key x) ->
  logs st [] [] st'.
Proof.
  intros Hh Hc. split.
  - intros. unfold host_identity. by rewrite Hh.
  - intros. unfold occurs. simpl. rewrite Z.add_0_r, u64_small by apply host_cell_range.
    unfold host_cell. by rewrite Hh.
  - intros. unfold occurs. simpl. rewrite Z.add_0_r, u64_small by apply cont_cell_range. done.
Qed.

Lemma logs_trans st st1 st2 h1 h2 c1 c2 :
  logs st h1 c1 st1 -> logs st1 h2 c2 st2 -> logs st (h1 ++ h2) (c1 ++ c2) st2.
Proof.
  intros [I1 H1 C1] [I2 H2 C2]. split; intros.
  - by rewrite I2.
  - rewrite H2, H1, u64_add_idemp_l, occurs_app. f_equal. lia.
  - rewrite C2, C1, u64_add_idemp_l, occurs_app. f_equal. lia.
Qed.

Lemma logs_perm st h c1 c2 st' : c1 ≡ₚ c2 -> logs st h c1 st' -> logs st h c2 st'.
Proof.
  intros Hp [I1 H1 C1]. split; [done..|]. intros. rewrite C1. by rewrite (occurs_perm _ c1 c2).
Qed.

Definition enrolled st (disk : Z) : Prop := is_Some (host_identity st disk).

Lemma enrolled_lookup st disk :
  enrolled st disk <-> is_Some (bpf_map_lookup_elem (blkdisk_lat_map st) disk).
Proof. unfold enrolled, host_identity. by rewrite fmap_is_Some. Qed.

Lemma logs_enrolled st h c st' disk : logs st h c st' -> enrolled st disk -> enrolled st' disk.
Proof. intros Hl. unfold enrolled. by rewrite (logs_identity _ _ _ _ Hl). Qed.

(** ** Steps *)

Lemma host_apply_logs st disk op x f :
  enrolled st disk -> adds x f -> logs st [(disk, op, x)] [] (host_apply f (disk, op) st).
Proof.
  intros He%enrolled_lookup Hf. destruct He as [h Hh]. unfold host_apply. simpl. rewrite Hh.
  split; simpl.
  - intros d. unfold host_identity. simpl. rewrite store_lookup by by rewrite Hh.
    case_decide; subst; by rewrite ?Hh.
  - intros d o y. unfold host_cell. simpl. rewrite store_lookup by by rewrite Hh.
    rewrite occurs_cons, Z.add_0_r. destruct (decide (disk = d)) as [<-|].
    + rewrite Hh. simpl. rewrite arr_get_set. destruct (decide (op = o)) as [<-|].
      * rewrite Hf. f_equal. f_equal. repeat case_decide; congruence.
      * rewrite decide_False by congruence. by rewrite u64_cell_add_0.
    + rewrite decide_False by congruence. rewrite Z.add_0_r.
      destruct (bpf_map_lookup_elem _ d); [symmetry; apply u64_small, cell_get_range|done].
  - intros k y. unfold occurs. simpl. rewrite Z.add_0_r. symmetry. apply u64_small, cont_cell_range.
Qed.

Lemma container_apply_logs st key x f :
  is_Some (bpf_map_lookup_elem (blkcg_lat_map st) key) -> adds x f ->
  logs st [] [(key, x)] (container_apply f key st).
Proof.
  intros [c Hc] Hf. unfold container_apply. rewrite Hc. split; simpl; [done|..].
  - intros. unfold occurs. simpl. rewrite Z.add_0_r. symmetry. apply u64_small, host_cell_range.
  - intros k y. unfold cont_cell. simpl. rewrite store_lookup by by rewrite Hc.
    rewrite occurs_cons, Z.add_0_r. destruct (decide (key = k)) as [<-|].
    + rewrite Hf, Hc. f_equal. f_equal. repeat case_decide; congruence.
    + rewrite decide_False by congruence. rewrite Z.add_0_r.
      destruct (bpf_map_lookup_elem _ k); [symmetry; apply u64_small, cell_get_range|done].
Qed.

Lemma container_apply_row st key f k :
  is_Some (bpf_map_lookup_elem (blkcg_lat_map st) k) ->
  is_Some (bpf_map_lookup_elem (blkcg_lat_map (container_apply f key st)) k).
Proof.
  intros Hk. unfold container_apply. destruct (bpf_map_lookup_elem _ key) eqn:E; [|done].
  simpl. rewrite store_lookup by by rewrite E. case_decide; [by eauto|done].
Qed.

Lemma io_latency_fail_logs reason err st : logs st [] [] (io_latency_fail reason err st).
Proof. unfold io_latency_fail. case_match; by apply logs_refl. Qed.

(** Inserting a zero row changes no cell. *)
Lemma cont_cell_insert st key x k :
  cont_cell (set_container_map st (snd (bpf_map_update_elem (blkcg_lat_map st) key
     zero_latency_counters BPF_NOEXIST))) k x = cont_cell st k x.
Proof.
  unfold cont_cell. simpl.
  destruct (Z.eq_dec (fst (bpf_map_update_elem (blkcg_lat_map st) key zero_latency_counters
    BPF_NOEXIST)) 0) as [E|E].
  - destruct (bm_noexist_ok _ _ _ E) as [Hn Hk]. rewrite Hk. case_decide; subst; [|done].
    by rewrite Hn, cell_get_zero.
  - by rewrite update_err.
Qed.

Lemma insert_row_logs st key :
  logs st [] [] (set_container_map st (snd (bpf_map_update_elem (blkcg_lat_map st) key
     zero_latency_counters BPF_NOEXIST))).
Proof. apply logs_refl; [done|]. intros. apply cont_cell_insert. Qed.

Lemma io_latency_css_serial_logs kr css st :
  logs st [] [] (snd (io_latency_css_serial kr css st)).
Proof.
  unfold io_latency_css_serial. destruct (bpf_map_lookup_elem _ css); [by apply logs_refl|].
  simpl. case_if; [by apply logs_refl|]. destruct (bpf_map_update_elem _ _ _ _) as [ret m].
  case_if; simpl; [|by apply logs_refl].
  apply (logs_trans _ (set_group_map st m) _ [] [] [] []); [by apply logs_refl|].
  apply io_latency_fail_logs.
Qed.

Lemma io_latency_bio_identity_logs cfg kr bio key st :
  logs st [] [] (snd (io_latency_bio_identity cfg kr bio key st)).
Proof.
  unfold io_latency_bio_identity. case_if; [by apply logs_refl|].
  pose proof (io_latency_css_serial_logs kr (io_latency_bio_css cfg kr bio) st) as H.
  destruct (io_latency_css_serial _ _ _) as [sn st']. by case_if.
Qed.

Lemma lookup_container_counters_logs state st :
  logs st [] [] (snd (lookup_container_counters state st)).
Proof.
  unfold lookup_container_counters. case_if; [by apply logs_refl|].
  case_match; [by apply logs_refl|].
  pose proof (insert_row_logs st (ContainerKey (ck_blkcg state) (ck_serial state) (ck_major state)
     (ck_minor state) (ck_operation state) 0)) as Hl.
  destruct (bpf_map_update_elem _ _ _ _) as [ret m]. simpl in *. case_if; [done|]. by case_match.
Qed.

(** The row a lookup returns exists, is a counter row of the series and has a
    non-zero group and serial. *)
Lemma lookup_container_counters_row state st row st' :
  lookup_container_counters state st = (Some row, st') ->
  is_Some (bpf_map_lookup_elem (blkcg_lat_map st') row) /\
  row = ContainerKey (ck_blkcg state) (ck_serial state) (ck_major state) (ck_minor state)
          (ck_operation state) IO_LATENCY_ROW_COUNTERS /\
  ck_blkcg state <> 0 /\ ck_serial state <> 0.
Proof.
  unfold lookup_container_counters. case_if; [done|]. zify_bools.
  destruct (bpf_map_lookup_elem (blkcg_lat_map st) _) eqn:E1.
  - intros. simplify_eq. rewrite E1. eauto.
  - destruct (bpf_map_update_elem _ _ _ _) as [ret m]. case_if; [done|].
    case_match eqn:E2; [|done]. intros. simplify_eq. rewrite E2. eauto.
Qed.


(** ** One bio *)

(** The owner a container sample may name: a counter row of the bio's group on
    the disk of the host row. *)
Definition owner_ok cfg (kr : il_kernel) (bio : Z) (major minor op : Z)
    (owner : option iolatency_container_key) : Prop :=
  match owner with
  | None => True
  | Some key =>
      ck_blkcg key = io_latency_bio_css cfg kr bio /\ ck_blkcg key <> 0 /\ ck_serial key <> 0 /\
      ck_major key = major /\ ck_minor key = minor /\ ck_operation key = u32 op /\
      ck_kind key = IO_LATENCY_ROW_COUNTERS
  end.

(** The container samples of a bio: every cell, if the bio has an owner. *)
Definition owned (owner : option iolatency_container_key) (cells : list cell) : list cont_sample :=
  match owner with None => [] | Some key => (fun x => (key, x)) <$> cells end.

Lemma owned_app owner l1 l2 : owned owner (l1 ++ l2) = owned owner l1 ++ owned owner l2.
Proof. destruct owner; [apply fmap_app|done]. Qed.

Lemma owned_perm owner l1 l2 : l1 ≡ₚ l2 -> owned owner l1 ≡ₚ owned owner l2.
Proof. intros H. destruct owner; [by apply fmap_Permutation|done]. Qed.

(** The group of the bio is in the identity cache and [row], its row for the
    series, exists. *)
Definition cached cfg (kr : il_kernel) (bio major minor op : Z) st
    (row : iolatency_container_key) : Prop :=
  let css := io_latency_bio_css cfg kr bio in
  css <> 0 /\
  exists g, bpf_map_lookup_elem (io_latency_group_map st) css = Some g /\ serial g <> 0 /\
    row = ContainerKey css (serial g) major minor (u32 op) IO_LATENCY_ROW_COUNTERS /\
    is_Some (bpf_map_lookup_elem (blkcg_lat_map st) row).

(** A cached bio is not lost. *)
Definition attributed cfg kr bio major minor op st (cells : list cell)
    (owner : option iolatency_container_key) : Prop :=
  forall row, cached cfg kr bio major minor op st row -> cells <> [] -> owner = Some row.

(** Only the host map changed. *)
Definition host_only st st' : Prop :=
  io_latency_group_map st' = io_latency_group_map st /\ blkcg_lat_map st' = blkcg_lat_map st.

Lemma cached_host_only cfg kr bio major minor op st st' row :
  host_only st st' -> cached cfg kr bio major minor op st row ->
  cached cfg kr bio major minor op st' row.
Proof. intros [Hg Hc]. unfold cached. by rewrite Hg, Hc. Qed.

Lemma attributed_host_only cfg kr bio major minor op st st' cells owner :
  host_only st st' -> attributed cfg kr bio major minor op st' cells owner ->
  attributed cfg kr bio major minor op st cells owner.
Proof. intros Hh Ha row Hc. apply Ha. by eapply cached_host_only. Qed.

Lemma attributed_nil cfg kr bio major minor op st owner :
  attributed cfg kr bio major minor op st [] owner.
Proof. intros row _ H. done. Qed.

Lemma attributed_perm cfg kr bio major minor op st l1 l2 owner :
  l1 ≡ₚ l2 -> attributed cfg kr bio major minor op st l1 owner ->
  attributed cfg kr bio major minor op st l2 owner.
Proof.
  intros Hp Ha row Hc Hn. apply (Ha row Hc). intros ->. by apply Permutation_nil_l in Hp.
Qed.

(** Host-only logs. *)
Definition hlogs st (hl : list host_sample) st' : Prop := logs st hl [] st' /\ host_only st st'.

Lemma hlogs_refl st : hlogs st [] st.
Proof. split; [by apply logs_refl|done]. Qed.

Lemma hlogs_trans st st1 st2 h1 h2 :
  hlogs st h1 st1 -> hlogs st1 h2 st2 -> hlogs st (h1 ++ h2) st2.
Proof.
  intros [L1 [G1 C1]] [L2 [G2 C2]]. split; [exact (logs_trans _ _ _ _ _ [] [] L1 L2)|].
  split; congruence.
Qed.

Lemma hlogs_enrolled st h st' disk : hlogs st h st' -> enrolled st disk -> enrolled st' disk.
Proof. intros [Hl _]. by eapply logs_enrolled. Qed.

Lemma host_apply_hlogs st disk op x f :
  enrolled st disk -> adds x f -> hlogs st [(disk, op, x)] (host_apply f (disk, op) st).
Proof.
  intros. split; [by apply host_apply_logs|]. unfold host_apply. by case_match.
Qed.

(** A cached bio keeps its identity and its row, and nothing changes on the way. *)
Lemma cached_identity cfg kr bio major minor op st row :
  cached cfg kr bio major minor op st row ->
  io_latency_bio_identity cfg kr bio (ContainerKey 0 0 major minor (u32 op) 0) st = (row, st) /\
  lookup_container_counters row st = (Some row, st).
Proof.
  intros (Hcss & g & Hg & Hs & -> & Hr). split.
  - unfold io_latency_bio_identity. rewrite (proj2 (Z.eqb_neq _ 0)) by done.
    unfold io_latency_css_serial. rewrite Hg. unfold ctrue. by rewrite (proj2 (Z.eqb_neq _ 0)).
  - unfold lookup_container_counters. cbn [ck_blkcg ck_serial ck_major ck_minor ck_operation].
    rewrite !(proj2 (Z.eqb_neq _ 0)) by done. cbn [orb]. destruct Hr as [c Hc].
    change IO_LATENCY_ROW_COUNTERS with 0 in *. by rewrite Hc.
Qed.

(** The identity a bio gives to a series that has none: its group or nothing. *)
Lemma io_latency_bio_identity_key cfg kr bio major minor op st :
  let key := ContainerKey 0 0 major minor op 0 in
  let r := fst (io_latency_bio_identity cfg kr bio key st) in
  r = key \/
  (exists sn, r = ContainerKey (io_latency_bio_css cfg kr bio) sn major minor op 0).
Proof.
  intros key. unfold io_latency_bio_identity. case_if; [by left|].
  destruct (io_latency_css_serial _ _ _) as [sn st']. case_if; [right; by eexists|by left].
Qed.

(** The container half of both hooks: identify the bio, find its row, and add the
    cells to it. *)
Lemma identity_row_logs cfg kr bio major minor op st cells (add : iolatency_container_key -> il_state -> il_state) :
  (forall row st1, is_Some (bpf_map_lookup_elem (blkcg_lat_map st1) row) ->
     logs st1 [] (owned (Some row) cells) (add row st1)) ->
  let '(series, st1) := io_latency_bio_identity cfg kr bio
                          (ContainerKey 0 0 major minor (u32 op) 0) st in
  let '(row, st2) := lookup_container_counters series st1 in
  exists owner, owner_ok cfg kr bio major minor op owner /\
    attributed cfg kr bio major minor op st cells owner /\
    logs st [] (owned owner cells) (match row with Some k => add k st2 | None => st2 end).
Proof.
  intros Hadd. pose proof (io_latency_bio_identity_key cfg kr bio major minor (u32 op) st) as Hk.
  cbv zeta in Hk.
  pose proof (io_latency_bio_identity_logs cfg kr bio (ContainerKey 0 0 major minor (u32 op) 0) st)
    as H1.
  pose proof (fun row => cached_identity cfg kr bio major minor op st row) as Hcached.
  destruct (io_latency_bio_identity _ _ _ _ _) as [series st1]. simpl in *.
  pose proof (lookup_container_counters_logs series st1) as H2.
  destruct (lookup_container_counters series st1) as [[row|] st2] eqn:E; simpl in H2.
  - assert (Hat : attributed cfg kr bio major minor op st cells (Some row)).
    { intros row' Hc. destruct (Hcached row' Hc) as [[= -> ->] E']. congruence. }
    apply lookup_container_counters_row in E as (Hrow & -> & Hb & Hs).
    eexists (Some _). split; [|split; [exact Hat|]].
    + destruct Hk as [-> | [sn ->]]; simpl in *; [done|]. by repeat split.
    + apply (logs_trans _ st1 _ [] [] [] _ H1), (logs_trans _ st2 _ [] [] [] _ H2), Hadd, Hrow.
  - exists None. split; [done|]. split; [|apply (logs_trans _ st1 _ [] [] [] [] H1 H2)].
    intros row' Hc. destruct (Hcached row' Hc) as [[= -> ->] E']. congruence.
Qed.

(** ** Reference *)

Definition rw_operation (op : Z) : bool := (op =? REQ_OP_READ) || (op =? REQ_OP_WRITE).

(** Queueing one bio. *)
Definition queue_cells (kr : il_kernel) (op bio : Z) : list cell :=
  let bytes := u32 (bio_bi_size kr bio) in
  if rw_operation op && negb (bytes =? 0) then [CQueued (io_size_bucket bytes)] else [].

Lemma queue_bio_latency_logs cfg kr bio disk op st h :
  lookup_host_counters disk st = Some h ->
  exists owner, owner_ok cfg kr bio (hc_major h) (hc_minor h) op owner /\
    attributed cfg kr bio (hc_major h) (hc_minor h) op st (queue_cells kr op bio) owner /\
    logs st ((fun x => (disk, op, x)) <$> queue_cells kr op bio)
      (owned owner (queue_cells kr op bio)) (queue_bio_latency cfg kr bio disk op st).
Proof.
  intros Hh. unfold queue_bio_latency, queue_cells, rw_operation.
  rewrite <- negb_orb. destruct ((op =? REQ_OP_READ) || (op =? REQ_OP_WRITE)); simpl;
    [|exists None; split; [done|split; [apply attributed_nil|by apply logs_refl]]].
  rewrite Hh. destruct (u32 (bio_bi_size kr bio) =? 0); simpl;
    [exists None; split; [done|split; [apply attributed_nil|by apply logs_refl]]|].
  set (b := io_size_bucket _). set (st1 := host_apply _ _ st).
  assert (H1 : hlogs st [(disk, op, CQueued b)] st1).
  { apply host_apply_hlogs; [|apply increment_queue_adds]. apply enrolled_lookup. by eexists. }
  destruct H1 as [H1 Ho1].
  pose proof (identity_row_logs cfg kr bio (hc_major h) (hc_minor h) op st1 [CQueued b]
    (container_apply (fun c => increment_io_size c IO_SIZE_POINT_QUEUE b))) as H2.
  pose proof (io_latency_bio_identity_logs cfg kr bio
    (ContainerKey 0 0 (hc_major h) (hc_minor h) (u32 op) 0) st1) as H3.
  pose proof (fun row => cached_identity cfg kr bio (hc_major h) (hc_minor h) op st1 row) as Hcached.
  destruct (io_latency_bio_identity _ _ _ _ _) as [series st2]. case_if.
  - exists None. split; [done|]. split; [|apply (logs_trans _ st1 _ [_] [] [] [] H1 H3)].
    apply (attributed_host_only _ _ _ _ _ _ _ st1 _ _ Ho1). intros row Hc.
    destruct (Hcached row Hc) as [[= -> ->] _]. destruct Hc as (Hcss & g & _ & _ & -> & _).
    zify_bools. done.
  - destruct (lookup_container_counters series st2) as [row st3].
    destruct H2 as (owner & Ho & Ha & Hl).
    { intros row' st' Hr. apply container_apply_logs; [done|apply increment_queue_adds]. }
    exists owner. split; [done|]. split; [by eapply attributed_host_only|].
    apply (logs_trans _ st1 _ [_] [] [] _ H1 Hl).
Qed.

(** *** The packed word *)

Definition is_byte (z : Z) : Prop := 0 <= z < 256.

Lemma pack_buckets_value a b c d :
  is_byte a -> is_byte b -> is_byte c -> is_byte d ->
  pack_buckets a b c d = a + b * 2 ^ 8 + c * 2 ^ 16 + d * 2 ^ 24.
Proof.
  unfold is_byte, pack_buckets. intros.
  rewrite !(u8_small _) by (unfold is_u8; lia).
  rewrite !(u64_small (Z.shiftl _ _)) by (unfold is_u64; rewrite Z.shiftl_mul_pow2; lia).
  rewrite (Z.lor_comm a), lor_shiftl_add by lia.
  rewrite (Z.lor_comm (_ + a)), lor_shiftl_add by lia.
  rewrite (Z.lor_comm (_ + (_ + a))), lor_shiftl_add by lia. lia.
Qed.

Lemma land_255 z : Z.land z 255 = z mod 2 ^ 8.
Proof. change 255 with (2 ^ 8 - 1). apply land_mask. lia. Qed.

Lemma pack_buckets_fields a b c d :
  is_byte a -> is_byte b -> is_byte c -> is_byte d ->
  let p := pack_buckets a b c d in
  Z.land p 255 = a /\ Z.land (Z.shiftr p 8) 255 = b /\
  Z.land (Z.shiftr p 16) 255 = c /\ Z.land (Z.shiftr p 24) 255 = d.
Proof.
  intros Ha Hb Hc Hd. cbv zeta. rewrite pack_buckets_value by done. unfold is_byte in *.
  rewrite !land_255, !Z.shiftr_div_pow2 by lia. repeat split; symmetry.
  - apply Z.mod_unique with (b + c * 2 ^ 8 + d * 2 ^ 16); lia.
  - replace ((a + b * 2 ^ 8 + c * 2 ^ 16 + d * 2 ^ 24) / 2 ^ 8) with (b + c * 2 ^ 8 + d * 2 ^ 16)
      by (apply Z.div_unique with a; lia). apply Z.mod_unique with (c + d * 2 ^ 8); lia.
  - replace ((a + b * 2 ^ 8 + c * 2 ^ 16 + d * 2 ^ 24) / 2 ^ 16) with (c + d * 2 ^ 8)
      by (apply Z.div_unique with (a + b * 2 ^ 8); lia). apply Z.mod_unique with d; lia.
  - replace ((a + b * 2 ^ 8 + c * 2 ^ 16 + d * 2 ^ 24) / 2 ^ 24) with d
      by (apply Z.div_unique with (a + b * 2 ^ 8 + c * 2 ^ 16); lia). apply Z.mod_unique with 0; lia.
Qed.

(** A byte below the bound is a sample. *)
Definition byte_cells (mk : Z -> cell) (bound b : Z) : list cell := if b <? bound then [mk b] else [].

Lemma row_apply_logs row st bound b mk f :
  is_Some (bpf_map_lookup_elem (blkcg_lat_map st) row) -> (b < bound -> adds (mk b) f) ->
  let st' := if b <? bound then container_apply f row st else st in
  logs st [] (owned (Some row) (byte_cells mk bound b)) st' /\
  is_Some (bpf_map_lookup_elem (blkcg_lat_map st') row).
Proof.
  intros Hr Hf. unfold byte_cells. destruct (Z.ltb_spec b bound); simpl.
  - split; [apply container_apply_logs; auto|by apply container_apply_row].
  - split; [by apply logs_refl|done].
Qed.

(** Cells in the order the container half adds them. *)
Definition packed_cells (q2g q2d d2c size : Z) : list cell :=
  byte_cells (CLat IO_LATENCY_STAGE_Q2G) IO_LATENCY_BUCKETS q2g ++
  byte_cells (CLat IO_LATENCY_STAGE_Q2D) IO_LATENCY_BUCKETS q2d ++
  byte_cells (CLat IO_LATENCY_STAGE_D2C) IO_LATENCY_BUCKETS d2c ++
  byte_cells CIssued IO_SIZE_BUCKETS size.

(** The four additions through a row pointer. *)
Definition add_packed (q2g q2d d2c size : Z) (row : iolatency_container_key) (st : il_state)
    : il_state :=
  let st := if q2g <? IO_LATENCY_BUCKETS
            then container_apply (fun c => increment_latency c IO_LATENCY_STAGE_Q2G q2g) row st
            else st in
  let st := if q2d <? IO_LATENCY_BUCKETS
            then container_apply (fun c => increment_latency c IO_LATENCY_STAGE_Q2D q2d) row st
            else st in
  let st := if d2c <? IO_LATENCY_BUCKETS
            then container_apply (fun c => increment_latency c IO_LATENCY_STAGE_D2C d2c) row st
            else st in
  if size <? IO_SIZE_BUCKETS
  then container_apply (fun c => increment_io_size c IO_SIZE_POINT_ISSUE size) row st
  else st.

Lemma add_packed_logs q2g q2d d2c size row st :
  is_Some (bpf_map_lookup_elem (blkcg_lat_map st) row) ->
  logs st [] (owned (Some row) (packed_cells q2g q2d d2c size)) (add_packed q2g q2d d2c size row st).
Proof.
  intros R0. unfold packed_cells, add_packed. rewrite !owned_app.
  pose proof (row_apply_logs row st IO_LATENCY_BUCKETS q2g (CLat IO_LATENCY_STAGE_Q2G)
    (fun c => increment_latency c IO_LATENCY_STAGE_Q2G q2g) R0 ltac:(auto with iolat)) as H.
  cbv zeta in H. revert H. generalize (if q2g <? IO_LATENCY_BUCKETS then
    container_apply (fun c => increment_latency c IO_LATENCY_STAGE_Q2G q2g) row st else st).
  intros s1 [L1 R1].
  pose proof (row_apply_logs row s1 IO_LATENCY_BUCKETS q2d (CLat IO_LATENCY_STAGE_Q2D)
    (fun c => increment_latency c IO_LATENCY_STAGE_Q2D q2d) R1 ltac:(auto with iolat)) as [L2 R2].
  pose proof (row_apply_logs row _ IO_LATENCY_BUCKETS d2c (CLat IO_LATENCY_STAGE_D2C)
    (fun c => increment_latency c IO_LATENCY_STAGE_D2C d2c) R2 ltac:(auto with iolat)) as [L3 R3].
  pose proof (row_apply_logs row _ IO_SIZE_BUCKETS size CIssued
    (fun c => increment_io_size c IO_SIZE_POINT_ISSUE size) R3 ltac:(auto with iolat)) as [L4 _].
  exact (logs_trans _ _ _ [] [] _ _ L1 (logs_trans _ _ _ [] [] _ _ L2
    (logs_trans _ _ _ [] [] _ _ L3 L4))).
Qed.

Lemma account_completed_container_logs cfg kr bio disk op q2g q2d d2c size st :
  is_byte q2g -> is_byte q2d -> is_byte d2c -> is_byte size ->
  exists owner, owner_ok cfg kr bio (u32 (Z.shiftr disk 32)) (u32 disk) op owner /\
    attributed cfg kr bio (u32 (Z.shiftr disk 32)) (u32 disk) op st
      (packed_cells q2g q2d d2c size) owner /\
    logs st [] (owned owner (packed_cells q2g q2d d2c size))
      (account_completed_container cfg kr bio disk op (pack_buckets q2g q2d d2c size) st).
Proof.
  intros Ha Hb Hc Hd.
  destruct (pack_buckets_fields q2g q2d d2c size Ha Hb Hc Hd) as (Ea & Eb & Ec & Ed).
  unfold account_completed_container. rewrite Ea, Eb, Ec, Ed.
  destruct (Z.eqb_spec (pack_buckets q2g q2d d2c size) 0xffffffff) as [E|_].
  - rewrite pack_buckets_value in E by done. unfold is_byte in *.
    assert (q2g = 255 /\ q2d = 255 /\ d2c = 255 /\ size = 255) as (-> & -> & -> & ->) by lia.
    exists None. split; [done|]. split; [apply attributed_nil|]. by apply logs_refl.
  - pose proof (identity_row_logs cfg kr bio (u32 (Z.shiftr disk 32)) (u32 disk) op st
      (packed_cells q2g q2d d2c size) (add_packed q2g q2d d2c size)) as H.
    destruct (io_latency_bio_identity _ _ _ _ _) as [series st1].
    destruct (lookup_container_counters series st1) as [row st2]. apply H.
    intros. by apply add_packed_logs.
Qed.

(** *** Completing one bio *)

(** The sample of a stage between two times, if any. *)
Definition lat_cells (stage start_ns end_ns : Z) : list cell :=
  let b := io_latency_bucket start_ns end_ns (c_of_bool (negb (stage =? IO_LATENCY_STAGE_D2C))) in
  if 0 <=? b then [CLat stage b] else [].

(** The samples of a completed bio. *)
Definition bio_cells (kr : il_kernel) (get_ns issue_ns now issued bio : Z) : list cell :=
  let queue_ns := io_latency_bio_queue_ns (ik_stamp kr) bio now in
  (if ctrue issued then [CIssued (io_size_bucket issued)] else []) ++
  lat_cells IO_LATENCY_STAGE_D2C issue_ns now ++
  (if ctrue queue_ns
   then lat_cells IO_LATENCY_STAGE_Q2G queue_ns get_ns ++
        lat_cells IO_LATENCY_STAGE_Q2D queue_ns issue_ns
   else []).

Lemma account_io_latency_logs disk op stage s e st :
  enrolled st disk -> is_stage stage -> is_u64 s -> is_u64 e ->
  let r := account_io_latency (disk, op) stage s e st in
  hlogs st ((fun x => (disk, op, x)) <$> lat_cells stage s e) (snd r) /\
  byte_cells (CLat stage) IO_LATENCY_BUCKETS (u8 (fst r)) = lat_cells stage s e.
Proof.
  intros Hen Hst Hs He. unfold account_io_latency, lat_cells.
  pose proof (io_latency_bucket_range s e
    (c_of_bool (negb (stage =? IO_LATENCY_STAGE_D2C))) Hs He) as Hr.
  set (b := io_latency_bucket _ _ _) in *. unfold IO_LATENCY_BUCKETS in *.
  destruct (Z.eq_dec b (-1)) as [E|E]; [rewrite E; simpl; split; [apply hlogs_refl|done]|].
  rewrite (u64_small b) by (unfold is_u64; lia).
  rewrite (proj2 (Z.leb_gt 17 b)), (proj2 (Z.leb_le 0 b)) by lia. simpl. split.
  - apply host_apply_hlogs; [done|]. by apply increment_latency_adds.
  - unfold byte_cells, s32. rewrite u32_small by (unfold is_u32; lia).
    rewrite (proj2 (Z.ltb_lt b (2 ^ 31))) by lia. rewrite u8_small by (unfold is_u8; lia).
    by rewrite (proj2 (Z.ltb_lt b 17)) by lia.
Qed.

(** The request a completion context describes. *)
Definition completion_of (h : iolatency_host_counters) (disk op get_ns issue_ns now : Z)
    : request_completion :=
  Completion (Z.lor (hc_major h <<64 32) (hc_minor h)) op (disk, op) get_ns issue_ns now
    (io_latency_bucket issue_ns now 0).

Definition identity_u32 (h : iolatency_host_counters) : Prop :=
  is_u32 (hc_major h) /\ is_u32 (hc_minor h).

Lemma devt_fields major minor :
  is_u32 major -> is_u32 minor ->
  let d := Z.lor (major <<64 32) minor in u32 (Z.shiftr d 32) = major /\ u32 d = minor.
Proof.
  unfold is_u32. intros Ha Hb. cbv zeta.
  rewrite u64_small by (unfold is_u64; rewrite Z.shiftl_mul_pow2; lia).
  rewrite pack_high by lia. split; [by apply u32_small|].
  unfold u32. rewrite <- land_mask by lia. by apply pack_low.
Qed.

Lemma issued_logs disk op issued st :
  enrolled st disk ->
  let r := if ctrue issued
           then (io_size_bucket issued,
                 host_apply (fun c => increment_io_size c IO_SIZE_POINT_ISSUE (io_size_bucket issued))
                   (disk, op) st)
           else (-1, st) in
  let cells := if ctrue issued then [CIssued (io_size_bucket issued)] else [] in
  hlogs st ((fun x => (disk, op, x)) <$> cells) (snd r) /\
  byte_cells CIssued IO_SIZE_BUCKETS (u8 (fst r)) = cells.
Proof.
  intros He. destruct (ctrue issued); simpl.
  - split; [apply host_apply_hlogs; [done|apply increment_issue_adds]|].
    pose proof (io_size_bucket_range issued) as Hr. unfold IO_SIZE_BUCKETS, byte_cells in *.
    rewrite u8_small by (unfold is_u8; lia). by rewrite (proj2 (Z.ltb_lt _ 6)) by lia.
  - split; [apply hlogs_refl|done].
Qed.

Lemma d2c_logs disk op issue_ns now st :
  enrolled st disk -> is_u64 issue_ns -> is_u64 now ->
  let b := u32 (io_latency_bucket issue_ns now 0) in
  let r := if b <? IO_LATENCY_BUCKETS
           then (b, host_apply (fun c => increment_latency c IO_LATENCY_STAGE_D2C b) (disk, op) st)
           else (255, st) in
  hlogs st ((fun x => (disk, op, x)) <$> lat_cells IO_LATENCY_STAGE_D2C issue_ns now) (snd r) /\
  byte_cells (CLat IO_LATENCY_STAGE_D2C) IO_LATENCY_BUCKETS (u8 (fst r)) =
    lat_cells IO_LATENCY_STAGE_D2C issue_ns now.
Proof.
  intros Hen Hi Hn. unfold lat_cells. simpl negb. simpl c_of_bool.
  pose proof (io_latency_bucket_range issue_ns now 0 Hi Hn) as Hr.
  set (b := io_latency_bucket _ _ _) in *. unfold IO_LATENCY_BUCKETS in *. cbv zeta.
  destruct (Z.eq_dec b (-1)) as [E|E]; [rewrite E; simpl; split; [apply hlogs_refl|done]|].
  rewrite (u32_small b) by (unfold is_u32; lia).
  rewrite (proj2 (Z.ltb_lt b 17)), (proj2 (Z.leb_le 0 b)) by lia. simpl. split.
  - apply host_apply_hlogs; [done|]. apply increment_latency_adds. unfold is_stage. tauto.
  - unfold byte_cells. rewrite u8_small by (unfold is_u8; lia).
    by rewrite (proj2 (Z.ltb_lt b 17)) by lia.
Qed.

Lemma pack_buckets_u8 a b c d : pack_buckets a b c d = pack_buckets (u8 a) (u8 b) (u8 c) (u8 d).
Proof. unfold pack_buckets. unfold u8. by rewrite !Z.mod_mod by lia. Qed.

(** The two queue stages of a bio. *)
Lemma queue_stages_logs kr disk op get_ns issue_ns now bio st :
  enrolled st disk -> is_u64 get_ns -> is_u64 issue_ns -> is_u64 now ->
  let q := io_latency_bio_queue_ns (ik_stamp kr) bio now in
  let '(q2g, q2d, st') :=
    if ctrue q then
      let '(q2g, st) := account_io_latency (disk, op) IO_LATENCY_STAGE_Q2G q get_ns st in
      let '(q2d, st) := account_io_latency (disk, op) IO_LATENCY_STAGE_Q2D q issue_ns st in
      (q2g, q2d, st)
    else (-1, -1, st) in
  let g := byte_cells (CLat IO_LATENCY_STAGE_Q2G) IO_LATENCY_BUCKETS (u8 q2g) in
  let d := byte_cells (CLat IO_LATENCY_STAGE_Q2D) IO_LATENCY_BUCKETS (u8 q2d) in
  (if ctrue q then lat_cells IO_LATENCY_STAGE_Q2G q get_ns ++ lat_cells IO_LATENCY_STAGE_Q2D q issue_ns
   else []) = g ++ d /\
  hlogs st ((fun x => (disk, op, x)) <$> (g ++ d)) st'.
Proof.
  intros Hen Hg Hi Hn q. destruct (ctrue q); [|split; [done|apply hlogs_refl]].
  assert (Hq : is_u64 q) by (by apply io_latency_bio_queue_ns_range).
  destruct (account_io_latency_logs disk op IO_LATENCY_STAGE_Q2G q get_ns st) as [L1 B1];
    [done|unfold is_stage; tauto|done..|].
  destruct (account_io_latency _ _ _ _ st) as [q2g st1]. simpl in L1, B1.
  destruct (account_io_latency_logs disk op IO_LATENCY_STAGE_Q2D q issue_ns st1) as [L2 B2];
    [by eapply hlogs_enrolled|unfold is_stage; tauto|done..|].
  destruct (account_io_latency _ _ _ _ st1) as [q2d st2]. simpl in L2, B2.
  rewrite B1, B2. split; [done|]. rewrite fmap_app.
  exact (hlogs_trans _ _ _ _ _ L1 L2).
Qed.

Lemma complete_bio_latency_logs cfg kr h disk op get_ns issue_ns now issued bio st :
  enrolled st disk -> identity_u32 h ->
  is_u64 get_ns -> is_u64 issue_ns -> is_u64 now ->
  exists owner, owner_ok cfg kr bio (hc_major h) (hc_minor h) op owner /\
    attributed cfg kr bio (hc_major h) (hc_minor h) op st
      (bio_cells kr get_ns issue_ns now issued bio) owner /\
    logs st ((fun x => (disk, op, x)) <$> bio_cells kr get_ns issue_ns now issued bio)
      (owned owner (bio_cells kr get_ns issue_ns now issued bio))
      (complete_bio_latency cfg kr bio (completion_of h disk op get_ns issue_ns now) issued st).
Proof.
  intros Hen [Hma Hmi] Hg Hi Hn. unfold complete_bio_latency, bio_cells. cbn [completion_of cp_host
    cp_d2c_bucket cp_now cp_get_request_ns cp_issue_ns cp_disk cp_operation].
  destruct (issued_logs disk op issued st Hen) as [L1 B1].
  destruct (if ctrue issued then _ else (-1, st)) as [size st1]. simpl in L1, B1.
  destruct (d2c_logs disk op issue_ns now st1) as [L2 B2]; [by eapply hlogs_enrolled|done..|].
  destruct (if u32 _ <? _ then _ else (255, st1)) as [d2c st2]. simpl in L2, B2.
  assert (Hen2 : enrolled st2 disk) by (eapply hlogs_enrolled, hlogs_enrolled; eauto).
  pose proof (queue_stages_logs kr disk op get_ns issue_ns now bio st2 Hen2 Hg Hi Hn) as Hq.
  cbv zeta in Hq. destruct (if ctrue _ then _ else (-1, -1, st2)) as [[q2g q2d] st3].
  destruct Hq as [Bq L3]. rewrite pack_buckets_u8.
  destruct (account_completed_container_logs cfg kr bio (Z.lor (hc_major h <<64 32) (hc_minor h)) op
    (u8 q2g) (u8 q2d) (u8 d2c) (u8 size) st3) as (owner & Ho & Ha & L4); [apply u8_range..|].
  destruct (devt_fields _ _ Hma Hmi) as [E1 E2]. rewrite E1, E2 in *.
  exists owner. split; [done|]. rewrite Bq, <- B1, <- B2 in *. unfold packed_cells in *.
  rewrite fmap_app, (fmap_app _ (byte_cells _ _ (u8 d2c))).
  destruct (hlogs_trans _ _ _ _ _ L1 (hlogs_trans _ _ _ _ _ L2 L3)) as [L5 H5]. split.
  - apply (attributed_host_only _ _ _ _ _ _ _ st3 _ _ H5). eapply attributed_perm, Ha.
    rewrite app_assoc. solve_Permutation.
  - pose proof (logs_trans _ _ _ _ _ _ _ L5 L4) as Hl. rewrite app_nil_r in Hl.
    eapply logs_perm, Hl. simpl. apply owned_perm. rewrite app_assoc. solve_Permutation.
Qed.

(** ** Flat walks *)

(** Up to [n] bios of a chain and whether any remain after them. *)
Fixpoint chain (kr : il_kernel) (n : nat) (bio : Z) : list Z * bool :=
  match n with
  | O => ([], ctrue bio)
  | S n =>
      if bio =? 0 then ([], false)
      else let '(l, more) := chain kr n (bio_bi_next kr bio) in (bio :: l, more)
  end.

(** Up to [n] bios of a chain that [remaining] completed bytes cover entirely,
    and whether the walk stopped at the bound with bytes and bios left. *)
Fixpoint walk (kr : il_kernel) (n : nat) (bio remaining : Z) : list Z * bool :=
  match n with
  | O => ([], ctrue bio)
  | S n =>
      if bio =? 0 then ([], false)
      else
        let bytes := u32 (bio_bi_size kr bio) in
        if remaining <? bytes then ([], false)
        else if remaining =? bytes then ([bio], false)
        else let '(l, more) := walk kr n (bio_bi_next kr bio) (remaining - bytes) in
             (bio :: l, more)
  end.

Lemma walk_S kr n bio remaining :
  walk kr (S n) bio remaining =
  (if bio =? 0 then ([], false)
   else
     let bytes := u32 (bio_bi_size kr bio) in
     if remaining <? bytes then ([], false)
     else if remaining =? bytes then ([bio], false)
     else let '(l, more) := walk kr n (bio_bi_next kr bio) (remaining - bytes) in
          (bio :: l, more)).
Proof. done. Qed.

(** The completion loop without chunks; [None] when the walk ended by itself. *)
Fixpoint flat_walk cfg kr (n : nat) (comp : request_completion) (bio remaining : Z) st
    : option bio_completion_cursor * il_state :=
  match n with
  | O => (Some (Cursor bio remaining), st)
  | S n =>
      if bio =? 0 then (Some (Cursor bio remaining), st)
      else
        let bytes := u32 (bio_bi_size kr bio) in
        if remaining <? bytes then (None, st)
        else
          let st := complete_bio_latency cfg kr bio comp 0 st in
          let remaining := remaining -32 bytes in
          if remaining =? 0 then (None, st)
          else flat_walk cfg kr n comp (bio_bi_next kr bio) remaining st
  end.

Lemma complete_bio_loop_flat cfg kr n comp old bio remaining st :
  complete_bio_loop cfg kr n comp old bio remaining st =
  match flat_walk cfg kr n comp bio remaining st with
  | (Some cur, st') => (true, cur, st')
  | (None, st') => (false, old, st')
  end.
Proof.
  revert bio remaining st. induction n as [|n IH]; intros; simpl; [done|].
  destruct (bio =? 0); [done|]. destruct (_ <? _); [done|]. destruct (_ =? 0); [done|]. apply IH.
Qed.

Lemma flat_walk_null cfg kr n comp remaining st :
  flat_walk cfg kr n comp 0 remaining st = (Some (Cursor 0 remaining), st).
Proof. by destruct n. Qed.

Lemma flat_walk_add cfg kr n m comp bio remaining st :
  flat_walk cfg kr (n + m) comp bio remaining st =
  match flat_walk cfg kr n comp bio remaining st with
  | (Some cur, st') => flat_walk cfg kr m comp (cur_bio cur) (cur_remaining cur) st'
  | (None, st') => (None, st')
  end.
Proof.
  revert bio remaining st. induction n as [|n IH]; intros; simpl; [done|].
  destruct (Z.eqb_spec bio 0) as [->|]; [by rewrite flat_walk_null|].
  destruct (_ <? _); [done|]. destruct (_ =? 0); [done|]. apply IH.
Qed.

(** One chunk is a flat walk of [k] bios. *)
Lemma complete_chunks_S cfg kr n i k comp cur st :
  (if i =? 15 then 31 else 32) = Z.of_nat k ->
  complete_chunks cfg kr (S n) i comp cur st =
  (if cur_bio cur =? 0 then (Some cur, st)
   else match flat_walk cfg kr k comp (cur_bio cur) (cur_remaining cur) st with
        | (Some cur', st') => complete_chunks cfg kr n (i + 1) comp cur' st'
        | (None, st') => (None, st')
        end).
Proof.
  intros Hk. cbn [complete_chunks]. destruct (cur_bio cur =? 0); [done|].
  change (if i =? _ then _ else _) with (if i =? 15 then 31 else 32). rewrite Hk.
  unfold complete_bio_chunk. rewrite complete_bio_loop_flat, Nat2Z.id.
  by destruct (flat_walk cfg kr k comp _ _ st) as [[?|] ?].
Qed.

(** The last [n + 1] chunks walk [32 n + 31] bios. *)
Lemma complete_chunks_flat cfg kr n comp cur st :
  (n <= 15)%nat ->
  complete_chunks cfg kr (S n) (15 - Z.of_nat n) comp cur st =
  flat_walk cfg kr (32 * n + 31) comp (cur_bio cur) (cur_remaining cur) st.
Proof.
  revert cur st. induction n as [|n IH]; intros [bio rem] st Hn.
  - rewrite (complete_chunks_S _ _ _ _ 31) by done. change (32 * 0 + 31)%nat with 31%nat.
    cbn [cur_bio cur_remaining].
    destruct (Z.eqb_spec bio 0) as [->|]; [by rewrite flat_walk_null|].
    by destruct (flat_walk cfg kr 31 comp bio rem st) as [[?|] ?].
  - rewrite (complete_chunks_S _ _ _ _ 32) by by rewrite (proj2 (Z.eqb_neq _ 15)) by lia.
    cbn [cur_bio cur_remaining].
    destruct (Z.eqb_spec bio 0) as [->|]; [by rewrite flat_walk_null|].
    replace (32 * S n + 31)%nat with (32 + (32 * n + 31))%nat by lia. rewrite flat_walk_add.
    destruct (flat_walk cfg kr 32 comp bio rem st) as [[cur|] st']; [|done].
    replace (15 - Z.of_nat (S n) + 1) with (15 - Z.of_nat n) by lia. apply IH. lia.
Qed.

(** Completing a list of bios. *)
Definition complete_bios cfg kr comp (l : list Z) st : il_state :=
  fold_left (fun st b => complete_bio_latency cfg kr b comp 0 st) l st.

Lemma flat_walk_spec cfg kr n comp bio remaining st :
  0 < remaining < 2 ^ 32 ->
  snd (flat_walk cfg kr n comp bio remaining st) =
    complete_bios cfg kr comp (fst (walk kr n bio remaining)) st /\
  match fst (flat_walk cfg kr n comp bio remaining st) with
  | Some cur => ctrue (cur_bio cur)
  | None => false
  end = snd (walk kr n bio remaining).
Proof.
  revert bio remaining st. induction n as [|n IH]; intros bio rem st Hr; simpl; [done|].
  destruct (Z.eqb_spec bio 0) as [->|]; [done|].
  pose proof (u32_range (bio_bi_size kr bio)) as Hb. unfold is_u32 in Hb.
  set (b := u32 (bio_bi_size kr bio)) in *.
  destruct (Z.ltb_spec rem b); [done|]. rewrite (u32_small (rem - b)) by (unfold is_u32; lia).
  destruct (Z.eqb_spec rem b), (Z.eqb_spec (rem - b) 0); try lia; [done|].
  specialize (IH (bio_bi_next kr bio) (rem - b) (complete_bio_latency cfg kr bio comp 0 st) ltac:(lia)).
  by destruct (walk kr n _ _) as [l more].
Qed.

(** The bios of a request, the issued size going to the first. *)
Definition complete_walk cfg kr comp (issued : Z) (l : list Z) st : il_state :=
  match l with
  | [] => st
  | b :: bs => complete_bios cfg kr comp bs (complete_bio_latency cfg kr b comp issued st)
  end.

(** A kernel whose one-bio requests carry exactly that bio's bytes. *)
Definition one_bio_request (kr : il_kernel) (bio tail request_bytes : Z) : Prop :=
  bio = tail -> u32 (bio_bi_size kr bio) = request_bytes.

Lemma complete_request_bios_flat cfg kr comp bio tail remaining request_bytes issued st :
  bio <> 0 -> 0 < remaining < 2 ^ 32 -> one_bio_request kr bio tail request_bytes ->
  complete_request_bios cfg kr comp bio tail remaining request_bytes issued st =
  let '(l, more) := walk kr (S 511) bio remaining in
  let st' := complete_walk cfg kr comp issued l st in
  if more then io_latency_fail IO_LATENCY_CHAIN_OVERFLOW 0 st' else st'.
Proof.
  intros Hb Hr Hone. unfold complete_request_bios. rewrite walk_S.
  rewrite (proj2 (Z.eqb_neq bio 0)) by done.
  destruct ((remaining =? request_bytes) && (bio =? tail)) eqn:E.
  { apply andb_true_iff in E as [E1%Z.eqb_eq E2%Z.eqb_eq]. cbv zeta. rewrite (Hone E2), <- E1.
    by rewrite Z.ltb_irrefl, Z.eqb_refl. }
  pose proof (u32_range (bio_bi_size kr bio)) as Hs. unfold is_u32 in Hs.
  set (b := u32 (bio_bi_size kr bio)) in *. cbv zeta.
  destruct (Z.ltb_spec remaining b); [done|]. rewrite (u32_small (remaining - b)) by (unfold is_u32; lia).
  destruct (Z.eqb_spec remaining b), (Z.eqb_spec (remaining - b) 0); try lia; [done|].
  change (Z.to_nat IO_LATENCY_COMPLETION_CHUNK_COUNT) with 16%nat.
  rewrite (complete_chunks_flat cfg kr 15 comp) by lia. change (32 * 15 + 31)%nat with 511%nat.
  cbn [cur_bio cur_remaining].
  destruct (flat_walk_spec cfg kr 511 comp (bio_bi_next kr bio) (remaining - b)
    (complete_bio_latency cfg kr bio comp issued st) ltac:(lia)) as [H1 H2].
  destruct (flat_walk cfg kr 511 comp _ _ _) as [cur st'].
  destruct (walk kr 511 _ _) as [l more]. cbn [fst snd complete_walk] in *. rewrite <- H1, <- H2.
  by destruct cur.
Qed.

(** The remap loop. *)
Definition queue_bios cfg kr disk op (l : list Z) st : il_state :=
  fold_left (fun st b => queue_bio_latency cfg kr b disk op st) l st.

Lemma queue_remapped_null cfg kr n disk op st :
  queue_remapped_loop cfg kr n 0 disk op st = (0, st).
Proof. by destruct n. Qed.

Lemma queue_remapped_add cfg kr n m bio disk op st :
  queue_remapped_loop cfg kr (n + m) bio disk op st =
  let '(bio', st') := queue_remapped_loop cfg kr n bio disk op st in
  queue_remapped_loop cfg kr m bio' disk op st'.
Proof.
  revert bio st. induction n as [|n IH]; intros; simpl; [done|].
  destruct (Z.eqb_spec bio 0) as [->|]; [by rewrite queue_remapped_null|]. apply IH.
Qed.

Lemma remap_chunks_flat cfg kr n bio disk op st :
  remap_chunks cfg kr n bio disk op st = queue_remapped_loop cfg kr (32 * n) bio disk op st.
Proof.
  revert bio st. induction n as [|n IH]; intros; [done|]. cbn [remap_chunks].
  destruct (Z.eqb_spec bio 0) as [->|]; [by rewrite queue_remapped_null|].
  replace (32 * S n)%nat with (32 + 32 * n)%nat by lia. rewrite queue_remapped_add.
  unfold queue_remapped_bios. change (Z.to_nat _) with 32%nat.
  destruct (queue_remapped_loop cfg kr 32 bio disk op st). apply IH.
Qed.

Lemma queue_remapped_spec cfg kr n bio disk op st :
  snd (queue_remapped_loop cfg kr n bio disk op st) =
    queue_bios cfg kr disk op (fst (chain kr n bio)) st /\
  ctrue (fst (queue_remapped_loop cfg kr n bio disk op st)) = snd (chain kr n bio).
Proof.
  revert bio st. induction n as [|n IH]; intros bio st; simpl; [done|].
  destruct (Z.eqb_spec bio 0) as [->|]; [done|].
  specialize (IH (bio_bi_next kr bio) (queue_bio_latency cfg kr bio disk op st)).
  by destruct (chain kr n _) as [l more].
Qed.

(** ** The ledger of a run *)

(** A reference sample: the group of the bio, and the host cell. *)
Definition ref_sample : Type := Z * host_sample.

(** What may own a sample: nothing, or a counter row of the bio's group on the
    enrolled disk. *)
Definition owner_fits (ident : Z -> option (Z * Z * Z)) (s : ref_sample)
    (owner : option iolatency_container_key) : Prop :=
  match owner with
  | None => True
  | Some key =>
      ck_blkcg key = fst s /\ fst s <> 0 /\ ck_serial key <> 0 /\
      (exists scsi, ident (fst (fst (snd s))) = Some (ck_major key, ck_minor key, scsi)) /\
      ck_operation key = u32 (snd (fst (snd s))) /\ ck_kind key = IO_LATENCY_ROW_COUNTERS
  end.

Definition owner_samples (samples : list ref_sample) (owners : list (option iolatency_container_key))
    : list cont_sample :=
  concat (zip_with (fun s owner => owned owner [snd (snd s)]) samples owners).

(** The maps moved from [st] to [st'] by exactly the reference samples, each
    also counted in the row of its owner. *)
Definition ledger ident st (samples : list ref_sample) st' : Prop :=
  exists owners, Forall2 (owner_fits ident) samples owners /\
    logs st (snd <$> samples) (owner_samples samples owners) st'.

Lemma ledger_nil ident st st' : logs st [] [] st' -> ledger ident st [] st'.
Proof. exists []. by split. Qed.

Lemma ledger_refl ident st : ledger ident st [] st.
Proof. apply ledger_nil. by apply logs_refl. Qed.

Lemma ledger_trans ident st st1 st2 s1 s2 :
  ledger ident st s1 st1 -> ledger ident st1 s2 st2 -> ledger ident st (s1 ++ s2) st2.
Proof.
  intros (o1 & F1 & L1) (o2 & F2 & L2). exists (o1 ++ o2). split; [by apply Forall2_app|].
  rewrite fmap_app. unfold owner_samples. rewrite zip_with_app by by eapply Forall2_length.
  rewrite concat_app. by eapply logs_trans.
Qed.

Lemma ledger_identity ident st s st' disk :
  ledger ident st s st' -> host_identity st' disk = host_identity st disk.
Proof. intros (? & _ & Hl). apply (logs_identity _ _ _ _ Hl). Qed.

(** The samples of one bio. *)
Definition bio_samples cfg kr (disk op bio : Z) (cells : list cell) : list ref_sample :=
  (fun x => (io_latency_bio_css cfg kr bio, (disk, op, x))) <$> cells.

Lemma ledger_bio cfg kr disk op bio major minor scsi cells ident st st' :
  ident disk = Some (major, minor, scsi) ->
  (exists owner, owner_ok cfg kr bio major minor op owner /\
     attributed cfg kr bio major minor op st cells owner /\
     logs st ((fun x => (disk, op, x)) <$> cells) (owned owner cells) st') ->
  ledger ident st (bio_samples cfg kr disk op bio cells) st'.
Proof.
  intros Hid (owner & Ho & _ & Hl). exists (replicate (length cells) owner). unfold bio_samples. split.
  - clear Hl. induction cells as [|x cells IH]; simpl; constructor; [|done].
    destruct owner as [key|]; [|done]. simpl in *. destruct Ho as (-> & ? & ? & -> & -> & ? & ?).
    repeat split; eauto.
  - rewrite <- list_fmap_compose.
    replace (owner_samples _ _) with (owned owner cells); [done|]. clear. unfold owner_samples.
    induction cells as [|x cells IH]; [by destruct owner|].
    destruct owner; simpl; [f_equal|]; apply IH.
Qed.

(** *** Samples of each hook *)

Definition queue_samples cfg kr (ident : Z -> option (Z * Z * Z)) (disk op bio : Z)
    : list ref_sample :=
  match ident disk with
  | Some _ => bio_samples cfg kr disk op bio (queue_cells kr op bio)
  | None => []
  end.

Definition disk_queue_samples cfg kr ident (disk bio : Z) : list ref_sample :=
  if disk =? 0 then []
  else queue_samples cfg kr ident disk (Z.land (u32 (bio_bi_opf kr bio)) REQ_OP_MASK) bio.

Definition complete_samples cfg kr disk op get_ns issue_ns now issued (l : list Z)
    : list ref_sample :=
  let of_bio issued b :=
    bio_samples cfg kr disk op b (bio_cells kr get_ns issue_ns now issued b) in
  match l with
  | [] => []
  | b :: bs => of_bio issued b ++ concat (of_bio 0 <$> bs)
  end.

(** The samples an event stands for, given the identities of the enrolled disks:
    each bio of a chain counts, at most 512 of them, and a completion counts the
    bios its bytes cover. *)
Definition event_samples cfg (ident : Z -> option (Z * Z * Z)) (e : il_event) : list ref_sample :=
  match e with
  | EvBioQueue kr args =>
      let bio := io_latency_pointer_argument args (block_bio_queue_bio_arg cfg) in
      if bio =? 0 then [] else disk_queue_samples cfg kr ident (bio_disk (ik_blk kr) bio) bio
  | EvBioRemap kr args =>
      let bio := io_latency_pointer_argument args (block_bio_remap_bio_arg cfg) in
      let from_dev := if ctrue (block_bio_remap_bio_arg cfg) then args 2 else args 1 in
      if ctrue bio &&
         ctrue (Z.land (bio_bi_flags kr bio) (1 <<32 io_latency_bio_trace_completion cfg))
      then disk_queue_samples cfg kr ident (io_latency_remap_disk kr bio from_dev) bio else []
  | EvRequestRemap kr args =>
      let req := io_latency_pointer_argument args (block_rq_remap_request_arg cfg) in
      let disk := io_latency_request_disk kr req in
      let op := Z.land (u32 (rq_cmd_flags kr req)) REQ_OP_MASK in
      if (req =? 0) || (u32 (rq_data_len kr req) =? 0) then []
      else concat (queue_samples cfg kr ident disk op <$> fst (chain kr 512 (rq_bio kr req)))
  | EvRequestComplete kr args now =>
      let req := args 0 in
      let disk := io_latency_request_disk kr req in
      let op := Z.land (u32 (rq_cmd_flags kr req)) REQ_OP_MASK in
      let remaining := u32 (args 2) in
      let issue_ns := u64 (rq_io_start_time_ns kr req) in
      match ident disk with
      | Some (_, _, scsi) =>
          if (req =? 0) || (remaining =? 0) || negb (rw_operation op) || (disk =? 0) ||
             (rq_bio kr req =? 0) then []
          else complete_samples cfg kr disk op (u64 (rq_start_time_ns kr req)) issue_ns (u64 now)
                 (request_issued_bytes kr req remaining (u32 (rq_data_len kr req)) issue_ns scsi)
                 (fst (walk kr 512 (rq_bio kr req) remaining))
      | None => []
      end
  | _ => []
  end.

(** A kernel that gives a request of one bio exactly that bio's bytes. *)
Definition event_consistent (e : il_event) : Prop :=
  match e with
  | EvRequestComplete kr args _ =>
      rq_bio kr (args 0) = rq_biotail kr (args 0) ->
      u32 (bio_bi_size kr (rq_bio kr (args 0))) = u32 (rq_data_len kr (args 0))
  | _ => True
  end.

(** Every enrolled disk has a 32-bit device number. *)
Definition hosts_ok (ident : Z -> option (Z * Z * Z)) : Prop :=
  forall disk major minor scsi, ident disk = Some (major, minor, scsi) -> is_u32 major /\ is_u32 minor.

Section Events.
Context (cfg : il_config) (ident : Z -> option (Z * Z * Z)).
Context (Hok : hosts_ok ident).
Definition tracks st : Prop := forall disk, host_identity st disk = ident disk.

Lemma tracks_ledger st s st' : tracks st -> ledger ident st s st' -> tracks st'.
Proof. intros Ht Hl disk. by rewrite (ledger_identity _ _ _ _ _ Hl). Qed.

Lemma tracks_lookup st disk h :
  tracks st -> lookup_host_counters disk st = Some h ->
  ident disk = Some (hc_major h, hc_minor h, hc_scsi h).
Proof. intros Ht Hh. rewrite <- Ht. unfold host_identity. unfold lookup_host_counters in Hh. by rewrite Hh. Qed.

Lemma tracks_none st disk : tracks st -> lookup_host_counters disk st = None -> ident disk = None.
Proof. intros Ht Hh. rewrite <- Ht. unfold host_identity. unfold lookup_host_counters in Hh. by rewrite Hh. Qed.

Lemma queue_bio_ledger kr bio disk op st :
  tracks st -> ledger ident st (queue_samples cfg kr ident disk op bio)
                 (queue_bio_latency cfg kr bio disk op st).
Proof.
  intros Ht. unfold queue_samples. destruct (lookup_host_counters disk st) as [h|] eqn:Hh.
  - rewrite (tracks_lookup _ _ _ Ht Hh). eapply ledger_bio; [by apply tracks_lookup with (1 := Ht)|].
    by apply queue_bio_latency_logs.
  - rewrite (tracks_none _ _ Ht Hh). unfold queue_bio_latency. rewrite Hh.
    destruct (_ && _); apply ledger_refl.
Qed.

Lemma queue_disk_ledger kr bio disk st :
  tracks st ->
  ledger ident st (disk_queue_samples cfg kr ident disk bio)
    (if ctrue disk then queue_bio_on_disk cfg kr bio disk st else st).
Proof.
  intros Ht. unfold disk_queue_samples, ctrue. destruct (disk =? 0); [apply ledger_refl|].
  by apply queue_bio_ledger.
Qed.

Lemma queue_bios_ledger kr disk op l st :
  tracks st -> ledger ident st (concat (queue_samples cfg kr ident disk op <$> l))
                 (queue_bios cfg kr disk op l st).
Proof.
  revert st. induction l as [|b l IH]; intros st Ht; [apply ledger_refl|].
  pose proof (queue_bio_ledger kr b disk op st Ht) as Hl. simpl.
  eapply ledger_trans, IH; [done|]. by eapply tracks_ledger.
Qed.

Lemma fail_ledger reason err st s st' :
  ledger ident st s st' -> ledger ident st s (io_latency_fail reason err st').
Proof.
  intros Hl. rewrite <- (app_nil_r s). eapply ledger_trans; [done|].
  apply ledger_nil, io_latency_fail_logs.
Qed.

Section Completion.
Context (kr : il_kernel) (h : iolatency_host_counters) (disk op get_ns issue_ns now : Z).
Context (Hid : ident disk = Some (hc_major h, hc_minor h, hc_scsi h)).
Context (Hg : is_u64 get_ns) (Hi : is_u64 issue_ns) (Hn : is_u64 now).

Lemma complete_bio_ledger issued bio st :
  tracks st ->
  ledger ident st (bio_samples cfg kr disk op bio (bio_cells kr get_ns issue_ns now issued bio))
    (complete_bio_latency cfg kr bio (completion_of h disk op get_ns issue_ns now) issued st).
Proof.
  intros Ht. eapply ledger_bio; [done|]. apply complete_bio_latency_logs; [|by eapply Hok|done..].
  unfold enrolled. rewrite Ht, Hid. by eexists.
Qed.

Lemma complete_bios_ledger l st :
  tracks st ->
  ledger ident st
    (concat ((fun b => bio_samples cfg kr disk op b (bio_cells kr get_ns issue_ns now 0 b)) <$> l))
    (complete_bios cfg kr (completion_of h disk op get_ns issue_ns now) l st).
Proof.
  revert st. induction l as [|b l IH]; intros st Ht; [apply ledger_refl|].
  pose proof (complete_bio_ledger 0 b st Ht) as Hl. simpl.
  eapply ledger_trans, IH; [done|]. by eapply tracks_ledger.
Qed.

Lemma complete_walk_ledger issued l st :
  tracks st ->
  ledger ident st (complete_samples cfg kr disk op get_ns issue_ns now issued l)
    (complete_walk cfg kr (completion_of h disk op get_ns issue_ns now) issued l st).
Proof.
  intros Ht. destruct l as [|b l]; [apply ledger_refl|].
  pose proof (complete_bio_ledger issued b st Ht) as Hl.
  eapply ledger_trans, complete_bios_ledger; [done|]. by eapply tracks_ledger.
Qed.
End Completion.

Lemma bio_queue_ledger kr args st :
  tracks st -> ledger ident st (event_samples cfg ident (EvBioQueue kr args))
                 (trace_bio_queue cfg kr args st).
Proof.
  intros Ht. cbn [event_samples]. unfold trace_bio_queue.
  set (bio := io_latency_pointer_argument _ _). destruct (bio =? 0); [apply ledger_refl|].
  destruct (opf_follows_device kr); [|by apply queue_disk_ledger].
  pose proof (queue_disk_ledger kr bio (bio_disk (ik_blk kr) bio) st Ht) as Hl.
  unfold bio_disk, queue_bio_on_disk in *. by destruct (bi_disk_exists (ik_blk kr)).
Qed.

Lemma bio_remap_ledger kr args st :
  tracks st -> ledger ident st (event_samples cfg ident (EvBioRemap kr args))
                 (trace_bio_remap cfg kr args st).
Proof.
  intros Ht. cbn [event_samples]. unfold trace_bio_remap.
  set (bio := io_latency_pointer_argument _ _). destruct (_ && _); [|apply ledger_refl].
  by apply queue_disk_ledger.
Qed.

(** Queueing nothing: the disk is not enrolled, or the operation is no IO. *)
Lemma queue_samples_none kr disk op l :
  ident disk = None \/ rw_operation op = false ->
  concat (queue_samples cfg kr ident disk op <$> l) = [].
Proof.
  intros H. induction l as [|b l IH]; [done|]. rewrite fmap_cons. cbn [concat].
  rewrite IH, app_nil_r.
  unfold queue_samples, queue_cells. destruct H as [-> | ->]; [done|]. by destruct (ident disk).
Qed.

Lemma request_remap_ledger kr args st :
  tracks st -> ledger ident st (event_samples cfg ident (EvRequestRemap kr args))
                 (trace_request_remap cfg kr args st).
Proof.
  intros Ht. cbn [event_samples]. unfold trace_request_remap.
  set (req := io_latency_pointer_argument _ _). destruct (req =? 0); [apply ledger_refl|].
  set (disk := io_latency_request_disk kr req). set (op := Z.land _ REQ_OP_MASK).
  cbn [orb]. rewrite <- negb_orb. fold (rw_operation op).
  destruct (u32 (rq_data_len kr req) =? 0);
    [rewrite orb_true_r; case_match; apply ledger_refl|]. rewrite orb_false_r.
  destruct (lookup_host_counters disk st) as [h|] eqn:Hh.
  2:{ rewrite queue_samples_none by (left; by eapply tracks_none). apply ledger_refl. }
  destruct (rw_operation op) eqn:Hop; cbn [negb].
  2:{ rewrite queue_samples_none by (by right). apply ledger_refl. }
  change (Z.to_nat _) with 16%nat. rewrite remap_chunks_flat. change (32 * 16)%nat with 512%nat.
  destruct (queue_remapped_spec cfg kr 512 (rq_bio kr req) disk op st) as [H1 _].
  pose proof (queue_bios_ledger kr disk op (fst (chain kr 512 (rq_bio kr req))) st Ht) as Hl.
  rewrite <- H1 in Hl. destruct (queue_remapped_loop _ _ _ _ _ _ _) as [bio st'].
  destruct (ctrue bio); [by apply fail_ledger|done].
Qed.

(** A guard of the hook that the reference shares. *)
Ltac no_samples id :=
  destruct id as [[[? ?] ?]|]; cbn [negb orb]; rewrite ?orb_true_r; apply ledger_refl.

Lemma request_complete_ledger kr args now st :
  event_consistent (EvRequestComplete kr args now) ->
  tracks st -> ledger ident st (event_samples cfg ident (EvRequestComplete kr args now))
                 (trace_request_complete cfg kr args now st).
Proof.
  intros Hc Ht. cbn [event_samples event_consistent] in *. unfold trace_request_complete.
  set (req := args 0) in *. set (disk := io_latency_request_disk kr req).
  set (op := Z.land _ REQ_OP_MASK). set (remaining := u32 (args 2)).
  rewrite <- negb_orb. fold (rw_operation op).
  destruct (req =? 0); [no_samples (ident disk)|].
  destruct (Z.eqb_spec remaining 0) as [|Hrem]; [no_samples (ident disk)|].
  destruct (rw_operation op); [|no_samples (ident disk)]. cbn [negb].
  destruct (disk =? 0); [no_samples (ident disk)|].
  destruct (lookup_host_counters disk st) as [h|] eqn:Hh.
  2:{ rewrite (tracks_none _ _ Ht Hh). apply ledger_refl. }
  pose proof (tracks_lookup _ _ _ Ht Hh) as Hid. rewrite Hid.
  destruct (Z.eqb_spec (rq_bio kr req) 0) as [|Hbio]; [apply ledger_refl|]. cbn [orb].
  fold (completion_of h disk op (u64 (rq_start_time_ns kr req)) (u64 (rq_io_start_time_ns kr req))
    (u64 now)).
  rewrite complete_request_bios_flat; [|done|..].
  - pose proof (complete_walk_ledger kr h disk op (u64 (rq_start_time_ns kr req))
      (u64 (rq_io_start_time_ns kr req)) (u64 now) Hid (u64_range _) (u64_range _) (u64_range _)) as Hw.
    change 512%nat with (S 511). destruct (walk kr (S 511) _ _) as [l more]. cbn [fst].
    destruct more; [apply fail_ledger|]; by apply Hw.
  - pose proof (u32_range (args 2)) as Hr. fold remaining in Hr. unfold is_u32 in Hr. lia.
  - intros E. destruct (header_snapshot kr || biotail_follows_bio kr); [by apply Hc|done].
Qed.

Lemma released_logs css st : logs st [] [] (io_latency_css_released css st).
Proof.
  unfold io_latency_css_released. destruct (bpf_map_lookup_elem _ css) as [g|]; [|by apply logs_refl].
  destruct (serial g =? 0); [by apply logs_refl|].
  pose proof (insert_row_logs st (ContainerKey css (serial g) 0 0 0 IO_LATENCY_CSS_RELEASED)) as L1.
  destruct (bpf_map_update_elem _ _ _ _) as [ret m]. cbn [snd] in L1.
  set (st1 := set_container_map st m) in *.
  assert (L2 : logs st [] [] (if ctrue ret && negb (ret =? - EEXIST)
    then io_latency_fail IO_LATENCY_GROUP_RELEASE_FAILED ret st1 else st1)).
  { case_match; [|done]. apply (logs_trans _ _ _ [] [] [] [] L1), io_latency_fail_logs. }
  revert L2. generalize (if ctrue ret && negb (ret =? - EEXIST)
    then io_latency_fail IO_LATENCY_GROUP_RELEASE_FAILED ret st1 else st1). intros st2 L2.
  destruct (bpf_map_delete_elem _ _) as [ret' m'].
  assert (L3 : logs st [] [] (set_group_map st2 m')).
  { apply (logs_trans _ _ _ [] [] [] [] L2). by apply logs_refl. }
  case_match; [|done]. apply (logs_trans _ _ _ [] [] [] [] L3), io_latency_fail_logs.
Qed.

Lemma probe_logs pk kobj attr st : logs st [] [] (probe_queue_stats pk kobj attr st).
Proof. unfold probe_queue_stats. repeat case_match; by apply logs_refl. Qed.

Lemma step_ledger e st :
  event_consistent e -> tracks st -> ledger ident st (event_samples cfg ident e) (il_step cfg e st).
Proof.
  intros Hc Ht. destruct e; cbn [il_step].
  - by apply bio_queue_ledger.
  - by apply bio_remap_ledger.
  - by apply request_remap_ledger.
  - by apply request_complete_ledger.
  - apply ledger_nil, released_logs.
  - apply ledger_nil, probe_logs.
  - apply ledger_nil. by apply logs_refl.
Qed.

Lemma run_ledger events st :
  Forall event_consistent events -> tracks st ->
  ledger ident st (concat (event_samples cfg ident <$> events)) (il_run cfg events st).
Proof.
  intros Hc. revert st. induction Hc as [|e es He Hes IH]; intros st Ht; [apply ledger_refl|].
  pose proof (step_ledger e st He Ht) as Hl. simpl.
  eapply ledger_trans, IH; [done|]. by eapply tracks_ledger.
Qed.
End Events.

(** ** Theorems *)

(** C2: the histograms are a ledger.  After any sequence of hook invocations, in
    any map state and whatever helper errors occur, every host cell of every disk
    has grown, modulo 2^64, by exactly the number of reference samples for it; the
    reference walks each bio chain flatly up to 512 bios and uses no chunks,
    snapshots or map contents.  Every container cell has grown by the number of
    those samples its row owns, where each sample has at most one owner, a
    counter row of the bio's group on the same disk and operation; hence no
    container ever counts a sample its host does not. *)
Theorem iolatency_histograms_are_ledger cfg events st :
  hosts_ok (host_identity st) -> Forall event_consistent events ->
  let samples := concat (event_samples cfg (host_identity st) <$> events) in
  let st' := il_run cfg events st in
  exists owners, Forall2 (owner_fits (host_identity st)) samples owners /\
    (forall disk op x,
       host_cell st' disk op x = host_cell st disk op x +64 occurs (disk, op, x) (snd <$> samples)) /\
    (forall key x,
       cont_cell st' key x = cont_cell st key x +64 occurs (key, x) (owner_samples samples owners)) /\
    (forall disk, host_identity st' disk = host_identity st disk).
Proof.
  intros Hok Hc. cbv zeta.
  destruct (run_ledger cfg (host_identity st) Hok events st Hc) as (owners & Ho & [Hi Hh Hk]);
    [by intros disk|]. eauto.
Qed.

(** C18: the chunked completion walk is the flat one: the first bio plus fifteen
    chunks of 32 and one of 31 visit exactly what a single walk of 512 bios
    visits, the one-bio fast path included; the issued size goes to the first
    bio alone, and the overflow failure is raised exactly when completed bytes
    and bios remain after 512. *)
Theorem completion_walk_flat cfg kr comp bio tail remaining request_bytes issued st :
  bio <> 0 -> 0 < remaining < 2 ^ 32 -> one_bio_request kr bio tail request_bytes ->
  complete_request_bios cfg kr comp bio tail remaining request_bytes issued st =
  let '(l, more) := walk kr 512 bio remaining in
  let st' := complete_walk cfg kr comp issued l st in
  if more then io_latency_fail IO_LATENCY_CHAIN_OVERFLOW 0 st' else st'.
Proof. apply complete_request_bios_flat. Qed.

Lemma occurs_owned row x cells : occurs (row, x) (owned (Some row) cells) = occurs x cells.
Proof.
  induction cells as [|y cells IH]; [done|]. cbn [owned]. rewrite fmap_cons, !occurs_cons.
  f_equal; [repeat case_decide; congruence|done].
Qed.

Lemma attributed_cells cfg kr bio major minor op st cells owner hl st' row x :
  cached cfg kr bio major minor op st row ->
  attributed cfg kr bio major minor op st cells owner -> logs st hl (owned owner cells) st' ->
  cont_cell st' row x = cont_cell st row x +64 occurs x cells.
Proof.
  intros Hc Ha Hl. rewrite (logs_cont _ _ _ _ Hl). f_equal. f_equal.
  destruct cells as [|y cells]; [by destruct owner|]. rewrite (Ha row Hc) by done.
  apply occurs_owned.
Qed.

(** No sample of a known group is lost: once the group of a bio is in the
    identity cache and its row exists, queueing or completing the bio adds to
    that row every sample it adds to the host, decoded from the packed word, in
    whatever state the other maps are. *)
Theorem cached_bio_attributed cfg kr bio disk op get_ns issue_ns now issued h st row :
  lookup_host_counters disk st = Some h -> identity_u32 h ->
  is_u64 get_ns -> is_u64 issue_ns -> is_u64 now ->
  cached cfg kr bio (hc_major h) (hc_minor h) op st row ->
  forall x,
    cont_cell (queue_bio_latency cfg kr bio disk op st) row x =
      cont_cell st row x +64 occurs x (queue_cells kr op bio) /\
    cont_cell (complete_bio_latency cfg kr bio (completion_of h disk op get_ns issue_ns now) issued st)
      row x = cont_cell st row x +64 occurs x (bio_cells kr get_ns issue_ns now issued bio).
Proof.
  intros Hh Hu Hg Hi Hn Hc x. split.
  - destruct (queue_bio_latency_logs cfg kr bio disk op st h Hh) as (owner & _ & Ha & Hl).
    by eapply attributed_cells.
  - destruct (complete_bio_latency_logs cfg kr h disk op get_ns issue_ns now issued bio st)
      as (owner & _ & Ha & Hl); [|done..|by eapply attributed_cells].
    apply enrolled_lookup. by eexists.
Qed.

End Logs.

(** *** A concrete run *)

Definition demo_stamp : stamp_kernel := StampKernel true (fun b => b) false (fun _ => 0).
Definition demo_blk : blkio_kernel := BlkioKernel true (fun _ => 7) (fun _ => 0) (fun _ => 0).
(** Bios 100, 101, ..., 103 of 4096 bytes each, in group 50, on disk 7. *)
Definition demo_kernel : il_kernel :=
  ILKernel demo_stamp demo_blk (fun _ => 4096) (fun b => if b <? 103 then b + 1 else 0) (fun _ => 1)
    (fun _ => 0) (fun _ => 50) 8 (fun _ => 9) true false (fun _ => 0) (fun _ _ => 0) (fun _ => 0)
    (fun _ => 0) true (fun _ => 7) (fun _ => 0) (fun _ => 0) (fun _ => 1) (fun _ => 16384)
    (fun _ => 100) (fun _ => 103) (fun _ => 2000) (fun _ => 3000) true true true (fun _ => 32)
    (fun _ => 0).
Definition demo_config : il_config := ILConfig 0 0 0 10 1.
Definition demo_state : il_state :=
  ILState (Some (Status 0 0)) (FaultyHash ∅ 4 []) (FaultyHash {[7 := HostCounters 8 1 ∅ 0]} 4 [])
    (FaultyHash ∅ 4 [Some TBusy]) (FaultyHash ∅ 1 []).
(** The first container insertion fails with -EBUSY. *)
Definition demo_events : list il_event :=
  [EvBioQueue demo_kernel (fun _ => 100);
   EvRequestComplete demo_kernel (fun i => if i =? 2 then 12288 else 5) 400000].

Lemma iolatency_histograms_are_ledger_witness :
  host_cell (il_run demo_config demo_events demo_state) 7 1 (CLat IO_LATENCY_STAGE_D2C 3) = 3 /\
  host_cell (il_run demo_config demo_events demo_state) 7 1 (CQueued 0) = 1 /\
  length (concat (event_samples demo_config (host_identity demo_state) <$> demo_events)) = 10%nat.
Proof.
  destruct (iolatency_histograms_are_ledger demo_config demo_events demo_state)
    as (owners & _ & Hh & _).
  - intros disk major minor scsi. unfold host_identity. simpl. rewrite lookup_singleton.
    case_decide; [|done]. simpl. intros [= <- <- <-]. unfold is_u32. lia.
  - repeat constructor. done.
  - rewrite !Hh. split; [vm_compute; reflexivity|split; vm_compute; reflexivity].
Defined.

(** Group 58 is cached with serial 9 and its row for disk 8:1, writes, exists. *)
Definition demo_cached_state : il_state :=
  ILState (Some (Status 0 0)) (FaultyHash {[58 := GroupState 9]} 4 [])
    (FaultyHash {[7 := HostCounters 8 1 ∅ 0]} 4 [])
    (FaultyHash {[ContainerKey 58 9 8 1 1 0 := zero_latency_counters]} 4 []) (FaultyHash ∅ 1 []).

Lemma cached_bio_attributed_witness :
  cont_cell (complete_bio_latency demo_config demo_kernel 100
    (completion_of (HostCounters 8 1 ∅ 0) 7 1 2000 3000 400000) 4096 demo_cached_state)
    (ContainerKey 58 9 8 1 1 0) (CIssued 0) = 1.
Proof.
  destruct (cached_bio_attributed demo_config demo_kernel 100 7 1 2000 3000 400000 4096
    (HostCounters 8 1 ∅ 0) demo_cached_state (ContainerKey 58 9 8 1 1 0)) with (x := CIssued 0)
    as [_ H].
  - reflexivity.
  - split; unfold is_u32; simpl; lia.
  - unfold is_u64; lia.
  - unfold is_u64; lia.
  - unfold is_u64; lia.
  - split; [done|]. exists (GroupState 9). split; [reflexivity|]. split; [done|].
    split; [reflexivity|]. eexists. reflexivity.
  - rewrite H. vm_compute. reflexivity.
Defined.

Lemma completion_walk_flat_witness :
  host_cell (complete_request_bios demo_config demo_kernel
    (completion_of (HostCounters 8 1 ∅ 0) 7 1 2000 3000 400000) 100 103 12288 16384 0 demo_state)
    7 1 (CLat IO_LATENCY_STAGE_D2C 3) = 3.
Proof.
  rewrite completion_walk_flat by (unfold one_bio_request; intros; lia). vm_compute. reflexivity.
Defined.

End IoLatLedger.
