(* ===== verification/IoLatIdentity.v ===== *)
(** * IO latency tracer: identity, failures and probes

    The group identity cache of [IoLatency] over any run, what a release
    publishes, which failures a run can report, the queue probe, and the startup
    probes of [bpf/iolatency_probe.c]. *)

From Stdlib Require Import ZArith Lia.
From stdpp Require Import base option list gmap tactics countable.
From S2P Require Import Prelude BpfMap IoControl IoLatHist IoLatency.

Local Open Scope Z_scope.
Local Open Scope bpf_scope.

Module IoLatIdentity.
Export IoLatency.

(** ** Startup probe of initialized software encryption *)

Definition IO_LATENCY_CRYPTO_PENDING : Z := 0.
Definition IO_LATENCY_CRYPTO_UNUSED : Z := 1.
Definition IO_LATENCY_CRYPTO_INITIALIZED : Z := 2.
Definition IO_LATENCY_CRYPTO_MODE_CAPACITY : nat := 64.

(** The loop from index [i] with [n] iterations left.  [read] is
    [bpf_probe_read] of one byte: its result and the byte. *)
Fixpoint crypto_loop (read : Z -> Z * Z) (tfms_inited modes : Z) (n : nat) (i completed : Z) : Z :=
  match n with
  | O => completed
  | S n =>
      if modes <=? i then completed
      else
        let '(ret, initialized) := read (tfms_inited +64 i) in
        if ctrue ret then ret
        else crypto_loop read tfms_inited modes n (i + 1)
               (if ctrue (u8 initialized) then IO_LATENCY_CRYPTO_INITIALIZED else completed)
  end.

(** [result] is the one entry of [io_latency_crypto_map], or a failed lookup. *)
Definition probe_crypto_fallback (read : Z -> Z * Z) (tfms_inited modes : Z) (result : option Z)
    : option Z :=
  match result with
  | None => None
  | Some r =>
      if ctrue r then Some r
      else Some (crypto_loop read tfms_inited modes IO_LATENCY_CRYPTO_MODE_CAPACITY 0
                   IO_LATENCY_CRYPTO_UNUSED)
  end.

Section Closure.
Context {M : BpfMapOps} {L : BpfMapLaws M}.
Implicit Types st : il_state.

(** ** Preorders the IO hooks respect

    The queue, remap and completion hooks change the state only by the steps
    below; a preorder that contains these steps contains the hooks. *)

Record io_preorder (R : il_state -> il_state -> Prop) : Prop := IoPreorder {
  io_refl st : R st st;
  io_trans st1 st2 st3 : R st1 st2 -> R st2 st3 -> R st1 st3;
  io_host f p st : R st (host_apply f p st);
  io_cont f key st : R st (container_apply f key st);
  io_row key st : R st (set_container_map st
    (snd (bpf_map_update_elem (blkcg_lat_map st) key zero_latency_counters BPF_NOEXIST)));
  io_group css g st : R st (set_group_map st
    (snd (bpf_map_update_elem (io_latency_group_map st) css g BPF_NOEXIST)));
  io_overflow st : R st (io_latency_fail IO_LATENCY_CHAIN_OVERFLOW 0 st);
  io_insert err st : - 4095 <= err < 0 -> err <> - EEXIST ->
    R st (io_latency_fail IO_LATENCY_GROUP_INSERT_FAILED err st);
}.

Section Hooks.
Context (R : il_state -> il_state -> Prop) (HR : io_preorder R).
Local Notation trans := (io_trans R HR).

Lemma css_serial_closed kr css st : R st (snd (io_latency_css_serial kr css st)).
Proof.
  unfold io_latency_css_serial. destruct (bpf_map_lookup_elem _ css); [apply (io_refl R HR)|].
  simpl. destruct (css_serial_nr kr css =? 0); [apply (io_refl R HR)|].
  pose proof (io_group R HR css (GroupState (css_serial_nr kr css)) st) as Hg.
  pose proof (update_nonzero (io_latency_group_map st) css (GroupState (css_serial_nr kr css))
    BPF_NOEXIST) as He.
  destruct (bpf_map_update_elem _ _ _ _) as [ret m]. simpl in *. case_if; [|done]. zify_bools.
  eapply trans; [exact Hg|]. apply (io_insert R HR); auto.
Qed.

Lemma bio_identity_closed cfg kr bio key st :
  R st (snd (io_latency_bio_identity cfg kr bio key st)).
Proof.
  unfold io_latency_bio_identity. case_if; [apply (io_refl R HR)|].
  pose proof (css_serial_closed kr (io_latency_bio_css cfg kr bio) st) as H.
  destruct (io_latency_css_serial _ _ _) as [sn st']. by case_if.
Qed.

Lemma lookup_container_closed state st : R st (snd (lookup_container_counters state st)).
Proof.
  unfold lookup_container_counters. case_if; [apply (io_refl R HR)|].
  case_match; [apply (io_refl R HR)|].
  pose proof (io_row R HR (ContainerKey (ck_blkcg state) (ck_serial state) (ck_major state)
     (ck_minor state) (ck_operation state) 0) st) as Hl.
  destruct (bpf_map_update_elem _ _ _ _) as [ret m]. simpl in *. case_if; [done|]. by case_match.
Qed.

Lemma queue_bio_closed cfg kr bio disk op st : R st (queue_bio_latency cfg kr bio disk op st).
Proof.
  unfold queue_bio_latency. case_if; [apply (io_refl R HR)|].
  destruct (lookup_host_counters disk st) as [h|]; [|apply (io_refl R HR)].
  destruct (_ =? 0); [apply (io_refl R HR)|].
  set (st1 := host_apply _ _ st). assert (H1 : R st st1) by apply (io_host R HR).
  pose proof (bio_identity_closed cfg kr bio
    (ContainerKey 0 0 (hc_major h) (hc_minor h) (u32 op) 0) st1) as H2.
  destruct (io_latency_bio_identity _ _ _ _ _) as [series st2]. simpl in H2.
  assert (H3 : R st st2) by (by eapply trans). case_if; [done|].
  pose proof (lookup_container_closed series st2) as H4.
  destruct (lookup_container_counters series st2) as [[row|] st3]; simpl in H4.
  - eapply trans; [by eapply trans|]. apply (io_cont R HR).
  - by eapply trans.
Qed.

Lemma account_closed host stage s e st : R st (snd (account_io_latency host stage s e st)).
Proof. unfold account_io_latency. case_if; [apply (io_refl R HR)|apply (io_host R HR)]. Qed.

Lemma if_closed (b : bool) st st' f : R st st' -> (forall s, R s (f s)) -> R st (if b then f st' else st').
Proof. intros. destruct b; [by eapply trans|done]. Qed.

Lemma completed_container_closed cfg kr bio disk op packed st :
  R st (account_completed_container cfg kr bio disk op packed st).
Proof.
  unfold account_completed_container. destruct (packed =? _); [apply (io_refl R HR)|].
  pose proof (bio_identity_closed cfg kr bio
    (ContainerKey 0 0 (u32 (Z.shiftr disk 32)) (u32 disk) (u32 op) 0) st) as H2.
  destruct (io_latency_bio_identity _ _ _ _ _) as [series st2].
  pose proof (lookup_container_closed series st2) as H4.
  destruct (lookup_container_counters series st2) as [[row|] st3]; cbn [snd] in *; [|by eapply trans].
  assert (H : R st st3) by (by eapply trans).
  do 4 (apply if_closed; [|intros; apply (io_cont R HR)]). done.
Qed.

Lemma complete_bio_closed cfg kr bio comp issued st :
  R st (complete_bio_latency cfg kr bio comp issued st).
Proof.
  unfold complete_bio_latency.
  assert (H1 : forall b st' size, R st st' -> R st (snd (if b : bool then (size,
    host_apply (fun c => increment_io_size c IO_SIZE_POINT_ISSUE size) (cp_host comp) st')
    else (-1, st')))).
  { intros [] st' size ?; simpl; [|done]. eapply trans; [done|apply (io_host R HR)]. }
  specialize (H1 (ctrue issued) st (io_size_bucket issued) (io_refl R HR st)).
  destruct (if ctrue issued then _ else _) as [size st1]. simpl in H1.
  assert (H2 : R st (snd (if u32 (cp_d2c_bucket comp) <? IO_LATENCY_BUCKETS then
    (u32 (cp_d2c_bucket comp), host_apply (fun c => increment_latency c IO_LATENCY_STAGE_D2C
       (u32 (cp_d2c_bucket comp))) (cp_host comp) st1) else (255, st1)))).
  { case_match; simpl; [|done]. eapply trans; [done|apply (io_host R HR)]. }
  destruct (if u32 _ <? _ then _ else _) as [d2c st2]. simpl in H2.
  set (q := io_latency_bio_queue_ns _ _ _).
  assert (H3 : R st (snd (if ctrue q then
      let '(q2g, st) := account_io_latency (cp_host comp) IO_LATENCY_STAGE_Q2G q
                          (cp_get_request_ns comp) st2 in
      let '(q2d, st) := account_io_latency (cp_host comp) IO_LATENCY_STAGE_Q2D q
                          (cp_issue_ns comp) st in
      (q2g, q2d, st) else (-1, -1, st2)))).
  { destruct (ctrue q); [|done].
    pose proof (account_closed (cp_host comp) IO_LATENCY_STAGE_Q2G q (cp_get_request_ns comp) st2) as A1.
    destruct (account_io_latency _ _ _ _ st2) as [q2g st3].
    pose proof (account_closed (cp_host comp) IO_LATENCY_STAGE_Q2D q (cp_issue_ns comp) st3) as A2.
    destruct (account_io_latency _ _ _ _ st3) as [q2d st4]. simpl in *.
    eapply trans; [exact H2|]. by eapply trans. }
  destruct (if ctrue q then _ else _) as [[q2g q2d] st5]. simpl in H3.
  eapply trans; [exact H3|apply completed_container_closed].
Qed.

Lemma complete_loop_closed cfg kr n comp old bio remaining st :
  R st (snd (complete_bio_loop cfg kr n comp old bio remaining st)).
Proof.
  revert bio remaining st. induction n as [|n IH]; intros; simpl; [apply (io_refl R HR)|].
  destruct (bio =? 0); [apply (io_refl R HR)|]. destruct (_ <? _); [apply (io_refl R HR)|].
  destruct (_ =? 0); [apply complete_bio_closed|].
  eapply trans; [apply complete_bio_closed|apply IH].
Qed.

Lemma complete_chunks_closed cfg kr n i comp cur st :
  R st (snd (complete_chunks cfg kr n i comp cur st)).
Proof.
  revert i cur st. induction n as [|n IH]; intros; cbn [complete_chunks]; [apply (io_refl R HR)|].
  destruct (cur_bio cur =? 0); [apply (io_refl R HR)|]. unfold complete_bio_chunk.
  set (lim := Z.to_nat _).
  pose proof (complete_loop_closed cfg kr lim comp cur (cur_bio cur) (cur_remaining cur) st) as H.
  destruct (complete_bio_loop _ _ _ _ _ _ _ _) as [[go cur'] st']. destruct go; [|done].
  eapply trans; [exact H|apply IH].
Qed.

Lemma request_bios_closed cfg kr comp bio tail remaining request_bytes issued st :
  R st (complete_request_bios cfg kr comp bio tail remaining request_bytes issued st).
Proof.
  unfold complete_request_bios.
  destruct ((remaining =? request_bytes) && (bio =? tail)); [apply complete_bio_closed|]. cbv zeta.
  destruct (remaining <? _); [apply (io_refl R HR)|].
  set (st1 := complete_bio_latency _ _ _ _ _ _). assert (H1 : R st st1) by apply complete_bio_closed.
  destruct (_ =? 0); [done|]. set (k := Z.to_nat _). set (cur0 := Cursor _ _).
  pose proof (complete_chunks_closed cfg kr k 0 comp cur0 st1) as H2.
  destruct (complete_chunks _ _ _ _ _ _ _) as [[cur|] st2]; cbn [snd] in H2; [|by eapply trans].
  apply if_closed; [by eapply trans|intros; apply (io_overflow R HR)].
Qed.

Lemma request_complete_closed cfg kr args now st :
  R st (trace_request_complete cfg kr args now st).
Proof.
  unfold trace_request_complete. repeat (case_match; [apply (io_refl R HR)|]).
  destruct (lookup_host_counters _ st) as [h|]; [|apply (io_refl R HR)].
  destruct (rq_bio kr (args 0) =? 0); [apply (io_refl R HR)|]. apply request_bios_closed.
Qed.

Lemma bio_queue_closed cfg kr args st : R st (trace_bio_queue cfg kr args st).
Proof.
  unfold trace_bio_queue, queue_bio_on_disk. destruct (_ =? 0); [apply (io_refl R HR)|].
  destruct (opf_follows_device kr).
  - destruct (ctrue (if bi_disk_exists _ then _ else _)); [apply queue_bio_closed|apply (io_refl R HR)].
  - destruct (ctrue _); [apply queue_bio_closed|apply (io_refl R HR)].
Qed.

Lemma bio_remap_closed cfg kr args st : R st (trace_bio_remap cfg kr args st).
Proof.
  unfold trace_bio_remap, queue_bio_on_disk. destruct (_ && _); [|apply (io_refl R HR)].
  destruct (ctrue _); [apply queue_bio_closed|apply (io_refl R HR)].
Qed.

Lemma remap_loop_closed cfg kr n bio disk op st :
  R st (snd (queue_remapped_loop cfg kr n bio disk op st)).
Proof.
  revert bio st. induction n as [|n IH]; intros; simpl; [apply (io_refl R HR)|].
  destruct (bio =? 0); [apply (io_refl R HR)|]. eapply trans; [apply queue_bio_closed|apply IH].
Qed.

Lemma remap_chunks_closed cfg kr n bio disk op st :
  R st (snd (remap_chunks cfg kr n bio disk op st)).
Proof.
  revert bio st. induction n as [|n IH]; intros; cbn [remap_chunks]; [apply (io_refl R HR)|].
  destruct (bio =? 0); [apply (io_refl R HR)|]. unfold queue_remapped_bios. set (k := Z.to_nat _).
  pose proof (remap_loop_closed cfg kr k bio disk op st) as H.
  destruct (queue_remapped_loop _ _ _ _ _ _ _). eapply trans; [exact H|apply IH].
Qed.

Lemma request_remap_closed cfg kr args st : R st (trace_request_remap cfg kr args st).
Proof.
  unfold trace_request_remap. destruct (_ =? 0); [apply (io_refl R HR)|].
  destruct (lookup_host_counters _ st); [|apply (io_refl R HR)].
  destruct (_ || _); [apply (io_refl R HR)|]. set (op := Z.land _ _). set (k := Z.to_nat _).
  pose proof (remap_chunks_closed cfg kr k (rq_bio kr (io_latency_pointer_argument args
    (block_rq_remap_request_arg cfg))) (io_latency_request_disk kr (io_latency_pointer_argument args
    (block_rq_remap_request_arg cfg))) op st) as H.
  destruct (remap_chunks _ _ _ _ _ _ _) as [bio st']. simpl in H.
  apply if_closed; [done|intros; apply (io_overflow R HR)].
Qed.
End Hooks.

(** ** Identity cache *)

Definition cached_serial st (css : Z) : option io_latency_group_state :=
  bpf_map_lookup_elem (io_latency_group_map st) css.

Definition keeps_identity (css : Z) st st' : Prop :=
  forall g, cached_serial st css = Some g -> cached_serial st' css = Some g.

Lemma fail_maps reason err st :
  io_latency_group_map (io_latency_fail reason err st) = io_latency_group_map st /\
  blkcg_lat_map (io_latency_fail reason err st) = blkcg_lat_map st /\
  blkdisk_lat_map (io_latency_fail reason err st) = blkdisk_lat_map st.
Proof. unfold io_latency_fail. by case_match. Qed.

Lemma keeps_identity_io css : io_preorder (keeps_identity css).
Proof.
  unfold keeps_identity, cached_serial. split; try done; intros.
  - auto.
  - unfold host_apply. by case_match.
  - unfold container_apply. by case_match.
  - simpl. by apply bm_noexist_preserves.
  - by destruct (fail_maps IO_LATENCY_GROUP_INSERT_FAILED err st) as [-> _].
Qed.

(** A release, unfolded: the end row, then the cache entry; a failure of either
    that is not tolerated is reported. *)
Lemma released_cases css st g :
  cached_serial st css = Some g -> serial g <> 0 ->
  let key := ContainerKey css (serial g) 0 0 0 IO_LATENCY_CSS_RELEASED in
  let up := bpf_map_update_elem (blkcg_lat_map st) key zero_latency_counters BPF_NOEXIST in
  let del := bpf_map_delete_elem (io_latency_group_map st) css in
  let report ret tolerated s :=
    if ctrue ret && negb (ret =? - tolerated)
    then io_latency_fail IO_LATENCY_GROUP_RELEASE_FAILED ret s else s in
  let st' := io_latency_css_released css st in
  io_latency_group_map st' = snd del /\ blkcg_lat_map st' = snd up /\
  il_status st' = il_status (report (fst del) ENOENT (report (fst up) EEXIST st)).
Proof.
  intros Hg Hs. cbv zeta. unfold io_latency_css_released. unfold cached_serial in Hg. rewrite Hg.
  rewrite (proj2 (Z.eqb_neq _ 0) Hs). destruct (bpf_map_update_elem _ _ _ _) as [r1 m1]. cbn [fst snd].
  unfold io_latency_fail. destruct (ctrue r1 && negb (r1 =? - EEXIST)), (r1 =? - EBUSY);
    cbn [io_latency_group_map blkcg_lat_map set_container_map set_il_status];
    destruct (bpf_map_delete_elem _ _) as [r2 m2]; cbn [fst snd];
    destruct (ctrue r2 && negb (r2 =? - ENOENT)), (r2 =? - EBUSY); done.
Qed.

Lemma released_other css css' st :
  css' <> css -> cached_serial (io_latency_css_released css' st) css = cached_serial st css.
Proof.
  intros Hne. destruct (cached_serial st css') as [g|] eqn:Hg.
  - destruct (Z.eq_dec (serial g) 0) as [E|E].
    + unfold io_latency_css_released. unfold cached_serial in Hg. by rewrite Hg, E.
    + destruct (released_cases css' st g Hg E) as (H1 & _). unfold cached_serial.
      rewrite H1. by apply bm_delete_ne.
  - unfold io_latency_css_released. unfold cached_serial in Hg. by rewrite Hg.
Qed.

Definition is_release (css : Z) (e : il_event) : Prop :=
  match e with EvCssReleased c => c = css | _ => False end.

Lemma step_keeps_identity cfg css e st :
  ~ is_release css e -> keeps_identity css st (il_step cfg e st).
Proof.
  intros Hr. destruct e; cbn [il_step].
  - apply bio_queue_closed, keeps_identity_io.
  - apply bio_remap_closed, keeps_identity_io.
  - apply request_remap_closed, keeps_identity_io.
  - apply request_complete_closed, keeps_identity_io.
  - intros g Hg. by rewrite released_other.
  - intros g Hg. unfold probe_queue_stats. by repeat case_match.
  - by intros g Hg.
Qed.

(** ** Failure reports *)

(** The failures the program can report: an overlong chain, or a group insertion
    or release that failed with an errno other than -EBUSY. *)
Definition reported (w : Z) : Prop :=
  w = failure_word IO_LATENCY_CHAIN_OVERFLOW 0 \/
  exists reason err, w = failure_word reason err /\
    (reason = IO_LATENCY_GROUP_INSERT_FAILED \/ reason = IO_LATENCY_GROUP_RELEASE_FAILED) /\
    - 4095 <= err < 0 /\ err <> - EBUSY.

Definition failure_known (s : option io_control_status) : Prop :=
  match s with None => True | Some s => failure s = 0 \/ reported (failure s) end.

Definition keeps_known st st' : Prop := failure_known (il_status st) -> failure_known (il_status st').

Lemma fail_keeps_known reason err st :
  reason = IO_LATENCY_GROUP_INSERT_FAILED \/ reason = IO_LATENCY_GROUP_RELEASE_FAILED ->
  - 4095 <= err < 0 -> keeps_known st (io_latency_fail reason err st).
Proof.
  intros Hr He Hk. unfold io_latency_fail. destruct (Z.eqb_spec err (- EBUSY)); [done|].
  destruct (il_status st); [|done]. right. right. eauto 10.
Qed.

Lemma keeps_known_io : io_preorder keeps_known.
Proof.
  split; unfold keeps_known; try done; intros.
  - auto.
  - unfold host_apply. by case_match.
  - unfold container_apply. by case_match.
  - unfold io_latency_fail. simpl. destruct (il_status st); [|done]. right. by left.
  - apply fail_keeps_known; auto.
Qed.

Lemma device_hook_failure names e s :
  failure_known s -> failure_known (device_hook names e s).
Proof.
  destruct e, s as [s|]; cbn; unfold io_control_device_removed, io_control_device_changed,
    io_control_disk_added, io_control_note_device_change; repeat case_match; done.
Qed.

Lemma released_keeps_known css st : keeps_known st (io_latency_css_released css st).
Proof.
  intros Hk. destruct (cached_serial st css) as [g|] eqn:Hg.
  2:{ unfold io_latency_css_released. unfold cached_serial in Hg. by rewrite Hg. }
  destruct (Z.eq_dec (serial g) 0) as [E|E].
  { unfold io_latency_css_released. unfold cached_serial in Hg. by rewrite Hg, E. }
  destruct (released_cases css st g Hg E) as (_ & _ & Hst). cbv zeta in Hst. rewrite Hst. clear Hst.
  assert (Hrep : forall ret tol s, - 4095 <= ret <= 0 -> failure_known (il_status s) ->
    failure_known (il_status (if ctrue ret && negb (ret =? - tol)
      then io_latency_fail IO_LATENCY_GROUP_RELEASE_FAILED ret s else s))).
  { intros ret tol s Hr Hs. case_if; [|done]. zify_bools. apply fail_keeps_known; auto; lia. }
  apply Hrep; [apply delete_errno|]. apply Hrep; [apply update_errno|done].
Qed.

Lemma step_keeps_known cfg e st : keeps_known st (il_step cfg e st).
Proof.
  destruct e; cbn [il_step].
  - apply bio_queue_closed, keeps_known_io.
  - apply bio_remap_closed, keeps_known_io.
  - apply request_remap_closed, keeps_known_io.
  - apply request_complete_closed, keeps_known_io.
  - apply released_keeps_known.
  - unfold keeps_known, probe_queue_stats. by repeat case_match.
  - intros Hk. by apply device_hook_failure.
Qed.

(** ** Queue probe *)

(** Every failed read reports a negative errno. *)
Definition errs_negative (pk : probe_kernel) : Prop :=
  (forall d e, disk_queue pk d = inl e -> e < 0) /\
  (forall q e, queue_mq_ops pk q = inl e -> e < 0) /\
  (forall q e, queue_stats pk q = inl e -> e < 0) /\
  (forall s e, stats_callbacks_next pk s = inl e -> e < 0) /\
  (forall s e, stats_accounting pk s = inl e -> e < 0) /\
  (forall s e, stats_enable_accounting pk s = inl e -> e < 0) /\
  (forall d e, disk_major pk d = inl e -> e < 0) /\
  (forall d e, disk_first_minor pk d = inl e -> e < 0).

(** A published value: an errno, a skipped NVMe path, or a verdict with the disk. *)
Definition probe_verdict (pk : probe_kernel) (name : list Z) (parent : Z)
    (r : iolatency_queue_probe_result) : Prop :=
  let disk := io_latency_device_disk pk (parent -64 device_kobj_offset pk) in
  (pr_result r < 0 /\ r = ProbeResult (pr_result r) 0 0 0) \/
  (r = ProbeResult IO_LATENCY_PROBE_SKIPPED 0 0 0 /\ nvme_name name = true) \/
  ((pr_result r = IO_LATENCY_PROBE_SUPPORTED \/ pr_result r = IO_LATENCY_PROBE_DISABLED) /\
   pr_disk r = disk /\ disk <> 0).

Lemma or_failed_verdict pk name parent r k :
  (forall e, r = inl e -> e < 0) ->
  (forall v, r = inr v -> probe_verdict pk name parent (k v)) ->
  probe_verdict pk name parent (or_failed r k).
Proof. intros He Hk. destruct r; simpl; [left; split; [by apply He|done]|by apply Hk]. Qed.

Lemma probe_queue_result_verdict pk name parent :
  errs_negative pk -> probe_verdict pk name parent (probe_queue_result pk name parent).
Proof.
  intros (H1 & H2 & H3 & H4 & H5 & H6 & H7 & H8). unfold probe_queue_result.
  destruct (Z.eqb_spec (io_latency_device_disk pk (parent -64 device_kobj_offset pk)) 0); [by left|].
  apply or_failed_verdict; [apply H1|]. intros q _.
  match goal with |- probe_verdict _ _ _ (if _ then _ else ?rest) =>
    assert (Hrest : probe_verdict pk name parent rest) end.
  { apply or_failed_verdict; [apply H3|]. intros stats _.
    apply or_failed_verdict; [apply H4|]. intros next _.
    apply or_failed_verdict; [destruct (accounting_exists pk); [apply H5|apply H6]|]. intros acc _.
    apply or_failed_verdict; [apply H7|]. intros major _.
    apply or_failed_verdict; [apply H8|]. intros minor _.
    right. right. case_match; simpl; auto. }
  destruct (nvme_name name) eqn:En; [|done].
  apply or_failed_verdict; [apply H2|]. intros ops _.
  destruct (ops =? 0); [right; by left|exact Hrest].
Qed.

(** ** Theorems *)

(** C33: a cached group identity is stable: along any run without a release of the
    group, its cached serial never changes, whatever serials the kernel shows at
    the same address later and whatever map errors occur, so all rows of the
    group's lifetime share one key. *)
Theorem css_identity_stable cfg css g events st :
  cached_serial st css = Some g -> Forall (fun e => ~ is_release css e) events ->
  cached_serial (il_run cfg events st) css = Some g.
Proof.
  intros Hg Hes. revert st Hg. induction Hes as [|e es He Hes IH]; intros st Hg; [done|].
  apply IH. by apply step_keeps_identity.
Qed.

(** Releasing a cached group publishes its end row and forgets the identity:
    if neither map helper reports an error beyond -EEXIST and -ENOENT, the end
    row of that serial is in the container map, the cache entry is gone and the
    status is untouched; no other group and no existing row changes in any case,
    and any other error but -EBUSY is reported as a release failure. *)
Theorem release_publishes_end_row css g st :
  cached_serial st css = Some g -> serial g <> 0 ->
  let key := ContainerKey css (serial g) 0 0 0 IO_LATENCY_CSS_RELEASED in
  let r1 := fst (bpf_map_update_elem (blkcg_lat_map st) key zero_latency_counters BPF_NOEXIST) in
  let r2 := fst (bpf_map_delete_elem (io_latency_group_map st) css) in
  let st' := io_latency_css_released css st in
  ((r1 = 0 \/ r1 = - EEXIST) -> is_Some (bpf_map_lookup_elem (blkcg_lat_map st') key)) /\
  ((r2 = 0 \/ r2 = - ENOENT) -> cached_serial st' css = None) /\
  ((r1 = 0 \/ r1 = - EEXIST) -> (r2 = 0 \/ r2 = - ENOENT) -> il_status st' = il_status st) /\
  (forall c, c <> css -> cached_serial st' c = cached_serial st c) /\
  (forall k c, bpf_map_lookup_elem (blkcg_lat_map st) k = Some c ->
     bpf_map_lookup_elem (blkcg_lat_map st') k = Some c) /\
  (r2 <> 0 -> r2 <> - ENOENT -> r2 <> - EBUSY -> is_Some (il_status st) ->
     status_unhealthy (il_status st') = true).
Proof.
  intros Hg Hs. cbv zeta. destruct (released_cases css st g Hg Hs) as (Hgm & Hcm & Hst).
  cbv zeta in *. set (key := ContainerKey css (serial g) 0 0 0 IO_LATENCY_CSS_RELEASED) in *.
  unfold cached_serial. rewrite Hgm, Hcm, Hst. clear Hgm Hcm Hst.
  split; [|split; [|split; [|split; [|split]]]].
  - intros H. by apply bm_noexist_done; [|left].
  - intros H. rewrite bm_delete_done by done. by case_decide.
  - intros [E1|E1] [E2|E2]; rewrite E1, E2; reflexivity.
  - intros c Hc. by apply bm_delete_ne.
  - intros k c Hk. by apply bm_noexist_preserves.
  - intros H1 H2 H3 Hsome. unfold ctrue.
    rewrite (proj2 (Z.eqb_neq _ 0) H1), (proj2 (Z.eqb_neq _ (- ENOENT)) H2). cbn [negb andb].
    unfold io_latency_fail at 1. rewrite (proj2 (Z.eqb_neq _ (- EBUSY)) H3).
    apply status_fail_unhealthy. unfold IO_LATENCY_GROUP_RELEASE_FAILED. lia.
Qed.

(** A session fails for known reasons only: starting healthy, after any run
    the failure word is zero, the chain overflow, or a group insertion or release
    failure with a genuine errno; -EBUSY from an interrupted map writer never
    fails the session, and neither do the container rows. *)
Theorem iolatency_failure_sources cfg events st s :
  il_status st = Some s -> failure s = 0 ->
  failure_known (il_status (il_run cfg events st)).
Proof.
  intros Hs Hf. assert (Hk : failure_known (il_status st)) by (rewrite Hs; by left). clear Hs Hf.
  revert st Hk. induction events as [|e es IH]; intros st Hk; [done|]. apply IH.
  by apply step_keeps_known.
Qed.

(** The queue probe answers requests only: it never adds or removes a result
    entry, changes no other map and no status, and an entry it changes belongs to
    the disk whose iostats was read and becomes a verdict: a negative errno, a
    skipped NVMe path, or supported/disabled with the disk's address; never the
    pending value. *)
Theorem queue_probe_answers_requests pk kobj attr st :
  errs_negative pk ->
  let st' := probe_queue_stats pk kobj attr st in
  (forall key, is_Some (bpf_map_lookup_elem (io_latency_probe_result st') key) <->
               is_Some (bpf_map_lookup_elem (io_latency_probe_result st) key)) /\
  st' = set_probe_map st (io_latency_probe_result st') /\
  (forall key r, bpf_map_lookup_elem (io_latency_probe_result st') key = Some r ->
     bpf_map_lookup_elem (io_latency_probe_result st) key = Some r \/
     (pr_result r <> 0 /\ exists parent name,
        kobj_parent pk kobj = inr parent /\ kobj_name pk parent = inr name /\
        key = snd (bpf_probe_read_str pk 32 name) /\ probe_verdict pk key parent r)).
Proof.
  intros He. unfold probe_queue_stats.
  assert (Hid : st = set_probe_map st (io_latency_probe_result st)) by (by destruct st).
  destruct (attr_name pk attr) as [?|an]; [by auto|]. destruct (negb _); [by auto|].
  destruct (kobj_parent pk kobj) as [?|parent] eqn:Hp; [by auto|].
  destruct (kobj_name pk parent) as [?|name] eqn:Hn; [by auto|].
  destruct (bpf_probe_read_str pk 32 name) as [ret key] eqn:Hr. destruct (ret <? 0); [by auto|].
  destruct (bpf_map_lookup_elem (io_latency_probe_result st) key) eqn:Hl; [|by auto].
  set (v := probe_queue_result pk key parent). cbn [io_latency_probe_result set_probe_map].
  assert (Hv : probe_verdict pk key parent v) by (by apply probe_queue_result_verdict).
  destruct (Z.eq_dec (fst (bpf_map_update_elem (io_latency_probe_result st) key v BPF_EXIST)) 0) as [E|E].
  - split; [|split; [done|]].
    + intros k. rewrite update_ok by done. case_decide; subst; [|done]. rewrite Hl. split; by eauto.
    + intros k r. rewrite update_ok by done. case_decide; subst; [|by left]. intros [= <-]. right.
      split; [destruct Hv as [[? _]|[[-> _]|[[->| ->] _]]]; [lia|done..]|].
      exists parent, name. by rewrite Hr.
  - split; [intros; by rewrite update_err|]. split; [done|]. intros k r. rewrite update_err by done.
    by left.
Qed.

End Closure.

(** ** Startup probe *)

Lemma crypto_loop_spec read tfms modes n i completed :
  completed = IO_LATENCY_CRYPTO_UNUSED \/ completed = IO_LATENCY_CRYPTO_INITIALIZED ->
  (forall j, fst (read j) <= 0) ->
  let r := crypto_loop read tfms modes n i completed in
  r <> IO_LATENCY_CRYPTO_PENDING /\
  (r = IO_LATENCY_CRYPTO_UNUSED <->
   completed = IO_LATENCY_CRYPTO_UNUSED /\
   forall j, i <= j < i + Z.of_nat n -> j < modes ->
     fst (read (tfms +64 j)) = 0 /\ u8 (snd (read (tfms +64 j))) = 0).
Proof.
  intros Hc Hneg. revert i completed Hc. induction n as [|n IH]; intros i c Hc; simpl.
  { split; [by destruct Hc as [-> | ->]|]. split; [|tauto]. intros ->. split; [done|]. intros. lia. }
  destruct (Z.leb_spec modes i).
  { split; [by destruct Hc as [-> | ->]|]. split; [|tauto]. intros ->. split; [done|]. intros. lia. }
  pose proof (Hneg (tfms +64 i)) as Hn. destruct (read (tfms +64 i)) as [ret b] eqn:Hr. simpl in Hn.
  unfold ctrue. destruct (Z.eqb_spec ret 0) as [->|Hne]; cbn [negb].
  - specialize (IH (i + 1) (if negb (u8 b =? 0) then IO_LATENCY_CRYPTO_INITIALIZED else c)).
    destruct IH as [IH1 IH2]; [case_match; auto|]. split; [done|]. rewrite IH2. clear IH1 IH2. split.
    + intros [H1 H2]. destruct (Z.eqb_spec (u8 b) 0) as [Hb|]; [|done]. split; [done|].
      intros j Hj Hm. destruct (Z.eq_dec j i) as [->|]; [by rewrite Hr|]. apply H2; lia.
    + intros [-> H2]. destruct (H2 i) as [_ Hb]; [lia..|]. rewrite Hr in Hb. simpl in Hb.
      rewrite Hb. split; [done|]. intros. apply H2; lia.
  - split; [unfold IO_LATENCY_CRYPTO_PENDING; lia|]. split.
    + unfold IO_LATENCY_CRYPTO_UNUSED. lia.
    + intros [_ H2]. destruct (H2 i) as [Hf _]; [lia..|]. by rewrite Hr in Hf.
Qed.

(** The encryption probe publishes one complete observation: a published
    result is never replaced; a pending one becomes "unused" exactly when every
    mode of the array (up to 64) was read successfully and is zero, and it never
    stays pending. *)
Theorem crypto_probe_complete read tfms modes r :
  (forall j, fst (read j) <= 0) ->
  exists r', probe_crypto_fallback read tfms modes (Some r) = Some r' /\
    (r <> IO_LATENCY_CRYPTO_PENDING -> r' = r) /\
    (r = IO_LATENCY_CRYPTO_PENDING ->
       r' <> IO_LATENCY_CRYPTO_PENDING /\
       (r' = IO_LATENCY_CRYPTO_UNUSED <->
        forall j, 0 <= j < 64 -> j < modes ->
          fst (read (tfms +64 j)) = 0 /\ u8 (snd (read (tfms +64 j))) = 0)).
Proof.
  intros Hneg. unfold probe_crypto_fallback, ctrue. destruct (Z.eqb_spec r 0) as [->|Hr]; cbn [negb].
  - eexists. split; [done|]. split; [done|]. intros _.
    destruct (crypto_loop_spec read tfms modes IO_LATENCY_CRYPTO_MODE_CAPACITY 0
      IO_LATENCY_CRYPTO_UNUSED) as [H1 H2]; [by left|done|]. split; [done|]. rewrite H2.
    change (0 + Z.of_nat IO_LATENCY_CRYPTO_MODE_CAPACITY) with 64. tauto.
  - exists r. split; [done|]. split; [done|]. intros. done.
Qed.

(** *** Concrete instances *)

Lemma crypto_probe_complete_witness :
  probe_crypto_fallback (fun a => (0, if a =? 1002 then 1 else 0)) 1000 5 (Some 0) = Some 2.
Proof.
  destruct (crypto_probe_complete (fun a => (0, if a =? 1002 then 1 else 0)) 1000 5 0)
    as (r' & H & _ & H2); [simpl; lia|]. rewrite H. destruct H2 as [_ _]; [done|].
  rewrite <- H. reflexivity.
Defined.

Definition id_kernel : il_kernel :=
  ILKernel (StampKernel true (fun b => b) false (fun _ => 0))
    (BlkioKernel true (fun _ => 7) (fun _ => 0) (fun _ => 0)) (fun _ => 4096) (fun _ => 0) (fun _ => 1)
    (fun _ => 0) (fun _ => 50) 8 (fun _ => 10) true false (fun _ => 0) (fun _ _ => 0) (fun _ => 0)
    (fun _ => 0) true (fun _ => 7) (fun _ => 0) (fun _ => 0) (fun _ => 1) (fun _ => 4096)
    (fun _ => 100) (fun _ => 100) (fun _ => 2000) (fun _ => 3000) true true true (fun _ => 8)
    (fun _ => 0).
Definition id_config : il_config := ILConfig 0 0 0 10 1.
(** Group 58 is cached with serial 9; the kernel now shows 10 at that address. *)
Definition id_state : il_state :=
  ILState (Some (Status 0 0)) (FaultyHash {[58 := GroupState 9]} 4 [])
    (FaultyHash {[7 := HostCounters 8 1 ∅ 0]} 4 []) (FaultyHash ∅ 4 [])
    (FaultyHash {[ [115; 100; 97] := ProbeResult 0 0 0 0]} 1 []).

Lemma css_identity_stable_witness :
  cached_serial (il_run id_config
    [EvRequestComplete id_kernel (fun i => if i =? 2 then 4096 else 5) 400000; EvCssReleased 3]
    id_state) 58 = Some (GroupState 9).
Proof.
  apply css_identity_stable; [reflexivity|]. repeat constructor; cbn; [tauto|lia].
Defined.

Lemma release_publishes_end_row_witness :
  is_Some (bpf_map_lookup_elem (blkcg_lat_map (io_latency_css_released 58 id_state))
    (ContainerKey 58 9 0 0 0 IO_LATENCY_CSS_RELEASED)) /\
  cached_serial (io_latency_css_released 58 id_state) 58 = None.
Proof.
  destruct (release_publishes_end_row 58 (GroupState 9) id_state) as (H1 & H2 & _);
    [reflexivity|done|]. split; [apply H1; left; reflexivity|apply H2; left; reflexivity].
Defined.

Lemma iolatency_failure_sources_witness :
  failure_known (il_status (il_run id_config [EvCssReleased 58; EvCssReleased 58] id_state)).
Proof. apply (iolatency_failure_sources _ _ _ (Status 0 0)); reflexivity. Defined.

Definition id_probe : probe_kernel :=
  ProbeKernel (fun _ => inr 1) (fun _ => inr 40) (fun _ => inr 2)
    (fun size a => if a =? 1 then (8, [105; 111; 115; 116; 97; 116; 115; 0])
                   else (4, [115; 100; 97]))
    8 true 8 (fun _ => 7) 0 (fun _ => inr 11) (fun _ => inr 0) (fun _ => inr 12) (fun _ => inr 13) 1
    true (fun _ => inr 0) (fun _ => inr 0) (fun _ => inr 8) (fun _ => inr 1).

Lemma queue_probe_answers_requests_witness :
  bpf_map_lookup_elem (io_latency_probe_result (probe_queue_stats id_probe 30 31 id_state))
    [115; 100; 97] = Some (ProbeResult IO_LATENCY_PROBE_DISABLED 8 1 7) /\
  blkdisk_lat_map (probe_queue_stats id_probe 30 31 id_state) = blkdisk_lat_map id_state.
Proof.
  destruct (queue_probe_answers_requests id_probe 30 31 id_state) as (_ & H & _).
  { unfold errs_negative. repeat split; intros * Hx; discriminate Hx. }
  split; [vm_compute; reflexivity|]. rewrite H. reflexivity.
Defined.

End IoLatIdentity.
