(* ===== verification/Profiler.v ===== *)
(** * Sampling profilers ([bpf/include/bpf_profiler.h], [bpf/include/abi/profiler_types.h],
    [bpf/native_oncpu_profiler.c], [bpf/native_virtual_alloc.c],
    [bpf/native_physical_alloc.c], [bpf/native_physical_usage.c])

    The on-CPU, virtual allocation, physical allocation and physical usage
    profilers share one skeleton: a filter on task and group, an optional random
    filter, a per-CPU event buffer, and two output buffers with two stack maps,
    selected by the parity of a transfer count user space advances.  Module
    [Profiler] models the skeleton and the five programs.  The two output buffers
    are the lists of records handed to the perf ring. *)

From Stdlib Require Import ZArith Lia.
From stdpp Require Import base option list gmap tactics countable.
From S2P Require Import Prelude BpfMap.

Local Open Scope Z_scope.
Local Open Scope bpf_scope.

Module Profiler.

(** ** Records *)

Record profiler_event_base := EventBase {
  pid_tgid : Z;
  comm : list Z;
  kernstack : Z;
  userstack : Z;
  value : Z;
}.

Record profiler_oncpu_event := OnCpuEvent {
  oc_base : profiler_event_base;
  oc_kernel_observed_ns : Z;
  oc_cpu : Z;
  oc_pad0 : Z;
}.

Definition zero_base : profiler_event_base := EventBase 0 [] 0 0 0.
Definition set_value (v : Z) (e : profiler_event_base) : profiler_event_base :=
  EventBase (pid_tgid e) (comm e) (kernstack e) (userstack e) v.

(** Constants user space rewrites at load time. *)
Record profiler_config := ProfilerConfig {
  profiler_filter_css : Z;
  profiler_filter_pid : Z;
  profiler_filter_threads : bool;
  profiler_sampling_prob : Z;
  profiler_idle_class_addr : Z;
  profiler_folio_npages : bool;
}.

(** The two buffers. *)
Inductive ab := BufA | BufB.
#[export] Instance ab_eq_dec : EqDecision ab.
Proof. solve_decision. Defined.

(** What an invocation obtains from the kernel: the helpers' results on this
    CPU and task.  [cx_stackid m user] is [bpf_get_stackid] on the stack map of
    buffer [m]; [cx_output_ret] is what [bpf_perf_event_output] returns. *)
Record prof_ctx := ProfCtx {
  cx_cpu : Z;
  cx_pid_tgid : Z;
  cx_comm : list Z;
  cx_stackid : ab -> bool -> Z;
  cx_cpu_css : Z;
  cx_memory_css : Z;
  cx_sched_class : Z;
  cx_ktime_ns : Z;
  cx_prandom_u32 : Z;
  cx_output_ret : Z;
}.

(** ** The skeleton *)

Definition PROFILER_STATE_TRANSFER_CNT_IDX : Z := 0.
Definition PROFILER_STATE_SAMPLE_CNT_A_IDX : Z := 1.
Definition PROFILER_STATE_SAMPLE_CNT_B_IDX : Z := 2.

Definition profiler_should_trace (cfg : profiler_config) (pid_tgid css : Z) : bool :=
  let tgid := u32 (Z.shiftr pid_tgid 32) in
  let pid := u32 (Z.land pid_tgid 0xffffffff) in
  if ctrue (profiler_filter_css cfg) && negb (css =? profiler_filter_css cfg) then false
  else if profiler_filter_pid cfg =? 0 then true
  else if profiler_filter_threads cfg then tgid =? profiler_filter_pid cfg
  else pid =? profiler_filter_pid cfg.

Definition profiler_should_sample (cfg : profiler_config) (prandom : Z) : bool :=
  if 100 <=? profiler_sampling_prob cfg then true
  else u32 prandom mod 100 <? profiler_sampling_prob cfg.

(** The filled event, and the result: -1 when both stacks failed. *)
Definition profiler_fill_event_base (cx : prof_ctx) (stack_map : ab) (pid_tgid : Z)
    (event : profiler_event_base) : Z * profiler_event_base :=
  let us := s32 (cx_stackid cx stack_map true) in
  let ks := s32 (cx_stackid cx stack_map false) in
  let event := EventBase pid_tgid (cx_comm cx) ks us (value event) in
  (if (us <? 0) && (ks <? 0) then -1 else 0, event).

Definition profiler_copy_event_base (dst src : profiler_event_base) : profiler_event_base :=
  EventBase (pid_tgid src) (comm src) (kernstack src) (userstack src) (value dst).

Section State.
Context {E : Type}.

(** The maps of [DEFINE_PROFILER_MAPS]. *)
Record prof_maps := ProfMaps {
  profiler_state_map : gmap Z Z;
  profiler_output_a : list E;
  profiler_output_b : list E;
  event_buf : option (percpu E);
}.

Definition set_state_map (ps : prof_maps) x :=
  ProfMaps x (profiler_output_a ps) (profiler_output_b ps) (event_buf ps).
Definition set_event_buf (ps : prof_maps) x :=
  ProfMaps (profiler_state_map ps) (profiler_output_a ps) (profiler_output_b ps) x.

Definition output_of (b : ab) (ps : prof_maps) : list E :=
  match b with BufA => profiler_output_a ps | BufB => profiler_output_b ps end.
Definition set_output (b : ab) (l : list E) (ps : prof_maps) : prof_maps :=
  match b with
  | BufA => ProfMaps (profiler_state_map ps) l (profiler_output_b ps) (event_buf ps)
  | BufB => ProfMaps (profiler_state_map ps) (profiler_output_a ps) l (event_buf ps)
  end.

Definition count_idx (b : ab) : Z :=
  match b with BufA => PROFILER_STATE_SAMPLE_CNT_A_IDX | BufB => PROFILER_STATE_SAMPLE_CNT_B_IDX end.

(** The transfer count, when the three state lookups succeed. *)
Definition profiler_init_state (ps : prof_maps) : option Z :=
  match profiler_state_map ps !! PROFILER_STATE_TRANSFER_CNT_IDX,
        profiler_state_map ps !! PROFILER_STATE_SAMPLE_CNT_A_IDX,
        profiler_state_map ps !! PROFILER_STATE_SAMPLE_CNT_B_IDX with
  | Some t, Some _, Some _ => Some t
  | _, _, _ => None
  end.

Definition select_profiler_ab (transfer_count : Z) : ab :=
  if Z.land transfer_count 1 =? 0 then BufA else BufB.

(** Count in the buffer's counter, then output to its ring. *)
Definition profiler_emit_event (cx : prof_ctx) (b : ab) (event : E) (ps : prof_maps) : prof_maps :=
  let ps := set_state_map ps
    (<[count_idx b := default 0 (profiler_state_map ps !! count_idx b) +64 1]>
       (profiler_state_map ps)) in
  set_output b (snd (bpf_perf_event_output (cx_output_ret cx) event (output_of b ps))) ps.
End State.
Arguments prof_maps : clear implicits.

(** The zeroed and filled per-CPU event; [None] when the buffer is missing or
    both stacks failed. *)
Definition profiler_prepare_event_base (cx : prof_ctx) (stack_map : ab) (pid_tgid : Z)
    (ps : prof_maps profiler_event_base)
    : option profiler_event_base * prof_maps profiler_event_base :=
  match event_buf ps with
  | None => (None, ps)
  | Some bufs =>
      let '(err, event) := profiler_fill_event_base cx stack_map pid_tgid zero_base in
      let ps := set_event_buf ps (Some (percpu_set bufs (cx_cpu cx) event)) in
      if err <? 0 then (None, ps) else (Some event, ps)
  end.

(** A store through the event pointer. *)
Definition store_event {E} (cx : prof_ctx) (event : E) (ps : prof_maps E) : prof_maps E :=
  match event_buf ps with
  | None => ps
  | Some bufs => set_event_buf ps (Some (percpu_set bufs (cx_cpu cx) event))
  end.

(** ** On-CPU profiler *)

Definition zero_oncpu : profiler_oncpu_event := OnCpuEvent zero_base 0 0 0.

Definition perf_event_sw_cpu_clock (cfg : profiler_config) (cx : prof_ctx)
    (ps : prof_maps profiler_oncpu_event) : prof_maps profiler_oncpu_event :=
  match profiler_init_state ps with
  | None => ps
  | Some transfer_count =>
      let tgid := u32 (Z.shiftr (cx_pid_tgid cx) 32) in
      let pid := u32 (Z.land (cx_pid_tgid cx) 0xffffffff) in
      if negb (profiler_should_trace cfg (cx_pid_tgid cx) (cx_cpu_css cx)) ||
         (ctrue (profiler_idle_class_addr cfg) &&
          (cx_sched_class cx =? profiler_idle_class_addr cfg)) ||
         ((tgid =? 0) && (pid =? 0))
      then ps
      else
        match event_buf ps with
        | None => ps
        | Some bufs =>
            let event := percpu_get zero_oncpu bufs (cx_cpu cx) in
            let b := select_profiler_ab transfer_count in
            let base := set_value 1 (oc_base event) in
            let '(err, base) := profiler_fill_event_base cx b (cx_pid_tgid cx) base in
            let event := OnCpuEvent base (cx_ktime_ns cx) (u32 (cx_cpu cx)) (oc_pad0 event) in
            let ps := store_event cx event ps in
            if err <? 0 then ps else profiler_emit_event cx b event ps
        end
  end.

(** ** Virtual allocations *)

Definition memory_css (cfg : profiler_config) (cx : prof_ctx) : Z :=
  if ctrue (profiler_filter_css cfg) then cx_memory_css cx else 0.

Definition trace_mmap (cfg : profiler_config) (cx : prof_ctx) (file len : Z)
    (ps : prof_maps profiler_event_base) : prof_maps profiler_event_base :=
  match profiler_init_state ps with
  | None => ps
  | Some transfer_count =>
      if negb (profiler_should_trace cfg (cx_pid_tgid cx) (memory_css cfg cx)) then ps
      else if ctrue file then ps
      else
        let b := select_profiler_ab transfer_count in
        match profiler_prepare_event_base cx b (cx_pid_tgid cx) ps with
        | (None, ps) => ps
        | (Some event, ps) =>
            let event := set_value (s64 len) event in
            profiler_emit_event cx b event (store_event cx event ps)
        end
  end.

(** ** Physical allocations *)

(** The page or folio as the kernel shows it. *)
Record folio_kernel := FolioKernel {
  folio_flags : Z -> option Z;         (* [None]: the probe read failed *)
  folio_nr_pages_exists : bool;
  folio_nr_pages : Z -> Z;
  folio_folio_nr_pages_exists : bool;
  folio_folio_nr_pages : Z -> Z;
  folio_flags_1_exists : bool;
  folio_flags_1 : Z -> Z;
}.

Definition COMPAT_PG_HEAD_BIT : Z := 6.

Definition profiler_folio_nr_pages (fk : folio_kernel) (folio : Z) : Z :=
  match folio_flags fk folio with
  | None => 0
  | Some flags =>
      if negb (ctrue (Z.land flags (1 <<64 COMPAT_PG_HEAD_BIT))) then 1
      else if folio_nr_pages_exists fk then u32 (folio_nr_pages fk folio)
      else if folio_folio_nr_pages_exists fk then u32 (folio_folio_nr_pages fk folio)
      else if negb (folio_flags_1_exists fk) then 0
      else
        (* a 64-bit shift of the machine uses the low six bits of its count *)
        let order := Z.land (folio_flags_1 fk folio) 0xff in
        s64 (1 <<64 Z.land order 63)
  end.

(** The allocation hook of [native_physical_alloc.c]. *)
Definition physical_alloc_trace_page_alloc (cfg : profiler_config) (fk : folio_kernel)
    (cx : prof_ctx) (page : Z) (ps : prof_maps profiler_event_base)
    : prof_maps profiler_event_base :=
  match profiler_init_state ps with
  | None => ps
  | Some transfer_count =>
      if negb (profiler_should_trace cfg (cx_pid_tgid cx) (memory_css cfg cx)) then ps
      else if negb (profiler_should_sample cfg (cx_prandom_u32 cx)) then ps
      else
        let b := select_profiler_ab transfer_count in
        match profiler_prepare_event_base cx b (cx_pid_tgid cx) ps with
        | (None, ps) => ps
        | (Some event, ps) =>
            if profiler_folio_npages cfg then
              let event := set_value (profiler_folio_nr_pages fk page) event in
              let ps := store_event cx event ps in
              if value event <=? 0 then ps else profiler_emit_event cx b event ps
            else
              let event := set_value 1 event in
              profiler_emit_event cx b event (store_event cx event ps)
        end
  end.

(** ** Physical usage *)

Section Usage.
Context {M : BpfMapOps}.

Record usage_state := UsageState {
  us_maps : prof_maps profiler_event_base;
  page_to_stackid : hmap Z profiler_event_base;
}.

(** [native_physical_usage.c] has its own copy of the function, word for word. *)
Definition usage_folio_nr_pages (fk : folio_kernel) (folio : Z) : Z := profiler_folio_nr_pages fk folio.

(** The allocation hook of [native_physical_usage.c]. *)
Definition physical_usage_trace_page_alloc (cfg : profiler_config) (fk : folio_kernel)
    (cx : prof_ctx) (page_addr : Z) (us : usage_state) : usage_state :=
  let ps := us_maps us in
  let keep ps := UsageState ps (page_to_stackid us) in
  match profiler_init_state ps with
  | None => us
  | Some transfer_count =>
      if negb (profiler_should_trace cfg (cx_pid_tgid cx) (memory_css cfg cx)) then us
      else if negb (profiler_should_sample cfg (cx_prandom_u32 cx)) then us
      else
        let b := select_profiler_ab transfer_count in
        let record event ps :=
          UsageState (profiler_emit_event cx b event ps)
            (snd (bpf_map_update_elem (page_to_stackid us) page_addr event BPF_ANY)) in
        match profiler_prepare_event_base cx b (cx_pid_tgid cx) ps with
        | (None, ps) => keep ps
        | (Some event, ps) =>
            if profiler_folio_npages cfg then
              let event := set_value (usage_folio_nr_pages fk page_addr) event in
              let ps := store_event cx event ps in
              if value event <=? 0 then keep ps else record event ps
            else
              let event := set_value 1 event in
              record event (store_event cx event ps)
        end
  end.

(** The free hook; [parm3] is the third argument register. *)
Definition physical_usage_trace_page_free (cfg : profiler_config) (cx : prof_ctx)
    (page_addr parm3 : Z) (us : usage_state) : usage_state :=
  let ps := us_maps us in
  match profiler_init_state ps with
  | None => us
  | Some transfer_count =>
      if negb (profiler_should_trace cfg (cx_pid_tgid cx) (memory_css cfg cx)) then us
      else
        match bpf_map_lookup_elem (page_to_stackid us) page_addr with
        | None => us
        | Some stack_info =>
            match event_buf ps with
            | None => us
            | Some _ =>
                let event := profiler_copy_event_base zero_base stack_info in
                let b := select_profiler_ab transfer_count in
                let emit event m :=
                  UsageState (profiler_emit_event cx b event (store_event cx event ps)) m in
                if profiler_folio_npages cfg then
                  let nr_pages := s32 parm3 in
                  let remaining_pages := s64 (value stack_info - nr_pages) in
                  if remaining_pages =? 0 then
                    emit (set_value (- nr_pages) event)
                      (snd (bpf_map_delete_elem (page_to_stackid us) page_addr))
                  else
                    emit (set_value (- nr_pages) event)
                      (snd (bpf_map_update_elem (page_to_stackid us) page_addr
                              (set_value remaining_pages event) BPF_ANY))
                else
                  emit (set_value (-1) event)
                    (snd (bpf_map_delete_elem (page_to_stackid us) page_addr))
            end
        end
  end.
End Usage.

(** ** Lemmas: one emission *)

Definition other (b : ab) : ab := match b with BufA => BufB | BufB => BufA end.

Section Grows.
Context {E : Type}.
Implicit Types ps : prof_maps E.

Definition count_of (b : ab) ps : Z := default 0 (profiler_state_map ps !! count_idx b).

(** From [ps] to [ps'], only buffer [b] was written: [n] samples counted, and a
    list of accepted records appended, each satisfying [ok]. *)
Record grows (b : ab) (ok : E -> Prop) ps (n : nat) ps' : Prop := Grows {
  grows_state i : i <> count_idx b -> profiler_state_map ps' !! i = profiler_state_map ps !! i;
  grows_dom i : is_Some (profiler_state_map ps !! i) -> is_Some (profiler_state_map ps' !! i);
  grows_count : u64 (count_of b ps') = count_of b ps +64 Z.of_nat n;
  grows_output : exists l, output_of b ps' = output_of b ps ++ l /\ (length l <= n)%nat /\ Forall ok l;
  grows_other : output_of (other b) ps' = output_of (other b) ps;
}.

Lemma grows_quiet b ok ps ps' :
  profiler_state_map ps' = profiler_state_map ps -> (forall c, output_of c ps' = output_of c ps) ->
  grows b ok ps 0 ps'.
Proof.
  intros Hs Ho. split; intros; unfold count_of; rewrite ?Hs, ?Ho; try done; [by rewrite Z.add_0_r|].
  exists []. by rewrite app_nil_r.
Qed.

Lemma grows_trans b (ok ok' : E -> Prop) ps1 n ps2 m ps3 :
  (forall e, ok e -> ok' e) -> grows b ok ps1 n ps2 -> grows b ok' ps2 m ps3 ->
  grows b ok' ps1 (n + m) ps3.
Proof.
  intros Hok [S1 D1 C1 (l1 & O1 & N1 & F1) X1] [S2 D2 C2 (l2 & O2 & N2 & F2) X2].
  split; auto; intros.
  - rewrite S2, S1; auto.
  - rewrite C2, <- u64_add_idemp_l, C1, u64_add_idemp_l. f_equal. lia.
  - exists (l1 ++ l2). rewrite O2, O1, length_app, app_assoc. repeat split; [lia|].
    apply Forall_app. split; [|done]. exact (Forall_impl _ Hok F1).
  - by rewrite X2.
Qed.

Lemma grows_weaken b (ok ok' : E -> Prop) ps n ps' :
  (forall e, ok e -> ok' e) -> grows b ok ps n ps' -> grows b ok' ps n ps'.
Proof.
  intros Hok [S1 D1 C1 (l1 & O1 & N1 & F1) X1]. split; auto. exists l1. repeat split; auto.
  exact (Forall_impl _ Hok F1).
Qed.

Lemma count_idx_inj b c : count_idx b = count_idx c -> b = c.
Proof. by destruct b, c. Qed.

Lemma output_set_output b c l ps :
  output_of c (set_output b l ps) = if decide (b = c) then l else output_of c ps.
Proof. by destruct b, c. Qed.

Lemma state_set_output b l ps : profiler_state_map (set_output b l ps) = profiler_state_map ps.
Proof. by destruct b. Qed.

Lemma emit_grows cx b (ok : E -> Prop) event ps :
  ok event -> grows b ok ps 1 (profiler_emit_event cx b event ps).
Proof.
  intros Hok. unfold profiler_emit_event, bpf_perf_event_output. cbn [snd].
  set (ps1 := set_state_map ps _).
  assert (Ho : forall c, output_of c ps1 = output_of c ps) by (by intros []).
  assert (Hne : b <> other b) by (by destruct b).
  split; intros; unfold count_of; rewrite ?state_set_output, ?output_set_output; cbn [ps1 profiler_state_map set_state_map].
  - by rewrite lookup_insert_ne.
  - rewrite lookup_insert. case_decide; [by eauto|done].
  - rewrite lookup_insert_eq. simpl. by rewrite u64_idemp.
  - rewrite decide_True by done. rewrite Ho. destruct (_ <? 0).
    + exists []. rewrite app_nil_r. repeat split; auto.
    + exists [event]. repeat split; auto.
  - rewrite decide_False by done. apply Ho.
Qed.

Lemma store_event_quiet cx event ps :
  profiler_state_map (store_event cx event ps) = profiler_state_map ps /\
  (forall c, output_of c (store_event cx event ps) = output_of c ps).
Proof. unfold store_event. case_match; [by split; [|intros []]|done]. Qed.

Lemma quiet_emit_grows cx b (ok : E -> Prop) event ps ps1 :
  profiler_state_map ps1 = profiler_state_map ps -> (forall c, output_of c ps1 = output_of c ps) ->
  ok event -> grows b ok ps 1 (profiler_emit_event cx b event ps1).
Proof.
  intros Hs Ho Hok. change 1%nat with (0 + 1)%nat.
  eapply grows_trans, emit_grows; [done| |done]. by apply grows_quiet.
Qed.

(** The selected buffer stays selected. *)
Lemma grows_init_state b ok ps n ps' t :
  grows b ok ps n ps' -> profiler_init_state ps = Some t -> profiler_init_state ps' = Some t.
Proof.
  intros [S D _ _ _]. unfold profiler_init_state.
  rewrite (S PROFILER_STATE_TRANSFER_CNT_IDX) by by destruct b.
  destruct (profiler_state_map ps !! PROFILER_STATE_TRANSFER_CNT_IDX); [|done].
  destruct (profiler_state_map ps !! PROFILER_STATE_SAMPLE_CNT_A_IDX) eqn:HA; [|done].
  destruct (profiler_state_map ps !! PROFILER_STATE_SAMPLE_CNT_B_IDX) eqn:HB; [|done].
  destruct (D PROFILER_STATE_SAMPLE_CNT_A_IDX) as [? ->]; [by eauto|].
  destruct (D PROFILER_STATE_SAMPLE_CNT_B_IDX) as [? ->]; [by eauto|]. done.
Qed.
End Grows.

(** A record of the invocation [cx]: its task passed the filter and its stack ids
    come from the stack map of buffer [b], one of them valid; [css] is the group
    the program filters by. *)
Definition recorded (cfg : profiler_config) (css : prof_ctx -> Z) (b : ab) (cx : prof_ctx)
    (e : profiler_event_base) : Prop :=
  pid_tgid e = cx_pid_tgid cx /\ profiler_should_trace cfg (pid_tgid e) (css cx) = true /\
  kernstack e = s32 (cx_stackid cx b false) /\ userstack e = s32 (cx_stackid cx b true) /\
  (0 <= kernstack e \/ 0 <= userstack e).

Lemma fill_recorded cfg cx b css e0 err e :
  profiler_fill_event_base cx b (cx_pid_tgid cx) e0 = (err, e) -> (err <? 0) = false ->
  profiler_should_trace cfg (cx_pid_tgid cx) (css cx) = true -> recorded cfg css b cx e.
Proof.
  unfold profiler_fill_event_base. intros [= <- <-] Herr Ht. unfold recorded. simpl in *.
  repeat split; eauto. destruct (_ && _) eqn:Eneg; [done|]. zify_bools. lia.
Qed.

Lemma recorded_value cfg css b cx e v :
  recorded cfg css b cx e -> recorded cfg css b cx (set_value v e).
Proof. done. Qed.

Lemma prepare_quiet cx b p ps r ps' :
  profiler_prepare_event_base cx b p ps = (r, ps') ->
  profiler_state_map ps' = profiler_state_map ps /\ (forall c, output_of c ps' = output_of c ps).
Proof.
  unfold profiler_prepare_event_base. destruct (event_buf ps); [|by intros [= <- <-]].
  destruct (profiler_fill_event_base _ _ _ _) as [err e].
  destruct (err <? 0); intros [= <- <-]; (split; [done|by intros []]).
Qed.

Lemma prepare_recorded cfg cx b css ps e ps' :
  profiler_should_trace cfg (cx_pid_tgid cx) (css cx) = true ->
  profiler_prepare_event_base cx b (cx_pid_tgid cx) ps = (Some e, ps') -> recorded cfg css b cx e.
Proof.
  intros Ht. unfold profiler_prepare_event_base. destruct (event_buf ps); [|done].
  destruct (profiler_fill_event_base _ _ _ _) as [err e'] eqn:Hf. destruct (err <? 0) eqn:He; [done|].
  intros [= <- <-]. by eapply fill_recorded.
Qed.

(** *** The programs *)

(** [n] is at most one sample per invocation. *)
Definition one_sample {E} (proj : E -> profiler_event_base) cfg (css : prof_ctx -> Z) (cx : prof_ctx) (b : ab)
    (ps ps' : prof_maps E) : Prop :=
  exists n, (n <= 1)%nat /\ grows b (fun e => recorded cfg css b cx (proj e)) ps n ps'.

Lemma quiet_sample {E} (proj : E -> profiler_event_base) cfg css cx b ps ps' :
  profiler_state_map ps' = profiler_state_map ps -> (forall c, output_of c ps' = output_of c ps) ->
  one_sample proj cfg css cx b ps ps'.
Proof. intros. exists 0%nat. split; [lia|]. by apply grows_quiet. Qed.

Lemma oncpu_sample cfg cx ps t :
  profiler_init_state ps = Some t ->
  one_sample oc_base cfg cx_cpu_css cx (select_profiler_ab t) ps (perf_event_sw_cpu_clock cfg cx ps).
Proof.
  intros Ht. unfold perf_event_sw_cpu_clock. rewrite Ht. case_if; [by apply quiet_sample|].
  destruct (event_buf ps) as [bufs|]; [|by apply quiet_sample].
  destruct (profiler_fill_event_base _ _ _ _) as [err base] eqn:Hf.
  set (event := OnCpuEvent base _ _ _).
  destruct (store_event_quiet cx event ps) as [Hs Ho].
  destruct (err <? 0) eqn:He; [by apply quiet_sample|].
  exists 1%nat. split; [lia|]. apply quiet_emit_grows; [done..|]. zify_bools.
  eapply fill_recorded; [exact Hf|by apply Z.ltb_ge|done].
Qed.

Lemma mmap_sample cfg cx file len ps t :
  profiler_init_state ps = Some t ->
  one_sample id cfg (memory_css cfg) cx (select_profiler_ab t) ps (trace_mmap cfg cx file len ps).
Proof.
  intros Ht. unfold trace_mmap. rewrite Ht. case_if; [by apply quiet_sample|].
  case_if; [by apply quiet_sample|].
  destruct (profiler_prepare_event_base _ _ _ _) as [[e|] ps'] eqn:Hp;
    destruct (prepare_quiet _ _ _ _ _ _ Hp) as [Hs Ho]; [|by apply quiet_sample].
  destruct (store_event_quiet cx (set_value (s64 len) e) ps') as [Hs' Ho'].
  exists 1%nat. split; [lia|]. apply quiet_emit_grows; [congruence|intros; by rewrite Ho', Ho|].
  apply recorded_value. zify_bools. by eapply prepare_recorded.
Qed.

Lemma alloc_sample cfg fk cx page ps t :
  profiler_init_state ps = Some t ->
  one_sample id cfg (memory_css cfg) cx (select_profiler_ab t) ps (physical_alloc_trace_page_alloc cfg fk cx page ps).
Proof.
  intros Ht. unfold physical_alloc_trace_page_alloc. rewrite Ht.
  destruct (profiler_should_trace _ _ _) eqn:Htr; cbn [negb]; [|by apply quiet_sample].
  case_if; [by apply quiet_sample|].
  destruct (profiler_prepare_event_base _ _ _ _) as [[e|] ps'] eqn:Hp;
    destruct (prepare_quiet _ _ _ _ _ _ Hp) as [Hs Ho]; [|by apply quiet_sample].
  assert (Hemit : forall v, one_sample id cfg (memory_css cfg) cx (select_profiler_ab t) ps
    (profiler_emit_event cx (select_profiler_ab t) (set_value v e)
       (store_event cx (set_value v e) ps'))).
  { intros v. destruct (store_event_quiet cx (set_value v e) ps') as [Hs' Ho'].
    exists 1%nat. split; [lia|]. apply quiet_emit_grows; [congruence|intros; by rewrite Ho', Ho|].
    apply recorded_value. by eapply prepare_recorded. }
  destruct (profiler_folio_npages cfg); [|apply Hemit].
  destruct (_ <=? 0); [|apply Hemit].
  destruct (store_event_quiet cx (set_value (profiler_folio_nr_pages fk page) e) ps') as [Hs' Ho'].
  apply quiet_sample; [congruence|intros; by rewrite Ho', Ho].
Qed.

(** ** Runs between two transfers *)

Inductive sampler := OnMmap (file len : Z) | OnPageAlloc (fk : folio_kernel) (page : Z).

Definition sampler_step (cfg : profiler_config) (c : prof_ctx * sampler)
    (ps : prof_maps profiler_event_base) : prof_maps profiler_event_base :=
  match snd c with
  | OnMmap file len => trace_mmap cfg (fst c) file len ps
  | OnPageAlloc fk page => physical_alloc_trace_page_alloc cfg fk (fst c) page ps
  end.

Lemma run_samples {E C} (proj : E -> profiler_event_base) cfg css b (cx_of : C -> prof_ctx)
    (step : C -> prof_maps E -> prof_maps E) t (calls : list C) ps :
  (forall c ps, profiler_init_state ps = Some t -> one_sample proj cfg css (cx_of c) b ps (step c ps)) ->
  profiler_init_state ps = Some t ->
  exists n, (n <= length calls)%nat /\
    grows b (fun e => exists c, c ∈ calls /\ recorded cfg css b (cx_of c) (proj e)) ps n
      (fold_left (fun ps c => step c ps) calls ps).
Proof.
  intros Hstep. revert ps. induction calls as [|c calls IH]; intros ps Ht.
  { exists 0%nat. split; [done|]. by apply grows_quiet. }
  destruct (Hstep c ps Ht) as (n & Hn & Hg).
  destruct (IH (step c ps)) as (m & Hm & Hg'); [by eapply grows_init_state|].
  exists (n + m)%nat. split; [simpl; lia|]. simpl.
  eapply (grows_trans _ (fun e => exists c', c' ∈ c :: calls /\ recorded cfg css b (cx_of c') (proj e))).
  - done.
  - eapply grows_weaken, Hg. intros e He. exists c. split; [left|done].
  - eapply grows_weaken, Hg'. intros e (c' & Hc & Hr). exists c'. split; [by right|done].
Qed.

(** ** Theorems *)

(** The frozen buffer is never written.  While the transfer count keeps its
    value, any sequence of on-CPU samples, and any mix of mmap and page
    allocation samples, writes only the buffer of that parity: the other buffer's
    records and counter and the transfer count keep their values, the selected
    counter grows by the number of samples, at least one per accepted record, and
    every record comes from an invocation whose task passed the filter, with
    stack ids of the same buffer's stack map, at least one of them valid. *)
Theorem frozen_buffer_untouched cfg t oncpu_calls oncpu_maps calls maps :
  profiler_init_state oncpu_maps = Some t -> profiler_init_state maps = Some t ->
  let b := select_profiler_ab t in
  (exists n, (n <= length oncpu_calls)%nat /\
    grows b (fun e => exists cx, cx ∈ oncpu_calls /\ recorded cfg cx_cpu_css b cx (oc_base e)) oncpu_maps n
      (fold_left (fun ps cx => perf_event_sw_cpu_clock cfg cx ps) oncpu_calls oncpu_maps)) /\
  (exists n, (n <= length calls)%nat /\
    grows b (fun e => exists c, c ∈ calls /\ recorded cfg (memory_css cfg) b (fst c) e) maps n
      (fold_left (fun ps c => sampler_step cfg c ps) calls maps)).
Proof.
  intros H1 H2. split.
  - apply (run_samples oc_base cfg cx_cpu_css _ id (perf_event_sw_cpu_clock cfg) t); [|done].
    intros. by apply oncpu_sample.
  - apply (run_samples id cfg (memory_css cfg) _ fst (sampler_step cfg) t); [|done].
    intros [cx [file len|fk page]] ps Ht; [by apply mmap_sample|by apply alloc_sample].
Qed.

Definition demo_cfg : profiler_config := ProfilerConfig 0 42 true 100 0 false.
Definition demo_cx : prof_ctx :=
  ProfCtx 3 (Z.lor (Z.shiftl 42 32) 43) [97] (fun m u => match m with BufA => 10 | BufB => 20 end)
    0 0 0 1000 7 0.
Definition demo_maps {E} : prof_maps E := ProfMaps {[0 := 5; 1 := 2; 2 := 9]} [] [] (Some ∅).

Lemma frozen_buffer_untouched_witness :
  profiler_output_a (fold_left (fun ps c => sampler_step demo_cfg c ps)
    [(demo_cx, OnMmap 0 4096); (demo_cx, OnMmap 1 4096)] demo_maps) = [] /\
  length (profiler_output_b (fold_left (fun ps c => sampler_step demo_cfg c ps)
    [(demo_cx, OnMmap 0 4096); (demo_cx, OnMmap 1 4096)] demo_maps)) = 1%nat.
Proof.
  destruct (frozen_buffer_untouched demo_cfg 5 [] demo_maps
    [(demo_cx, OnMmap 0 4096); (demo_cx, OnMmap 1 4096)] demo_maps) as [_ (n & _ & Hg)];
    [reflexivity|reflexivity|].
  split; [exact (grows_other _ _ _ _ _ Hg)|vm_compute; reflexivity].
Defined.

End Profiler.
