(* ===== verification/ProfilerUsage.v ===== *)
(** * Physical usage profiler: retained pages

    The usage profiler of [Profiler] emits a positive record when a page is
    mapped and negative ones as it is unmapped.  This file proves that the sum of
    everything it emitted is what its page map still retains, up to what failing
    outputs and map writes and pages mapped twice leave out, which a ledger names. *)

From Stdlib Require Import ZArith Lia.
From stdpp Require Import base option list gmap tactics countable.
From S2P Require Import Prelude BpfMap Profiler.

Local Open Scope Z_scope.
Local Open Scope bpf_scope.

Module ProfilerUsage.
Export Profiler.

Section Usage.
Context {M : BpfMapOps} {L : BpfMapLaws M}.
Implicit Types us : usage_state.

Inductive usage_event :=
| PageAlloc (fk : folio_kernel) (cx : prof_ctx) (page : Z)
| PageFree (cx : prof_ctx) (page parm3 : Z).

Definition usage_step (cfg : profiler_config) (e : usage_event) us : usage_state :=
  match e with
  | PageAlloc fk cx page => physical_usage_trace_page_alloc cfg fk cx page us
  | PageFree cx page parm3 => physical_usage_trace_page_free cfg cx page parm3 us
  end.

Definition usage_run cfg (events : list usage_event) us : usage_state :=
  fold_left (fun us e => usage_step cfg e us) events us.

Definition event_page (e : usage_event) : Z :=
  match e with PageAlloc _ _ page => page | PageFree _ page _ => page end.

(** Sum of all values handed to the two rings. *)
Definition sum_values (l : list profiler_event_base) : Z := foldr (fun e n => value e + n) 0 l.
Definition emitted us : Z :=
  sum_values (profiler_output_a (us_maps us)) + sum_values (profiler_output_b (us_maps us)).

(** Pages the map still attributes to [page]'s allocation. *)
Definition retained us (page : Z) : Z :=
  match bpf_map_lookup_elem (page_to_stackid us) page with Some e => value e | None => 0 end.

(** ** What a hook is about to do

    The record it hands to the output and what it writes for its page: an entry, or
    [None] to delete it. *)

Definition alloc_record cfg (fk : folio_kernel) cx (page : Z) us : option profiler_event_base :=
  t ← profiler_init_state (us_maps us);
  if negb (profiler_should_trace cfg (cx_pid_tgid cx) (memory_css cfg cx)) then None
  else if negb (profiler_should_sample cfg (cx_prandom_u32 cx)) then None
  else
    event ← fst (profiler_prepare_event_base cx (select_profiler_ab t) (cx_pid_tgid cx) (us_maps us));
    if profiler_folio_npages cfg then
      if profiler_folio_nr_pages fk page <=? 0 then None else Some (set_value (profiler_folio_nr_pages fk page) event)
    else Some (set_value 1 event).

Definition free_record cfg cx page parm3 us : option (profiler_event_base * option profiler_event_base) :=
  _ ← profiler_init_state (us_maps us);
  if negb (profiler_should_trace cfg (cx_pid_tgid cx) (memory_css cfg cx)) then None
  else
    info ← bpf_map_lookup_elem (page_to_stackid us) page;
    _ ← event_buf (us_maps us);
    let event := profiler_copy_event_base zero_base info in
    if profiler_folio_npages cfg then
      let left := s64 (value info - s32 parm3) in
      Some (set_value (- s32 parm3) event, if left =? 0 then None else Some (set_value left event))
    else Some (set_value (-1) event, None).

Definition hook_record cfg (e : usage_event) us : option (profiler_event_base * option profiler_event_base) :=
  match e with
  | PageAlloc fk cx page => event ← alloc_record cfg fk cx page us; Some (event, Some event)
  | PageFree cx page parm3 => free_record cfg cx page parm3 us
  end.

Definition event_cx (e : usage_event) : prof_ctx := match e with PageAlloc _ cx _ | PageFree cx _ _ => cx end.

Definition write_page (m : hmap Z profiler_event_base) (page : Z) (w : option profiler_event_base) :
    Z * hmap Z profiler_event_base :=
  match w with Some x => bpf_map_update_elem m page x BPF_ANY | None => bpf_map_delete_elem m page end.

(** A record the output refused is in no ring. *)
Definition unsent cfg (e : usage_event) us : Z :=
  match hook_record cfg e us with
  | Some (r, _) => if cx_output_ret (event_cx e) <? 0 then value r else 0
  | None => 0
  end.

(** What a record says and the map does not: all of it if the write failed, and what the
    entry of a page that was still tracked had left when a new mapping replaced it. *)
Definition unstored cfg (e : usage_event) us : Z :=
  match hook_record cfg e us with
  | Some (r, w) =>
      if negb (fst (write_page (page_to_stackid us) (event_page e) w) =? 0) then value r
      else match e with PageAlloc _ _ page => retained us page | PageFree _ _ _ => 0 end
  | None => 0
  end.

Fixpoint run_total (what : usage_event -> usage_state -> Z) cfg (events : list usage_event) us : Z :=
  match events with
  | [] => 0
  | e :: es => what e us + run_total what cfg es (usage_step cfg e us)
  end.

(** Without folio counting every tracked page weighs one. *)
Definition weights_ok cfg us : Prop :=
  profiler_folio_npages cfg = false ->
  forall page e, bpf_map_lookup_elem (page_to_stackid us) page = Some e -> value e = 1.

Lemma sum_values_snoc l e : sum_values (l ++ [e]) = sum_values l + value e.
Proof. induction l as [|x l IH]; simpl; lia. Qed.

Lemma emitted_quiet us ps m :
  (forall c, output_of c ps = output_of c (us_maps us)) -> emitted (UsageState ps m) = emitted us.
Proof.
  intros H. unfold emitted. cbn [us_maps]. pose proof (H BufA) as HA. pose proof (H BufB) as HB.
  cbn [output_of] in HA, HB. by rewrite HA, HB.
Qed.

Lemma emitted_emit us cx b event ps m :
  (forall c, output_of c ps = output_of c (us_maps us)) ->
  emitted (UsageState (profiler_emit_event cx b event ps) m) =
    emitted us + (if cx_output_ret cx <? 0 then 0 else value event).
Proof.
  intros Ho. rewrite <- (emitted_quiet us ps m Ho).
  unfold emitted, profiler_emit_event, bpf_perf_event_output.
  destruct (cx_output_ret cx <? 0), b; simpl; rewrite ?sum_values_snoc; lia.
Qed.

(** ** One step *)

(** A hook does what its record says, or nothing. *)
Definition does cfg (e : usage_event) us us' : Prop :=
  match hook_record cfg e us with
  | Some (r, w) =>
      emitted us' = emitted us + (if cx_output_ret (event_cx e) <? 0 then 0 else value r) /\
      page_to_stackid us' = snd (write_page (page_to_stackid us) (event_page e) w)
  | None => emitted us' = emitted us /\ page_to_stackid us' = page_to_stackid us
  end.

Lemma alloc_does cfg fk cx page us : does cfg (PageAlloc fk cx page) us (usage_step cfg (PageAlloc fk cx page) us).
Proof.
  unfold does. cbn [usage_step hook_record event_cx event_page]. unfold physical_usage_trace_page_alloc, alloc_record.
  destruct (profiler_init_state (us_maps us)) as [t|]; cbn [mbind option_bind]; [|done].
  case_if; [done|]. case_if; [done|].
  destruct (profiler_prepare_event_base _ _ _ _) as [[e|] ps'] eqn:Hp;
    destruct (prepare_quiet _ _ _ _ _ _ Hp) as [_ Ho]; cbn [fst mbind option_bind]; cycle 1.
  { split; [|done]. by apply emitted_quiet. }
  assert (Hq : forall v c, output_of c (store_event cx (set_value v e) ps') = output_of c (us_maps us)).
  { intros v c. by rewrite (proj2 (store_event_quiet cx (set_value v e) ps')), Ho. }
  unfold usage_folio_nr_pages. cbn [value set_value].
  destruct (profiler_folio_npages cfg); [destruct (_ <=? 0)|]; cbn [mbind option_bind write_page].
  - split; [|done]. by apply emitted_quiet.
  - split; [by rewrite (emitted_emit us)|done].
  - split; [by rewrite (emitted_emit us)|done].
Qed.

Lemma free_does cfg cx page parm3 us : does cfg (PageFree cx page parm3) us (usage_step cfg (PageFree cx page parm3) us).
Proof.
  unfold does. cbn [usage_step hook_record event_cx event_page]. unfold physical_usage_trace_page_free, free_record.
  destruct (profiler_init_state (us_maps us)) as [t|]; cbn [mbind option_bind]; [|done]. case_if; [done|].
  destruct (bpf_map_lookup_elem (page_to_stackid us) page) as [info|]; cbn [mbind option_bind]; [|done].
  destruct (event_buf (us_maps us)) as [bufs|]; cbn [mbind option_bind]; [|done].
  set (ev := profiler_copy_event_base zero_base info).
  assert (Hem : forall v m, emitted (UsageState (profiler_emit_event cx (select_profiler_ab t)
    (set_value v ev) (store_event cx (set_value v ev) (us_maps us))) m) =
    emitted us + (if cx_output_ret cx <? 0 then 0 else value (set_value v ev))).
  { intros v m. apply emitted_emit. apply store_event_quiet. }
  destruct (profiler_folio_npages cfg); [destruct (_ =? 0)|]; (split; [apply Hem|done]).
Qed.

Lemma retained_write m page w p ps :
  retained (UsageState ps (snd (write_page m page w))) p =
    if decide (page = p) then
      (if fst (write_page m page w) =? 0 then match w with Some x => value x | None => 0 end
       else retained (UsageState ps m) p)
    else retained (UsageState ps m) p.
Proof.
  unfold retained. cbn [page_to_stackid]. destruct w as [x|]; cbn [write_page].
  - destruct (Z.eqb_spec (fst (bpf_map_update_elem m page x BPF_ANY)) 0) as [E|E].
    + rewrite update_ok by done. by case_decide.
    + rewrite update_err by done. by case_decide.
  - destruct (Z.eqb_spec (fst (bpf_map_delete_elem m page)) 0) as [E|E].
    + rewrite delete_ok by done. by case_decide.
    + rewrite delete_err by done. by case_decide.
Qed.

Lemma u64_cong a b k : a = b + k * 2 ^ 64 -> u64 a = u64 b.
Proof. intros ->. unfold u64. apply Z_mod_plus_full. Qed.

Lemma s64_cong z : exists k, s64 z = z + k * 2 ^ 64.
Proof.
  unfold s64. pose proof (Z.div_mod z (2 ^ 64) ltac:(lia)) as H. unfold u64.
  case_if; [exists (- (z / 2 ^ 64))|exists (- (z / 2 ^ 64) - 1)]; lia.
Qed.

(** The step's records, those the output refused included, balance what it changed in
    the map and what the map does not show, modulo 2^64; only its own page changes. *)
Definition balanced cfg (e : usage_event) us us' : Prop :=
  u64 (emitted us' - emitted us + unsent cfg e us) =
    u64 (retained us' (event_page e) - retained us (event_page e) + unstored cfg e us) /\
  forall p, p <> event_page e -> retained us' p = retained us p.

(** What a successful write leaves is what the record says. *)
Lemma record_weight cfg e us r w :
  weights_ok cfg us -> hook_record cfg e us = Some (r, w) ->
  u64 (match w with Some x => value x | None => 0 end) =
    u64 (value r + match e with PageAlloc _ _ _ => 0 | PageFree _ page _ => retained us page end).
Proof.
  intros Hw. destruct e as [fk cx page|cx page parm3]; cbn [hook_record].
  - destruct (alloc_record cfg fk cx page us); [|done]. intros [= <- <-]. f_equal. lia.
  - unfold free_record, retained. destruct (profiler_init_state _); cbn [mbind option_bind]; [|done]. case_if; [done|].
    destruct (bpf_map_lookup_elem (page_to_stackid us) page) as [info|] eqn:Hl; cbn [mbind option_bind]; [|done].
    destruct (event_buf _); cbn [mbind option_bind]; [|done]. unfold weights_ok in Hw.
    destruct (profiler_folio_npages cfg) eqn:Hf; intros [= <- <-]; cbn [value set_value].
    + destruct (s64_cong (value info - s32 parm3)) as [k Hk]. case_if; zify_bools; cbn [value set_value]; apply u64_cong with k; lia.
    + by rewrite (Hw eq_refl page info Hl).
Qed.

Lemma usage_step_balanced cfg e us : weights_ok cfg us -> balanced cfg e us (usage_step cfg e us).
Proof.
  intros Hw. assert (Hd : does cfg e us (usage_step cfg e us)) by (destruct e; [apply alloc_does|apply free_does]).
  set (us' := usage_step cfg e us) in *. clearbody us'. unfold does in Hd. unfold balanced, unsent, unstored.
  destruct (hook_record cfg e us) as [[r w]|] eqn:Hr.
  2: { destruct Hd as [-> Hm]. unfold retained. rewrite Hm, !Z.sub_diag. done. }
  destruct Hd as [He Hm]. pose proof (record_weight cfg e us r w Hw Hr) as Hv.
  assert (Hret : forall p, retained us' p = retained (UsageState (us_maps us) (snd (write_page (page_to_stackid us) (event_page e) w))) p).
  { intros p. unfold retained. cbn [page_to_stackid]. by rewrite Hm. }
  assert (Hsame : forall p, retained (UsageState (us_maps us) (page_to_stackid us)) p = retained us p) by done.
  split; [|intros p Hp; by rewrite Hret, retained_write, decide_False].
  rewrite Hret, retained_write, decide_True, Hsame, He by done.
  replace (emitted us + _ - emitted us + _) with (value r) by (case_if; lia).
  destruct (fst _ =? 0); cbn [negb]; [|f_equal; lia].
  set (kept := match w with Some x => value x | None => 0 end) in *.
  destruct e as [fk cx page|cx page parm3]; cbn [event_page] in *.
  - rewrite Z.add_0_r in Hv. rewrite <- Hv. f_equal. lia.
  - rewrite Z.add_0_r. unfold Z.sub. rewrite <- u64_add_idemp_l, Hv, u64_add_idemp_l. f_equal. lia.
Qed.

Lemma step_weights cfg e us : weights_ok cfg us -> weights_ok cfg (usage_step cfg e us).
Proof.
  intros Hw Hf. specialize (Hw Hf). intros page x.
  destruct e as [fk cx pg|cx pg parm3]; cbn [usage_step].
  - unfold physical_usage_trace_page_alloc. rewrite Hf.
    destruct (profiler_init_state (us_maps us)); [|apply Hw]. do 2 (case_if; [apply Hw|]).
    destruct (profiler_prepare_event_base _ _ _ _) as [[ev|] ps']; [|apply Hw].
    cbn [page_to_stackid].
    destruct (Z.eq_dec (fst (bpf_map_update_elem (page_to_stackid us) pg (set_value 1 ev) BPF_ANY)) 0).
    + rewrite update_ok by done. case_decide; [by intros [= <-]|apply Hw].
    + rewrite update_err by done. apply Hw.
  - unfold physical_usage_trace_page_free. rewrite Hf.
    destruct (profiler_init_state (us_maps us)); [|apply Hw]. case_if; [apply Hw|].
    destruct (bpf_map_lookup_elem (page_to_stackid us) pg); [|apply Hw].
    destruct (event_buf (us_maps us)); [|apply Hw]. cbn [page_to_stackid]. intros Hl.
    apply bm_delete_sub in Hl. by apply (Hw page).
Qed.

(** ** Runs *)

Lemma usage_run_ledger cfg events pages us :
  weights_ok cfg us -> NoDup pages -> Forall (fun e => event_page e ∈ pages) events ->
  u64 (emitted (usage_run cfg events us) - emitted us + run_total (unsent cfg) cfg events us) =
  u64 (zsum (retained (usage_run cfg events us)) pages - zsum (retained us) pages + run_total (unstored cfg) cfg events us).
Proof.
  intros Hw Hnd Hp. revert us Hw. induction Hp as [|e es He Hes IH]; intros us Hw.
  { cbn. by rewrite !Z.sub_diag. }
  destruct (usage_step_balanced cfg e us Hw) as [Hb1 Hb2].
  specialize (IH (usage_step cfg e us) (step_weights _ _ _ Hw)). cbn [run_total].
  change (usage_run cfg (e :: es) us) with (usage_run cfg es (usage_step cfg e us)).
  set (us1 := usage_step cfg e us) in *. set (us2 := usage_run cfg es us1) in *.
  assert (Hs : zsum (retained us1) pages - zsum (retained us) pages =
               retained us1 (event_page e) - retained us (event_page e)).
  { rewrite (zsum_bump (retained us) (retained us1) (retained us1 (event_page e) - retained us (event_page e))
      pages (event_page e)); [lia|done|done|]. intros p _. case_decide; subst; [lia|]. rewrite Hb2 by done. lia. }
  rewrite <- Hs in Hb1. set (S := run_total _ _ _ _) in *. set (T := run_total _ _ _ _) in *.
  replace (emitted us2 - emitted us + (unsent cfg e us + S)) with
    ((emitted us2 - emitted us1 + S) + (emitted us1 - emitted us + unsent cfg e us)) by lia.
  rewrite <- u64_add_idemp_l, IH, u64_add_idemp_l, <- u64_add_idemp_r, Hb1, u64_add_idemp_r.
  f_equal. lia.
Qed.

(** C30: usage is accounted for.  From an empty page map, after any sequence of page
    mappings and (partial) unmappings, one hook after the other, with any failing output,
    insertion or deletion and any page mapped again while still tracked: the values in the
    two rings and those of the records the output refused add up, modulo 2^64, to what the
    map retains over the pages involved, what writes failed to change, and what the
    entries of pages mapped again had left.  With folio counting a folio may be unmapped in
    any number of batches; without it every page counts once. *)
Theorem page_usage_ledger cfg events pages us :
  (forall page, bpf_map_lookup_elem (page_to_stackid us) page = None) ->
  NoDup pages -> Forall (fun e => event_page e ∈ pages) events ->
  u64 (emitted (usage_run cfg events us) - emitted us + run_total (unsent cfg) cfg events us) =
  u64 (zsum (retained (usage_run cfg events us)) pages + run_total (unstored cfg) cfg events us).
Proof.
  intros Hemp Hnd Hp. rewrite (usage_run_ledger cfg events pages us) by (try done; intros ? ? ? H; by rewrite Hemp in H).
  f_equal. assert (H0 : zsum (retained us) pages = 0); [|lia].
  clear -Hemp. induction pages as [|p ps IH]; [done|]. simpl. rewrite IH. unfold retained.
  by rewrite Hemp.
Qed.
End Usage.

Definition usage_cfg : profiler_config := ProfilerConfig 0 0 false 100 0 true.
Definition usage_folio : folio_kernel :=
  FolioKernel (fun _ => Some 64) true (fun _ => 16) false (fun _ => 0) false (fun _ => 0).
Definition usage_demo : usage_state := UsageState demo_maps (FaultyHash ∅ 8 []).
(** A 16-page folio unmapped in batches of 10 and 6, another mapped and, while it is still
    tracked, mapped again; the output refuses the record of a third. *)
Definition refused_cx : prof_ctx :=
  ProfCtx 3 (cx_pid_tgid demo_cx) [97] (cx_stackid demo_cx) 0 0 0 1000 7 (- ENOENT).
Definition usage_events : list usage_event :=
  [PageAlloc usage_folio demo_cx 100; PageFree demo_cx 100 10; PageAlloc usage_folio demo_cx 200;
   PageFree demo_cx 100 6; PageAlloc usage_folio demo_cx 200; PageAlloc usage_folio refused_cx 300].

Lemma page_usage_ledger_witness :
  let us' := usage_run usage_cfg usage_events usage_demo in
  u64 (emitted us' - emitted usage_demo + 16) = u64 (zsum (retained us') [100; 200; 300] + 16) /\
  emitted us' = 32 /\ zsum (retained us') [100; 200; 300] = 32.
Proof.
  intros us'. split_and!; [|by vm_compute..].
  pose proof (page_usage_ledger usage_cfg usage_events [100; 200; 300] usage_demo) as H.
  change (run_total (unsent usage_cfg) usage_cfg usage_events usage_demo) with 16 in H.
  change (run_total (unstored usage_cfg) usage_cfg usage_events usage_demo) with 16 in H.
  apply H.
  - intros page. reflexivity.
  - repeat constructor; rewrite ?elem_of_cons, ?elem_of_nil; intuition congruence.
  - repeat constructor; cbn [event_page]; rewrite ?elem_of_cons; auto.
Defined.

End ProfilerUsage.
