(* ===== verification/ProfilerRace.v ===== *)
(** * Sampling profilers while user space swaps their buffers

    [Profiler] runs the programs of [bpf_profiler.h] one after the other.  Here they
    run on several CPUs at the same time, and user space swaps, reads and resets the
    two buffers in between: the load of the transfer count ([SELECT_PROFILER_AB]), the
    atomic addition to the sample counter and the perf output ([profiler_emit_event])
    are steps of their own, and so are the accesses to the page map.

    Module [ProfilerRace] has the split programs, the interface [SplitProfiler] that
    ties them to the sequential definitions, its instances for the five hooks, and
    what holds on every schedule: which samples can still reach a buffer after it was
    frozen, what the sample counters say about the records, and how many steps an
    invocation takes. *)

From Stdlib Require Import ZArith Lia.
From stdpp Require Import base option list gmap tactics.
From S2P Require Import Prelude BpfMap Profiler ProfilerUsage.

Local Open Scope Z_scope.
Local Open Scope bpf_scope.

Module ProfilerRace.
Import Profiler ProfilerUsage.

(** ** Programs *)

Section Programs.
Context {E X : Type}.

(** The maps of [DEFINE_PROFILER_MAPS], and what else the program keeps. *)
Definition shared : Type := prof_maps E * X.

(** [Local upd k] goes on with [k] of the state it finds and leaves [upd] of it. *)
Inductive pprog :=
| PRet
| PLocal (upd : shared -> shared) (k : shared -> pprog)
| PSelect (k : ab -> pprog)
| PEmit (b : ab) (e : E) (ret : Z)
| POutput (b : ab) (e : E) (ret : Z).

Definition transfer_count (s : shared) : Z :=
  default 0 (profiler_state_map s.1 !! PROFILER_STATE_TRANSFER_CNT_IDX).
Definition set_maps (ps : prof_maps E) (s : shared) : shared := (ps, s.2).

(** [__sync_fetch_and_add(sample_count_ptr, 1)]. *)
Definition count_sample (b : ab) (s : shared) : shared :=
  set_maps (set_state_map s.1
    (<[count_idx b := default 0 (profiler_state_map s.1 !! count_idx b) +64 1]> (profiler_state_map s.1))) s.

Definition output_sample (b : ab) (e : E) (ret : Z) (s : shared) : shared :=
  set_maps (set_output b (snd (bpf_perf_event_output ret e (output_of b s.1))) s.1) s.

(** What happened, in order; user space's part included. *)
Inductive pevent :=
| LCount (b : ab)
| LOutput (b : ab) (e : E) (ok : bool)
| LFlip
| LReset (b : ab)
| LDrain (b : ab) (records : list E).

(** One step of a program, with the buffer it selected if it did. *)
Definition pexec (p : pprog) (sel : option ab) (s : shared) : pprog * option ab * shared * list pevent :=
  match p with
  | PRet => (PRet, sel, s, [])
  | PLocal upd k => (k s, sel, upd s, [])
  | PSelect k => let b := select_profiler_ab (transfer_count s) in (k b, Some b, s, [])
  | PEmit b e ret => (POutput b e ret, sel, count_sample b s, [LCount b])
  | POutput b e ret => (PRet, sel, output_sample b e ret s, [LOutput b e (negb (ret <? 0))])
  end.

(** The program without interference. *)
Fixpoint solo (p : pprog) (s : shared) : shared :=
  match p with
  | PRet => s
  | PLocal upd k => solo (k s) (upd s)
  | PSelect k => solo (k (select_profiler_ab (transfer_count s))) s
  | PEmit b e ret => output_sample b e ret (count_sample b s)
  | POutput b e ret => output_sample b e ret s
  end.

(** A step that leaves the counters and the rings alone. *)
Definition quiet (upd : shared -> shared) : Prop :=
  forall s, profiler_state_map (upd s).1 = profiler_state_map s.1 /\
            forall c, output_of c (upd s).1 = output_of c s.1.

(** A program as written selects once, and emits at most once and last, to the buffer
    it selected. *)
Fixpoint well_split (sel : option ab) (p : pprog) : Prop :=
  match p with
  | PRet => True
  | PLocal upd k => quiet upd /\ forall s, well_split sel (k s)
  | PSelect k => sel = None /\ forall b, well_split (Some b) (k b)
  | PEmit b _ _ => sel = Some b
  | POutput _ _ _ => False
  end.

(** A program in flight; it may have counted its sample already. *)
Definition flight_ok (sel : option ab) (p : pprog) : Prop :=
  match p with POutput b _ _ => sel = Some b | _ => well_split sel p end.

(** The program has returned after at most [n] steps. *)
Fixpoint within (n : nat) (p : pprog) : Prop :=
  match p, n with
  | PRet, _ => True
  | _, O => False
  | PLocal _ k, S n => forall s, within n (k s)
  | PSelect k, S n => forall b, within n (k b)
  | PEmit _ _ _, S n => (1 <= n)%nat
  | POutput _ _ _, S _ => True
  end.
End Programs.
Arguments shared : clear implicits.
Arguments pprog : clear implicits.
Arguments pevent : clear implicits.

(** What a profiler promises: its split program is well formed and short, and without
    interference it is the sequential definition. *)
Class SplitProfiler (A E X : Type) := {
  split_prog : A -> pprog E X;
  sequential : A -> shared E X -> shared E X;
  split_well a : well_split None (split_prog a);
  split_within a : within 7 (split_prog a);
  split_solo a s : solo (split_prog a) s = sequential a s;
}.

(** ** The programs of the sources *)

(** [profiler_init_state]: go on if the three state slots are there. *)
Definition with_state {E X} (k : shared E X -> pprog E X) : pprog E X :=
  PLocal id (fun s => match profiler_init_state s.1 with Some _ => k s | None => PRet end).

Definition oncpu_filled (cx : prof_ctx) (b : ab) (s : shared profiler_oncpu_event unit)
    : Z * profiler_oncpu_event :=
  let event := percpu_get zero_oncpu (default ∅ (event_buf s.1)) (cx_cpu cx) in
  let '(err, base) := profiler_fill_event_base cx b (cx_pid_tgid cx) (set_value 1 (oc_base event)) in
  (err, OnCpuEvent base (cx_ktime_ns cx) (u32 (cx_cpu cx)) (oc_pad0 event)).

Definition oncpu_prog (cfg : profiler_config) (cx : prof_ctx) : pprog profiler_oncpu_event unit :=
  with_state (fun s =>
    let tgid := u32 (Z.shiftr (cx_pid_tgid cx) 32) in
    let pid := u32 (Z.land (cx_pid_tgid cx) 0xffffffff) in
    if negb (profiler_should_trace cfg (cx_pid_tgid cx) (cx_cpu_css cx)) ||
       (ctrue (profiler_idle_class_addr cfg) && (cx_sched_class cx =? profiler_idle_class_addr cfg)) ||
       ((tgid =? 0) && (pid =? 0))
    then PRet
    else match event_buf s.1 with
         | None => PRet
         | Some _ =>
             PSelect (fun b =>
               PLocal (fun s => set_maps (store_event cx (oncpu_filled cx b s).2 s.1) s)
                 (fun s => let '(err, event) := oncpu_filled cx b s in
                           if err <? 0 then PRet else PEmit b event (cx_output_ret cx)))
         end).

Section Samplers.
Context {X : Type}.

(** [profiler_prepare_event_base], then the value of the sample: [None] drops it. *)
Definition prepare_prog (cx : prof_ctx) (b : ab) (v : Z) (keep : bool) (k : profiler_event_base -> pprog profiler_event_base X)
    : pprog profiler_event_base X :=
  let filled (s : shared profiler_event_base X) := profiler_prepare_event_base cx b (cx_pid_tgid cx) s.1 in
  PLocal (fun s => match filled s with
                   | (None, ps) => set_maps ps s
                   | (Some event, ps) => set_maps (store_event cx (set_value v event) ps) s
                   end)
    (fun s => match filled s with
              | (None, _) => PRet
              | (Some event, _) => if keep then k (set_value v event) else PRet
              end).

Definition mmap_prog (cfg : profiler_config) (cx : prof_ctx) (file len : Z) : pprog profiler_event_base X :=
  with_state (fun _ =>
    if negb (profiler_should_trace cfg (cx_pid_tgid cx) (memory_css cfg cx)) then PRet
    else if ctrue file then PRet
    else PSelect (fun b => prepare_prog cx b (s64 len) true (fun event => PEmit b event (cx_output_ret cx)))).

(** The pages of a sample, and whether it is kept. *)
Definition sample_pages (cfg : profiler_config) (fk : folio_kernel) (page : Z) : Z :=
  if profiler_folio_npages cfg then profiler_folio_nr_pages fk page else 1.

(** The allocation hooks of [native_physical_alloc.c] and, with the store to the page
    map as [track], [native_physical_usage.c]. *)
Definition page_alloc_prog (cfg : profiler_config) (fk : folio_kernel) (cx : prof_ctx) (page : Z)
    (track : profiler_event_base -> pprog profiler_event_base X -> pprog profiler_event_base X)
    : pprog profiler_event_base X :=
  with_state (fun _ =>
    if negb (profiler_should_trace cfg (cx_pid_tgid cx) (memory_css cfg cx)) then PRet
    else if negb (profiler_should_sample cfg (cx_prandom_u32 cx)) then PRet
    else
      let v := sample_pages cfg fk page in
      PSelect (fun b => prepare_prog cx b v (negb (v <=? 0))
        (fun event => track event (PEmit b event (cx_output_ret cx))))).
End Samplers.

Definition sampler_prog (cfg : profiler_config) (c : prof_ctx * sampler) : pprog profiler_event_base unit :=
  match snd c with
  | OnMmap file len => mmap_prog cfg (fst c) file len
  | OnPageAlloc fk page => page_alloc_prog cfg fk (fst c) page (fun _ rest => rest)
  end.

Section Usage.
Context {M : BpfMapOps}.

Definition page_map : Type := hmap Z profiler_event_base.

(** An access to [page_to_stackid]. *)
Definition on_pages (f : page_map -> page_map) (s : shared profiler_event_base page_map) := (s.1, f s.2).

Definition usage_alloc_prog (cfg : profiler_config) (fk : folio_kernel) (cx : prof_ctx) (page : Z)
    : pprog profiler_event_base page_map :=
  page_alloc_prog cfg fk cx page (fun event rest =>
    PLocal (on_pages (fun m => snd (bpf_map_update_elem m page event BPF_ANY))) (fun _ => rest)).

(** The free hook: the page map is read, then written, and only then the buffer is
    selected. *)
Definition usage_free_prog (cfg : profiler_config) (cx : prof_ctx) (page parm3 : Z)
    : pprog profiler_event_base page_map :=
  with_state (fun _ =>
    if negb (profiler_should_trace cfg (cx_pid_tgid cx) (memory_css cfg cx)) then PRet
    else PLocal id (fun s =>
      match bpf_map_lookup_elem s.2 page, event_buf s.1 with
      | None, _ | _, None => PRet
      | Some stack_info, Some _ =>
          let event := profiler_copy_event_base zero_base stack_info in
          let nr_pages := if profiler_folio_npages cfg then s32 parm3 else 1 in
          let remaining_pages := if profiler_folio_npages cfg then s64 (value stack_info - nr_pages) else 0 in
          let event := set_value (- nr_pages) event in
          PLocal (fun s => set_maps (store_event cx event s.1)
                             (on_pages (fun m =>
                                if remaining_pages =? 0 then snd (bpf_map_delete_elem m page)
                                else snd (bpf_map_update_elem m page (set_value remaining_pages event) BPF_ANY)) s))
            (fun _ => PSelect (fun b => PEmit b event (cx_output_ret cx)))
      end)).

Definition usage_prog (cfg : profiler_config) (e : usage_event) : pprog profiler_event_base page_map :=
  match e with
  | PageAlloc fk cx page => usage_alloc_prog cfg fk cx page
  | PageFree cx page parm3 => usage_free_prog cfg cx page parm3
  end.
End Usage.

(** ** The interface holds *)

Section Laws.
Context {E X : Type}.
Implicit Types s : shared E X.

Lemma id_quiet : quiet (E := E) (X := X) id.
Proof. by intros s. Qed.

Lemma store_quiet (cx : prof_ctx) (f : shared E X -> E) :
  quiet (fun s => set_maps (store_event cx (f s) s.1) s).
Proof. intros s. apply store_event_quiet. Qed.

Lemma with_state_well (k : shared E X -> pprog E X) sel :
  (forall s, well_split sel (k s)) -> well_split sel (with_state k).
Proof. intros Hk. split; [apply id_quiet|]. intros s. by destruct (profiler_init_state s.1). Qed.

Lemma with_state_within (k : shared E X -> pprog E X) n :
  (forall s, within n (k s)) -> within (S n) (with_state k).
Proof. intros Hk s. destruct (profiler_init_state s.1); [apply Hk|by destruct n]. Qed.

Lemma with_state_solo (k : shared E X -> pprog E X) s :
  solo (with_state k) s = match profiler_init_state s.1 with Some _ => solo (k s) s | None => s end.
Proof. cbn. by destruct (profiler_init_state s.1). Qed.

(** The buffer an uninterrupted program selects. *)
Lemma solo_transfer s t : profiler_init_state s.1 = Some t -> transfer_count s = t.
Proof. unfold profiler_init_state, transfer_count. intros H. repeat case_match; naive_solver. Qed.

Lemma emit_both (cx : prof_ctx) b e s :
  output_sample b e (cx_output_ret cx) (count_sample b s) = (profiler_emit_event cx b e s.1, s.2).
Proof. done. Qed.
End Laws.

Lemma prepare_prog_quiet {X} cx b v :
  quiet (X := X) (fun s => match profiler_prepare_event_base cx b (cx_pid_tgid cx) s.1 with
                   | (None, ps) => set_maps ps s
                   | (Some event, ps) => set_maps (store_event cx (set_value v event) ps) s
                   end).
Proof.
  intros s. destruct (profiler_prepare_event_base cx b (cx_pid_tgid cx) s.1) as [[e|] ps] eqn:Hp;
    apply prepare_quiet in Hp as [Hs Ho]; [|done].
  destruct (store_event_quiet cx (set_value v e) ps) as [Hs' Ho']. cbn. split; [congruence|]. intros c. by rewrite Ho', Ho.
Qed.

Lemma prepare_prog_well {X} cx b v keep (k : _ -> pprog profiler_event_base X) :
  (forall e, well_split (Some b) (k e)) -> well_split (Some b) (prepare_prog cx b v keep k).
Proof.
  intros Hk. split; [apply prepare_prog_quiet|]. intros s.
  destruct (profiler_prepare_event_base _ _ _ _) as [[e|] ps]; [|done]. by destruct keep.
Qed.

Lemma prepare_prog_within {X} cx b v keep n (k : _ -> pprog profiler_event_base X) :
  (forall e, within n (k e)) -> within (S n) (prepare_prog cx b v keep k).
Proof.
  intros Hk s. destruct (profiler_prepare_event_base _ _ _ _) as [[e|] ps]; [|by destruct n].
  destruct keep; [apply Hk|by destruct n].
Qed.

(** *** On-CPU *)

Lemma oncpu_solo cfg cx s : solo (oncpu_prog cfg cx) s = (perf_event_sw_cpu_clock cfg cx s.1, s.2).
Proof.
  destruct s as [ps x]. unfold oncpu_prog. rewrite with_state_solo. unfold perf_event_sw_cpu_clock. cbn [fst snd].
  destruct (profiler_init_state ps) as [t|] eqn:Ht; [|done]. case_if; [done|].
  destruct (event_buf ps) as [bufs|] eqn:Hb; [|done]. cbn [solo]. rewrite (solo_transfer (ps, x) t Ht).
  unfold oncpu_filled. cbn [fst]. rewrite Hb. simpl default. destruct (profiler_fill_event_base _ _ _ _) as [err base].
  cbn [snd]. by destruct (err <? 0).
Qed.

Lemma oncpu_well cfg cx : well_split None (oncpu_prog cfg cx).
Proof.
  apply with_state_well. intros s. cbv zeta. case_if; [done|]. destruct (event_buf s.1); [|done]. split; [done|]. intros b.
  split; [apply store_quiet|]. intros s'. destruct (oncpu_filled cx b s') as [err e]. by destruct (err <? 0).
Qed.

Lemma oncpu_within cfg cx : within 7 (oncpu_prog cfg cx).
Proof.
  apply with_state_within. intros s. cbv zeta. case_if; [done|]. destruct (event_buf s.1); [|done]. intros b s'.
  destruct (oncpu_filled cx b s') as [err e]. destruct (err <? 0); cbn; [done|lia].
Qed.

#[export] Instance oncpu_split cfg : SplitProfiler prof_ctx profiler_oncpu_event unit := {|
  split_prog := oncpu_prog cfg;
  sequential cx s := (perf_event_sw_cpu_clock cfg cx s.1, s.2);
  split_well := oncpu_well cfg;
  split_within := oncpu_within cfg;
  split_solo := oncpu_solo cfg;
|}.

(** *** Virtual and physical allocations *)

Lemma mmap_solo {X} cfg cx file len (s : shared profiler_event_base X) :
  solo (mmap_prog cfg cx file len) s = (trace_mmap cfg cx file len s.1, s.2).
Proof.
  destruct s as [ps x]. unfold mmap_prog. rewrite with_state_solo. unfold trace_mmap. cbn [fst snd].
  destruct (profiler_init_state ps) as [t|] eqn:Ht; [|done]. case_if; [done|]. case_if; [done|].
  cbn [solo prepare_prog fst]. rewrite (solo_transfer (ps, x) t Ht).
  by destruct (profiler_prepare_event_base _ _ _ _) as [[e|] ps'].
Qed.

(** The allocation hook up to the page map. *)
Lemma page_alloc_solo {X} cfg fk cx page track (s : shared profiler_event_base X) :
  solo (page_alloc_prog cfg fk cx page track) s =
    match profiler_init_state s.1 with
    | None => s
    | Some t =>
        if negb (profiler_should_trace cfg (cx_pid_tgid cx) (memory_css cfg cx)) then s
        else if negb (profiler_should_sample cfg (cx_prandom_u32 cx)) then s
        else
          let b := select_profiler_ab t in
          let v := sample_pages cfg fk page in
          match profiler_prepare_event_base cx b (cx_pid_tgid cx) s.1 with
          | (None, ps) => set_maps ps s
          | (Some event, ps) =>
              let s := set_maps (store_event cx (set_value v event) ps) s in
              if v <=? 0 then s
              else solo (track (set_value v event) (PEmit b (set_value v event) (cx_output_ret cx))) s
          end
    end.
Proof.
  unfold page_alloc_prog. rewrite with_state_solo. destruct (profiler_init_state s.1) as [t|] eqn:Ht; [|done].
  case_if; [done|]. case_if; [done|]. cbn [solo prepare_prog]. rewrite (solo_transfer s t Ht).
  destruct (profiler_prepare_event_base _ _ _ _) as [[e|] ps']; [|done]. by destruct (_ <=? 0).
Qed.

Lemma alloc_solo cfg fk cx page (s : shared profiler_event_base unit) :
  solo (page_alloc_prog cfg fk cx page (fun _ rest => rest)) s =
    (physical_alloc_trace_page_alloc cfg fk cx page s.1, s.2).
Proof.
  rewrite page_alloc_solo. destruct s as [ps x]. unfold physical_alloc_trace_page_alloc, sample_pages. cbn [fst snd].
  destruct (profiler_init_state ps) as [t|]; [|done]. case_if; [done|]. case_if; [done|].
  destruct (profiler_prepare_event_base _ _ _ _) as [[e|] ps']; [|done].
  destruct (profiler_folio_npages cfg); [|done]. cbn [value set_value]. by case_if.
Qed.

(** What the store to the page map has to keep. *)
Definition good_track {X} (track : profiler_event_base -> pprog profiler_event_base X -> pprog profiler_event_base X) : Prop :=
  forall e b ret, well_split (Some b) (track e (PEmit b e ret)) /\ within 4 (track e (PEmit b e ret)).

Lemma page_alloc_well {X} cfg fk cx page (track : _ -> pprog _ X -> pprog _ X) :
  good_track track -> well_split None (page_alloc_prog cfg fk cx page track).
Proof.
  intros Ht. apply with_state_well. intros s. case_if; [done|]. case_if; [done|]. split; [done|].
  intros b. apply prepare_prog_well. intros e. apply Ht.
Qed.

Lemma page_alloc_within {X} cfg fk cx page (track : _ -> pprog _ X -> pprog _ X) :
  good_track track -> within 7 (page_alloc_prog cfg fk cx page track).
Proof.
  intros Ht. apply with_state_within. intros s. case_if; [done|]. case_if; [done|].
  intros b. apply prepare_prog_within. intros e. apply Ht.
Qed.

Lemma no_track : good_track (X := unit) (fun _ rest => rest).
Proof. intros e b ret. cbn. split; [done|lia]. Qed.

Lemma mmap_well {X} cfg cx file len : well_split (X := X) None (mmap_prog cfg cx file len).
Proof.
  apply with_state_well. intros s. case_if; [done|]. case_if; [done|]. split; [done|]. intros b. by apply prepare_prog_well.
Qed.

Lemma mmap_within {X} cfg cx file len : within (X := X) 7 (mmap_prog cfg cx file len).
Proof.
  apply with_state_within. intros s. case_if; [done|]. case_if; [done|]. intros b. apply prepare_prog_within. cbn. lia.
Qed.

Lemma sampler_solo cfg c s : solo (sampler_prog cfg c) s = (sampler_step cfg c s.1, s.2).
Proof. destruct c as [cx [file len|fk page]]; [apply mmap_solo|apply alloc_solo]. Qed.
Lemma sampler_well cfg c : well_split None (sampler_prog cfg c).
Proof. destruct c as [cx [file len|fk page]]; [apply mmap_well|apply page_alloc_well, no_track]. Qed.
Lemma sampler_within cfg c : within 7 (sampler_prog cfg c).
Proof. destruct c as [cx [file len|fk page]]; [apply mmap_within|apply page_alloc_within, no_track]. Qed.

#[export] Instance sampler_split cfg : SplitProfiler (prof_ctx * sampler) profiler_event_base unit := {|
  split_prog := sampler_prog cfg;
  sequential c s := (sampler_step cfg c s.1, s.2);
  split_well := sampler_well cfg;
  split_within := sampler_within cfg;
  split_solo := sampler_solo cfg;
|}.

(** *** Physical usage *)

Section UsageLaws.
Context {M : BpfMapOps}.

Definition usage_pair (us : usage_state) : shared profiler_event_base page_map := (us_maps us, page_to_stackid us).
Definition pair_usage (s : shared profiler_event_base page_map) : usage_state := UsageState s.1 s.2.

Lemma pages_quiet (f : page_map -> page_map) : quiet (on_pages f).
Proof. by intros s. Qed.

Lemma usage_track page : good_track (fun event rest =>
  PLocal (on_pages (fun m : page_map => snd (bpf_map_update_elem m page event BPF_ANY))) (fun _ => rest)).
Proof. intros e b ret. split; [split; [apply pages_quiet|done]|cbn; lia]. Qed.

Lemma usage_alloc_solo cfg fk cx page s :
  solo (usage_alloc_prog cfg fk cx page) s =
    usage_pair (physical_usage_trace_page_alloc cfg fk cx page (pair_usage s)).
Proof.
  unfold usage_alloc_prog. rewrite page_alloc_solo. destruct s as [ps x].
  unfold physical_usage_trace_page_alloc, usage_folio_nr_pages, sample_pages, pair_usage. cbn [fst snd us_maps page_to_stackid].
  destruct (profiler_init_state ps) as [t|]; [|done]. case_if; [done|]. case_if; [done|].
  destruct (profiler_prepare_event_base _ _ _ _) as [[e|] ps']; [|done].
  destruct (profiler_folio_npages cfg); [|done]. cbn [value set_value]. by case_if.
Qed.

Lemma usage_free_solo cfg cx page parm3 s :
  solo (usage_free_prog cfg cx page parm3) s =
    usage_pair (physical_usage_trace_page_free cfg cx page parm3 (pair_usage s)).
Proof.
  destruct s as [ps x]. unfold usage_free_prog. rewrite with_state_solo.
  unfold physical_usage_trace_page_free, pair_usage. cbn [fst snd us_maps page_to_stackid].
  destruct (profiler_init_state ps) as [t|] eqn:Ht; [|done]. case_if; [done|]. cbn [solo fst snd id].
  destruct (bpf_map_lookup_elem x page) as [si|]; [|done]. destruct (event_buf ps) eqn:Hb; [|done]. cbn [solo fst snd].
  set (s1 := (ps, x)). assert (Hsel : forall e f, transfer_count (set_maps (store_event cx e ps) (on_pages f s1)) = t).
  { intros e f. apply solo_transfer. cbn [fst set_maps]. destruct (store_event_quiet cx e ps) as [Hs _].
    unfold profiler_init_state in *. by rewrite Hs. }
  cbn [id] in *. subst s1. destruct (profiler_folio_npages cfg); [|cbn [Z.eqb]; by rewrite Hsel].
  rewrite Hsel. by destruct (_ =? 0).
Qed.

Lemma usage_free_well cfg cx page parm3 : well_split None (usage_free_prog cfg cx page parm3).
Proof.
  apply with_state_well. intros s. destruct (profiler_should_trace _ _ _); cbn [negb]; [|done]. split; [apply id_quiet|]. intros s'.
  destruct (bpf_map_lookup_elem _ page); [|done]. destruct (event_buf _); [|done].
  split; [|done]. intros s2. cbn. apply store_event_quiet.
Qed.

Lemma usage_free_within cfg cx page parm3 : within 7 (usage_free_prog cfg cx page parm3).
Proof.
  apply with_state_within. intros s. destruct (profiler_should_trace _ _ _); cbn [negb]; [|done]. intros s'.
  destruct (bpf_map_lookup_elem _ page); [|done]. destruct (event_buf _); [|done]. cbn. lia.
Qed.

Lemma usage_solo cfg e s : solo (usage_prog cfg e) s = usage_pair (usage_step cfg e (pair_usage s)).
Proof. destruct e; [apply usage_alloc_solo|apply usage_free_solo]. Qed.
Lemma usage_well cfg e : well_split None (usage_prog cfg e).
Proof. destruct e as [fk cx page|cx page parm3]; [apply page_alloc_well, usage_track|apply usage_free_well]. Qed.
Lemma usage_within cfg e : within 7 (usage_prog cfg e).
Proof. destruct e as [fk cx page|cx page parm3]; [apply page_alloc_within, usage_track|apply usage_free_within]. Qed.

#[export] Instance usage_split cfg : SplitProfiler usage_event profiler_event_base page_map := {|
  split_prog := usage_prog cfg;
  sequential e s := usage_pair (usage_step cfg e (pair_usage s));
  split_well := usage_well cfg;
  split_within := usage_within cfg;
  split_solo := usage_solo cfg;
|}.
End UsageLaws.

(** ** Schedules *)

Section Schedules.
Context {A E X : Type} {P : SplitProfiler A E X}.

Record pthread := PThread { t_prog : pprog E X; t_sel : option ab }.

Record pstate := PState {
  p_mem : shared E X;
  p_pool : gmap Z pthread;
  p_log : list (pevent E);
}.

(** An invocation starts on a free slot or takes its next step; user space increments
    the transfer count, writes zero to a sample counter, or takes the first records of
    a ring. *)
Inductive plabel := Start (c : Z) (a : A) | Step (c : Z) | Flip | Reset (b : ab) | Drain (b : ab) (n : nat).

Definition write_slot (i v : Z) (s : shared E X) : shared E X :=
  set_maps (set_state_map s.1 (<[i := v]> (profiler_state_map s.1))) s.

(** A program that has returned leaves its slot. *)
Definition psettle (c : Z) (t : pthread) (others : gmap Z pthread) : gmap Z pthread :=
  match t_prog t with PRet => others | _ => <[c := t]> others end.

Definition pstep (st : pstate) (l : plabel) : pstate :=
  match l with
  | Start c a =>
      match p_pool st !! c with
      | Some _ => st
      | None => PState (p_mem st) (psettle c (PThread (split_prog a) None) (p_pool st)) (p_log st)
      end
  | Step c =>
      match p_pool st !! c with
      | None => st
      | Some t =>
          let '(p, sel, s, evs) := pexec (t_prog t) (t_sel t) (p_mem st) in
          PState s (psettle c (PThread p sel) (delete c (p_pool st))) (p_log st ++ evs)
      end
  | Flip => PState (write_slot PROFILER_STATE_TRANSFER_CNT_IDX (transfer_count (p_mem st) +64 1) (p_mem st))
              (p_pool st) (p_log st ++ [LFlip])
  | Reset b => PState (write_slot (count_idx b) 0 (p_mem st)) (p_pool st) (p_log st ++ [LReset b])
  | Drain b n =>
      let ring := output_of b (p_mem st).1 in
      PState (set_maps (set_output b (drop n ring) (p_mem st).1) (p_mem st)) (p_pool st)
        (p_log st ++ [LDrain b (take n ring)])
  end.

Definition prun (ls : list plabel) (st : pstate) : pstate := fold_left pstep ls st.

(** Loaded maps: all slots zero, empty rings. *)
Definition pstart (bufs : option (percpu E)) (x : X) : pstate :=
  PState (ProfMaps {[0 := 0; 1 := 0; 2 := 0]} [] [] bufs, x) ∅ [].

(** *** What a log says *)

Definition is_count (b : ab) (e : pevent E) : Z :=
  match e with LCount b' => c_of_bool (bool_decide (b = b')) | _ => 0 end.
Definition is_output (b : ab) (e : pevent E) : Z :=
  match e with LOutput b' _ _ => c_of_bool (bool_decide (b = b')) | _ => 0 end.
Definition is_failed (b : ab) (e : pevent E) : Z :=
  match e with LOutput b' _ ok => c_of_bool (bool_decide (b = b') && negb ok) | _ => 0 end.

(** Samples counted for [b] since its counter was last reset. *)
Definition since_reset (b : ab) (log : list (pevent E)) : Z :=
  fold_left (fun n e => match e with
                        | LCount b' => if decide (b = b') then n + 1 else n
                        | LReset b' => if decide (b = b') then 0 else n
                        | _ => n
                        end) log 0.

(** Records the ring of [b] accepted, and records user space took from it, in order. *)
Definition accepted (b : ab) (log : list (pevent E)) : list E :=
  e ← log; match e with LOutput b' r true => if decide (b = b') then [r] else [] | _ => [] end.
Definition drained (b : ab) (log : list (pevent E)) : list E :=
  e ← log; match e with LDrain b' rs => if decide (b = b') then rs else [] | _ => [] end.

(** Invocations in flight that selected [b]; those of them that have still to count;
    and those that have counted and have still to output. *)
Definition chose (b : ab) (t : pthread) : Z := c_of_bool (bool_decide (t_sel t = Some b)).
Definition in_flight_thread (b : ab) (t : pthread) : Z :=
  match t_prog t with PRet => 0 | _ => chose b t end.
Definition uncounted_thread (b : ab) (t : pthread) : Z :=
  match t_prog t with PRet | POutput _ _ _ => 0 | _ => chose b t end.
Definition outputting_thread (b : ab) (t : pthread) : Z :=
  match t_prog t with POutput b' _ _ => c_of_bool (bool_decide (b = b')) | _ => 0 end.
Definition in_flight (b : ab) (st : pstate) : Z := pool_sum (in_flight_thread b) (p_pool st).
Definition uncounted (b : ab) (st : pstate) : Z := pool_sum (uncounted_thread b) (p_pool st).
Definition outputting (b : ab) (st : pstate) : Z := pool_sum (outputting_thread b) (p_pool st).

(** *** Lemmas *)

Definition selected (s : shared E X) : ab := select_profiler_ab (transfer_count s).

Lemma psettle_sum (w : pthread -> Z) c t others :
  (forall sel, w (PThread PRet sel) = 0) -> others !! c = None ->
  pool_sum w (psettle c t others) = w t + pool_sum w others.
Proof.
  intros Hw Hc. unfold psettle. destruct t as [[] sel]; cbn in *; try (by apply pool_sum_insert). rewrite Hw. lia.
Qed.

Lemma psettle_lookup c t others c' t' :
  psettle c t others !! c' = Some t' -> t' = t \/ others !! c' = Some t'.
Proof.
  unfold psettle. destruct (t_prog t); try (by right);
    intros Hl; apply lookup_insert_Some in Hl as [[_ <-]|[_ Hl]]; auto.
Qed.

(** One step of a program in flight: it stays one, the events are balanced, and a
    buffer that is not selected gets only what was on its way. *)
Lemma pexec_ok p sel (s : shared E X) :
  flight_ok sel p ->
  let '(p', sel', s', evs) := pexec p sel s in
  let t := PThread p sel in let t' := PThread p' sel' in
  flight_ok sel' p' /\
  (forall b, zsum (is_count b) evs + outputting_thread b t = zsum (is_output b) evs + outputting_thread b t') /\
  (forall b, b <> selected s ->
     zsum (is_count b) evs + uncounted_thread b t' <= uncounted_thread b t /\
     zsum (is_output b) evs + in_flight_thread b t' <= in_flight_thread b t).
Proof.
  assert (Hc : forall b b', c_of_bool (bool_decide (b = b')) = chose b (PThread PRet (Some b'))).
  { intros b b'. unfold chose. cbn. do 2 f_equal. apply bool_decide_ext. split; congruence. }
  assert (Hchose : forall b t, 0 <= chose b t <= 1) by (intros; unfold chose, c_of_bool; case_match; lia).
  assert (Hun : forall b p0, uncounted_thread b (PThread p0 sel) <= chose b (PThread PRet sel) /\
    in_flight_thread b (PThread p0 sel) <= chose b (PThread PRet sel)).
  { intros b p0. pose proof (Hchose b (PThread PRet sel)). unfold uncounted_thread, in_flight_thread, chose in *. cbn in *.
    destruct p0; lia. }
  destruct p as [|upd k|k|b0 e ret|b0 e ret]; cbn [flight_ok well_split pexec]; intros Hp; cbn zeta.
  - split_and!; [done|done|]. intros b _. cbn. lia.
  - destruct Hp as [_ Hk]. specialize (Hk s). split_and!.
    + by destruct (k s).
    + intros b. cbn. by destruct (k s).
    + intros b _. cbn. apply (Hun b (k s)).
  - destruct Hp as [-> Hk]. specialize (Hk (selected s)). fold (selected s). split_and!.
    + by destruct (k (selected s)).
    + intros b. cbn. by destruct (k (selected s)).
    + intros b Hb. unfold uncounted_thread, in_flight_thread, chose. cbn.
      rewrite (bool_decide_false (Some _ = Some b)), (bool_decide_false (None = Some b)) by congruence.
      destruct (k (selected s)); cbn; lia.
  - subst sel. split_and!; [done| |]; intros b; unfold outputting_thread, uncounted_thread, in_flight_thread;
      cbn; rewrite ?Hc; unfold chose; cbn; lia.
  - subst sel. split_and!; [done| |]; intros b; unfold outputting_thread, uncounted_thread, in_flight_thread;
      cbn; rewrite ?Hc; unfold chose; cbn; lia.
Qed.

(** What the events did to the counters and the rings. *)
Definition log_count (b : ab) (evs : list (pevent E)) (n : Z) : Z :=
  fold_left (fun n e => match e with
                        | LCount b' => if decide (b = b') then n +64 1 else n
                        | LReset b' => if decide (b = b') then 0 else n
                        | _ => n
                        end) evs n.

Lemma count_of_slot b i v (s : shared E X) :
  count_of b (write_slot i v s).1 = if decide (i = count_idx b) then v else count_of b s.1.
Proof.
  unfold count_of. cbn. case_decide as Hi; [subst; by rewrite lookup_insert_eq|by rewrite lookup_insert_ne].
Qed.

Lemma count_sample_slot b (s : shared E X) :
  count_sample b s = write_slot (count_idx b) (count_of b s.1 +64 1) s.
Proof. done. Qed.

Lemma pexec_mem p sel (s : shared E X) :
  flight_ok sel p ->
  let '(_, _, s', evs) := pexec p sel s in
  transfer_count s' = transfer_count s /\
  forall b, count_of b s'.1 = log_count b evs (count_of b s.1) /\
            output_of b s'.1 = output_of b s.1 ++ accepted b evs.
Proof.
  destruct p as [|upd k|k|b0 e ret|b0 e ret]; cbn [flight_ok well_split pexec]; intros Hp; cbn zeta.
  - split; [done|]. intros b. by rewrite app_nil_r.
  - destruct Hp as [Hq _]. destruct (Hq s) as [Hs Ho]. unfold transfer_count, count_of. rewrite Hs. split; [done|].
    intros b. by rewrite Ho, app_nil_r.
  - split; [done|]. intros b. by rewrite app_nil_r.
  - split.
    + unfold transfer_count. cbn. rewrite lookup_insert_ne; [done|]. by destruct b0.
    + intros b. rewrite count_sample_slot, count_of_slot. cbn. split; [|rewrite app_nil_r; by destruct b].
      destruct (decide (b = b0)) as [->|Hne]; [by rewrite decide_True|].
      rewrite decide_False; [done|]. intros Hi%count_idx_inj. congruence.
  - unfold output_sample. cbn [fst set_maps]. split.
    + unfold transfer_count. cbn. by rewrite state_set_output.
    + intros b. unfold count_of. rewrite state_set_output, output_set_output. split; [done|]. cbn.
      destruct (ret <? 0) eqn:Hr; cbn; rewrite ?app_nil_r; [case_decide; by subst|].
      destruct (decide (b = b0)) as [->|Hne]; [by rewrite decide_True|]. rewrite decide_False by congruence.
      by rewrite app_nil_r.
Qed.

(** *** The invariant of a run *)

Record accounted (st : pstate) : Prop := Accounted {
  ac_flight : map_Forall (fun _ t => flight_ok (t_sel t) (t_prog t)) (p_pool st);
  ac_balance b : zsum (is_count b) (p_log st) = zsum (is_output b) (p_log st) + outputting b st;
  ac_count b : count_of b (p_mem st).1 = log_count b (p_log st) 0;
  ac_ring b : accepted b (p_log st) = drained b (p_log st) ++ output_of b (p_mem st).1;
}.

Lemma accepted_app b l l' : accepted b (l ++ l') = accepted b l ++ accepted b l'.
Proof. apply bind_app. Qed.
Lemma drained_app b l l' : drained b (l ++ l') = drained b l ++ drained b l'.
Proof. apply bind_app. Qed.
Lemma log_count_app b l l' n : log_count b (l ++ l') n = log_count b l' (log_count b l n).
Proof. apply fold_left_app. Qed.

Lemma pexec_drains p sel (s : shared E X) b : drained b (pexec p sel s).2 = [].
Proof. by destruct p. Qed.

Lemma start_flight a : flight_ok None (split_prog a).
Proof. pose proof (split_well a) as Hw. by destruct (split_prog a). Qed.

Lemma start_weights a b :
  outputting_thread b (PThread (split_prog a) None) = 0 /\
  uncounted_thread b (PThread (split_prog a) None) = 0 /\
  in_flight_thread b (PThread (split_prog a) None) = 0.
Proof.
  pose proof (split_well a) as Hw. unfold uncounted_thread, in_flight_thread, chose. cbn.
  rewrite bool_decide_false by done. by destruct (split_prog a).
Qed.

Lemma step_accounted st l : accounted st -> accounted (pstep st l).
Proof.
  intros [Hf Hb Hc Hr]. destruct l as [c a|c| |b'|b' n]; cbn [pstep].
  - destruct (p_pool st !! c) as [t|] eqn:Hl; [done|]. split; cbn [p_pool p_log p_mem]; try done.
    + intros c' t Ht. apply psettle_lookup in Ht as [->|Ht]; [apply start_flight|by apply (Hf c')].
    + intros b. unfold outputting. cbn. rewrite psettle_sum by done. rewrite (proj1 (start_weights a b)), Z.add_0_l. apply Hb.
  - destruct (p_pool st !! c) as [t|] eqn:Hl; [|done]. pose proof (Hf c t Hl) as Hok.
    pose proof (pexec_ok _ _ (p_mem st) Hok) as He. pose proof (pexec_mem _ _ (p_mem st) Hok) as Hm.
    pose proof (pexec_drains (t_prog t) (t_sel t) (p_mem st)) as Hd.
    destruct (pexec (t_prog t) (t_sel t) (p_mem st)) as [[[p' sel'] s'] evs]. destruct He as (Hok' & Hbal & _).
    destruct Hm as [_ Hm]. cbn [snd] in Hd. split; cbn [p_pool p_log p_mem].
    + intros c' t' Ht. apply psettle_lookup in Ht as [->|Ht]; [done|]. apply lookup_delete_Some in Ht as [_ Ht]. by apply (Hf c').
    + intros b. unfold outputting in *. cbn [p_pool]. rewrite psettle_sum by (try done; apply lookup_delete_eq).
      rewrite !zsum_app, Hb, (pool_sum_delete _ _ _ _ Hl). specialize (Hbal b). destruct t. cbn in *. lia.
    + intros b. rewrite log_count_app, <- Hc. apply (Hm b).
    + intros b. rewrite accepted_app, drained_app, Hr, Hd, app_nil_r, <- app_assoc. f_equal. symmetry. apply (Hm b).
  - split; cbn [p_pool p_log p_mem]; try done; intros b.
    + rewrite !zsum_app, !zsum_one, Hb. unfold outputting. cbn. lia.
    + rewrite log_count_app, count_of_slot, decide_False by (by destruct b). apply Hc.
    + rewrite accepted_app, drained_app, !app_nil_r, Hr. by destruct b.
  - split; cbn [p_pool p_log p_mem]; try done; intros b.
    + rewrite !zsum_app, !zsum_one, Hb. unfold outputting. cbn. lia.
    + rewrite log_count_app, count_of_slot. cbn. destruct (decide (b = b')) as [->|Hne]; [by rewrite decide_True|].
      rewrite decide_False; [apply Hc|]. intros Hi%count_idx_inj. congruence.
    + rewrite accepted_app, drained_app, !app_nil_r, Hr. by destruct b.
  - split; cbn [p_pool p_log p_mem]; try done; intros b.
    + rewrite !zsum_app, !zsum_one, Hb. unfold outputting. cbn. lia.
    + unfold count_of. cbn [fst set_maps]. rewrite log_count_app, state_set_output. apply Hc.
    + cbn [fst set_maps]. rewrite accepted_app, drained_app, app_nil_r, Hr, output_set_output. cbn.
      destruct (decide (b = b')) as [->|Hne]; [|by rewrite decide_False, app_nil_r by congruence].
      rewrite decide_True, app_nil_r, <- app_assoc by done. f_equal. symmetry. apply take_drop.
Qed.

Lemma run_accounted ls : forall st, accounted st -> accounted (prun ls st).
Proof. induction ls as [|l ls IH]; intros st Hst; [done|]. apply IH. by apply step_accounted. Qed.

Lemma start_accounted bufs x : accounted (pstart bufs x).
Proof. split; [apply map_Forall_empty|done| |]; by intros []. Qed.

Lemma log_count_u64 b l : log_count b l 0 = u64 (since_reset b l).
Proof.
  unfold log_count, since_reset. set (f := fun n e => _). set (g := fun n e => _).
  enough (H : forall n, fold_left f l (u64 n) = u64 (fold_left g l n)) by apply (H 0).
  induction l as [|e l IH]; intros n; [done|]. cbn [fold_left].
  destruct e as [b'| | |b'|]; try apply IH; unfold f at 2, g at 2; destruct (decide (b = b')); try apply IH.
  - rewrite u64_add_idemp_l. apply IH.
  - apply (IH 0).
Qed.

Lemma outputs_split b l : zsum (is_output b) l = Z.of_nat (length (accepted b l)) + zsum (is_failed b) l.
Proof.
  induction l as [|e l IH]; [done|]. change (e :: l) with ([e] ++ l).
  rewrite accepted_app, !zsum_app, !zsum_one, IH, length_app, Nat2Z.inj_add. enough (is_output b e =
    Z.of_nat (length (accepted b [e])) + is_failed b e) by lia.
  destruct e as [|b' r ok| | |]; try done. cbn. destruct (decide (b = b')) as [->|Hne];
    [rewrite bool_decide_true by done|rewrite bool_decide_false by done]; by destruct ok.
Qed.

(** C9: samples are accounted for on every schedule.  However sampling hooks on any
    number of CPUs interleave with each other and with user space swapping, reading
    and resetting the two buffers: a sample counter holds the samples counted for its
    buffer since user space last wrote zero to it; the records a ring has accepted are
    the records user space took from it followed by the ones still in it, in order; and
    the samples counted for a buffer are the accepted records, the failed outputs, and
    the invocations between their count and their output.  So once no invocation is in
    flight, what the counters have and the rings have not is what was lost. *)
Theorem samples_accounted_under_races ls bufs x b :
  let st := prun ls (pstart bufs x) in
  count_of b (p_mem st).1 = u64 (since_reset b (p_log st)) /\
  accepted b (p_log st) = drained b (p_log st) ++ output_of b (p_mem st).1 /\
  zsum (is_count b) (p_log st) =
    Z.of_nat (length (accepted b (p_log st))) + zsum (is_failed b) (p_log st) + outputting b st.
Proof.
  intros st. destruct (run_accounted ls _ (start_accounted bufs x)) as [_ Hb Hc Hr]. fold st in Hb, Hc, Hr.
  split_and!; [by rewrite Hc, log_count_u64|apply Hr|]. by rewrite Hb, outputs_split.
Qed.

(** *** After a swap *)

Definition no_flip (l : plabel) : Prop := match l with Flip => False | _ => True end.

(** From [st] to [st'], buffer [b] got only what was on its way to it. *)
Definition only_late (b : ab) (st st' : pstate) : Prop :=
  exists new, p_log st' = p_log st ++ new /\
    zsum (is_count b) new + uncounted b st' <= uncounted b st /\
    zsum (is_output b) new + in_flight b st' <= in_flight b st /\
    selected (p_mem st') = selected (p_mem st).

Lemma only_late_trans b st1 st2 st3 : only_late b st1 st2 -> only_late b st2 st3 -> only_late b st1 st3.
Proof.
  intros (n1 & L1 & C1 & O1 & S1) (n2 & L2 & C2 & O2 & S2). exists (n1 ++ n2).
  rewrite L2, L1, !zsum_app, app_assoc. split_and!; [done|lia|lia|congruence].
Qed.

Lemma step_late b st l :
  accounted st -> no_flip l -> b <> selected (p_mem st) -> only_late b st (pstep st l).
Proof.
  intros [Hf _ _ _] Hl Hb. assert (Hrefl : only_late b st st).
  { exists []. rewrite app_nil_r. cbn. split_and!; [done|lia|lia|done]. }
  unfold only_late, uncounted, in_flight in *. destruct l as [c a|c| |b'|b' n]; cbn [pstep no_flip] in *; [| |done| |].
  - destruct (p_pool st !! c) as [t|] eqn:Hc; [done|]. exists []. cbn [p_pool p_log p_mem]. rewrite app_nil_r.
    destruct (start_weights a b) as (_ & Hu & Hi). rewrite !psettle_sum, Hu, Hi by done. cbn. split_and!; [done|lia|lia|done].
  - destruct (p_pool st !! c) as [t|] eqn:Hc; [|done]. pose proof (Hf c t Hc) as Hok.
    pose proof (pexec_ok _ _ (p_mem st) Hok) as He. pose proof (pexec_mem _ _ (p_mem st) Hok) as Hm.
    destruct (pexec (t_prog t) (t_sel t) (p_mem st)) as [[[p' sel'] s'] evs]. destruct He as (_ & _ & He).
    destruct Hm as [Ht _]. destruct (He b Hb) as [H1 H2]. exists evs. cbn [p_pool p_log p_mem].
    rewrite !psettle_sum by (try done; apply lookup_delete_eq). rewrite !(pool_sum_delete _ _ _ _ Hc).
    destruct t as [p sel]. cbn [t_prog t_sel] in *. unfold selected. rewrite Ht. split_and!; [done|lia|lia|done].
  - exists [LReset b']. cbn [p_pool p_log p_mem]. rewrite !zsum_one. cbn [is_count is_output]. split_and!; [done|lia|lia|].
    unfold selected, transfer_count. cbn. by rewrite lookup_insert_ne by (by destruct b').
  - exists [LDrain b' (take n (output_of b' (p_mem st).1))]. cbn [p_pool p_log p_mem]. rewrite !zsum_one.
    cbn [is_count is_output]. split_and!; [done|lia|lia|]. unfold selected, transfer_count. cbn. by rewrite state_set_output.
Qed.

(** C17: only invocations in flight reach a frozen buffer.  From the moment user space has
    swapped the buffers, and until it swaps them again, whatever runs on whichever CPU:
    the samples counted for the frozen buffer and those still to come are at most the
    invocations that had selected it before the swap and had not counted yet, and the
    records output to it at most those that had not returned.  In particular, a frozen
    buffer no invocation has selected stays as it is, apart from what user space takes. *)
Theorem late_samples_bounded ls ls' bufs x b :
  let st := prun ls (pstart bufs x) in
  Forall no_flip ls' -> b <> selected (p_mem st) -> only_late b st (prun ls' st).
Proof.
  intros st Hl Hb. assert (Hst : accounted st) by apply run_accounted, start_accounted.
  clearbody st. revert st Hst Hb. induction Hl as [|l ls' Hl Hls IH]; intros st Hst Hb.
  { exists []. rewrite app_nil_r. cbn. split_and!; [done|lia|lia|done]. }
  pose proof (step_late b st l Hst Hl Hb) as Hs. apply (only_late_trans b st (pstep st l)); [done|].
  apply IH; [by apply step_accounted|]. destruct Hs as (_ & _ & _ & _ & ->). done.
Qed.

(** *** An invocation alone *)

Lemma solo_step (p : pprog E X) sel s p' sel' s' evs :
  pexec p sel s = (p', sel', s', evs) -> solo p' s' = solo p s.
Proof. destruct p; cbn; intros; simplify_eq; done. Qed.

Lemma within_step n (p : pprog E X) sel s p' sel' s' evs :
  within (S n) p -> pexec p sel s = (p', sel', s', evs) -> within n p'.
Proof. destruct p; cbn; intros Hw He; simplify_eq; destruct n; try done; try apply Hw. all: cbn in *; try lia; auto. Qed.

Lemma idle_steps n c st : p_pool st !! c = None -> prun (replicate n (Step c)) st = st.
Proof. intros Hc. induction n as [|n IH]; [done|]. cbn [replicate prun fold_left pstep]. by rewrite Hc. Qed.

Lemma alone_steps n c p sel s others log :
  within n p -> others !! c = None ->
  let st := prun (replicate n (Step c)) (PState s (psettle c (PThread p sel) others) log) in
  p_mem st = solo p s /\ p_pool st = others.
Proof.
  revert p sel s log. induction n as [|n IH]; intros p sel s log Hw Hc.
  { destruct p; done. }
  assert (Hd : p = PRet \/ psettle c (PThread p sel) others = <[c := PThread p sel]> others) by
    (unfold psettle; destruct p; auto).
  destruct Hd as [->|Hd]; [by rewrite idle_steps by done|].
  rewrite Hd. cbn [replicate prun fold_left pstep p_pool]. rewrite lookup_insert_eq. cbn [t_prog t_sel p_mem p_log].
  destruct (pexec p sel s) as [[[p' sel'] s'] evs] eqn:He. rewrite delete_insert_id by done.
  rewrite <- (solo_step _ _ _ _ _ _ _ He). apply IH; [by eapply within_step|done].
Qed.

(** The two accounts of an invocation agree: not interrupted, it has returned after at most
    seven steps, and the maps are what the sequential definition makes of them. *)
Theorem lone_sample_is_sequential st c a :
  p_pool st !! c = None ->
  let st' := prun (Start c a :: replicate 7 (Step c)) st in
  p_mem st' = sequential a (p_mem st) /\ p_pool st' = p_pool st.
Proof.
  intros Hc. cbv zeta. change (prun (Start c a :: ?l) st) with (prun l (pstep st (Start c a))). cbn [pstep]. rewrite Hc.
  rewrite <- split_solo. apply alone_steps; [apply split_within|done].
Qed.
End Schedules.

(** ** Concrete schedules *)

Notation mmap_label := (plabel (A := prof_ctx * sampler)).

Definition mmap_call : prof_ctx * sampler := (demo_cx, OnMmap 0 4096).

(** One sample is complete; another has prepared its event when the buffers are
    swapped. *)
Definition before_swap : list mmap_label :=
  [Start 0 mmap_call; Step 0; Step 0; Step 0; Step 0; Step 0; Start 1 mmap_call; Step 1; Step 1; Step 1; Flip].

Definition mmap_run (ls : list mmap_label) : pstate (E := profiler_event_base) (X := unit) :=
  prun (P := sampler_split demo_cfg) ls (pstart (Some ∅) tt).

Lemma late_samples_bounded_witness :
  let st := mmap_run before_swap in
  in_flight BufA st = 1 /\ uncounted BufA st = 1 /\
  only_late BufA st (prun (P := sampler_split demo_cfg) [Step 1; Start 0 mmap_call; Step 0; Step 1; Drain BufA 5] st).
Proof.
  split; [by vm_compute|]. split; [by vm_compute|].
  apply (late_samples_bounded (P := sampler_split demo_cfg) before_swap _ (Some ∅) tt BufA);
    [repeat constructor|by vm_compute].
Defined.

(** User space reads the counter of the frozen buffer, the late sample arrives, and user
    space writes zero: the sample is in the ring and in no count that was read. *)
Lemma reset_hides_late_sample :
  let read := mmap_run before_swap in
  let done := mmap_run (before_swap ++ [Step 1; Step 1; Reset BufA]) in
  count_of BufA (p_mem read).1 = 1 /\ count_of BufA (p_mem done).1 = 0 /\ in_flight BufA done = 0 /\
  length (accepted BufA (p_log done)) = 2%nat.
Proof. by vm_compute. Qed.

(** Two CPUs unmap parts of one 16-page folio; both read the 16 pages that are left, and
    the later store puts back what the earlier one took. *)
Definition folio_cfg : profiler_config := ProfilerConfig 0 42 true 100 0 true.
Definition folio_tracked : page_map (M := faulty_ops) := FaultyHash {[100 := set_value 16 zero_base]} 4 [].
Definition free_steps : list (plabel (A := usage_event)) :=
  [Start 0 (PageFree demo_cx 100 10); Start 1 (PageFree demo_cx 100 6)] ++
  concat (replicate 7 [Step 0; Step 1]).

Lemma concurrent_unmap_loses_pages :
  let st := prun (P := usage_split (M := faulty_ops) folio_cfg) free_steps (pstart (Some ∅) folio_tracked) in
  map value (output_of BufA (p_mem st).1) = [-10; -6] /\ p_pool st = ∅ /\
  option_map value (bpf_map_lookup_elem (p_mem st).2 100) = Some 10.
Proof. by vm_compute. Qed.

End ProfilerRace.
