(* ===== verification/OffCpu.v ===== *)
(** * Off-CPU profiler ([bpf/native_offcpu_profiler.c])

    Per task, the profiler follows a small state machine: switched out and
    blocked, woken and waiting for a CPU, or switched out while runnable; every
    phase that ends is reported with the stack captured when the task left the
    CPU.  Module [OffCpu] models the five programs on the shared state map and
    proves that, seen from one task, they are exactly that state machine, and
    that the reported phases of a task never overlap.

    A perf record is logged together with the address of the task it is about
    and the time it was output, which the program knows and the record omits. *)

From Stdlib Require Import ZArith Lia Sorted.
From stdpp Require Import base option list gmap tactics countable.
From S2P Require Import Prelude BpfMap Profiler.

Local Open Scope Z_scope.
Local Open Scope bpf_scope.

Module OffCpu.
Export Profiler.

(** ** Constants and records *)

Definition OFFCPU_CPU_SET_WORD_BITS : Z := 64.
Definition OFFCPU_CPU_SET_WORDS : Z := 128.
Definition OFFCPU_PHASE_FILTER_ALL : Z := 0.
Definition OFFCPU_PHASE_FILTER_BLOCKED : Z := 1.
Definition OFFCPU_PHASE_FILTER_RUNQUEUE : Z := 2.

Definition PROFILER_OFFCPU_EVENT_BLOCKED : Z := 1.
Definition PROFILER_OFFCPU_EVENT_RUNQUEUE : Z := 2.
Definition PROFILER_OFFCPU_EVENT_RUNQUEUE_PREEMPTED : Z := 3.
Definition PROFILER_OFFCPU_EVENT_RUNQUEUE_YIELDED : Z := 4.
Definition PROFILER_OFFCPU_EVENT_RUNQUEUE_MISSED_WAKEUP : Z := 5.

Definition PROFILER_OFFCPU_STAT_STACK_FAILURE : Z := 0.
Definition PROFILER_OFFCPU_STAT_STATE_UPDATE_FAILURE : Z := 1.
Definition PROFILER_OFFCPU_STAT_OUTPUT_FAILURE : Z := 2.
Definition PROFILER_OFFCPU_STAT_MISSED_WAKEUP : Z := 3.
Definition PROFILER_OFFCPU_STAT_STATE_CLEANUP : Z := 4.

Definition TASK_RUNNING : Z := 0.

Record offcpu_state := OffState {
  os_base : profiler_event_base;
  os_phase_start_ns : Z;
  os_kind : Z;
}.

Record profiler_offcpu_event := OffEvent {
  oe_base : profiler_event_base;
  oe_kind : Z;
  oe_pad0 : Z;
}.
Definition zero_offcpu_event : profiler_offcpu_event := OffEvent zero_base 0 0.

(** A record with the task and the time of its output. *)
Record off_record := OffRecord {
  rec_task : Z;
  rec_end : Z;
  rec_event : profiler_offcpu_event;
}.

Record off_config := OffConfig {
  off_profiler : profiler_config;
  profiler_offcpu_phase : Z;
  profiler_offcpu_min_duration_ns : Z;
  profiler_offcpu_cpu_set_enabled : Z;
  profiler_offcpu_stats_enabled : Z;
}.

Section Model.
Context {M : BpfMapOps}.

Record oc_state := OcState {
  offcpu_cpu_set : gmap Z Z;
  offcpu_event_buf : option (percpu profiler_offcpu_event);
  offcpu_states : hmap Z offcpu_state;
  offcpu_stats : gmap (Z * Z) Z;
  off_output : list off_record;
}.

Definition set_off_buf st x :=
  OcState (offcpu_cpu_set st) x (offcpu_states st) (offcpu_stats st) (off_output st).
Definition set_off_states st x :=
  OcState (offcpu_cpu_set st) (offcpu_event_buf st) x (offcpu_stats st) (off_output st).
Definition set_off_stats st x :=
  OcState (offcpu_cpu_set st) (offcpu_event_buf st) (offcpu_states st) x (off_output st).
Definition set_off_output st x :=
  OcState (offcpu_cpu_set st) (offcpu_event_buf st) (offcpu_states st) (offcpu_stats st) x.

(** ** Helpers *)

Definition offcpu_stat_inc (cfg : off_config) (cx : prof_ctx) (stat : Z) (st : oc_state) : oc_state :=
  if profiler_offcpu_stats_enabled cfg =? 0 then st
  else set_off_stats st
         (<[(stat, cx_cpu cx) := default 0 (offcpu_stats st !! (stat, cx_cpu cx)) +64 1]>
            (offcpu_stats st)).

Definition offcpu_kind_enabled (cfg : off_config) (kind : Z) : bool :=
  if profiler_offcpu_phase cfg =? OFFCPU_PHASE_FILTER_ALL then true
  else if profiler_offcpu_phase cfg =? OFFCPU_PHASE_FILTER_BLOCKED
  then kind =? PROFILER_OFFCPU_EVENT_BLOCKED
  else negb (kind =? PROFILER_OFFCPU_EVENT_BLOCKED).

Definition offcpu_cpu_selected (cfg : off_config) (cpu : Z) (st : oc_state) : bool :=
  if profiler_offcpu_cpu_set_enabled cfg =? 0 then true
  else
    let word := cpu / OFFCPU_CPU_SET_WORD_BITS in
    if OFFCPU_CPU_SET_WORDS <=? word then false
    else match offcpu_cpu_set st !! word with
         | None => false
         | Some mask => ctrue (Z.land mask (1 <<64 (cpu mod OFFCPU_CPU_SET_WORD_BITS)))
         end.

(** [key] is the task the state belongs to. *)
Definition offcpu_emit_event (cfg : off_config) (cx : prof_ctx) (key : Z) (state : offcpu_state)
    (end_ns kind : Z) (st : oc_state) : oc_state :=
  if negb (offcpu_kind_enabled cfg kind) || (end_ns <=? os_phase_start_ns state) then st
  else
    let duration := end_ns -64 os_phase_start_ns state in
    if duration <? profiler_offcpu_min_duration_ns cfg then st
    else
      match offcpu_event_buf st with
      | None => st
      | Some bufs =>
          let event := percpu_get zero_offcpu_event bufs (cx_cpu cx) in
          let base := profiler_copy_event_base (oe_base event) (os_base state) in
          let event := OffEvent (set_value (s64 duration) base) kind 0 in
          let st := set_off_buf st (Some (percpu_set bufs (cx_cpu cx) event)) in
          let '(ret, out) := bpf_perf_event_output (cx_output_ret cx)
                               (OffRecord key end_ns event) (off_output st) in
          let st := set_off_output st out in
          if ret <? 0 then offcpu_stat_inc cfg cx PROFILER_OFFCPU_STAT_OUTPUT_FAILURE st else st
      end.

(** ** Programs *)

Definition offcpu_handle_wakeup (cfg : off_config) (cx : prof_ctx) (task : Z) (st : oc_state)
    : oc_state :=
  if task =? 0 then st
  else
    match bpf_map_lookup_elem (offcpu_states st) task with
    | None => st
    | Some state =>
        if negb (os_kind state =? PROFILER_OFFCPU_EVENT_BLOCKED) then st
        else
          let now := cx_ktime_ns cx in
          let st := offcpu_emit_event cfg cx task state now PROFILER_OFFCPU_EVENT_BLOCKED st in
          if profiler_offcpu_phase cfg =? OFFCPU_PHASE_FILTER_BLOCKED
          then set_off_states st (snd (bpf_map_delete_elem (offcpu_states st) task))
          else set_off_states st
                 (map_store (offcpu_states st) task
                    (OffState (os_base state) now PROFILER_OFFCPU_EVENT_RUNQUEUE))
    end.

Definition native_offcpu_wakeup := offcpu_handle_wakeup.
Definition native_offcpu_wakeup_new := offcpu_handle_wakeup.

(** [preempt] is the first argument of the tracepoint, [state] what
    [task_state(prev)] reads. *)
Definition offcpu_record_sched_out (cfg : off_config) (cx : prof_ctx) (preempt prev state now : Z)
    (st : oc_state) : oc_state :=
  if (prev =? 0) || (cx_pid_tgid cx =? 0) ||
     negb (profiler_should_trace (off_profiler cfg) (cx_pid_tgid cx) (cx_cpu_css cx))
  then st
  else if negb (offcpu_cpu_selected cfg (u32 (cx_cpu cx)) st) then st
  else
    let preempted := ctrue preempt in
    let is_runnable := preempted || (state =? TASK_RUNNING) in
    if is_runnable && (profiler_offcpu_phase cfg =? OFFCPU_PHASE_FILTER_BLOCKED) then st
    else
      let '(err, base) := profiler_fill_event_base cx BufA (cx_pid_tgid cx) zero_base in
      if err <? 0 then offcpu_stat_inc cfg cx PROFILER_OFFCPU_STAT_STACK_FAILURE st
      else
        let kind :=
          if is_runnable then
            if preempted then PROFILER_OFFCPU_EVENT_RUNQUEUE_PREEMPTED
            else PROFILER_OFFCPU_EVENT_RUNQUEUE_YIELDED
          else PROFILER_OFFCPU_EVENT_BLOCKED in
        let '(ret, m) := bpf_map_update_elem (offcpu_states st) prev (OffState base now kind) BPF_ANY in
        let st := set_off_states st m in
        if ret <? 0 then offcpu_stat_inc cfg cx PROFILER_OFFCPU_STAT_STATE_UPDATE_FAILURE st else st.

Definition offcpu_finish_sched_in (cfg : off_config) (cx : prof_ctx) (next now : Z) (st : oc_state)
    : oc_state :=
  if next =? 0 then st
  else
    match bpf_map_lookup_elem (offcpu_states st) next with
    | None => st
    | Some state =>
        let '(kind, st) :=
          if os_kind state =? PROFILER_OFFCPU_EVENT_BLOCKED
          then (PROFILER_OFFCPU_EVENT_RUNQUEUE_MISSED_WAKEUP,
                offcpu_stat_inc cfg cx PROFILER_OFFCPU_STAT_MISSED_WAKEUP st)
          else (os_kind state, st) in
        let st := offcpu_emit_event cfg cx next state now kind st in
        set_off_states st (snd (bpf_map_delete_elem (offcpu_states st) next))
    end.

Definition native_offcpu_switch (cfg : off_config) (cx : prof_ctx) (preempt prev next state : Z)
    (st : oc_state) : oc_state :=
  let now := cx_ktime_ns cx in
  offcpu_record_sched_out cfg cx preempt prev state now (offcpu_finish_sched_in cfg cx next now st).

Definition offcpu_cleanup_task_state (cfg : off_config) (cx : prof_ctx) (task : Z)
    (emit_pending : bool) (st : oc_state) : oc_state :=
  if task =? 0 then st
  else
    match bpf_map_lookup_elem (offcpu_states st) task with
    | None => st
    | Some state =>
        let st := if emit_pending
                  then offcpu_emit_event cfg cx task state (cx_ktime_ns cx) (os_kind state) st
                  else st in
        let st := set_off_states st (snd (bpf_map_delete_elem (offcpu_states st) task)) in
        offcpu_stat_inc cfg cx PROFILER_OFFCPU_STAT_STATE_CLEANUP st
    end.

Definition native_offcpu_exit cfg cx task st := offcpu_cleanup_task_state cfg cx task true st.
Definition native_offcpu_free cfg cx task st := offcpu_cleanup_task_state cfg cx task false st.

(** ** Runs *)

Inductive off_event :=
| Wakeup (task : Z)
| WakeupNew (task : Z)
| Switch (preempt prev next state : Z)
| ProcessExit (task : Z)
| ProcessFree (task : Z).

Definition off_step (cfg : off_config) (e : prof_ctx * off_event) (st : oc_state) : oc_state :=
  let cx := fst e in
  match snd e with
  | Wakeup task => native_offcpu_wakeup cfg cx task st
  | WakeupNew task => native_offcpu_wakeup_new cfg cx task st
  | Switch preempt prev next state => native_offcpu_switch cfg cx preempt prev next state st
  | ProcessExit task => native_offcpu_exit cfg cx task st
  | ProcessFree task => native_offcpu_free cfg cx task st
  end.

Definition off_run (cfg : off_config) (events : list (prof_ctx * off_event)) (st : oc_state)
    : oc_state :=
  fold_left (fun st e => off_step cfg e st) events st.
End Model.

(** ** One task: the state machine

    [task_step] is the profiler as one task sees it.  [stored] says whether the
    state map accepted the task's new state (it may be full). *)

Definition phase_report (cfg : off_config) (cx : prof_ctx) (task : Z) (s : offcpu_state)
    (kind end_ns : Z) : list off_record :=
  let duration := end_ns -64 os_phase_start_ns s in
  if offcpu_kind_enabled cfg kind && (os_phase_start_ns s <? end_ns) &&
     (profiler_offcpu_min_duration_ns cfg <=? duration) && (0 <=? cx_output_ret cx)
  then [OffRecord task end_ns (OffEvent (set_value (s64 duration) (os_base s)) kind 0)]
  else [].

(** The state a task is switched out with, if it is followed at all. *)
Definition out_state (cfg : off_config) (selected : Z -> bool) (cx : prof_ctx) (preempt state : Z)
    : option offcpu_state :=
  let runnable := ctrue preempt || (state =? TASK_RUNNING) in
  let '(err, base) := profiler_fill_event_base cx BufA (cx_pid_tgid cx) zero_base in
  if negb (cx_pid_tgid cx =? 0) &&
     profiler_should_trace (off_profiler cfg) (cx_pid_tgid cx) (cx_cpu_css cx) &&
     selected (u32 (cx_cpu cx)) &&
     negb (runnable && (profiler_offcpu_phase cfg =? OFFCPU_PHASE_FILTER_BLOCKED)) &&
     negb (err <? 0)
  then Some (OffState base (cx_ktime_ns cx)
               (if ctrue preempt then PROFILER_OFFCPU_EVENT_RUNQUEUE_PREEMPTED
                else if state =? TASK_RUNNING then PROFILER_OFFCPU_EVENT_RUNQUEUE_YIELDED
                else PROFILER_OFFCPU_EVENT_BLOCKED))
  else None.

Definition in_kind (s : offcpu_state) : Z :=
  if os_kind s =? PROFILER_OFFCPU_EVENT_BLOCKED
  then PROFILER_OFFCPU_EVENT_RUNQUEUE_MISSED_WAKEUP else os_kind s.

Definition task_wake cfg cx task (a : option offcpu_state) : option offcpu_state * list off_record :=
  match a with
  | Some s =>
      if os_kind s =? PROFILER_OFFCPU_EVENT_BLOCKED then
        (if profiler_offcpu_phase cfg =? OFFCPU_PHASE_FILTER_BLOCKED then None
         else Some (OffState (os_base s) (cx_ktime_ns cx) PROFILER_OFFCPU_EVENT_RUNQUEUE),
         phase_report cfg cx task s PROFILER_OFFCPU_EVENT_BLOCKED (cx_ktime_ns cx))
      else (a, [])
  | None => (None, [])
  end.

Definition task_end cfg cx task (kind_of : offcpu_state -> Z) (a : option offcpu_state)
    : option offcpu_state * list off_record :=
  match a with
  | Some s => (None, phase_report cfg cx task s (kind_of s) (cx_ktime_ns cx))
  | None => (None, [])
  end.

Definition task_step (cfg : off_config) (selected : Z -> bool) (task : Z) (stored : bool)
    (e : prof_ctx * off_event) (a : option offcpu_state) : option offcpu_state * list off_record :=
  let cx := fst e in
  match snd e with
  | Wakeup t | WakeupNew t => if t =? task then task_wake cfg cx task a else (a, [])
  | Switch preempt prev next state =>
      let '(a, out) := if next =? task then task_end cfg cx task in_kind a else (a, []) in
      (if (prev =? task) && stored then
         match out_state cfg selected cx preempt state with Some s => Some s | None => a end
       else a, out)
  | ProcessExit t => if t =? task then task_end cfg cx task os_kind a else (a, [])
  | ProcessFree t => if t =? task then (None, []) else (a, [])
  end.

Fixpoint task_run cfg selected task (events : list ((prof_ctx * off_event) * bool))
    (a : option offcpu_state) : option offcpu_state * list off_record :=
  match events with
  | [] => (a, [])
  | (e, stored) :: rest =>
      let '(a, out) := task_step cfg selected task stored e a in
      let '(a, out') := task_run cfg selected task rest a in
      (a, out ++ out')
  end.

Section Refinement.
Context {M : BpfMapOps} {L : BpfMapLaws M}.
Implicit Types st : oc_state.

Definition state_of st (task : Z) : option offcpu_state :=
  bpf_map_lookup_elem (offcpu_states st) task.
Definition records_of (task : Z) st : list off_record :=
  filter (fun r => rec_task r = task) (off_output st).

(** No delete fails with anything but -ENOENT. *)
Definition deletes_ok st : Prop :=
  forall k, fst (bpf_map_delete_elem (offcpu_states st) k) = 0 \/
            fst (bpf_map_delete_elem (offcpu_states st) k) = - ENOENT.

Fixpoint run_deletes_ok cfg (events : list (prof_ctx * off_event)) st : Prop :=
  match events with
  | [] => True
  | e :: es => deletes_ok st /\ run_deletes_ok cfg es (off_step cfg e st)
  end.

(** What no program changes: the CPU set and the presence of the buffer. *)
Record frame st st' : Prop := Frame {
  frame_cpu_set : offcpu_cpu_set st' = offcpu_cpu_set st;
  frame_buf : is_Some (offcpu_event_buf st) -> is_Some (offcpu_event_buf st');
}.

(** [st'] is [st] with the given records appended and the same state map. *)
Definition outputs st (l : list off_record) st' : Prop :=
  frame st st' /\ offcpu_states st' = offcpu_states st /\ off_output st' = off_output st ++ l.

Lemma outputs_same st : outputs st [] st.
Proof. unfold outputs. rewrite app_nil_r. by repeat split. Qed.

Lemma stat_inc_outputs cfg cx stat st : outputs st [] (offcpu_stat_inc cfg cx stat st).
Proof. unfold outputs, offcpu_stat_inc. rewrite app_nil_r. case_if; by repeat split. Qed.

Lemma outputs_trans st st1 st2 l1 l2 :
  outputs st l1 st1 -> outputs st1 l2 st2 -> outputs st (l1 ++ l2) st2.
Proof.
  intros ([C1 B1] & S1 & O1) ([C2 B2] & S2 & O2).
  split; [split; [congruence|auto]|]. split; [congruence|]. by rewrite O2, O1, app_assoc.
Qed.

Lemma emit_outputs cfg cx key s end_ns kind st :
  is_Some (offcpu_event_buf st) ->
  outputs st (phase_report cfg cx key s kind end_ns) (offcpu_emit_event cfg cx key s end_ns kind st).
Proof.
  intros [bufs Hb]. unfold offcpu_emit_event, phase_report.
  destruct (offcpu_kind_enabled cfg kind); cbn [negb orb andb];
    [|apply outputs_same].
  destruct (Z.ltb_spec (os_phase_start_ns s) end_ns), (Z.leb_spec end_ns (os_phase_start_ns s));
    try lia; cbn [andb]; [|apply outputs_same].
  set (d := end_ns -64 os_phase_start_ns s).
  destruct (Z.ltb_spec d (profiler_offcpu_min_duration_ns cfg)),
    (Z.leb_spec (profiler_offcpu_min_duration_ns cfg) d); try lia; cbn [andb]; [apply outputs_same|].
  rewrite Hb. unfold bpf_perf_event_output. set (r := OffRecord _ _ _).
  destruct (Z.ltb_spec (cx_output_ret cx) 0), (Z.leb_spec 0 (cx_output_ret cx)); try lia.
  - destruct (stat_inc_outputs cfg cx PROFILER_OFFCPU_STAT_OUTPUT_FAILURE
      (set_off_output (set_off_buf st (Some (percpu_set bufs (cx_cpu cx) (rec_event r)))) (off_output st)))
      as ([C B] & S & O).
    split; [split; [exact C|intros; apply B; simpl; by eauto]|]. split; [exact S|exact O].
  - repeat split; simpl; by eauto.
Qed.

(** Changes of the state map at one task. *)
Definition sets st (task : Z) (a : option offcpu_state) st' : Prop :=
  frame st st' /\ off_output st' = off_output st /\
  (forall t, state_of st' t = if decide (t = task) then a else state_of st t).

Lemma delete_sets st task :
  deletes_ok st ->
  sets st task None (set_off_states st (snd (bpf_map_delete_elem (offcpu_states st) task))).
Proof.
  intros Hd. split; [by split|]. split; [done|]. intros t. unfold state_of. simpl.
  rewrite bm_delete_done by apply Hd. repeat case_decide; congruence.
Qed.

(** Outputs about [key] followed by a change of [key]'s state, seen from [task]. *)
Lemma view_outputs_sets task key st l st1 a st2 :
  outputs st l st1 -> Forall (fun r => rec_task r = key) l -> sets st1 key a st2 ->
  frame st st2 /\
  state_of st2 task = (if decide (task = key) then a else state_of st task) /\
  records_of task st2 = records_of task st ++ (if decide (task = key) then l else []).
Proof.
  intros ([C1 B1] & S1 & O1) Hl ([C2 B2] & O2 & S2).
  split; [split; [congruence|auto]|]. split.
  - rewrite S2. case_decide; [done|]. unfold state_of. by rewrite S1.
  - unfold records_of. rewrite O2, O1, list.filter_app. f_equal. case_decide as Hk.
    + subst. clear -Hl. induction Hl; [done|]. rewrite filter_cons_True by done. by f_equal.
    + clear -Hl Hk. induction Hl as [|r l Hr Hl IH]; [done|].
      rewrite filter_cons_False by congruence. done.
Qed.

Lemma report_task cfg cx task s kind end_ns :
  Forall (fun r => rec_task r = task) (phase_report cfg cx task s kind end_ns).
Proof. unfold phase_report. case_if; repeat constructor. Qed.

(** The view of a task after a step: its state, its records, the frame. *)
Definition views (task : Z) st (r : option offcpu_state * list off_record) st' : Prop :=
  frame st st' /\ state_of st' task = fst r /\ records_of task st' = records_of task st ++ snd r.

Lemma views_same task st : views task st (state_of st task, []) st.
Proof. repeat split; auto. by rewrite app_nil_r. Qed.

Lemma outputs_deletes_ok st l st' : outputs st l st' -> deletes_ok st -> deletes_ok st'.
Proof. intros (_ & S & _). unfold deletes_ok. by rewrite S. Qed.

Lemma frame_trans st1 st2 st3 : frame st1 st2 -> frame st2 st3 -> frame st1 st3.
Proof. intros [C1 B1] [C2 B2]. split; [congruence|auto]. Qed.

(** Ending a phase: report, then delete. *)
Lemma end_views cfg cx task key st st1 s kind_of kind end_ns :
  is_Some (offcpu_event_buf st) -> deletes_ok st -> state_of st key = Some s ->
  outputs st [] st1 -> kind = kind_of s -> end_ns = cx_ktime_ns cx ->
  let st2 := offcpu_emit_event cfg cx key s end_ns kind st1 in
  views task st (if key =? task then task_end cfg cx task kind_of (state_of st task)
                 else (state_of st task, []))
    (set_off_states st2 (snd (bpf_map_delete_elem (offcpu_states st2) key))).
Proof.
  intros Hb Hd Hs Ho -> -> st2.
  assert (Hem : outputs st (phase_report cfg cx key s (kind_of s) (cx_ktime_ns cx)) st2).
  { apply (outputs_trans _ _ _ [] _ Ho), emit_outputs. by apply Ho. }
  destruct (view_outputs_sets task key st _ st2 None _ Hem (report_task _ _ _ _ _ _)
    (delete_sets st2 key (outputs_deletes_ok _ _ _ Hem Hd))) as (F & S & R).
  split; [done|]. rewrite S, R. destruct (Z.eqb_spec key task) as [->|Hne].
  - rewrite !decide_True by done. by rewrite Hs.
  - by rewrite !decide_False by congruence.
Qed.

Lemma wakeup_views cfg cx task key st :
  task <> 0 -> is_Some (offcpu_event_buf st) -> deletes_ok st ->
  views task st (if key =? task then task_wake cfg cx task (state_of st task)
                 else (state_of st task, [])) (offcpu_handle_wakeup cfg cx key st).
Proof.
  intros Ht Hb Hd. unfold offcpu_handle_wakeup. destruct (Z.eqb_spec key 0) as [->|Hk].
  { rewrite (proj2 (Z.eqb_neq 0 task)) by congruence. apply views_same. }
  destruct (state_of st key) as [s|] eqn:Hs; unfold state_of in Hs; rewrite Hs; cycle 1.
  { destruct (Z.eqb_spec key task) as [<-|]; [|apply views_same].
    unfold state_of at 1. rewrite Hs. cbn [task_wake]. rewrite <- Hs. apply views_same. }
  destruct (os_kind s =? PROFILER_OFFCPU_EVENT_BLOCKED) eqn:Hkind; cbn [negb]; cycle 1.
  { destruct (Z.eqb_spec key task) as [<-|]; [|apply views_same].
    unfold state_of at 1. rewrite Hs. cbn [task_wake]. rewrite Hkind, <- Hs. apply views_same. }
  set (st1 := offcpu_emit_event _ _ _ _ _ _ st).
  assert (Hem : outputs st (phase_report cfg cx key s PROFILER_OFFCPU_EVENT_BLOCKED (cx_ktime_ns cx)) st1)
    by (by apply emit_outputs).
  set (a := if profiler_offcpu_phase cfg =? OFFCPU_PHASE_FILTER_BLOCKED then None
            else Some (OffState (os_base s) (cx_ktime_ns cx) PROFILER_OFFCPU_EVENT_RUNQUEUE)).
  match goal with |- views _ _ _ ?st2 => assert (Hset : sets st1 key a st2) end.
  { subst a. destruct (_ =? OFFCPU_PHASE_FILTER_BLOCKED);
      [apply delete_sets; by eapply outputs_deletes_ok|].
    split; [by split|]. split; [done|]. intros t. unfold state_of. simpl.
    rewrite store_lookup; [repeat case_decide; congruence|]. destruct Hem as (_ & -> & _).
    by rewrite Hs. }
  destruct (view_outputs_sets task key _ _ _ _ _ Hem (report_task _ _ _ _ _ _) Hset) as (F & S & R).
  split; [done|]. rewrite S, R. destruct (Z.eqb_spec key task) as [->|Hne].
  - rewrite !decide_True by done. rewrite (Hs : state_of st task = Some s). cbn [task_wake].
    by rewrite Hkind.
  - by rewrite !decide_False by congruence.
Qed.

Lemma sched_in_views cfg cx task next st :
  task <> 0 -> is_Some (offcpu_event_buf st) -> deletes_ok st ->
  views task st (if next =? task then task_end cfg cx task in_kind (state_of st task)
                 else (state_of st task, []))
    (offcpu_finish_sched_in cfg cx next (cx_ktime_ns cx) st).
Proof.
  intros Ht Hb Hd. unfold offcpu_finish_sched_in. destruct (Z.eqb_spec next 0) as [->|Hk].
  { rewrite (proj2 (Z.eqb_neq 0 task)) by congruence. apply views_same. }
  destruct (bpf_map_lookup_elem (offcpu_states st) next) as [s|] eqn:Hs; cycle 1.
  { destruct (Z.eqb_spec next task) as [<-|]; [|apply views_same].
    rewrite (Hs : state_of st next = None). cbn [task_end]. rewrite <- (Hs : state_of st next = None).
    apply views_same. }
  unfold in_kind. destruct (os_kind s =? PROFILER_OFFCPU_EVENT_BLOCKED) eqn:E;
    (eapply end_views; [done|done|exact Hs| |cbn beta; by rewrite E|done]);
    [apply stat_inc_outputs|apply outputs_same].
Qed.

Lemma cleanup_views cfg cx task key emit st :
  task <> 0 -> is_Some (offcpu_event_buf st) -> deletes_ok st ->
  views task st
    (if key =? task
     then (if emit : bool then task_end cfg cx task os_kind (state_of st task) else (None, []))
     else (state_of st task, []))
    (offcpu_cleanup_task_state cfg cx key emit st).
Proof.
  intros Ht Hb Hd. unfold offcpu_cleanup_task_state. destruct (Z.eqb_spec key 0) as [->|Hk].
  { rewrite (proj2 (Z.eqb_neq 0 task)) by congruence. apply views_same. }
  destruct (bpf_map_lookup_elem (offcpu_states st) key) as [s|] eqn:Hs; cycle 1.
  { destruct (Z.eqb_spec key task) as [<-|]; [|apply views_same].
    rewrite (Hs : state_of st key = None).
    replace (if emit then _ else _) with (@None offcpu_state, @nil off_record) by by destruct emit.
    rewrite <- (Hs : state_of st key = None). apply views_same. }
  match goal with |- views _ _ _ (offcpu_stat_inc _ _ ?stat ?x) =>
    destruct (stat_inc_outputs cfg cx stat x) as (F2 & S2 & O2); set (st2 := x) in * end.
  rewrite app_nil_r in O2.
  assert (Hv : views task st
    (if key =? task
     then (if emit : bool then task_end cfg cx task os_kind (state_of st task) else (None, []))
     else (state_of st task, [])) st2).
  { subst st2. destruct emit.
    - by apply (end_views cfg cx task key st st s os_kind); [..|apply outputs_same| |].
    - destruct (view_outputs_sets task key st [] st None _ (outputs_same st) (Forall_nil _)
        (delete_sets st key Hd)) as (F & S & R). split; [done|]. rewrite S, R.
      destruct (Z.eqb_spec key task) as [->|]; [by rewrite !decide_True|].
      by rewrite !decide_False by congruence. }
  destruct Hv as (F1 & S1 & R1). split; [by eapply frame_trans|]. split.
  - rewrite <- S1. unfold state_of. by rewrite S2.
  - rewrite <- R1. unfold records_of. by rewrite O2.
Qed.

Lemma views_outputs_nil task st r st1 st2 :
  views task st r st1 -> outputs st1 [] st2 -> views task st r st2.
Proof.
  intros (F1 & S1 & R1) (F2 & S2 & O2). rewrite app_nil_r in O2.
  split; [by eapply frame_trans|]. split.
  - rewrite <- S1. unfold state_of. by rewrite S2.
  - rewrite <- R1. unfold records_of. by rewrite O2.
Qed.

(** The answer of the state map to the update of a switch-out, if there is one. *)
Definition accepts cfg selected (e : prof_ctx * off_event) st : bool :=
  let cx := fst e in
  match snd e with
  | Switch preempt prev next state =>
      match out_state cfg selected cx preempt state with
      | Some s =>
          let st1 := offcpu_finish_sched_in cfg cx next (cx_ktime_ns cx) st in
          negb (fst (bpf_map_update_elem (offcpu_states st1) prev s BPF_ANY) <? 0)
      | None => true
      end
  | _ => true
  end.

Fixpoint answers cfg selected (events : list (prof_ctx * off_event)) st : list bool :=
  match events with
  | [] => []
  | e :: es => accepts cfg selected e st :: answers cfg selected es (off_step cfg e st)
  end.

Lemma answers_length cfg selected events : forall st, length (answers cfg selected events st) = length events.
Proof. induction events as [|e es IH]; intros st; [done|]. cbn. by rewrite IH. Qed.

(** Switching out: the task is left in the state the machine says. *)
Lemma sched_out_views cfg cx task preempt prev state st selected :
  task <> 0 -> (forall cpu, selected cpu = offcpu_cpu_selected cfg cpu st) ->
  let stored := match out_state cfg selected cx preempt state with
                | Some s => negb (fst (bpf_map_update_elem (offcpu_states st) prev s BPF_ANY) <? 0)
                | None => true
                end in
  views task st
      (if (prev =? task) && stored
       then match out_state cfg selected cx preempt state with
            | Some s => Some s | None => state_of st task end
       else state_of st task, [])
      (offcpu_record_sched_out cfg cx preempt prev state (cx_ktime_ns cx) st).
Proof.
  intros Ht Hsel. unfold offcpu_record_sched_out, out_state. rewrite Hsel.
  destruct (Z.eqb_spec prev 0) as [->|Hp].
  { rewrite (proj2 (Z.eqb_neq 0 task)) by done. apply views_same. }
  assert (Hnone : forall st', outputs st [] st' ->
    views task st (if (prev =? task) && true then state_of st task else state_of st task, []) st').
  { intros st' Ho. rewrite andb_true_r. destruct (prev =? task); (eapply views_outputs_nil; [apply views_same|done]). }
  destruct (profiler_fill_event_base cx BufA (cx_pid_tgid cx) zero_base) as [err base].
  destruct (cx_pid_tgid cx =? 0); cbn [negb orb andb]; [apply Hnone, outputs_same|].
  destruct (profiler_should_trace _ _ _); cbn [negb andb]; [|apply Hnone, outputs_same].
  destruct (offcpu_cpu_selected cfg (u32 (cx_cpu cx)) st); cbn [negb andb]; [|apply Hnone, outputs_same].
  destruct (_ && (profiler_offcpu_phase cfg =? OFFCPU_PHASE_FILTER_BLOCKED)); cbn [negb andb];
    [apply Hnone, outputs_same|].
  destruct (err <? 0); cbn [negb]; [apply Hnone, stat_inc_outputs|].
  set (kind := if ctrue preempt || (state =? TASK_RUNNING) then _ else PROFILER_OFFCPU_EVENT_BLOCKED).
  assert (Hkind : kind = (if ctrue preempt then PROFILER_OFFCPU_EVENT_RUNQUEUE_PREEMPTED
    else if state =? TASK_RUNNING then PROFILER_OFFCPU_EVENT_RUNQUEUE_YIELDED
    else PROFILER_OFFCPU_EVENT_BLOCKED)) by (subst kind; by destruct (ctrue preempt)).
  rewrite <- Hkind. clearbody kind. clear Hkind Hnone.
  set (s := OffState base (cx_ktime_ns cx) kind).
  pose proof (update_errno (offcpu_states st) prev s BPF_ANY) as Herr.
  pose proof (update_ok (offcpu_states st) prev s BPF_ANY) as Hok.
  pose proof (update_err (offcpu_states st) prev s BPF_ANY) as Hbad.
  destruct (bpf_map_update_elem (offcpu_states st) prev s BPF_ANY) as [ret m]. cbn [fst snd] in *.
  destruct (Z.ltb_spec ret 0) as [Hneg|Hpos].
  - cbn [negb]. rewrite andb_false_r.
    eapply views_outputs_nil, stat_inc_outputs. split; [by split|]. split; [|by rewrite app_nil_r].
    unfold state_of. simpl. apply Hbad. lia.
  - cbn [negb]. rewrite andb_true_r. split; [by split|]. split; [|by rewrite app_nil_r].
    unfold state_of. simpl. rewrite (Hok task ltac:(lia)).
    destruct (Z.eqb_spec prev task); [by rewrite decide_True|by rewrite decide_False].
Qed.

Lemma step_views cfg selected task e st :
  task <> 0 -> is_Some (offcpu_event_buf st) -> deletes_ok st ->
  (forall cpu, selected cpu = offcpu_cpu_selected cfg cpu st) ->
  views task st (task_step cfg selected task (accepts cfg selected e st) e (state_of st task)) (off_step cfg e st).
Proof.
  intros Ht Hb Hd Hsel. destruct e as [cx [t|t|preempt prev next state|t|t]]; unfold off_step, task_step, accepts;
    cbn [fst snd].
  - by apply wakeup_views.
  - by apply wakeup_views.
  - unfold native_offcpu_switch.
    pose proof (sched_in_views cfg cx task next st Ht Hb Hd) as H1.
    destruct (if next =? task then _ else _) as [a out].
    set (st1 := offcpu_finish_sched_in _ _ _ _ _) in *. destruct H1 as (F1 & S1 & R1).
    destruct (sched_out_views cfg cx task preempt prev state st1 selected Ht) as (F2 & S2 & R2).
    { intros cpu. rewrite Hsel. unfold offcpu_cpu_selected. by rewrite (frame_cpu_set _ _ F1). }
    split; [by eapply frame_trans|]. cbn [fst snd] in *. rewrite <- S1. split; [done|].
    by rewrite R2, app_nil_r, R1.
  - by apply (cleanup_views cfg cx task t true).
  - by apply (cleanup_views cfg cx task t false).
Qed.

Lemma run_views cfg task events st (selected := fun cpu => offcpu_cpu_selected cfg cpu st) :
  task <> 0 -> is_Some (offcpu_event_buf st) -> run_deletes_ok cfg events st ->
  let '(a, out) := task_run cfg selected task (zip events (answers cfg selected events st)) (state_of st task) in
  state_of (off_run cfg events st) task = a /\
  records_of task (off_run cfg events st) = records_of task st ++ out.
Proof.
  intros Ht. assert (Hsel : forall cpu, selected cpu = offcpu_cpu_selected cfg cpu st) by done.
  clearbody selected. revert st Hsel. induction events as [|e es IH]; intros st Hsel Hb Hd.
  { cbn. by rewrite app_nil_r. }
  destruct Hd as [Hd1 Hd2].
  destruct (step_views cfg selected task e st Ht Hb Hd1 Hsel) as (F & S & R).
  assert (Hrun := IH (off_step cfg e st)). cbn [answers zip zip_with task_run].
  destruct (task_step cfg selected task _ e (state_of st task)) as [a out]. cbn [fst snd] in *.
  rewrite <- S. destruct (task_run _ _ _ _ _) as [a' out'].
  change (off_run cfg (e :: es) st) with (off_run cfg es (off_step cfg e st)).
  destruct Hrun as [H1 H2]; [|by apply F|done|].
  { intros cpu. rewrite Hsel. unfold offcpu_cpu_selected. by rewrite (frame_cpu_set _ _ F). }
  split; [done|]. by rewrite H2, R, app_assoc.
Qed.

(** ** Phases on the time line *)

Definition rec_duration (r : off_record) : Z := value (oe_base (rec_event r)).
Definition rec_start (r : off_record) : Z := rec_end r - rec_duration r.

(** The phases follow each other between [lo] and [hi]. *)
Fixpoint chained (lo : Z) (l : list off_record) (hi : Z) : Prop :=
  match l with
  | [] => lo <= hi
  | r :: l => lo <= rec_start r /\ 0 < rec_duration r /\ chained (rec_end r) l hi
  end.

Definition total_duration (l : list off_record) : Z := foldr (fun r n => rec_duration r + n) 0 l.

Lemma chained_app lo l1 mid l2 hi :
  chained lo l1 mid -> chained mid l2 hi -> chained lo (l1 ++ l2) hi.
Proof.
  revert lo. induction l1 as [|r l1 IH]; intros lo H1 H2; simpl in *; [|naive_solver].
  destruct l2 as [|r l2]; simpl in *; [lia|]. destruct H2 as (? & ? & ?). repeat split; [lia|done..].
Qed.

Lemma chained_total lo l hi : chained lo l hi -> total_duration l <= hi - lo.
Proof.
  revert lo. induction l as [|r l IH]; intros lo; simpl; [lia|]. unfold rec_start.
  intros (H1 & H2 & H3). specialize (IH _ H3). lia.
Qed.

(** A monotone clock below 2^63 ns, and its last value. *)
Fixpoint clock_ok (now : Z) (events : list (prof_ctx * off_event)) : Prop :=
  match events with
  | [] => True
  | e :: es => now <= cx_ktime_ns (fst e) < 2 ^ 63 /\ clock_ok (cx_ktime_ns (fst e)) es
  end.
Fixpoint last_clock (now : Z) (events : list (prof_ctx * off_event)) : Z :=
  match events with [] => now | e :: es => last_clock (cx_ktime_ns (fst e)) es end.

(** Where a task's unreported time begins. *)
Definition since (a : option offcpu_state) (now : Z) : Z :=
  match a with Some s => os_phase_start_ns s | None => now end.

Lemma report_chained cfg cx task s kind t :
  0 <= os_phase_start_ns s <= t -> t < 2 ^ 63 ->
  chained (os_phase_start_ns s) (phase_report cfg cx task s kind t) t.
Proof.
  intros Hs Ht. unfold phase_report. destruct (Z.ltb_spec (os_phase_start_ns s) t);
    [|rewrite andb_false_r; simpl; lia]. rewrite andb_true_r.
  rewrite u64_sub_exact by (unfold is_u64; lia). case_if; [|simpl; lia].
  assert (Hd : s64 (t - os_phase_start_ns s) = t - os_phase_start_ns s).
  { unfold s64. rewrite u64_small by (unfold is_u64; lia).
    by rewrite (proj2 (Z.ltb_lt _ (2 ^ 63))) by lia. }
  cbn [chained]. unfold rec_start, rec_duration. cbn [rec_event rec_end oe_base value set_value].
  rewrite Hd. lia.
Qed.

Lemma step_chained cfg selected task stored e a now :
  0 <= since a now <= now -> now <= cx_ktime_ns (fst e) < 2 ^ 63 ->
  let '(a', out) := task_step cfg selected task stored e a in
  chained (since a now) out (since a' (cx_ktime_ns (fst e))) /\
  0 <= since a' (cx_ktime_ns (fst e)) <= cx_ktime_ns (fst e).
Proof.
  intros Ha Hn. set (t := cx_ktime_ns (fst e)) in *.
  assert (Hsame : chained (since a now) [] (since a t) /\ 0 <= since a t <= t).
  { destruct a; simpl in *; lia. }
  assert (Hend : forall k, let '(a', out) := task_end cfg (fst e) task k a in
    a' = None /\ chained (since a now) out t).
  { intros k. destruct a as [s|]; simpl; [|split; [done|lia]]. split; [done|].
    apply report_chained; [simpl in Ha; lia|unfold t in *; lia]. }
  assert (Hwake : let '(a', out) := task_wake cfg (fst e) task a in
    chained (since a now) out (since a' t) /\ 0 <= since a' t <= t).
  { destruct a as [s|]; cbn [task_wake]; [|exact Hsame]. destruct (os_kind s =? _); [|exact Hsame].
    assert (Hr : chained (since (Some s) now) (phase_report cfg (fst e) task s
      PROFILER_OFFCPU_EVENT_BLOCKED (cx_ktime_ns (fst e))) t)
      by (apply report_chained; simpl in Ha; lia).
    destruct (profiler_offcpu_phase cfg =? _); (split; [exact Hr|simpl; lia]). }
  unfold task_step. destruct (snd e) as [w|w|preempt prev next state|w|w].
  - destruct (w =? task); [exact Hwake|exact Hsame].
  - destruct (w =? task); [exact Hwake|exact Hsame].
  - assert (Hin : let '(a', out) := if next =? task then task_end cfg (fst e) task in_kind a else (a, []) in
      chained (since a now) out (since a' t) /\ 0 <= since a' t <= t).
    { destruct (next =? task); [|exact Hsame]. specialize (Hend in_kind).
      destruct (task_end _ _ _ _ _) as [a' out]. destruct Hend as [-> Hc].
      split; [exact Hc|simpl; lia]. }
    destruct (if next =? task then _ else _) as [a' out]. destruct Hin as [Hc Hs].
    destruct ((prev =? task) && stored); [|done]. unfold out_state.
    destruct (profiler_fill_event_base _ _ _ _) as [err base]. case_if; [|done].
    split; [|simpl; lia]. rewrite <- (app_nil_r out). eapply chained_app; [exact Hc|]. simpl. lia.
  - destruct (w =? task); [|exact Hsame]. specialize (Hend os_kind).
    destruct (task_end _ _ _ _ _) as [a' out]. destruct Hend as [-> Hc]. split; [exact Hc|simpl; lia].
  - destruct (w =? task); [|exact Hsame]. simpl. destruct a; simpl in *; lia.
Qed.

Lemma run_chained cfg selected task events a now :
  0 <= since a now <= now -> clock_ok now (fst <$> events) ->
  let '(a', out) := task_run cfg selected task events a in
  chained (since a now) out (since a' (last_clock now (fst <$> events))) /\
  0 <= since a' (last_clock now (fst <$> events)) <= last_clock now (fst <$> events).
Proof.
  revert a now. induction events as [|[e stored] es IH]; intros a now Ha Hc.
  { simpl. split; [lia|done]. }
  cbn [task_run]. destruct Hc as [Hc1 Hc2].
  pose proof (step_chained cfg selected task stored e a now Ha Hc1) as Hs.
  destruct (task_step _ _ _ _ _ _) as [a1 out1]. destruct Hs as [Hs1 Hs2].
  specialize (IH a1 (cx_ktime_ns (fst e)) Hs2 Hc2).
  destruct (task_run _ _ _ es a1) as [a2 out2]. destruct IH as [H1 H2].
  split; [|exact H2]. eapply chained_app; [exact Hs1|exact H1].
Qed.

Lemma fst_zip_stored (events : list (prof_ctx * off_event)) (stored : list bool) :
  length stored = length events -> fst <$> zip events stored = events.
Proof. intros H. apply fst_zip. lia. Qed.

(** ** Theorems *)

(** C11: seen from one task, the five programs are the task's own state machine: for any
    run, with any other tasks interleaved, the task's entry and the records about it are
    those of [task_run] under the answers the state map gave (accepted or refused) — each
    phase reported once, with the stack captured at the switch-out, its kind and its exact
    duration, filtered by kind and minimum duration; a followed switch-out is lost only
    if the map refused its state. *)
Theorem offcpu_refines_task_machine cfg task events st (selected := fun cpu => offcpu_cpu_selected cfg cpu st) :
  task <> 0 -> is_Some (offcpu_event_buf st) -> run_deletes_ok cfg events st ->
  let '(a, out) := task_run cfg selected task (zip events (answers cfg selected events st)) (state_of st task) in
  state_of (off_run cfg events st) task = a /\
  records_of task (off_run cfg events st) = records_of task st ++ out.
Proof. apply run_views. Qed.

(** C19: the reported off-CPU phases of a task never overlap: with a monotone
    clock, the records a run adds about a task follow each other on the time
    line, each one starting no earlier than the previous ended, and each with a
    positive duration; together they are at most the time elapsed since the
    task's open phase began (or since the run began), so off-CPU time is never
    counted twice. *)
Theorem offcpu_phases_disjoint cfg task events st now :
  task <> 0 -> is_Some (offcpu_event_buf st) -> run_deletes_ok cfg events st ->
  clock_ok now events -> 0 <= since (state_of st task) now <= now ->
  exists l, records_of task (off_run cfg events st) = records_of task st ++ l /\
    chained (since (state_of st task) now) l (last_clock now events) /\
    total_duration l <= last_clock now events - since (state_of st task) now.
Proof.
  intros Ht Hb Hd Hc Hs. pose proof (run_views cfg task events st Ht Hb Hd) as Hrun. cbv zeta in Hrun.
  set (stored := answers _ _ events st) in *. assert (Hlen : length stored = length events) by apply answers_length.
  pose proof (run_chained cfg (fun cpu => offcpu_cpu_selected cfg cpu st) task (zip events stored)
    (state_of st task) now Hs) as Hch. rewrite fst_zip_stored in Hch by done. specialize (Hch Hc).
  destruct (task_run _ _ _ _ _) as [a out]. destruct Hrun as [_ Hr], Hch as [H1 H2].
  assert (Hout : chained (since (state_of st task) now) out (last_clock now events)).
  { rewrite <- (app_nil_r out). eapply chained_app; [exact H1|]. simpl. lia. }
  exists out. split; [done|]. split; [done|]. by apply chained_total.
Qed.
End Refinement.

(** *** A concrete run *)

Definition off_cfg : off_config := OffConfig (ProfilerConfig 0 42 true 100 0 false) 0 10 0 1.
Definition off_cx (now : Z) : prof_ctx :=
  ProfCtx 3 (Z.lor (Z.shiftl 42 32) 43) [97] (fun _ _ => 7) 0 0 0 now 0 0.
Definition off_demo : oc_state := OcState ∅ (Some ∅) (FaultyHash ∅ 8 []) ∅ [].
(** Task 500 blocks at 100, is woken at 350 and runs at 400; later it is preempted
    and exits. *)
Definition off_events : list (prof_ctx * off_event) :=
  [(off_cx 100, Switch 0 500 600 1); (off_cx 350, Wakeup 500); (off_cx 400, Switch 0 600 500 1);
   (off_cx 450, Switch 1 500 600 0); (off_cx 490, ProcessExit 500)].

Lemma no_faults_deletes (st : oc_state) : fh_faults (offcpu_states st) = [] -> deletes_ok st.
Proof.
  intros H k. cbn. unfold fh_delete, fh_fault. rewrite H. case_match; [by left|by right].
Qed.

Lemma off_demo_deletes : run_deletes_ok off_cfg off_events off_demo.
Proof.
  cbn [run_deletes_ok off_events].
  repeat (split; [apply no_faults_deletes; vm_compute; reflexivity|]). exact I.
Qed.

Lemma offcpu_refines_task_machine_witness :
  (fun r => (oe_kind (rec_event r), rec_duration r)) <$> records_of 500 (off_run off_cfg off_events off_demo)
  = [(PROFILER_OFFCPU_EVENT_BLOCKED, 250); (PROFILER_OFFCPU_EVENT_RUNQUEUE, 50);
     (PROFILER_OFFCPU_EVENT_RUNQUEUE_PREEMPTED, 40)].
Proof.
  pose proof (offcpu_refines_task_machine off_cfg 500 off_events off_demo ltac:(done) ltac:(by eexists)
    off_demo_deletes) as H.
  destruct (task_run _ _ _ _ _) as [a out] eqn:E in H. vm_compute in E. injection E as <- <-.
  rewrite (proj2 H). vm_compute. reflexivity.
Defined.

Lemma offcpu_phases_disjoint_witness :
  total_duration (records_of 500 (off_run off_cfg off_events off_demo)) <= 490 - 50.
Proof.
  destruct (offcpu_phases_disjoint off_cfg 500 off_events off_demo 50) as (l & Hl & _ & Ht).
  - done.
  - by eexists.
  - apply off_demo_deletes.
  - cbn [clock_ok off_events fst off_cx cx_ktime_ns]. lia.
  - change (since (state_of off_demo 500) 50) with 50. lia.
  - rewrite Hl. exact Ht.
Defined.

End OffCpu.
