(* ===== verification/RunqLat.v ===== *)
(** * Run-queue latency tracer ([bpf/cpu_runqlat_tracing.c], [bpf/include/bpf_sched.h])

    The tracer remembers when each task became runnable, and when a task is
    switched in counts its run-queue delay in one of four classes, for the host
    and for the task group; every switch out is counted as voluntary or not.
    Module [RunqLat] models the programs of both builds (rows keyed by the task group
    address, the default, or by the pid namespace) and proves that host and group
    counters are the same ledger, and that a delay is measured from the task's last
    wakeup. *)

From Stdlib Require Import ZArith Lia.
From stdpp Require Import base option list gmap tactics countable.
From S2P Require Import Prelude BpfMap.

Local Open Scope Z_scope.
Local Open Scope bpf_scope.

Module RunqLat.

Definition NSEC_PER_MSEC : Z := 1000000.
Definition TASK_RUNNING : Z := 0.

Record stat_t := Stat {
  nvcsw : Z;
  nivcsw : Z;
  nlat_01 : Z;
  nlat_02 : Z;
  nlat_03 : Z;
  nlat_04 : Z;
}.
Definition zero_stat : stat_t := Stat 0 0 0 0 0 0.

Record g_stat_t := GStat {
  g_nvcsw : Z;
  g_nivcsw : Z;
  g_nlat_01 : Z;
  g_nlat_02 : Z;
  g_nlat_03 : Z;
  g_nlat_04 : Z;
}.
Definition zero_g_stat : g_stat_t := GStat 0 0 0 0 0 0.

(** The task fields the programs read; [tg_addr_key] is the build ([TG_ADDR_KEY]). *)
Record rq_kernel := RqKernel {
  tg_addr_key : bool;
  task_pid : Z -> Z;
  task_sched_task_group : Z -> Z;
  task_pid_ns_inum : Z -> Z;       (* [nsproxy->pid_ns_for_children->ns.inum] *)
  ns_inum : Z -> Z;
  task_state_exists : bool;
  task_state_field : Z -> Z;
  task___state_field : Z -> Z;
}.

Definition task_state (kr : rq_kernel) (task : Z) : Z :=
  if task =? 0 then -1
  else if task_state_exists kr then s64 (task_state_field kr task)
  else u32 (task___state_field kr task).

(** The row of a task: its group, or the pid namespace of its children. *)
Definition group_key (kr : rq_kernel) (task : Z) : Z :=
  if tg_addr_key kr then u64 (task_sched_task_group kr task) else u32 (task_pid_ns_inum kr task).

(** The six counters. *)
Inductive cell := CVoluntary | CInvoluntary | CLat01 | CLat02 | CLat03 | CLat04.
#[export] Instance cell_eq_dec : EqDecision cell.
Proof. solve_decision. Defined.

Definition stat_inc (c : cell) (s : stat_t) : stat_t :=
  match c with
  | CVoluntary => Stat (nvcsw s +64 1) (nivcsw s) (nlat_01 s) (nlat_02 s) (nlat_03 s) (nlat_04 s)
  | CInvoluntary => Stat (nvcsw s) (nivcsw s +64 1) (nlat_01 s) (nlat_02 s) (nlat_03 s) (nlat_04 s)
  | CLat01 => Stat (nvcsw s) (nivcsw s) (nlat_01 s +64 1) (nlat_02 s) (nlat_03 s) (nlat_04 s)
  | CLat02 => Stat (nvcsw s) (nivcsw s) (nlat_01 s) (nlat_02 s +64 1) (nlat_03 s) (nlat_04 s)
  | CLat03 => Stat (nvcsw s) (nivcsw s) (nlat_01 s) (nlat_02 s) (nlat_03 s +64 1) (nlat_04 s)
  | CLat04 => Stat (nvcsw s) (nivcsw s) (nlat_01 s) (nlat_02 s) (nlat_03 s) (nlat_04 s +64 1)
  end.

Definition g_stat_inc (c : cell) (s : g_stat_t) : g_stat_t :=
  match c with
  | CVoluntary =>
      GStat (g_nvcsw s +64 1) (g_nivcsw s) (g_nlat_01 s) (g_nlat_02 s) (g_nlat_03 s) (g_nlat_04 s)
  | CInvoluntary =>
      GStat (g_nvcsw s) (g_nivcsw s +64 1) (g_nlat_01 s) (g_nlat_02 s) (g_nlat_03 s) (g_nlat_04 s)
  | CLat01 =>
      GStat (g_nvcsw s) (g_nivcsw s) (g_nlat_01 s +64 1) (g_nlat_02 s) (g_nlat_03 s) (g_nlat_04 s)
  | CLat02 =>
      GStat (g_nvcsw s) (g_nivcsw s) (g_nlat_01 s) (g_nlat_02 s +64 1) (g_nlat_03 s) (g_nlat_04 s)
  | CLat03 =>
      GStat (g_nvcsw s) (g_nivcsw s) (g_nlat_01 s) (g_nlat_02 s) (g_nlat_03 s +64 1) (g_nlat_04 s)
  | CLat04 =>
      GStat (g_nvcsw s) (g_nivcsw s) (g_nlat_01 s) (g_nlat_02 s) (g_nlat_03 s) (g_nlat_04 s +64 1)
  end.

(** The class of a delay. *)
Definition latency_cell (delta : Z) : cell :=
  if delta <? 10 * NSEC_PER_MSEC then CLat01
  else if delta <? 20 * NSEC_PER_MSEC then CLat02
  else if delta <? 50 * NSEC_PER_MSEC then CLat03
  else CLat04.

Section Model.
Context {M : BpfMapOps}.

Record rq_state := RqState {
  latency : hmap Z Z;
  cpu_tg_metric : hmap Z (percpu stat_t);
  cpu_host_metric : option (percpu g_stat_t);
}.

Definition set_latency st x := RqState x (cpu_tg_metric st) (cpu_host_metric st).
Definition set_tg_metric st x := RqState (latency st) x (cpu_host_metric st).
Definition set_host_metric st x := RqState (latency st) (cpu_tg_metric st) x.

Definition trace_enqueue (pid now : Z) (st : rq_state) : rq_state :=
  let pid := u32 pid in
  if pid =? 0 then st
  else set_latency st (snd (bpf_map_update_elem (latency st) pid now BPF_ANY)).

Definition sched_wakeup_new_entry := trace_enqueue.
Definition sched_wakeup_entry := trace_enqueue.

(** Look the group's row up, creating it if absent; is it there? *)
Definition ensure_group (cpu key : Z) (st : rq_state) : bool * rq_state :=
  match bpf_map_lookup_elem (cpu_tg_metric st) key with
  | Some _ => (true, st)
  | None =>
      let st := set_tg_metric st
        (snd (bpf_map_update_elem (cpu_tg_metric st) key (percpu_set ∅ cpu zero_stat) BPF_NOEXIST)) in
      (bool_decide (is_Some (bpf_map_lookup_elem (cpu_tg_metric st) key)), st)
  end.

(** [entry->x++; g_entry->x++;] through the two row pointers of this CPU. *)
Definition count_both (cpu key : Z) (c : cell) (st : rq_state) : rq_state :=
  let st :=
    match bpf_map_lookup_elem (cpu_tg_metric st) key with
    | None => st
    | Some slots =>
        set_tg_metric st (map_store (cpu_tg_metric st) key
          (percpu_set slots cpu (stat_inc c (percpu_get zero_stat slots cpu))))
    end in
  match cpu_host_metric st with
  | None => st
  | Some slots =>
      set_host_metric st (Some (percpu_set slots cpu (g_stat_inc c (percpu_get zero_g_stat slots cpu))))
  end.

(** The context-switch count of the task that leaves; [false] when the program
    returns because the row is missing. *)
Definition count_switch (cpu key prev_pid : Z) (is_voluntary : bool) (st : rq_state)
    : bool * rq_state :=
  if ctrue key && ctrue prev_pid then
    let '(found, st) := ensure_group cpu key st in
    if found
    then (true, count_both cpu key (if is_voluntary then CVoluntary else CInvoluntary) st)
    else (false, st)
  else (true, st).

(** The latency count of the task that runs next. *)
Definition count_latency (cpu key next_pid now : Z) (st : rq_state) : rq_state :=
  match bpf_map_lookup_elem (latency st) next_pid with
  | None => st
  | Some ts =>
      if ts =? 0 then st
      else
        let delta := now -64 ts in
        let st := set_latency st (snd (bpf_map_delete_elem (latency st) next_pid)) in
        if key =? 0 then st
        else
          let '(found, st) := ensure_group cpu key st in
          if found then count_both cpu key (latency_cell delta) st else st
  end.

Definition sched_switch_entry (kr : rq_kernel) (cpu prev next now : Z) (st : rq_state) : rq_state :=
  let key := group_key kr prev in
  let state := task_state kr prev in
  let prev_pid := u32 (task_pid kr prev) in
  let '(is_voluntary, st) :=
    if state =? TASK_RUNNING then
      (false, if ctrue prev_pid
              then set_latency st (snd (bpf_map_update_elem (latency st) prev_pid now BPF_ANY))
              else st)
    else (true, st) in
  match cpu_host_metric st with
  | None => st
  | Some _ =>
      let '(go, st) := count_switch cpu key prev_pid is_voluntary st in
      if negb go then st
      else
        let next_pid := u32 (task_pid kr next) in
        if next_pid =? 0 then st
        else count_latency cpu (group_key kr next) next_pid now st
  end.

Definition sched_process_exit_entry (kr : rq_kernel) (p : Z) (st : rq_state) : rq_state :=
  let pid := u32 (task_pid kr p) in
  match bpf_map_lookup_elem (latency st) pid with
  | Some _ => set_latency st (snd (bpf_map_delete_elem (latency st) pid))
  | None => st
  end.

Definition free_fair_sched_group_entry (tg : Z) (st : rq_state) : rq_state :=
  match bpf_map_lookup_elem (cpu_tg_metric st) tg with
  | Some _ => set_tg_metric st (snd (bpf_map_delete_elem (cpu_tg_metric st) tg))
  | None => st
  end.

(** The hook of the other build. *)
Definition destroy_pid_namespace_entry (kr : rq_kernel) (ns : Z) (st : rq_state) : rq_state :=
  let pidns := u32 (ns_inum kr ns) in
  match bpf_map_lookup_elem (cpu_tg_metric st) pidns with
  | Some _ => set_tg_metric st (snd (bpf_map_delete_elem (cpu_tg_metric st) pidns))
  | None => st
  end.

(** ** Runs *)

Inductive rq_event :=
| RqWakeup (pid now : Z)
| RqWakeupNew (pid now : Z)
| RqSwitch (kr : rq_kernel) (cpu prev next now : Z)
| RqExit (kr : rq_kernel) (p : Z)
| RqFreeGroup (tg : Z)
| RqDestroyNs (kr : rq_kernel) (ns : Z).

Definition rq_step (e : rq_event) (st : rq_state) : rq_state :=
  match e with
  | RqWakeup pid now => sched_wakeup_entry pid now st
  | RqWakeupNew pid now => sched_wakeup_new_entry pid now st
  | RqSwitch kr cpu prev next now => sched_switch_entry kr cpu prev next now st
  | RqExit kr p => sched_process_exit_entry kr p st
  | RqFreeGroup tg => free_fair_sched_group_entry tg st
  | RqDestroyNs kr ns => destroy_pid_namespace_entry kr ns st
  end.

Definition rq_run (events : list rq_event) (st : rq_state) : rq_state :=
  fold_left (fun st e => rq_step e st) events st.
End Model.

(** ** The ledger *)

Definition stat_get (s : stat_t) (c : cell) : Z :=
  u64 match c with
      | CVoluntary => nvcsw s | CInvoluntary => nivcsw s | CLat01 => nlat_01 s
      | CLat02 => nlat_02 s | CLat03 => nlat_03 s | CLat04 => nlat_04 s
      end.
Definition g_stat_get (s : g_stat_t) (c : cell) : Z :=
  u64 match c with
      | CVoluntary => g_nvcsw s | CInvoluntary => g_nivcsw s | CLat01 => g_nlat_01 s
      | CLat02 => g_nlat_02 s | CLat03 => g_nlat_03 s | CLat04 => g_nlat_04 s
      end.

Lemma stat_get_inc c c' s : stat_get (stat_inc c s) c' = stat_get s c' +64 (if decide (c = c') then 1 else 0).
Proof.
  unfold stat_get. destruct c, c'; cbn; rewrite ?u64_add_idemp_l, ?u64_idemp, ?Z.add_0_r;
    try done; by rewrite u64_idemp.
Qed.
Lemma g_stat_get_inc c c' s :
  g_stat_get (g_stat_inc c s) c' = g_stat_get s c' +64 (if decide (c = c') then 1 else 0).
Proof.
  unfold g_stat_get. destruct c, c'; cbn; rewrite ?u64_add_idemp_l, ?u64_idemp, ?Z.add_0_r;
    try done; by rewrite u64_idemp.
Qed.
Lemma stat_get_zero c : stat_get zero_stat c = 0.
Proof. by destruct c. Qed.

(** A sample: group, CPU, counter. *)
Definition sample : Type := Z * Z * cell.
Definition host_count (cpu : Z) (c : cell) (l : list sample) : Z :=
  Z.of_nat (length (filter (fun s => (snd (fst s), snd s) = (cpu, c)) l)).
Definition group_count (key cpu : Z) (c : cell) (l : list sample) : Z :=
  Z.of_nat (length (filter (fun s => s = (key, cpu, c)) l)).

Lemma host_count_app cpu c l1 l2 : host_count cpu c (l1 ++ l2) = host_count cpu c l1 + host_count cpu c l2.
Proof. unfold host_count. rewrite list.filter_app, length_app. apply Nat2Z.inj_add. Qed.
Lemma group_count_app key cpu c l1 l2 :
  group_count key cpu c (l1 ++ l2) = group_count key cpu c l1 + group_count key cpu c l2.
Proof. unfold group_count. rewrite list.filter_app, length_app. apply Nat2Z.inj_add. Qed.

Section Ledger.
Context {M : BpfMapOps} {L : BpfMapLaws M}.
Implicit Types st : rq_state.

Definition host_cell st (cpu : Z) (c : cell) : Z :=
  match cpu_host_metric st with
  | Some slots => g_stat_get (percpu_get zero_g_stat slots cpu) c
  | None => 0
  end.
Definition group_cell st (key cpu : Z) (c : cell) : Z :=
  match bpf_map_lookup_elem (cpu_tg_metric st) key with
  | Some slots => stat_get (percpu_get zero_stat slots cpu) c
  | None => 0
  end.

(** From [st] to [st'] exactly the samples [l] were counted, in the host and in
    the groups that satisfy [kept]. *)
Record logs (kept : Z -> Prop) st (l : list sample) st' : Prop := Logs {
  logs_loaded : is_Some (cpu_host_metric st) -> is_Some (cpu_host_metric st');
  logs_host cpu c : is_Some (cpu_host_metric st) ->
    host_cell st' cpu c = host_cell st cpu c +64 host_count cpu c l;
  logs_group key cpu c : kept key ->
    group_cell st' key cpu c = group_cell st key cpu c +64 group_count key cpu c l;
}.

Lemma rq_host_cell_range st cpu c : is_u64 (host_cell st cpu c).
Proof. unfold host_cell. case_match; [apply u64_range|]. unfold is_u64. lia. Qed.
Lemma group_cell_range st key cpu c : is_u64 (group_cell st key cpu c).
Proof. unfold group_cell. case_match; [apply u64_range|]. unfold is_u64. lia. Qed.

Lemma logs_quiet kept st st' :
  cpu_host_metric st' = cpu_host_metric st ->
  (forall key cpu c, kept key -> group_cell st' key cpu c = group_cell st key cpu c) ->
  logs kept st [] st'.
Proof.
  intros Hh Hg. split.
  - by rewrite Hh.
  - intros. unfold host_count. simpl. rewrite Z.add_0_r, u64_small by apply rq_host_cell_range.
    unfold host_cell. by rewrite Hh.
  - intros. unfold group_count. simpl. rewrite Z.add_0_r, u64_small by apply group_cell_range. auto.
Qed.

Lemma rq_logs_trans kept st st1 st2 l1 l2 :
  logs kept st l1 st1 -> logs kept st1 l2 st2 -> logs kept st (l1 ++ l2) st2.
Proof.
  intros [D1 H1 G1] [D2 H2 G2]. split; intros; auto.
  - rewrite H2, H1, u64_add_idemp_l, host_count_app by auto. f_equal. lia.
  - rewrite G2, G1, u64_add_idemp_l, group_count_app by auto. f_equal. lia.
Qed.

Lemma ensure_group_logs kept cpu key st : logs kept st [] (snd (ensure_group cpu key st)).
Proof.
  unfold ensure_group. case_match; [by apply logs_quiet|]. apply logs_quiet; [done|].
  intros k cpu' c _. unfold group_cell. cbn [snd cpu_tg_metric set_tg_metric].
  destruct (Z.eq_dec (fst (bpf_map_update_elem (cpu_tg_metric st) key (percpu_set ∅ cpu zero_stat)
    BPF_NOEXIST)) 0) as [E|E]; [|by rewrite update_err].
  destruct (bm_noexist_ok _ _ _ E) as [Hn Hk]. rewrite Hk. case_decide; subst; [|done].
  rewrite Hn, percpu_get_set. case_decide; [apply stat_get_zero|].
  unfold percpu_get, arr_get. rewrite lookup_empty. apply stat_get_zero.
Qed.

Lemma ensure_group_found cpu key st st' :
  ensure_group cpu key st = (true, st') -> is_Some (bpf_map_lookup_elem (cpu_tg_metric st') key).
Proof.
  unfold ensure_group. destruct (bpf_map_lookup_elem (cpu_tg_metric st) key) eqn:E.
  - intros [= <-]. by rewrite E.
  - intros [= Hp <-]. by apply bool_decide_eq_true in Hp.
Qed.

Lemma count_both_logs kept cpu key c st :
  is_Some (bpf_map_lookup_elem (cpu_tg_metric st) key) ->
  logs kept st [(key, cpu, c)] (count_both cpu key c st).
Proof.
  intros [slots Hs]. unfold count_both. rewrite Hs.
  set (st1 := set_tg_metric st _).
  assert (Hg : forall k cpu' c', group_cell st1 k cpu' c' =
    group_cell st k cpu' c' +64 group_count k cpu' c' [(key, cpu, c)]).
  { intros k cpu' c'. unfold group_cell at 1. cbn [st1 cpu_tg_metric set_tg_metric].
    rewrite store_lookup by by rewrite Hs. unfold group_count. rewrite filter_cons, filter_nil.
    destruct (decide (key = k)) as [<-|Hk].
    - unfold group_cell. rewrite Hs, percpu_get_set. destruct (decide (cpu = cpu')) as [<-|Hc].
      + rewrite stat_get_inc. f_equal. f_equal. repeat case_decide; simplify_eq; done.
      + rewrite decide_False by congruence. simpl. rewrite Z.add_0_r. symmetry. apply u64_small, u64_range.
    - rewrite decide_False by congruence. simpl. rewrite Z.add_0_r. symmetry.
      apply u64_small, group_cell_range. }
  change (cpu_host_metric st1) with (cpu_host_metric st).
  destruct (cpu_host_metric st) as [hs|] eqn:Hh; split.
  - simpl. by eauto.
  - intros cpu' c' _. unfold host_cell. rewrite Hh. cbn [cpu_host_metric set_host_metric].
    unfold host_count. rewrite filter_cons, filter_nil. cbn [fst snd]. rewrite percpu_get_set.
    destruct (decide (cpu = cpu')) as [<-|Hc].
    + rewrite g_stat_get_inc. f_equal. f_equal. repeat case_decide; simplify_eq; done.
    + rewrite decide_False by congruence. simpl. rewrite Z.add_0_r. symmetry. apply u64_small, u64_range.
  - intros k cpu' c' _. apply Hg.
  - rewrite Hh. by intros [].
  - rewrite Hh. by intros ?? [].
  - intros k cpu' c' _. apply Hg.
Qed.

(** A step that finds or creates a row and counts in it. *)
Lemma ensure_count_logs kept cpu key c st :
  let '(found, st1) := ensure_group cpu key st in
  exists l, Forall (fun s => fst (fst s) = key /\ s = (key, cpu, c)) l /\
    logs kept st l (if found then count_both cpu key c st1 else st1).
Proof.
  pose proof (ensure_group_logs kept cpu key st) as Hl.
  destruct (ensure_group cpu key st) as [[] st1] eqn:E; cbn [snd] in Hl.
  - exists [(key, cpu, c)]. split; [by repeat constructor|].
    apply (rq_logs_trans _ _ _ _ [] _ Hl), count_both_logs. by eapply ensure_group_found.
  - exists []. split; [constructor|done].
Qed.

(** ** Steps *)

Definition freed (e : rq_event) (key : Z) : Prop :=
  match e with RqFreeGroup tg => tg = key | RqDestroyNs kr ns => u32 (ns_inum kr ns) = key | _ => False end.

Definition samples_ok (l : list sample) : Prop := Forall (fun s => fst (fst s) <> 0) l.

Lemma count_switch_logs kept cpu key prev_pid vol st :
  let '(go, st') := count_switch cpu key prev_pid vol st in
  exists l, samples_ok l /\ logs kept st l st'.
Proof.
  unfold count_switch. destruct (ctrue key) eqn:Hk; [|exists []; split; [constructor|by apply logs_quiet]].
  destruct (ctrue prev_pid); cbn [andb]; [|exists []; split; [constructor|by apply logs_quiet]].
  pose proof (ensure_count_logs kept cpu key (if vol then CVoluntary else CInvoluntary) st) as H.
  destruct (ensure_group cpu key st) as [[] st1]; destruct H as (l & Hl & Hlog); exists l; (split; [|done]);
    (eapply Forall_impl; [|exact Hl]); intros s [-> _]; zify_bools; done.
Qed.

Lemma count_latency_logs kept cpu key pid now st :
  exists l, samples_ok l /\ logs kept st l (count_latency cpu key pid now st).
Proof.
  unfold count_latency. destruct (bpf_map_lookup_elem (latency st) pid) as [ts|];
    [|exists []; split; [constructor|by apply logs_quiet]].
  case_if; [exists []; split; [constructor|by apply logs_quiet]|].
  set (st1 := set_latency st _). assert (Hq : logs kept st [] st1) by (by apply logs_quiet).
  destruct (Z.eqb_spec key 0); [exists []; split; [constructor|done]|].
  pose proof (ensure_count_logs kept cpu key (latency_cell (now -64 ts)) st1) as H.
  destruct (ensure_group cpu key st1) as [found st2]. destruct H as (l & Hl & Hlog). exists l. split.
  - eapply Forall_impl; [|exact Hl]. by intros s [-> _].
  - apply (rq_logs_trans _ _ _ _ [] _ Hq Hlog).
Qed.

Lemma switch_logs kept kr cpu prev next now st :
  exists l, samples_ok l /\ logs kept st l (sched_switch_entry kr cpu prev next now st).
Proof.
  unfold sched_switch_entry. set (pid := u32 (task_pid kr prev)).
  assert (Hen : logs kept st [] (if ctrue pid
    then set_latency st (snd (bpf_map_update_elem (latency st) pid now BPF_ANY)) else st))
    by (case_if; by apply logs_quiet).
  set (r := if task_state kr prev =? TASK_RUNNING then _ else _).
  assert (H1 : logs kept st [] (snd r)) by (subst r; case_if; [exact Hen|by apply logs_quiet]).
  destruct r as [vol st1]. cbn [snd] in H1.
  destruct (cpu_host_metric st1); [|exists []; split; [constructor|done]].
  pose proof (count_switch_logs kept cpu (group_key kr prev) pid vol st1) as H2.
  destruct (count_switch _ _ _ _ _) as [go st2]. destruct H2 as (l & Hok & Hl).
  pose proof (rq_logs_trans _ _ _ _ _ _ H1 Hl) as H3. cbn [app] in H3.
  destruct go; cbn [negb]; [|by exists l]. case_if; [by exists l|].
  destruct (count_latency_logs kept cpu (group_key kr next) (u32 (task_pid kr next))
    now st2) as (l2 & Hok2 & Hl2).
  exists (l ++ l2). split; [by apply Forall_app|]. by eapply rq_logs_trans.
Qed.

(** Removing the row of a group that is not kept. *)
Lemma free_logs (kept : Z -> Prop) tg st : ~ kept tg -> logs kept st [] (free_fair_sched_group_entry tg st).
Proof.
  intros Hk. unfold free_fair_sched_group_entry. case_match; [|by apply logs_quiet]. apply logs_quiet; [done|].
  intros key cpu c Hkey. unfold group_cell. cbn [cpu_tg_metric set_tg_metric]. rewrite bm_delete_ne; [done|]. by intros ->.
Qed.

Lemma step_logs e st (kept : Z -> Prop) :
  (forall key, kept key -> ~ freed e key) ->
  exists l, samples_ok l /\ logs kept st l (rq_step e st).
Proof.
  intros Hk. destruct e as [pid now|pid now|kr cpu prev next now|kr p|tg|kr ns]; cbn [rq_step].
  - exists []. split; [constructor|]. unfold sched_wakeup_entry, trace_enqueue.
    case_if; by apply logs_quiet.
  - exists []. split; [constructor|]. unfold sched_wakeup_new_entry, trace_enqueue.
    case_if; by apply logs_quiet.
  - apply switch_logs.
  - exists []. split; [constructor|]. unfold sched_process_exit_entry. case_match; by apply logs_quiet.
  - exists []. split; [constructor|]. apply free_logs. intros Hkey. by apply (Hk tg).
  - exists []. split; [constructor|]. apply free_logs. intros Hkey. by apply (Hk _ Hkey).
Qed.

(** ** Theorems *)

(** C31: host and group counters are one ledger: after any run, with rows by task group
    or by pid namespace, there is one list of samples, each naming a group, a CPU and
    a counter, such that every host counter of every CPU grew by the number of samples
    for it, and every counter of a group not freed in the run by the number of samples
    that name the group; so what the host counts is the sum over the groups, whatever
    rows could not be created. *)
Theorem runqlat_host_is_group_sum events st :
  is_Some (cpu_host_metric st) ->
  exists l, samples_ok l /\
    (forall cpu c, host_cell (rq_run events st) cpu c = host_cell st cpu c +64 host_count cpu c l) /\
    (forall key cpu c, Forall (fun e => ~ freed e key) events ->
       group_cell (rq_run events st) key cpu c = group_cell st key cpu c +64 group_count key cpu c l).
Proof.
  intros Hh. set (kept := fun key => Forall (fun e => ~ freed e key) events).
  assert (H : exists l, samples_ok l /\ logs kept st l (rq_run events st)).
  { assert (Hk : forall key, kept key -> Forall (fun e => ~ freed e key) events) by done.
    clearbody kept. clear Hh. revert st Hk. induction events as [|e es IH]; intros st Hk.
    { exists []. split; [constructor|by apply logs_quiet]. }
    destruct (step_logs e st kept) as (l1 & Hok1 & Hl1).
    { intros key Hkey. by apply Hk, Forall_cons_1 in Hkey as [? _]. }
    destruct (IH (rq_step e st)) as (l2 & Hok2 & Hl2).
    { intros key Hkey. by apply Hk, Forall_cons_1 in Hkey as [_ ?]. }
    exists (l1 ++ l2). split; [by apply Forall_app|]. by eapply rq_logs_trans. }
  destruct H as (l & Hok & Hl). exists l. split; [done|]. split.
  - intros. by apply (logs_host _ _ _ _ Hl).
  - intros key cpu c Hkey. by apply (logs_group _ _ _ _ Hl).
Qed.

(** *** The delay that is measured *)

(** An event that cannot touch the task's enqueue time. *)
Definition unrelated (pid : Z) (e : rq_event) : Prop :=
  match e with
  | RqWakeup p _ | RqWakeupNew p _ => u32 p <> pid
  | RqSwitch kr _ prev next _ => u32 (task_pid kr prev) <> pid /\ u32 (task_pid kr next) <> pid
  | RqExit kr p => u32 (task_pid kr p) <> pid
  | RqFreeGroup _ | RqDestroyNs _ _ => True
  end.

Lemma ensure_group_latency cpu key st : latency (snd (ensure_group cpu key st)) = latency st.
Proof. unfold ensure_group. by case_match. Qed.
Lemma count_both_latency cpu key c st : latency (count_both cpu key c st) = latency st.
Proof. unfold count_both. by repeat case_match. Qed.
Lemma count_switch_latency cpu key pid vol st : latency (snd (count_switch cpu key pid vol st)) = latency st.
Proof.
  unfold count_switch. case_if; [|done]. pose proof (ensure_group_latency cpu key st) as H.
  destruct (ensure_group cpu key st) as [[] st1]; cbn [snd] in *; [|done].
  by rewrite count_both_latency.
Qed.

Lemma count_latency_lookup cpu key p now st pid :
  p <> pid ->
  bpf_map_lookup_elem (latency (count_latency cpu key p now st)) pid =
  bpf_map_lookup_elem (latency st) pid.
Proof.
  intros Hne. unfold count_latency. destruct (bpf_map_lookup_elem (latency st) p); [|done].
  case_if; [done|].
  assert (Hd : bpf_map_lookup_elem (latency (set_latency st (snd (bpf_map_delete_elem (latency st) p)))) pid
    = bpf_map_lookup_elem (latency st) pid) by (by apply bm_delete_ne).
  case_if; [done|]. set (st1 := set_latency st _) in *.
  pose proof (ensure_group_latency cpu key st1) as He.
  destruct (ensure_group cpu key st1) as [[] st2]; cbn [snd] in He; rewrite ?count_both_latency, He; done.
Qed.

Lemma unrelated_latency pid e st :
  unrelated pid e ->
  bpf_map_lookup_elem (latency (rq_step e st)) pid = bpf_map_lookup_elem (latency st) pid.
Proof.
  intros Hu. destruct e as [p now|p now|kr cpu prev next now|kr p|tg|kr ns]; cbn [rq_step unrelated] in *.
  - unfold sched_wakeup_entry, trace_enqueue. case_if; [done|]. by apply bm_update_ne.
  - unfold sched_wakeup_new_entry, trace_enqueue. case_if; [done|]. by apply bm_update_ne.
  - destruct Hu as [Hp Hn]. unfold sched_switch_entry. set (r := if _ =? TASK_RUNNING then _ else _).
    assert (H1 : bpf_map_lookup_elem (latency (snd r)) pid = bpf_map_lookup_elem (latency st) pid).
    { subst r. case_if; [|done]. cbn [snd]. case_if; [|done]. by apply bm_update_ne. }
    destruct r as [vol st1]. cbn [snd] in H1. case_match; [|done].
    pose proof (count_switch_latency cpu (group_key kr prev) (u32 (task_pid kr prev))
      vol st1) as H2. destruct (count_switch _ _ _ _ _) as [go st2]. cbn [snd] in H2.
    rewrite <- H1, <- H2. destruct go; cbn [negb]; [|done]. case_if; [done|].
    by apply count_latency_lookup.
  - unfold sched_process_exit_entry. case_match; [|done]. by apply bm_delete_ne.
  - unfold free_fair_sched_group_entry. by case_match.
  - unfold destroy_pid_namespace_entry. by case_match.
Qed.

Lemma unrelated_run pid events st :
  Forall (unrelated pid) events ->
  bpf_map_lookup_elem (latency (rq_run events st)) pid = bpf_map_lookup_elem (latency st) pid.
Proof.
  intros H. revert st. induction H as [|e es He Hes IH]; intros st; [done|].
  change (rq_run (e :: es) st) with (rq_run es (rq_step e st)). rewrite IH. by apply unrelated_latency.
Qed.

(** A run-queue delay is measured from the task's last wakeup: when a task is
    woken at [t0] and, after any events that do not touch it, another task of the
    idle pid gives way to it at [t1] on a CPU, exactly the counter of the class of
    [t1 - t0] (below 10ms, 20ms, 50ms, or above) grows by one, for the host and
    for the task's group, and the task's enqueue time is forgotten. *)
Theorem runqlat_delay_from_wakeup pid t0 events kr cpu prev next t1 st key :
  is_u32 pid -> pid <> 0 -> t0 <> 0 -> is_u64 t0 -> is_u64 t1 -> t0 <= t1 ->
  fst (bpf_map_update_elem (latency st) pid t0 BPF_ANY) = 0 ->
  Forall (unrelated pid) events ->
  let st1 := rq_run events (rq_step (RqWakeup pid t0) st) in
  is_Some (cpu_host_metric st1) ->
  u32 (task_pid kr prev) = 0 -> u32 (task_pid kr next) = pid ->
  group_key kr next = key -> key <> 0 ->
  is_Some (bpf_map_lookup_elem (cpu_tg_metric st1) key) ->
  fst (bpf_map_delete_elem (latency st1) pid) = 0 ->
  let st2 := rq_step (RqSwitch kr cpu prev next t1) st1 in
  (forall c, host_cell st2 cpu c =
     host_cell st1 cpu c +64 (if decide (latency_cell (t1 - t0) = c) then 1 else 0)) /\
  (forall c, group_cell st2 key cpu c =
     group_cell st1 key cpu c +64 (if decide (latency_cell (t1 - t0) = c) then 1 else 0)) /\
  bpf_map_lookup_elem (latency st2) pid = None.
Proof.
  intros Hpid Hnz Ht0 Hu0 Hu1 Hle Hup Hun st1 Hh Hprev Hnext Hkey Hknz [slots Hrow] Hdel st2.
  assert (Hlat : bpf_map_lookup_elem (latency st1) pid = Some t0).
  { unfold st1. rewrite unrelated_run by done. cbn [rq_step]. unfold sched_wakeup_entry, trace_enqueue.
    rewrite (u32_small pid), (proj2 (Z.eqb_neq pid 0)) by done. by apply bm_update_eq. }
  set (cl := latency_cell (t1 - t0)).
  set (stl := set_latency st1 (snd (bpf_map_delete_elem (latency st1) pid))).
  assert (Hst2 : st2 = count_both cpu key cl stl).
  { subst st2. cbn [rq_step]. unfold sched_switch_entry. rewrite Hprev, Hnext, Hkey. cbn [ctrue negb Z.eqb].
    assert (Hsame : forall b : bool, (if b then (false, st1) else (true, st1)) = (negb b, st1)) by (by intros []).
    rewrite Hsame. destruct Hh as [hs Hh]. rewrite Hh. unfold count_switch. rewrite andb_false_r. cbn [negb].
    rewrite (proj2 (Z.eqb_neq pid 0)) by done. unfold count_latency. rewrite Hlat.
    rewrite (proj2 (Z.eqb_neq t0 0)), (proj2 (Z.eqb_neq key 0)) by done. fold stl.
    unfold ensure_group. change (cpu_tg_metric stl) with (cpu_tg_metric st1). rewrite Hrow.
    by rewrite u64_sub_exact. }
  destruct (count_both_logs (fun _ => True) cpu key cl stl) as [_ Hhost Hgroup].
  { change (cpu_tg_metric stl) with (cpu_tg_metric st1). by eauto. }
  rewrite Hst2. split; [|split].
  - intros c. rewrite Hhost by done. unfold host_count. rewrite filter_cons, filter_nil. cbn [fst snd].
    change (host_cell stl cpu c) with (host_cell st1 cpu c). f_equal. f_equal.
    repeat case_decide; simplify_eq; done.
  - intros c. rewrite Hgroup by done. unfold group_count. rewrite filter_cons, filter_nil.
    change (group_cell stl key cpu c) with (group_cell st1 key cpu c). f_equal. f_equal.
    repeat case_decide; simplify_eq; done.
  - rewrite count_both_latency. by apply bm_delete_eq.
Qed.
End Ledger.

(** *** A concrete run *)

Definition rq_demo_kernel : rq_kernel :=
  RqKernel true (fun t => if t =? 1 then 0 else t) (fun _ => 77) (fun _ => 0) (fun _ => 0) false (fun _ => 0) (fun t => if t =? 5 then 1 else 0).
Definition rq_demo : rq_state :=
  RqState (FaultyHash ∅ 8 []) (FaultyHash ∅ 4 []) (Some ∅).
Definition rq_demo_events : list rq_event :=
  [RqWakeup 9 1000; RqSwitch rq_demo_kernel 2 5 9 15001000; RqSwitch rq_demo_kernel 2 9 1 16000000;
   RqExit rq_demo_kernel 4].

Lemma runqlat_host_is_group_sum_witness :
  exists l, host_cell (rq_run rq_demo_events rq_demo) 2 CLat02 = 0 +64 host_count 2 CLat02 l /\
    group_cell (rq_run rq_demo_events rq_demo) 77 2 CLat02 = 0 +64 group_count 77 2 CLat02 l.
Proof.
  destruct (runqlat_host_is_group_sum rq_demo_events rq_demo) as (l & _ & Hh & Hg); [by eexists|].
  exists l. split; [apply Hh|]. apply Hg. repeat constructor; cbn; tauto.
Defined.

Lemma runqlat_delay_from_wakeup_witness :
  host_cell (rq_step (RqSwitch rq_demo_kernel 2 1 9 35000000)
    (rq_run [RqSwitch rq_demo_kernel 2 5 1 2000] (rq_step (RqWakeup 9 1000) rq_demo))) 2 CLat03 = 1.
Proof.
  destruct (runqlat_delay_from_wakeup 9 1000 [RqSwitch rq_demo_kernel 2 5 1 2000] rq_demo_kernel 2 1 9
    35000000 rq_demo 77) as [H _].
  - unfold is_u32. lia.
  - lia.
  - lia.
  - unfold is_u64. lia.
  - unfold is_u64. lia.
  - lia.
  - reflexivity.
  - apply list.Forall_singleton. split; vm_compute; congruence.
  - by eexists.
  - reflexivity.
  - reflexivity.
  - reflexivity.
  - lia.
  - by eexists.
  - reflexivity.
  - rewrite H. reflexivity.
Defined.

End RunqLat.
