(* ===== verification/IoHealth.v ===== *)
(** * Block device health tracer ([bpf/io_health.c], [bpf/include/abi/io_health_types.h])

    The tracer reports block, SCSI and NVMe errors, counts queue freezes per
    disk, and keeps a generation word that changes whenever the set of disks
    does, so that user space never collects evidence from a replacement device.
    NVMe controllers are opaque pointers whose names are learned from sysfs and
    character device hooks; resets and state changes are observed on entry and
    return of the kernel function, paired by task.  Module [IoHealth] models
    every program; a record handed to the perf ring is appended to [health_events]. *)

From Stdlib Require Import ZArith Lia.
From stdpp Require Import base option list gmap tactics countable.
From S2P Require Import Prelude BpfMap.

Local Open Scope Z_scope.
Local Open Scope bpf_scope.

Module IoHealth.

(** ** Constants and records *)

Definition BPF_DEV_MINOR_BITS : Z := 20.
Definition BPF_DEV_MINOR_MASK : Z := Z.shiftl 1 BPF_DEV_MINOR_BITS - 1.
Definition REQ_OP_BITS : Z := 8.
Definition REQ_OP_MASK : Z := Z.shiftl 1 REQ_OP_BITS - 1.
Definition IO_HEALTH_CONTROLLER_NAME_LEN : nat := 16.

Definition HEALTH_EVENT_BLOCK_ERROR : Z := 1.
Definition HEALTH_EVENT_SCSI_TIMEOUT : Z := 2.
Definition HEALTH_EVENT_SCSI_DISPATCH_ERROR : Z := 3.
Definition HEALTH_EVENT_NVME_TIMEOUT : Z := 4.
Definition HEALTH_EVENT_NVME_RESET : Z := 5.
Definition HEALTH_EVENT_NVME_STATE_CHANGE : Z := 6.

(** Enumerators of the kernel's [enum req_opf] the program names. *)
Definition REQ_OP_SCSI_IN : Z := 32.
Definition REQ_OP_SCSI_OUT : Z := 33.
Definition REQ_OP_DRV_IN : Z := 34.
Definition REQ_OP_DRV_OUT : Z := 35.

Record io_health_event := HealthEvent {
  he_sector : Z;
  he_dev : Z;
  he_status : Z;
  he_host : Z;
  he_channel : Z;
  he_target : Z;
  he_lun : Z;
  he_controller : list Z;
  he_new_state_raw : Z;
  he_type : Z;
  he_operation : Z;
  he_rwbs : list Z;
  he_topology_generation : Z;
}.

Definition no_controller : list Z := replicate IO_HEALTH_CONTROLLER_NAME_LEN 0.
Definition no_rwbs : list Z := [0; 0].

Record nvme_state_call := StateCall {
  sc_ctrl : Z;
  sc_new_state_raw : Z;
}.

Record nvme_cdev_call := CdevCall {
  cc_ctrl : Z;
  cc_name : list Z;
}.

(** Settings user space relocates before the load. *)
Record ih_config := IhConfig {
  io_health_rqf_quiet_mask : Z;
  io_health_blk_errors_addr : Z;
  io_health_blk_errors_stride : Z;
  io_health_blk_errors_count : Z;
}.

(** What an invocation reads of the kernel.  A field read through a bad pointer
    is zero; a read whose result code the program tests is an [option]. *)
Record ih_kernel := IhKernel {
  dev_type : Z -> Z;                     (* device.type *)
  type_name : Z -> option Z;             (* device_type.name *)
  kernel_str : Z -> option (list Z);     (* bytes of a string up to its NUL *)
  disk_name : Z -> option (list Z);      (* bytes of gendisk.disk_name *)
  disk_major : Z -> Z;
  disk_first_minor : Z -> Z;
  queue_has_disk : bool;                 (* request_queue.disk exists *)
  queue_disk : Z -> Z;
  queue_kobj_parent : Z -> Z;
  device_kobj_offset : Z;
  gendisk_device_offset : Z;
  request_has_disk : bool;               (* request.rq_disk exists *)
  rq_disk : Z -> Z;
  rq_queue : Z -> Z;
  rq_sector : Z -> Z;
  rq_cmd_flags : Z -> Z;
  rq_bio : Z -> Z;
  rq_flags : Z -> Z;
  kernel_s32 : Z -> option Z;            (* a 4-byte probe read *)
  dev_class : Z -> Z;
  class_name : Z -> Z;
  dev_driver_data : Z -> Z;
  dev_kobj_name : Z -> Z;
}.

(** Fields of the [block_rq_error] tracepoint; [te_has_error] tells whether the
    running kernel's event has the error field. *)
Record rq_error_ctx := RqErrorCtx {
  te_has_error : bool;
  te_dev : Z;
  te_sector : Z;
  te_error : Z;
  te_rwbs : list Z;
}.

(** [bpf_probe_read_str] into a zeroed buffer of [size] bytes: the length with
    the NUL and the buffer; a longer string is truncated to [size - 1] bytes and
    terminated, with result [size]. *)
Definition bpf_probe_read_str (size : nat) (src : option (list Z)) : Z * list Z :=
  match src with
  | None => (- EFAULT, replicate size 0)
  | Some s =>
      let c := take (size - 1) s in
      (Z.of_nat (length c) + 1, c ++ replicate (size - length c) 0)
  end.

Definition byte_at (buf : list Z) (i : nat) : Z := default 0 (buf !! i).

(** ** Pure helpers *)

Definition encode_dev (major minor : Z) : Z :=
  Z.lor (Z.land major 4095 <<32 BPF_DEV_MINOR_BITS) (Z.land minor BPF_DEV_MINOR_MASK).

Definition request_disk (kr : ih_kernel) (req : Z) : Z :=
  if request_has_disk kr then rq_disk kr req
  else if queue_has_disk kr then queue_disk kr (rq_queue kr req)
  else 0.

Definition request_dev (kr : ih_kernel) (req : Z) : Z :=
  let disk := request_disk kr req in
  if disk =? 0 then 0
  else encode_dev (u32 (disk_major kr disk)) (u32 (disk_first_minor kr disk)).

Definition request_operation (kr : ih_kernel) (req : Z) : Z :=
  u8 (Z.land (rq_cmd_flags kr req) REQ_OP_MASK).

(** The characters are written as their codes: [sd], [vd], [nvme]. *)
Definition io_health_freeze_key (kr : ih_kernel) (disk : Z) : Z :=
  if disk =? 0 then 0
  else match disk_name kr disk with
       | None => 0
       | Some bytes =>
           let name := take 5 bytes in
           let at_ := byte_at name in
           if negb (((at_ 0%nat =? 115) && (at_ 1%nat =? 100)) ||
                    ((at_ 0%nat =? 118) && (at_ 1%nat =? 100)) ||
                    ((at_ 0%nat =? 110) && (at_ 1%nat =? 118) &&
                     (at_ 2%nat =? 109) && (at_ 3%nat =? 101)))
           then 0
           else Z.lor (u32 (disk_major kr disk) <<64 32) (u32 (disk_first_minor kr disk))
       end.

Definition read_nvme_controller (kr : ih_kernel) (dev : Z) : option (Z * list Z) :=
  if dev =? 0 then None
  else if dev_class kr dev =? 0 then None
  else
    let class_name_ptr := class_name kr (dev_class kr dev) in
    if class_name_ptr =? 0 then None
    else
      let '(len, cname) := bpf_probe_read_str 5 (kernel_str kr class_name_ptr) in
      if negb (len =? 5) then None
      else if negb (byte_at cname 0 =? 110) || negb (byte_at cname 1 =? 118) ||
              negb (byte_at cname 2 =? 109) || negb (byte_at cname 3 =? 101) ||
              ctrue (byte_at cname 4)
      then None
      else
        let ctrl := dev_driver_data kr dev in
        let name_ptr := dev_kobj_name kr dev in
        if (ctrl =? 0) || (name_ptr =? 0) then None
        else
          let '(nlen, name) :=
            bpf_probe_read_str IO_HEALTH_CONTROLLER_NAME_LEN (kernel_str kr name_ptr) in
          if 1 <? nlen then Some (ctrl, name) else None.

(** [blk_status_t] to errno through the kernel's own table: the four entries of
    the stable prefix are validated first. *)
Definition errno_prefix : list Z := [0; -95; -110; -28].

Fixpoint errno_prefix_ok (kr : ih_kernel) (base stride i : Z) (prefix : list Z) : bool :=
  match prefix with
  | [] => true
  | p :: rest =>
      match kernel_s32 kr (base +64 u64 (i * stride)) with
      | None => false
      | Some error =>
          if negb (error =? p) then false else errno_prefix_ok kr base stride (i + 1) rest
      end
  end.

Definition io_health_block_errno (cfg : ih_config) (kr : ih_kernel) (status : Z) : Z :=
  let base := io_health_blk_errors_addr cfg in
  let stride := io_health_blk_errors_stride cfg in
  if (status <=? 0) || (base =? 0) || (io_health_blk_errors_count cfg <=? u32 status) then status
  else if negb (errno_prefix_ok kr base stride 0 errno_prefix) then status
  else match kernel_s32 kr (base +64 u64 (u64 status * stride)) with
       | None => status
       | Some error => if 0 <=? error then status else error
       end.

(** ** State *)

Section Model.
Context {M : BpfMapOps}.

Record ih_state := IhState {
  io_health_freeze_counts : hmap Z Z;
  io_health_topology : option Z;
  nvme_ctrl_names : hmap Z (list Z);
  nvme_cdev_calls : hmap Z nvme_cdev_call;
  nvme_state_calls : hmap Z nvme_state_call;
  nvme_reset_calls : hmap Z Z;
  health_events : list io_health_event;
}.

Definition set_freeze st x :=
  IhState x (io_health_topology st) (nvme_ctrl_names st) (nvme_cdev_calls st)
    (nvme_state_calls st) (nvme_reset_calls st) (health_events st).
Definition set_topology st x :=
  IhState (io_health_freeze_counts st) x (nvme_ctrl_names st) (nvme_cdev_calls st)
    (nvme_state_calls st) (nvme_reset_calls st) (health_events st).
Definition set_names st x :=
  IhState (io_health_freeze_counts st) (io_health_topology st) x (nvme_cdev_calls st)
    (nvme_state_calls st) (nvme_reset_calls st) (health_events st).
Definition set_cdev_calls st x :=
  IhState (io_health_freeze_counts st) (io_health_topology st) (nvme_ctrl_names st) x
    (nvme_state_calls st) (nvme_reset_calls st) (health_events st).
Definition set_state_calls st x :=
  IhState (io_health_freeze_counts st) (io_health_topology st) (nvme_ctrl_names st)
    (nvme_cdev_calls st) x (nvme_reset_calls st) (health_events st).
Definition set_reset_calls st x :=
  IhState (io_health_freeze_counts st) (io_health_topology st) (nvme_ctrl_names st)
    (nvme_cdev_calls st) (nvme_state_calls st) x (health_events st).

(** The generation with the state in which it was read: [changed] advances it. *)
Definition io_health_topology_generation (changed : bool) (st : ih_state) : Z * ih_state :=
  match io_health_topology st with
  | None => (0, st)
  | Some generation =>
      let generation' := if changed then generation +64 1 else generation in
      (generation', set_topology st (Some generation'))
  end.

Definition submit_event (event : io_health_event) (st : ih_state) : ih_state :=
  IhState (io_health_freeze_counts st) (io_health_topology st) (nvme_ctrl_names st)
    (nvme_cdev_calls st) (nvme_state_calls st) (nvme_reset_calls st)
    (health_events st ++ [event]).

(** ** Disks and freezes *)

Definition io_health_disk_publishing (kr : ih_kernel) (dev : Z) (st : ih_state) : ih_state :=
  if dev =? 0 then st
  else
    let type := dev_type kr dev in
    if type =? 0 then st
    else match type_name kr type with
         | None => st
         | Some name_ptr =>
             let '(len, name) := bpf_probe_read_str 6 (kernel_str kr name_ptr) in
             if negb (len =? 5) then st
             else if (byte_at name 0 =? 100) && (byte_at name 1 =? 105) &&
                     (byte_at name 2 =? 115) && (byte_at name 3 =? 107)
             then snd (io_health_topology_generation true st)
             else st
         end.

Definition io_health_freeze_disk_added (kr : ih_kernel) (disk : Z) (st : ih_state) : ih_state :=
  let key := io_health_freeze_key kr disk in
  if ctrue key
  then set_freeze st (snd (bpf_map_update_elem (io_health_freeze_counts st) key 0 BPF_ANY))
  else st.

Definition io_health_freeze_disk_removed (kr : ih_kernel) (disk : Z) (st : ih_state) : ih_state :=
  let st := snd (io_health_topology_generation true st) in
  let key := io_health_freeze_key kr disk in
  if ctrue key
  then set_freeze st (snd (bpf_map_delete_elem (io_health_freeze_counts st) key))
  else st.

(** The disk of a queue: its own field, or for older kernels the disk whose
    device is the parent of the queue's kobject ([None]: not registered). *)
Definition freeze_disk (kr : ih_kernel) (q : Z) : option Z :=
  if queue_has_disk kr then Some (queue_disk kr q)
  else
    let parent := queue_kobj_parent kr q in
    if parent =? 0 then None
    else Some (u64 (parent - device_kobj_offset kr - gendisk_device_offset kr)).

Definition freeze_add (key : Z) (st : ih_state) : ih_state :=
  match bpf_map_lookup_elem (io_health_freeze_counts st) key with
  | Some count => set_freeze st (map_store (io_health_freeze_counts st) key (count +64 1))
  | None => st
  end.

Definition io_health_freeze_queue (kr : ih_kernel) (q : Z) (st : ih_state) : ih_state :=
  match freeze_disk kr q with
  | None => st
  | Some disk =>
      let key := io_health_freeze_key kr disk in
      if key =? 0 then st
      else match bpf_map_lookup_elem (io_health_freeze_counts st) key with
           | Some _ => freeze_add key st
           | None =>
               let '(ret, counts) :=
                 bpf_map_update_elem (io_health_freeze_counts st) key 1 BPF_NOEXIST in
               let st := set_freeze st counts in
               if ret =? 0 then st else freeze_add key st
           end
  end.

(** ** Block and SCSI errors *)

Definition submit_block_error (kr : ih_kernel) (req status : Z) (st : ih_state) : ih_state :=
  let '(gen, st) := io_health_topology_generation false st in
  if req =? 0 then st
  else submit_event
         (HealthEvent (rq_sector kr req) (request_dev kr req) status 0 0 0 0 no_controller 0
            HEALTH_EVENT_BLOCK_ERROR (request_operation kr req) no_rwbs gen) st.

Definition trace_block_rq_error (ctx : rq_error_ctx) (st : ih_state) : ih_state :=
  let '(gen, st) := io_health_topology_generation false st in
  if negb (te_has_error ctx) then st
  else submit_event
         (HealthEvent (te_sector ctx) (u32 (te_dev ctx)) (s32 (te_error ctx)) 0 0 0 0 no_controller 0
            HEALTH_EVENT_BLOCK_ERROR REQ_OP_MASK (te_rwbs ctx) gen) st.

Definition trace_block_rq_complete_error (cfg : ih_config) (kr : ih_kernel) (req arg1 : Z)
    (st : ih_state) : ih_state :=
  let status := s32 arg1 in
  if (status =? 0) || (req =? 0) then st
  else if rq_bio kr req =? 0 then st
  else
    let operation := Z.land (rq_cmd_flags kr req) REQ_OP_MASK in
    if (operation =? REQ_OP_SCSI_IN) || (operation =? REQ_OP_SCSI_OUT) ||
       (operation =? REQ_OP_DRV_IN) || (operation =? REQ_OP_DRV_OUT)
    then st
    else if ctrue (Z.land (u32 (rq_flags kr req)) (io_health_rqf_quiet_mask cfg)) then st
    else submit_block_error kr req (io_health_block_errno cfg kr status) st.

Definition trace_scsi_timeout (host_no channel id lun : Z) (st : ih_state) : ih_state :=
  let '(gen, st) := io_health_topology_generation false st in
  submit_event (HealthEvent 0 0 0 host_no channel id lun no_controller 0
                  HEALTH_EVENT_SCSI_TIMEOUT 0 no_rwbs gen) st.

Definition trace_scsi_dispatch_error (host_no channel id lun rtn : Z) (st : ih_state) : ih_state :=
  let '(gen, st) := io_health_topology_generation false st in
  submit_event (HealthEvent 0 0 rtn host_no channel id lun no_controller 0
                  HEALTH_EVENT_SCSI_DISPATCH_ERROR 0 no_rwbs gen) st.

(** ** NVMe controllers *)

(** The controller field [set_nvme_controller] leaves in a zeroed event. *)
Definition set_nvme_controller (st : ih_state) (ctrl : Z) : list Z :=
  match bpf_map_lookup_elem (nvme_ctrl_names st) ctrl with
  | Some name => name
  | None => no_controller
  end.

Definition kprobe_nvme_sysfs_show_state (kr : ih_kernel) (dev : Z) (st : ih_state) : ih_state :=
  match read_nvme_controller kr dev with
  | None => st
  | Some (ctrl, name) =>
      set_names st (snd (bpf_map_update_elem (nvme_ctrl_names st) ctrl name BPF_ANY))
  end.

Definition kprobe_nvme_cdev_add (kr : ih_kernel) (pid_tgid dev : Z) (st : ih_state) : ih_state :=
  match read_nvme_controller kr dev with
  | None => st
  | Some (ctrl, name) =>
      set_cdev_calls st
        (snd (bpf_map_update_elem (nvme_cdev_calls st) pid_tgid (CdevCall ctrl name) BPF_ANY))
  end.

Definition kretprobe_nvme_cdev_add (pid_tgid rc : Z) (st : ih_state) : ih_state :=
  match bpf_map_lookup_elem (nvme_cdev_calls st) pid_tgid with
  | None => st
  | Some call =>
      let st :=
        if rc =? 0
        then set_names st
               (snd (bpf_map_update_elem (nvme_ctrl_names st) (cc_ctrl call) (cc_name call) BPF_ANY))
        else st in
      set_cdev_calls st (snd (bpf_map_delete_elem (nvme_cdev_calls st) pid_tgid))
  end.

Definition kprobe_nvme_cdev_del (kr : ih_kernel) (pid_tgid dev : Z) (st : ih_state) : ih_state :=
  match read_nvme_controller kr dev with
  | None => st
  | Some (ctrl, name) =>
      set_cdev_calls st
        (snd (bpf_map_update_elem (nvme_cdev_calls st) pid_tgid (CdevCall ctrl name) BPF_ANY))
  end.

Definition kretprobe_nvme_cdev_del (pid_tgid : Z) (st : ih_state) : ih_state :=
  match bpf_map_lookup_elem (nvme_cdev_calls st) pid_tgid with
  | None => st
  | Some call =>
      let st := set_cdev_calls st (snd (bpf_map_delete_elem (nvme_cdev_calls st) pid_tgid)) in
      set_names st (snd (bpf_map_delete_elem (nvme_ctrl_names st) (cc_ctrl call)))
  end.

Definition kprobe_nvme_timeout (kr : ih_kernel) (req : Z) (st : ih_state) : ih_state :=
  let '(gen, st) := io_health_topology_generation false st in
  if req =? 0 then st
  else submit_event (HealthEvent 0 (request_dev kr req) 0 0 0 0 0 no_controller 0
                       HEALTH_EVENT_NVME_TIMEOUT 0 no_rwbs gen) st.

Definition kprobe_nvme_reset (pid_tgid ctrl : Z) (st : ih_state) : ih_state :=
  set_reset_calls st (snd (bpf_map_update_elem (nvme_reset_calls st) pid_tgid ctrl BPF_ANY)).

Definition kretprobe_nvme_reset (pid_tgid rc : Z) (st : ih_state) : ih_state :=
  let '(gen, st) := io_health_topology_generation false st in
  match bpf_map_lookup_elem (nvme_reset_calls st) pid_tgid with
  | None => st
  | Some ctrl =>
      let st := set_reset_calls st (snd (bpf_map_delete_elem (nvme_reset_calls st) pid_tgid)) in
      if ctrue rc then st
      else
        let controller := if ctrue ctrl then set_nvme_controller st ctrl else no_controller in
        submit_event (HealthEvent 0 0 0 0 0 0 0 controller 0
                        HEALTH_EVENT_NVME_RESET 0 no_rwbs gen) st
  end.

Definition kprobe_nvme_change_state (pid_tgid ctrl new_state : Z) (st : ih_state) : ih_state :=
  if ctrue ctrl
  then set_state_calls st
         (snd (bpf_map_update_elem (nvme_state_calls st) pid_tgid (StateCall ctrl new_state) BPF_ANY))
  else st.

Definition kretprobe_nvme_change_state (pid_tgid rc : Z) (st : ih_state) : ih_state :=
  let '(gen, st) := io_health_topology_generation false st in
  match bpf_map_lookup_elem (nvme_state_calls st) pid_tgid with
  | None => st
  | Some call =>
      let st :=
        if ctrue rc
        then submit_event (HealthEvent 0 0 0 0 0 0 0 (set_nvme_controller st (sc_ctrl call))
                             (sc_new_state_raw call) HEALTH_EVENT_NVME_STATE_CHANGE 0 no_rwbs gen) st
        else st in
      set_state_calls st (snd (bpf_map_delete_elem (nvme_state_calls st) pid_tgid))
  end.

(** ** Runs *)

Inductive ih_input :=
  | DiskPublishing (kr : ih_kernel) (dev : Z)
  | DiskAdded (kr : ih_kernel) (disk : Z)
  | DiskRemoved (kr : ih_kernel) (disk : Z)
  | FreezeQueue (kr : ih_kernel) (q : Z)
  | RqError (ctx : rq_error_ctx)
  | RqComplete (kr : ih_kernel) (req arg1 : Z)
  | ScsiTimeout (host_no channel id lun : Z)
  | ScsiError (host_no channel id lun rtn : Z)
  | ShowState (kr : ih_kernel) (dev : Z)
  | CdevAdd (kr : ih_kernel) (pid dev : Z)
  | CdevAddRet (pid rc : Z)
  | CdevDel (kr : ih_kernel) (pid dev : Z)
  | CdevDelRet (pid : Z)
  | NvmeTimeout (kr : ih_kernel) (req : Z)
  | NvmeReset (pid ctrl : Z)
  | NvmeResetRet (pid rc : Z)
  | ChangeState (pid ctrl new_state : Z)
  | ChangeStateRet (pid rc : Z).

Definition ih_step (cfg : ih_config) (st : ih_state) (e : ih_input) : ih_state :=
  match e with
  | DiskPublishing kr dev => io_health_disk_publishing kr dev st
  | DiskAdded kr disk => io_health_freeze_disk_added kr disk st
  | DiskRemoved kr disk => io_health_freeze_disk_removed kr disk st
  | FreezeQueue kr q => io_health_freeze_queue kr q st
  | RqError ctx => trace_block_rq_error ctx st
  | RqComplete kr req arg1 => trace_block_rq_complete_error cfg kr req arg1 st
  | ScsiTimeout h c i l => trace_scsi_timeout h c i l st
  | ScsiError h c i l r => trace_scsi_dispatch_error h c i l r st
  | ShowState kr dev => kprobe_nvme_sysfs_show_state kr dev st
  | CdevAdd kr pid dev => kprobe_nvme_cdev_add kr pid dev st
  | CdevAddRet pid rc => kretprobe_nvme_cdev_add pid rc st
  | CdevDel kr pid dev => kprobe_nvme_cdev_del kr pid dev st
  | CdevDelRet pid => kretprobe_nvme_cdev_del pid st
  | NvmeTimeout kr req => kprobe_nvme_timeout kr req st
  | NvmeReset pid ctrl => kprobe_nvme_reset pid ctrl st
  | NvmeResetRet pid rc => kretprobe_nvme_reset pid rc st
  | ChangeState pid ctrl new => kprobe_nvme_change_state pid ctrl new st
  | ChangeStateRet pid rc => kretprobe_nvme_change_state pid rc st
  end.

Definition ih_run (cfg : ih_config) (st : ih_state) (es : list ih_input) : ih_state :=
  fold_left (ih_step cfg) es st.

End Model.

(** ** Reference notions *)

(** The device is a disk: its type is named [disk], exactly. *)
Definition is_disk_device (kr : ih_kernel) (dev : Z) : bool :=
  negb (dev =? 0) && negb (dev_type kr dev =? 0) &&
  match type_name kr (dev_type kr dev) with
  | None => false
  | Some p => bool_decide (kernel_str kr p = Some [100; 105; 115; 107])
  end.

(** The invocations that change the set of disks. *)
Definition topology_change (e : ih_input) : bool :=
  match e with
  | DiskPublishing kr dev => is_disk_device kr dev
  | DiskRemoved _ _ => true
  | _ => false
  end.

Definition topology_changes (es : list ih_input) : Z :=
  Z.of_nat (length (filter (fun e => topology_change e = true) es)).

(** The row of the freeze table an invocation counts in, resets or releases. *)
Definition freezes (k : Z) (e : ih_input) : bool :=
  match e with
  | FreezeQueue kr q =>
      match freeze_disk kr q with Some d => io_health_freeze_key kr d =? k | None => false end
  | _ => false
  end.
Definition registers (k : Z) (e : ih_input) : bool :=
  match e with DiskAdded kr d => io_health_freeze_key kr d =? k | _ => false end.
Definition removes (k : Z) (e : ih_input) : bool :=
  match e with DiskRemoved kr d => io_health_freeze_key kr d =? k | _ => false end.

Definition freeze_ref (k : Z) (row : option Z) (e : ih_input) : option Z :=
  if registers k e then Some 0
  else if removes k e then None
  else if freezes k e then Some (default 0 row +64 1)
  else row.

Section Properties.
Context {M : BpfMapOps} {L : BpfMapLaws M}.
Implicit Types (st : ih_state) (cfg : ih_config) (kr : ih_kernel) (e : ih_input).

Lemma generation_read st :
  io_health_topology_generation false st = (default 0 (io_health_topology st), st).
Proof. unfold io_health_topology_generation. destruct st as [? [g|] ? ? ? ? ?]; reflexivity. Qed.

Lemma generation_counts changed st :
  io_health_freeze_counts (snd (io_health_topology_generation changed st)) =
  io_health_freeze_counts st.
Proof. unfold io_health_topology_generation. by destruct (io_health_topology st). Qed.

Lemma publishing_disk kr dev st :
  io_health_disk_publishing kr dev st =
  if is_disk_device kr dev then snd (io_health_topology_generation true st) else st.
Proof.
  unfold io_health_disk_publishing, is_disk_device.
  destruct (dev =? 0); [done|]. destruct (dev_type kr dev =? 0); [done|]. simpl.
  destruct (type_name kr (dev_type kr dev)) as [p|]; [|done].
  destruct (kernel_str kr p) as [s|]; [|done].
  destruct s as [|a [|b [|c [|d [|x s]]]]];
    try (rewrite bool_decide_false by congruence; reflexivity).
  cbn -[Z.eqb bool_decide io_health_topology_generation].
  destruct (Z.eqb_spec a 100) as [->|]; [|by rewrite bool_decide_false by congruence].
  destruct (Z.eqb_spec b 105) as [->|]; [|by rewrite bool_decide_false by congruence].
  destruct (Z.eqb_spec c 115) as [->|]; [|by rewrite bool_decide_false by congruence].
  destruct (Z.eqb_spec d 107) as [->|]; [|by rewrite bool_decide_false by congruence].
  by rewrite bool_decide_true.
Qed.

(** Case analysis on an invocation, with the generation read out. *)
Ltac ih_unfold :=
  unfold io_health_freeze_disk_added, io_health_freeze_disk_removed, io_health_freeze_queue,
    freeze_add, trace_block_rq_error, trace_block_rq_complete_error, submit_block_error,
    trace_scsi_timeout, trace_scsi_dispatch_error, kprobe_nvme_sysfs_show_state,
    kprobe_nvme_cdev_add, kretprobe_nvme_cdev_add, kprobe_nvme_cdev_del,
    kretprobe_nvme_cdev_del, kprobe_nvme_timeout, kprobe_nvme_reset, kretprobe_nvme_reset,
    kprobe_nvme_change_state, kretprobe_nvme_change_state, submit_event;
  rewrite ?publishing_disk, ?generation_read.

Ltac ih_step_cases e :=
  destruct e; cbn [ih_step]; ih_unfold; repeat case_match; simplify_eq/=.

(** ** The topology generation *)

Lemma topology_step cfg st e g :
  io_health_topology st = Some g ->
  io_health_topology (ih_step cfg st e) = Some (if topology_change e then g +64 1 else g).
Proof.
  intros Hg. destruct e; cbn [ih_step topology_change]; ih_unfold;
    unfold io_health_topology_generation; rewrite ?Hg; repeat case_match; simplify_eq/=; congruence.
Qed.

Lemma ih_run_cons cfg st e es : ih_run cfg st (e :: es) = ih_run cfg (ih_step cfg st e) es.
Proof. reflexivity. Qed.

Lemma ih_run_app cfg st es1 es2 :
  ih_run cfg st (es1 ++ es2) = ih_run cfg (ih_run cfg st es1) es2.
Proof. apply fold_left_app. Qed.

Lemma topology_run cfg es : forall st g,
  is_u64 g -> io_health_topology st = Some g ->
  io_health_topology (ih_run cfg st es) = Some (u64 (g + topology_changes es)).
Proof.
  induction es as [|e es IH]; intros st g Hu Hg.
  - cbn. rewrite Hg. unfold topology_changes. cbn. by rewrite Z.add_0_r, u64_small.
  - rewrite ih_run_cons, (IH (ih_step cfg st e) (if topology_change e then g +64 1 else g)).
    + unfold topology_changes. rewrite filter_cons. destruct (topology_change e).
      * rewrite decide_True by done. rewrite u64_add_idemp_l. simpl. do 2 f_equal. lia.
      * by rewrite decide_False.
    + destruct (topology_change e); auto with bpf.
    + by apply topology_step.
Qed.

Lemma topology_changes_bound es : 0 <= topology_changes es <= Z.of_nat (length es).
Proof.
  unfold topology_changes. pose proof (length_filter (fun e => topology_change e = true) es). lia.
Qed.

Lemma topology_unchanged es :
  topology_changes es = 0 <-> Forall (fun e => topology_change e = false) es.
Proof.
  unfold topology_changes. induction es as [|e es IH]; [done|].
  rewrite filter_cons, Forall_cons_iff. destruct (topology_change e) eqn:E.
  - rewrite decide_True by done. split; [simpl; lia|naive_solver].
  - rewrite decide_False by congruence. tauto.
Qed.

Lemma u64_shift_zero x n : is_u64 x -> 0 <= n < 2 ^ 64 -> u64 (x + n) = x <-> n = 0.
Proof.
  unfold is_u64, u64. intros Hx Hn. split; [|intros ->; rewrite Z.add_0_r; by apply Z.mod_small].
  intros E. pose proof (Z.div_mod (x + n) (2 ^ 64)). nia.
Qed.

Lemma step_emits cfg st e :
  exists l, health_events (ih_step cfg st e) = health_events st ++ l /\
    Forall (fun ev => he_topology_generation ev = default 0 (io_health_topology st)) l /\
    (l = [] \/ topology_change e = false).
Proof.
  assert (H0 : exists l, health_events st = health_events st ++ l /\
    Forall (fun ev => he_topology_generation ev = default 0 (io_health_topology st)) l /\
    (l = [] \/ topology_change e = false)).
  { exists []. rewrite app_nil_r. auto. }
  assert (H1 : forall ev, he_topology_generation ev = default 0 (io_health_topology st) ->
    topology_change e = false ->
    exists l, health_events st ++ [ev] = health_events st ++ l /\
    Forall (fun ev => he_topology_generation ev = default 0 (io_health_topology st)) l /\
    (l = [] \/ topology_change e = false)).
  { intros ev ? ?. exists [ev]. repeat split; auto. }
  destruct e; cbn [ih_step]; ih_unfold; unfold io_health_topology_generation;
    repeat case_match; simplify_eq/=; (exact H0 || (apply H1; reflexivity)).
Qed.

(** C27: A record carries the generation of its moment: the start value plus the
    number of disks published and removed before it.  A reader that finds the
    generation unchanged concludes that no disk was published or removed since the
    record was sent, and conversely, unless 2^64 invocations passed. *)
Theorem generation_detects_replacement cfg st es1 e es2 ev g :
  io_health_topology st = Some g -> is_u64 g ->
  health_events (ih_step cfg (ih_run cfg st es1) e) =
    health_events (ih_run cfg st es1) ++ [ev] ->
  Z.of_nat (length es2) < 2 ^ 64 ->
  he_topology_generation ev = u64 (g + topology_changes es1) /\
  (io_health_topology (ih_run cfg st (es1 ++ e :: es2)) = Some (he_topology_generation ev) <->
   Forall (fun e' => topology_change e' = false) es2).
Proof.
  intros Hg Hu Hev Hlen. pose proof (topology_run cfg es1 st g Hu Hg) as H1.
  destruct (step_emits cfg (ih_run cfg st es1) e) as (l & Hl & Hall & Hch).
  rewrite Hev in Hl. apply app_inv_head in Hl as <-. apply Forall_cons_iff in Hall as [Hgen _].
  rewrite H1 in Hgen. cbn in Hgen. destruct Hch as [|Hch]; [done|].
  split; [done|]. rewrite ih_run_app, ih_run_cons.
  pose proof (topology_step cfg _ e _ H1) as H2. rewrite Hch in H2.
  pose proof (topology_run cfg es2 _ _ (u64_range _) H2) as H3.
  rewrite H3, Hgen.
  rewrite <- topology_unchanged. pose proof (topology_changes_bound es2).
  rewrite <- (u64_shift_zero _ (topology_changes es2) (u64_range (g + topology_changes es1))) by lia.
  split; congruence.
Qed.

(** ** Freeze counts *)

(** The map helpers an invocation calls for row [k] succeed (a delete may find
    no row). *)
Definition freeze_call_ok (k : Z) (st : ih_state) (e : ih_input) : bool :=
  let m := io_health_freeze_counts st in
  if registers k e then fst (bpf_map_update_elem m k 0 BPF_ANY) =? 0
  else if removes k e
  then (fst (bpf_map_delete_elem m k) =? 0) || (fst (bpf_map_delete_elem m k) =? - ENOENT)
  else if freezes k e
  then match bpf_map_lookup_elem m k with
       | Some _ => true
       | None => fst (bpf_map_update_elem m k 1 BPF_NOEXIST) =? 0
       end
  else true.

Fixpoint freeze_calls_ok (cfg : ih_config) (k : Z) (st : ih_state) (es : list ih_input) : bool :=
  match es with
  | [] => true
  | e :: es => freeze_call_ok k st e && freeze_calls_ok cfg k (ih_step cfg st e) es
  end.

Lemma freeze_frame cfg st e :
  match e with DiskAdded _ _ | DiskRemoved _ _ | FreezeQueue _ _ => True
  | _ => io_health_freeze_counts (ih_step cfg st e) = io_health_freeze_counts st end.
Proof.
  destruct e; try exact I; cbn [ih_step]; ih_unfold; unfold io_health_topology_generation;
    repeat case_match; simplify_eq/=; reflexivity.
Qed.

Lemma freeze_queue_row kr q k st :
  k <> 0 -> freeze_call_ok k st (FreezeQueue kr q) = true ->
  bpf_map_lookup_elem (io_health_freeze_counts (io_health_freeze_queue kr q st)) k =
  freeze_ref k (bpf_map_lookup_elem (io_health_freeze_counts st) k) (FreezeQueue kr q).
Proof.
  intros Hk. unfold freeze_call_ok, freeze_ref, io_health_freeze_queue, freeze_add.
  cbn [registers removes freezes]. destruct (freeze_disk kr q) as [d|]; [|done].
  set (key := io_health_freeze_key kr d). destruct (Z.eqb_spec key 0) as [E0|E0].
  - rewrite E0. by rewrite (proj2 (Z.eqb_neq 0 k)).
  - destruct (Z.eqb_spec key k) as [->|Hne].
    + destruct (bpf_map_lookup_elem (io_health_freeze_counts st) k) as [c|] eqn:El.
      * intros _. cbn. rewrite ?El. cbn. by rewrite bm_store_eq by eauto.
      * intros Hok%Z.eqb_eq. destruct (bpf_map_update_elem _ k 1 BPF_NOEXIST) as [r m'] eqn:Eu.
        cbn in Hok. subst r. cbn. change m' with (snd (0, m')). rewrite <- Eu.
        rewrite bm_update_eq; [done|by rewrite Eu].
    + intros _. destruct (bpf_map_lookup_elem (io_health_freeze_counts st) key) as [c|] eqn:El.
      * cbn. rewrite ?El. cbn. by rewrite bm_store_ne by eauto.
      * pose proof (bm_update_ne (io_health_freeze_counts st) key 1 BPF_NOEXIST k Hne) as Hu.
        destruct (bpf_map_update_elem _ key 1 BPF_NOEXIST) as [r m']. cbn in Hu.
        case_match; cbn; [done|]. case_match; cbn; [|done]. rewrite bm_store_ne; eauto.
Qed.

Lemma freeze_step cfg k st e :
  k <> 0 -> freeze_call_ok k st e = true ->
  bpf_map_lookup_elem (io_health_freeze_counts (ih_step cfg st e)) k =
  freeze_ref k (bpf_map_lookup_elem (io_health_freeze_counts st) k) e.
Proof.
  intros Hk Hok. destruct e as [| kr d | kr d | kr q | | | | | | | | | | | | | |];
    try (pose proof (freeze_frame cfg st) as Hf; match goal with
      | |- bpf_map_lookup_elem (io_health_freeze_counts (ih_step _ _ ?e)) _ = _ =>
          specialize (Hf e); cbn [freeze_ref] in *; rewrite Hf; reflexivity end).
  - cbn [ih_step]. unfold io_health_freeze_disk_added, freeze_ref. cbn [registers removes freezes].
    unfold freeze_call_ok in Hok. cbn [registers] in Hok.
    destruct (Z.eqb_spec (io_health_freeze_key kr d) k) as [->|Hne].
    + apply Z.eqb_eq in Hok. unfold ctrue. rewrite (proj2 (Z.eqb_neq k 0)) by done. cbn.
      by rewrite bm_update_eq.
    + destruct (ctrue (io_health_freeze_key kr d)); cbn; [by rewrite bm_update_ne|done].
  - cbn [ih_step]. unfold io_health_freeze_disk_removed, freeze_ref.
    cbn [registers removes freezes]. unfold freeze_call_ok in Hok. cbn [registers removes] in Hok.
    pose proof (generation_counts true st) as Hc. rewrite Hc.
    destruct (Z.eqb_spec (io_health_freeze_key kr d) k) as [->|Hne].
    + unfold ctrue. rewrite (proj2 (Z.eqb_neq k 0)) by done. cbn.
      rewrite bm_delete_done by (apply orb_true_iff in Hok as [H%Z.eqb_eq|H%Z.eqb_eq]; auto).
      by rewrite decide_True.
    + destruct (ctrue (io_health_freeze_key kr d)); cbn; [by rewrite bm_delete_ne|by rewrite Hc].
  - by apply freeze_queue_row.
Qed.

Lemma freeze_run cfg k es : forall st,
  k <> 0 -> freeze_calls_ok cfg k st es = true ->
  bpf_map_lookup_elem (io_health_freeze_counts (ih_run cfg st es)) k =
  fold_left (freeze_ref k) es (bpf_map_lookup_elem (io_health_freeze_counts st) k).
Proof.
  induction es as [|e es IH]; intros st Hk Hok; [done|].
  cbn in Hok. apply andb_true_iff in Hok as [H1 H2].
  rewrite ih_run_cons, IH by done. cbn [fold_left]. by rewrite freeze_step.
Qed.

Lemma freeze_ref_count k es : forall n row,
  is_u64 n -> Forall (fun e => registers k e = false /\ removes k e = false) es ->
  default 0 row = n ->
  fold_left (freeze_ref k) es row =
  if (length (filter (fun e => freezes k e = true) es) =? 0)%nat then row
  else Some (u64 (n + Z.of_nat (length (filter (fun e => freezes k e = true) es)))).
Proof.
  induction es as [|e es IH]; intros n row Hn Hf Hd; [done|].
  apply Forall_cons_iff in Hf as [[H1 H2] Hf]. cbn [fold_left]. rewrite filter_cons.
  unfold freeze_ref at 2. rewrite H1, H2. destruct (freezes k e) eqn:E.
  - rewrite decide_True by done. rewrite (IH (n +64 1)); [|auto with bpf|done|by rewrite Hd].
    rewrite Hd. cbn [length Nat.eqb].
    destruct (Nat.eqb_spec (length (filter (fun e => freezes k e = true) es)) 0) as [->|_];
      [done|]. rewrite u64_add_idemp_l. do 2 f_equal. lia.
  - rewrite decide_False by congruence. by rewrite (IH n).
Qed.

(** While the helpers succeed for a disk's row, the row counts the freezes of
    that disk since it was last registered or removed, whatever the other disks,
    queues and devices do: a registration starts it at zero, a removal drops it,
    and a freeze seen after a removal starts a new row. *)
Theorem freeze_row_counts_since_registration cfg k st es1 e es2 :
  k <> 0 -> registers k e = true \/ removes k e = true ->
  Forall (fun e' => registers k e' = false /\ removes k e' = false) es2 ->
  freeze_calls_ok cfg k st (es1 ++ e :: es2) = true ->
  let n := length (filter (fun e' => freezes k e' = true) es2) in
  bpf_map_lookup_elem (io_health_freeze_counts (ih_run cfg st (es1 ++ e :: es2))) k =
  if removes k e && (n =? 0)%nat then None else Some (u64 (Z.of_nat n)).
Proof.
  intros Hk He Hf Hok n. rewrite freeze_run, fold_left_app by done. cbn [fold_left].
  set (row := fold_left (freeze_ref k) es1 _).
  assert (Hr : freeze_ref k row e = if removes k e then None else Some 0).
  { unfold freeze_ref. destruct e; cbn in *; destruct He as [He|He]; try discriminate;
      by rewrite He. }
  rewrite Hr, (freeze_ref_count k es2 0); [|split; lia|done|by destruct (removes k e)].
  fold n. rewrite Z.add_0_l. destruct (removes k e); cbn; [done|].
  by destruct (Nat.eqb_spec n 0) as [->|_].
Qed.

(** ** Paired calls *)

Definition state_call_of (pid : Z) (e : ih_input) : bool :=
  match e with ChangeState p _ _ | ChangeStateRet p _ => p =? pid | _ => false end.
Definition reset_call_of (pid : Z) (e : ih_input) : bool :=
  match e with NvmeReset p _ | NvmeResetRet p _ => p =? pid | _ => false end.
Definition cdev_call_of (pid : Z) (e : ih_input) : bool :=
  match e with CdevAdd _ p _ | CdevAddRet p _ | CdevDel _ p _ | CdevDelRet p => p =? pid
  | _ => false end.

(** A call table's row of a task is left alone by every invocation that is not
    an entry or return of the observed function in that task. *)
Ltac call_frame e :=
  destruct e; cbn [ih_step state_call_of reset_call_of cdev_call_of]; intros Hpid;
  try apply Z.eqb_neq in Hpid; ih_unfold;
  unfold io_health_topology_generation; repeat case_match; simplify_eq/=;
  rewrite ?bm_update_ne, ?bm_delete_ne by done; reflexivity.

Lemma state_calls_frame cfg pid st e :
  state_call_of pid e = false ->
  bpf_map_lookup_elem (nvme_state_calls (ih_step cfg st e)) pid =
  bpf_map_lookup_elem (nvme_state_calls st) pid.
Proof. call_frame e. Qed.

Lemma reset_calls_frame cfg pid st e :
  reset_call_of pid e = false ->
  bpf_map_lookup_elem (nvme_reset_calls (ih_step cfg st e)) pid =
  bpf_map_lookup_elem (nvme_reset_calls st) pid.
Proof. call_frame e. Qed.

Lemma cdev_calls_frame cfg pid st e :
  cdev_call_of pid e = false ->
  bpf_map_lookup_elem (nvme_cdev_calls (ih_step cfg st e)) pid =
  bpf_map_lookup_elem (nvme_cdev_calls st) pid.
Proof. call_frame e. Qed.

(** A projection every step of a run preserves is preserved by the run. *)
Lemma run_frame {A} (f : ih_state -> A) (ok : ih_input -> bool) cfg es : forall st,
  (forall st e, ok e = false -> f (ih_step cfg st e) = f st) ->
  Forall (fun e => ok e = false) es -> f (ih_run cfg st es) = f st.
Proof.
  induction es as [|e es IH]; intros st Hs Hf; [done|].
  apply Forall_cons_iff in Hf as [He Hf]. rewrite ih_run_cons, IH by done. by apply Hs.
Qed.

(** The record of a finished state change. *)
Definition state_change_event (st : ih_state) (ctrl new_state : Z) : io_health_event :=
  HealthEvent 0 0 0 0 0 0 0 (set_nvme_controller st ctrl) new_state
    HEALTH_EVENT_NVME_STATE_CHANGE 0 no_rwbs (default 0 (io_health_topology st)).

Definition reset_event (st : ih_state) (ctrl : Z) : io_health_event :=
  HealthEvent 0 0 0 0 0 0 0 (if ctrue ctrl then set_nvme_controller st ctrl else no_controller) 0
    HEALTH_EVENT_NVME_RESET 0 no_rwbs (default 0 (io_health_topology st)).

(** The return of a state change reports exactly the transition its own entry
    recorded, whatever other tasks did in between, with the name and generation
    current at the return, and only if the kernel accepted the transition; after
    the record of the call is removed, a further return reports nothing. *)
Theorem state_change_reported_once cfg st pid ctrl new es rc :
  ctrl <> 0 ->
  fst (bpf_map_update_elem (nvme_state_calls st) pid (StateCall ctrl new) BPF_ANY) = 0 ->
  Forall (fun e => state_call_of pid e = false) es ->
  let st1 := ih_run cfg (ih_step cfg st (ChangeState pid ctrl new)) es in
  let st2 := ih_step cfg st1 (ChangeStateRet pid rc) in
  health_events st2 =
    health_events st1 ++ (if ctrue rc then [state_change_event st1 ctrl new] else []) /\
  (fst (bpf_map_delete_elem (nvme_state_calls st1) pid) = 0 ->
   forall es' rc', Forall (fun e => state_call_of pid e = false) es' ->
   health_events (ih_step cfg (ih_run cfg st2 es') (ChangeStateRet pid rc')) =
     health_events (ih_run cfg st2 es')).
Proof.
  intros Hc Hu Hes st1 st2.
  assert (Hl : bpf_map_lookup_elem (nvme_state_calls st1) pid = Some (StateCall ctrl new)).
  { subst st1. rewrite (run_frame (fun st => bpf_map_lookup_elem (nvme_state_calls st) pid) _ _ _ _
      (fun st e => state_calls_frame cfg pid st e) Hes).
    cbn [ih_step]. unfold kprobe_nvme_change_state, ctrue. rewrite (proj2 (Z.eqb_neq _ _) Hc).
    by apply bm_update_eq. }
  assert (H2 : st2 = set_state_calls
    (if ctrue rc then submit_event (state_change_event st1 ctrl new) st1 else st1)
    (snd (bpf_map_delete_elem (nvme_state_calls st1) pid))).
  { subst st2. cbn [ih_step]. unfold kretprobe_nvme_change_state. rewrite generation_read, Hl.
    by destruct (ctrue rc). }
  split; [rewrite H2; destruct (ctrue rc); cbn; [done|by rewrite app_nil_r]|].
  intros Hd es' rc' Hes'. cbn [ih_step]. unfold kretprobe_nvme_change_state.
  rewrite generation_read,
    (run_frame (fun st => bpf_map_lookup_elem (nvme_state_calls st) pid) _ _ _ _
      (fun st e => state_calls_frame cfg pid st e) Hes'), H2.
  cbn. by rewrite bm_delete_eq.
Qed.

(** A controller reset is reported when its call returns zero, that is when
    the work was queued, for the controller its own entry recorded, and the
    record of the call is gone in every case, rejected resets included. *)
Theorem reset_reported_when_queued cfg st pid ctrl es rc :
  fst (bpf_map_update_elem (nvme_reset_calls st) pid ctrl BPF_ANY) = 0 ->
  Forall (fun e => reset_call_of pid e = false) es ->
  let st1 := ih_run cfg (ih_step cfg st (NvmeReset pid ctrl)) es in
  let st2 := ih_step cfg st1 (NvmeResetRet pid rc) in
  health_events st2 =
    health_events st1 ++ (if ctrue rc then [] else [reset_event st1 ctrl]) /\
  (fst (bpf_map_delete_elem (nvme_reset_calls st1) pid) = 0 ->
   forall es' rc', Forall (fun e => reset_call_of pid e = false) es' ->
   health_events (ih_step cfg (ih_run cfg st2 es') (NvmeResetRet pid rc')) =
     health_events (ih_run cfg st2 es')).
Proof.
  intros Hu Hes st1 st2.
  assert (Hl : bpf_map_lookup_elem (nvme_reset_calls st1) pid = Some ctrl).
  { subst st1. rewrite (run_frame (fun st => bpf_map_lookup_elem (nvme_reset_calls st) pid) _ _ _ _
      (fun st e => reset_calls_frame cfg pid st e) Hes).
    cbn [ih_step]. by apply bm_update_eq. }
  assert (H2 : st2 =
    (if ctrue rc then fun s => s else submit_event (reset_event st1 ctrl))
      (set_reset_calls st1 (snd (bpf_map_delete_elem (nvme_reset_calls st1) pid)))).
  { subst st2. cbn [ih_step]. unfold kretprobe_nvme_reset. rewrite generation_read, Hl.
    by destruct (ctrue rc). }
  split; [rewrite H2; destruct (ctrue rc); cbn; [by rewrite app_nil_r|done]|].
  intros Hd es' rc' Hes'. cbn [ih_step]. unfold kretprobe_nvme_reset.
  rewrite generation_read,
    (run_frame (fun st => bpf_map_lookup_elem (nvme_reset_calls st) pid) _ _ _ _
      (fun st e => reset_calls_frame cfg pid st e) Hes'), H2.
  destruct (ctrue rc); cbn; by rewrite bm_delete_eq.
Qed.

(** ** Controller names *)

(** The device an invocation reads a controller from. *)
Definition reads_controller (e : ih_input) : option (Z * list Z) :=
  match e with
  | ShowState kr dev | CdevAdd kr _ dev | CdevDel kr _ dev => read_nvme_controller kr dev
  | _ => None
  end.

Definition learned (es : list ih_input) (ctrl : Z) (name : list Z) : Prop :=
  exists e, e ∈ es /\ reads_controller e = Some (ctrl, name).

Lemma learned_app es1 es2 c n : learned es1 c n \/ learned es2 c n -> learned (es1 ++ es2) c n.
Proof. intros [(e & ? & ?)|(e & ? & ?)]; exists e; rewrite elem_of_app; auto. Qed.

Lemma read_str_terminated size src :
  (0 < size)%nat ->
  length (snd (bpf_probe_read_str size src)) = size /\
  snd (bpf_probe_read_str size src) !! (size - 1)%nat = Some 0.
Proof.
  intros Hs. unfold bpf_probe_read_str. destruct src as [l|]; cbn.
  - pose proof (length_take l (size - 1)). split.
    + rewrite length_app, length_replicate. lia.
    + rewrite lookup_app_r by lia. apply lookup_replicate. split; [done|lia].
  - rewrite length_replicate. split; [done|]. apply lookup_replicate. split; [done|lia].
Qed.

(** A name is sixteen bytes with a terminating NUL. *)
Lemma controller_name_terminated kr dev c n :
  read_nvme_controller kr dev = Some (c, n) ->
  c = dev_driver_data kr dev /\ c <> 0 /\ length n = 16%nat /\ n !! 15%nat = Some 0.
Proof.
  unfold read_nvme_controller. intros H. destruct (dev =? 0); [done|].
  destruct (dev_class kr dev =? 0); [done|]. destruct (class_name kr _ =? 0); [done|].
  destruct (bpf_probe_read_str 5 _) as [len cname]. destruct (negb (len =? 5)); [done|].
  destruct (_ || ctrue _); [done|].
  destruct (Z.eqb_spec (dev_driver_data kr dev) 0); [done|].
  destruct (dev_kobj_name kr dev =? 0); [done|]. cbn [orb] in H.
  pose proof (read_str_terminated IO_HEALTH_CONTROLLER_NAME_LEN
    (kernel_str kr (dev_kobj_name kr dev)) ltac:(cbv; lia)) as Hn.
  destruct (bpf_probe_read_str IO_HEALTH_CONTROLLER_NAME_LEN _) as [nlen name].
  destruct (1 <? nlen); simplify_eq. auto.
Qed.

Record names_inv (es : list ih_input) (st : ih_state) : Prop := {
  ni_names : forall c n, bpf_map_lookup_elem (nvme_ctrl_names st) c = Some n -> learned es c n;
  ni_calls : forall p call, bpf_map_lookup_elem (nvme_cdev_calls st) p = Some call ->
    learned es (cc_ctrl call) (cc_name call);
  ni_events : forall ev, ev ∈ health_events st ->
    he_controller ev = no_controller \/ exists c, learned es c (he_controller ev);
}.

Lemma names_inv_weaken es es' st : names_inv es st -> names_inv (es ++ es') st.
Proof.
  intros [Hn Hc He]. split.
  - intros. apply learned_app. eauto.
  - intros. apply learned_app. eauto.
  - intros ev Hev. destruct (He ev Hev) as [|[c ?]]; [auto|]. right. exists c.
    apply learned_app. auto.
Qed.

Lemma lookup_update_any {V} (m : hmap Z V) k v k' v' :
  bpf_map_lookup_elem (snd (bpf_map_update_elem m k v BPF_ANY)) k' = Some v' ->
  v' = v /\ k' = k \/ bpf_map_lookup_elem m k' = Some v'.
Proof.
  destruct (Z.eq_dec (fst (bpf_map_update_elem m k v BPF_ANY)) 0).
  - rewrite update_ok by done. case_decide; naive_solver.
  - rewrite update_err by done. auto.
Qed.

Lemma names_event es st ev :
  names_inv es st ->
  he_controller ev = no_controller \/ (exists c, he_controller ev = set_nvme_controller st c) ->
  names_inv es (submit_event ev st).
Proof.
  intros [Hn Hc He] Hev. split; [done|done|]. cbn. intros ev' Hin. apply elem_of_app in Hin as [Hin|Hin]; [auto|].
  apply list_elem_of_singleton in Hin as ->. destruct Hev as [|[c Hcn]]; [auto|]. unfold set_nvme_controller in Hcn.
  destruct (bpf_map_lookup_elem (nvme_ctrl_names st) c) eqn:E; [|auto].
  right. exists c. rewrite Hcn. auto.
Qed.

Lemma names_set_names es st c n :
  learned es c n -> names_inv es st ->
  names_inv es (set_names st (snd (bpf_map_update_elem (nvme_ctrl_names st) c n BPF_ANY))).
Proof.
  intros Hl [Hn Hc He]. split; [|done|done]. cbn.
  intros c' n' [[-> ->]|?]%lookup_update_any; auto.
Qed.

Lemma names_set_call es st p c n :
  learned es c n -> names_inv es st ->
  names_inv es
    (set_cdev_calls st (snd (bpf_map_update_elem (nvme_cdev_calls st) p (CdevCall c n) BPF_ANY))).
Proof.
  intros Hl [Hn Hc He]. split; [done| |done]. cbn.
  intros p' call [[-> ->]|?]%lookup_update_any; auto. eauto.
Qed.

Lemma names_delete_call es st m p :
  m = nvme_cdev_calls st -> names_inv es st ->
  names_inv es (set_cdev_calls st (snd (bpf_map_delete_elem m p))).
Proof. intros -> [Hn Hc He]. split; [done| |done]. cbn. intros ? ? ?%bm_delete_sub. eauto. Qed.

Lemma names_delete_name es st m c :
  m = nvme_ctrl_names st -> names_inv es st ->
  names_inv es (set_names st (snd (bpf_map_delete_elem m c))).
Proof. intros -> [Hn Hc He]. split; [|done|done]. cbn. intros ? ? ?%bm_delete_sub. eauto. Qed.

Lemma names_set_freeze es st x : names_inv es st -> names_inv es (set_freeze st x).
Proof. by intros []. Qed.
Lemma names_set_topology es st x : names_inv es st -> names_inv es (set_topology st x).
Proof. by intros []. Qed.
Lemma names_set_state_calls es st x : names_inv es st -> names_inv es (set_state_calls st x).
Proof. by intros []. Qed.
Lemma names_set_reset_calls es st x : names_inv es st -> names_inv es (set_reset_calls st x).
Proof. by intros []. Qed.

#[local] Hint Resolve names_set_freeze names_set_topology names_set_state_calls
  names_set_reset_calls names_set_names names_set_call names_delete_call names_delete_name
  names_event ni_calls : health_names.

Lemma names_step cfg es st e :
  names_inv es st -> names_inv (es ++ [e]) (ih_step cfg st e).
Proof.
  intros Hi%(names_inv_weaken _ [e]).
  assert (Hr : forall c n, reads_controller e = Some (c, n) -> learned (es ++ [e]) c n).
  { intros c n H. exists e. rewrite elem_of_app, list_elem_of_singleton. auto. }
  destruct e; cbn [ih_step reads_controller] in *;
    unfold io_health_freeze_disk_added, io_health_freeze_disk_removed, io_health_freeze_queue,
    freeze_add, trace_block_rq_error, trace_block_rq_complete_error, submit_block_error,
    trace_scsi_timeout, trace_scsi_dispatch_error, kprobe_nvme_sysfs_show_state,
    kprobe_nvme_cdev_add, kretprobe_nvme_cdev_add, kprobe_nvme_cdev_del,
    kretprobe_nvme_cdev_del, kprobe_nvme_timeout, kprobe_nvme_reset, kretprobe_nvme_reset,
    kprobe_nvme_change_state, kretprobe_nvme_change_state;
    rewrite ?publishing_disk, ?generation_read; unfold io_health_topology_generation;
    repeat case_match; simplify_eq/=;
    eauto 8 with health_names.
Qed.

Lemma names_run cfg es : forall pre st,
  names_inv pre st -> names_inv (pre ++ es) (ih_run cfg st es).
Proof.
  induction es as [|e es IH]; intros pre st Hi; [by rewrite app_nil_r|].
  rewrite ih_run_cons. replace (pre ++ e :: es) with ((pre ++ [e]) ++ es) by by rewrite <- app_assoc.
  by apply IH, names_step.
Qed.

(** Started with empty tables, every controller name in a record is empty or
    was read during the run from an NVMe device, under the pointer that device
    holds, as sixteen NUL-terminated bytes; stale or foreign bytes never appear. *)
Theorem controller_names_authentic cfg es st ev :
  (forall c, bpf_map_lookup_elem (nvme_ctrl_names st) c = None) ->
  (forall p, bpf_map_lookup_elem (nvme_cdev_calls st) p = None) ->
  health_events st = [] ->
  ev ∈ health_events (ih_run cfg st es) ->
  length (he_controller ev) = 16%nat /\ he_controller ev !! 15%nat = Some 0 /\
  (he_controller ev = no_controller \/
   exists e ctrl, e ∈ es /\ reads_controller e = Some (ctrl, he_controller ev)).
Proof.
  intros Hn Hc He Hev.
  assert (Hi : names_inv [] st).
  { split; [intros; congruence|intros; congruence|]. rewrite He. by intros ? ?%elem_of_nil. }
  apply (names_run cfg es) in Hi. destruct (ni_events _ _ Hi ev Hev) as [E|(c & e & Hin & Hr)].
  - rewrite E. auto.
  - cbn in Hin. assert (Ht : length (he_controller ev) = 16%nat /\ he_controller ev !! 15%nat = Some 0).
    { destruct e; cbn in Hr; try discriminate;
        apply controller_name_terminated in Hr; tauto. }
    destruct Ht. eauto 8.
Qed.

(** The name of [ctrl] stays absent while no invocation reads [ctrl] and no
    pending character device call is about it. *)
Lemma name_stays_absent cfg ctrl es : forall st,
  bpf_map_lookup_elem (nvme_ctrl_names st) ctrl = None ->
  (forall p call, bpf_map_lookup_elem (nvme_cdev_calls st) p = Some call -> cc_ctrl call <> ctrl) ->
  Forall (fun e => forall name, reads_controller e <> Some (ctrl, name)) es ->
  bpf_map_lookup_elem (nvme_ctrl_names (ih_run cfg st es)) ctrl = None.
Proof.
  induction es as [|e es IH]; intros st Hn Hc Hf; [done|].
  apply Forall_cons_iff in Hf as [He Hf]. rewrite ih_run_cons. apply IH; [| |done].
  - destruct e; cbn [ih_step reads_controller] in *; ih_unfold;
      unfold io_health_topology_generation; repeat case_match; simplify_eq/=;
      try rewrite bm_update_ne; try done; try (by eapply Hc); try (by intros ->; eapply He).
    destruct (bpf_map_lookup_elem (snd (bpf_map_delete_elem _ _)) ctrl) eqn:E; [|done].
    apply bm_delete_sub in E. congruence.
  - destruct e; cbn [ih_step reads_controller] in *; ih_unfold;
      unfold io_health_topology_generation; repeat case_match; simplify_eq/=;
      try done; intros p' call' H'; try apply bm_delete_sub in H'; try (by eapply Hc);
      apply lookup_update_any in H' as [[-> ->]|H']; try (by eapply Hc);
      cbn; intros ->; by eapply He.
Qed.

(** When a controller's character device is deleted, its name is forgotten at
    the return, whatever other tasks did since the entry; every other name stays;
    and resets and state changes of a controller that later reuses the pointer
    carry no name until one is read for it again. *)
Theorem deleted_controller_forgotten cfg st kr pid dev ctrl name es :
  read_nvme_controller kr dev = Some (ctrl, name) ->
  fst (bpf_map_update_elem (nvme_cdev_calls st) pid (CdevCall ctrl name) BPF_ANY) = 0 ->
  Forall (fun e => cdev_call_of pid e = false) es ->
  let st1 := ih_run cfg (ih_step cfg st (CdevDel kr pid dev)) es in
  let st2 := ih_step cfg st1 (CdevDelRet pid) in
  fst (bpf_map_delete_elem (nvme_ctrl_names st1) ctrl) = 0 \/
    fst (bpf_map_delete_elem (nvme_ctrl_names st1) ctrl) = - ENOENT ->
  (forall p call, bpf_map_lookup_elem (nvme_cdev_calls st2) p = Some call -> cc_ctrl call <> ctrl) ->
  (forall c, c <> ctrl -> bpf_map_lookup_elem (nvme_ctrl_names st2) c =
                          bpf_map_lookup_elem (nvme_ctrl_names st1) c) /\
  forall es', Forall (fun e => forall n, reads_controller e <> Some (ctrl, n)) es' ->
    set_nvme_controller (ih_run cfg st2 es') ctrl = no_controller.
Proof.
  intros Hr Hu Hes st1 st2 Hd Hc.
  assert (Hl : bpf_map_lookup_elem (nvme_cdev_calls st1) pid = Some (CdevCall ctrl name)).
  { subst st1. rewrite (run_frame (fun st => bpf_map_lookup_elem (nvme_cdev_calls st) pid) _ _ _ _
      (fun st e => cdev_calls_frame cfg pid st e) Hes).
    cbn [ih_step]. unfold kprobe_nvme_cdev_del. rewrite Hr. by apply bm_update_eq. }
  assert (Hn : nvme_ctrl_names st2 = snd (bpf_map_delete_elem (nvme_ctrl_names st1) ctrl)).
  { subst st2. cbn [ih_step]. unfold kretprobe_nvme_cdev_del. by rewrite Hl. }
  split.
  - intros c Hne. rewrite Hn. by apply bm_delete_ne.
  - intros es' Hf. unfold set_nvme_controller. rewrite name_stays_absent; [done| |done|done].
    rewrite Hn, bm_delete_done by done. by rewrite decide_True.
Qed.

(** ** Block error codes *)

(** The kernel's [blk_errors] array as user space located it. *)
Definition errno_table_at (cfg : ih_config) (kr : ih_kernel) (table : list Z) : Prop :=
  io_health_blk_errors_addr cfg <> 0 /\
  io_health_blk_errors_count cfg = Z.of_nat (length table) /\
  forall i err, table !! i = Some err ->
    kernel_s32 kr (io_health_blk_errors_addr cfg +64
                   u64 (Z.of_nat i * io_health_blk_errors_stride cfg)) = Some err.

Lemma errno_prefix_table cfg kr table :
  errno_table_at cfg kr table -> forall prefix i,
  (forall j p, prefix !! j = Some p -> table !! (i + j)%nat = Some p) ->
  errno_prefix_ok kr (io_health_blk_errors_addr cfg) (io_health_blk_errors_stride cfg)
    (Z.of_nat i) prefix = true.
Proof.
  intros (_ & _ & Ht) ps. induction ps as [|p ps IH]; intros i Hp; [done|].
  cbn [errno_prefix_ok]. rewrite (Ht i p) by (rewrite <- (Nat.add_0_r i); by apply Hp).
  rewrite Z.eqb_refl. cbn. replace (Z.of_nat i + 1) with (Z.of_nat (S i)) by lia.
  apply IH. intros j q Hj. replace (S i + j)%nat with (i + S j)%nat by lia. by apply Hp.
Qed.

Lemma block_errno_range cfg kr status :
  io_health_block_errno cfg kr status = status \/
  (0 < status /\ io_health_block_errno cfg kr status < 0).
Proof.
  unfold io_health_block_errno. destruct (Z.leb_spec status 0); [auto|]. cbn [orb].
  repeat case_match; zify_bools; auto with lia.
Qed.

Lemma block_errno_table cfg kr table status err :
  errno_table_at cfg kr table ->
  (forall j p, errno_prefix !! j = Some p -> table !! j = Some p) ->
  0 < status < 2 ^ 31 -> table !! Z.to_nat status = Some err -> err < 0 ->
  io_health_block_errno cfg kr status = err.
Proof.
  intros Ht Hp Hs Hi Herr. pose proof (errno_prefix_table cfg kr table Ht errno_prefix 0 Hp) as Hok.
  change (Z.of_nat 0) with 0 in Hok.
  destruct Ht as (Hb & Hc & Ht). pose proof (lookup_lt_Some _ _ _ Hi).
  specialize (Ht _ _ Hi). rewrite Z2Nat.id in Ht by lia.
  unfold io_health_block_errno. rewrite Hok.
  rewrite (u32_small status), (u64_small status) by (unfold is_u32, is_u64; lia). rewrite Ht, Hc.
  rewrite (proj2 (Z.leb_gt _ _)), (proj2 (Z.eqb_neq _ _) Hb), (proj2 (Z.leb_gt _ _)) by lia.
  cbn. by rewrite (proj2 (Z.leb_gt _ _)) by lia.
Qed.

(** A failed completion is never reported as a success, and where the kernel's
    table was located the record carries the errno the kernel itself uses for the
    status; passthrough and quiet requests, requests without a bio and successful
    completions are not reported. *)
Theorem completion_error_reported cfg kr table req arg1 st :
  errno_table_at cfg kr table ->
  (forall j p, errno_prefix !! j = Some p -> table !! j = Some p) ->
  let status := s32 arg1 in
  let op := Z.land (rq_cmd_flags kr req) REQ_OP_MASK in
  let reported := status <> 0 /\ req <> 0 /\ rq_bio kr req <> 0 /\
    op ∉ [REQ_OP_SCSI_IN; REQ_OP_SCSI_OUT; REQ_OP_DRV_IN; REQ_OP_DRV_OUT] /\
    Z.land (u32 (rq_flags kr req)) (io_health_rqf_quiet_mask cfg) = 0 in
  let st' := ih_step cfg st (RqComplete kr req arg1) in
  (reported -> exists ev, health_events st' = health_events st ++ [ev] /\
     he_dev ev = request_dev kr req /\ he_sector ev = rq_sector kr req /\
     he_topology_generation ev = default 0 (io_health_topology st) /\ he_status ev <> 0 /\
     (forall err, 0 < status -> table !! Z.to_nat status = Some err -> err < 0 ->
                  he_status ev = err)) /\
  (~ reported -> st' = st).
Proof.
  intros Ht Hp status op reported st'. subst st'. cbn [ih_step].
  unfold trace_block_rq_complete_error, submit_block_error. fold status op.
  rewrite generation_read.
  destruct (Z.eqb_spec status 0) as [|H1]; [split; [unfold reported; tauto|done]|].
  destruct (Z.eqb_spec req 0) as [|H2]; [split; [unfold reported; tauto|done]|]. cbn [orb].
  destruct (Z.eqb_spec (rq_bio kr req) 0) as [|H3]; [split; [unfold reported; tauto|done]|].
  destruct (_ || _) eqn:Hop.
  { split; [|done]. intros (_ & _ & _ & Hn & _). exfalso. apply Hn.
    rewrite !orb_true_iff, !Z.eqb_eq in Hop. set_solver. }
  unfold ctrue. destruct (Z.eqb_spec (Z.land (u32 (rq_flags kr req)) (io_health_rqf_quiet_mask cfg)) 0);
    cbn [negb]; [|split; [unfold reported; tauto|done]].
  split.
  - intros _. eexists. repeat split; [|].
    + cbn. destruct (block_errno_range cfg kr status) as [->|]; [done|lia].
    + cbn. intros err Hpos Hi Herr. apply (block_errno_table _ _ table); auto.
      pose proof (s32_range arg1). subst status. lia.
  - intros Hn. exfalso. apply Hn. unfold reported. repeat split; try done.
    rewrite !orb_false_iff, !Z.eqb_neq in Hop. set_solver.
Qed.

End Properties.

(** ** Concrete runs *)

(** Disk 1 is [sda] (8:0), disk 2 is [vda] (254:0), queue 3 serves disk 1; device
    5 is the NVMe controller [nvme0] at pointer 100, device 9 a namespace device
    of class [nvme-generic]; request 20 is a write on disk 1; the error table is at
    address 4096 with 8-byte entries. *)
Definition sample_kernel : ih_kernel := {|
  dev_type := fun d => if d =? 11 then 12 else 0;
  type_name := fun _ => Some 13;
  kernel_str := fun p =>
    if p =? 13 then Some [100; 105; 115; 107]
    else if p =? 7 then Some [110; 118; 109; 101]
    else if p =? 8 then Some [110; 118; 109; 101; 48]
    else if p =? 17 then Some [110; 118; 109; 101; 45; 103; 101; 110; 101; 114; 105; 99]
    else None;
  disk_name := fun d =>
    if d =? 1 then Some [115; 100; 97; 0; 0] else if d =? 2 then Some [118; 100; 97; 0; 0] else None;
  disk_major := fun d => if d =? 1 then 8 else 254;
  disk_first_minor := fun _ => 0;
  queue_has_disk := true;
  queue_disk := fun q => if q =? 3 then 1 else 2;
  queue_kobj_parent := fun _ => 0;
  device_kobj_offset := 0;
  gendisk_device_offset := 0;
  request_has_disk := true;
  rq_disk := fun _ => 1;
  rq_queue := fun _ => 3;
  rq_sector := fun _ => 2048;
  rq_cmd_flags := fun _ => 1;
  rq_bio := fun _ => 77;
  rq_flags := fun _ => 0;
  kernel_s32 := fun a =>
    if (4096 <=? a) && (a <? 4136) then [0; -95; -110; -28; -5] !! Z.to_nat ((a - 4096) / 8)
    else None;
  dev_class := fun d => if d =? 5 then 6 else if d =? 9 then 16 else 0;
  class_name := fun c => if c =? 6 then 7 else 17;
  dev_driver_data := fun _ => 100;
  dev_kobj_name := fun _ => 8;
|}.

Definition sample_config : ih_config := IhConfig 2048 4096 8 5.

Definition empty_table {V} : faulty_hash Z V := FaultyHash ∅ 8 [].

Definition sample_start : ih_state :=
  IhState (M := faulty_ops) empty_table (Some 0) empty_table empty_table empty_table empty_table [].

Lemma generation_detects_replacement_witness :
  io_health_topology (ih_run sample_config sample_start
    ([DiskPublishing sample_kernel 11] ++ ScsiTimeout 0 0 1 0 :: [ScsiTimeout 0 0 2 0])) = Some 1 <->
  Forall (fun e' => topology_change e' = false) [ScsiTimeout 0 0 2 0].
Proof.
  exact (proj2 (generation_detects_replacement sample_config sample_start
    [DiskPublishing sample_kernel 11] (ScsiTimeout 0 0 1 0) [ScsiTimeout 0 0 2 0]
    (HealthEvent 0 0 0 0 0 1 0 no_controller 0 HEALTH_EVENT_SCSI_TIMEOUT 0 no_rwbs 1) 0
    eq_refl (conj (Z.le_refl 0) eq_refl) eq_refl eq_refl)).
Defined.

Lemma freeze_row_counts_since_registration_witness :
  bpf_map_lookup_elem (io_health_freeze_counts (ih_run sample_config sample_start
    ([FreezeQueue sample_kernel 3] ++ DiskAdded sample_kernel 1 ::
     [FreezeQueue sample_kernel 3; FreezeQueue sample_kernel 4; FreezeQueue sample_kernel 3])))
    (8 * 2 ^ 32) = Some 2.
Proof.
  apply (freeze_row_counts_since_registration sample_config (8 * 2 ^ 32) sample_start
    [FreezeQueue sample_kernel 3] (DiskAdded sample_kernel 1)
    [FreezeQueue sample_kernel 3; FreezeQueue sample_kernel 4; FreezeQueue sample_kernel 3]).
  - done.
  - left. vm_compute. reflexivity.
  - repeat constructor.
  - vm_compute. reflexivity.
Defined.

Lemma state_change_reported_once_witness :
  health_events (ih_run sample_config sample_start
    [ShowState sample_kernel 5; ChangeState 1 100 3; ChangeState 2 100 4; ChangeStateRet 1 1]) =
  [HealthEvent 0 0 0 0 0 0 0 [110; 118; 109; 101; 48; 0; 0; 0; 0; 0; 0; 0; 0; 0; 0; 0] 3
     HEALTH_EVENT_NVME_STATE_CHANGE 0 no_rwbs 0].
Proof.
  apply (proj1 (state_change_reported_once sample_config
    (ih_step sample_config sample_start (ShowState sample_kernel 5)) 1 100 3
    [ChangeState 2 100 4] 1 ltac:(done) eq_refl ltac:(repeat constructor))).
Defined.

Lemma reset_reported_when_queued_witness :
  health_events (ih_run sample_config sample_start
    [ShowState sample_kernel 5; NvmeReset 1 100; NvmeReset 2 200; NvmeResetRet 1 0]) =
  [HealthEvent 0 0 0 0 0 0 0 [110; 118; 109; 101; 48; 0; 0; 0; 0; 0; 0; 0; 0; 0; 0; 0] 0
     HEALTH_EVENT_NVME_RESET 0 no_rwbs 0].
Proof.
  apply (proj1 (reset_reported_when_queued sample_config
    (ih_step sample_config sample_start (ShowState sample_kernel 5)) 1 100
    [NvmeReset 2 200] 0 eq_refl ltac:(repeat constructor))).
Defined.

Lemma controller_names_authentic_witness :
  length (he_controller (reset_event (ih_step sample_config sample_start
    (ShowState sample_kernel 5)) 100)) = 16%nat.
Proof.
  apply (controller_names_authentic sample_config
    [ShowState sample_kernel 5; NvmeReset 1 100; NvmeResetRet 1 0] sample_start).
  - intros c. apply lookup_empty.
  - intros c. apply lookup_empty.
  - reflexivity.
  - apply list_elem_of_singleton. reflexivity.
Defined.

Lemma deleted_controller_forgotten_witness :
  set_nvme_controller (ih_run sample_config sample_start
    [ShowState sample_kernel 5; CdevDel sample_kernel 1 5; NvmeReset 2 100; CdevDelRet 1;
     NvmeReset 1 100]) 100 = no_controller.
Proof.
  refine (proj2 (deleted_controller_forgotten sample_config
    (ih_step sample_config sample_start (ShowState sample_kernel 5)) sample_kernel 1 5 100
    [110; 118; 109; 101; 48; 0; 0; 0; 0; 0; 0; 0; 0; 0; 0; 0] [NvmeReset 2 100]
    eq_refl eq_refl ltac:(repeat constructor) (or_introl eq_refl) _) [NvmeReset 1 100] _).
  - intros p call H. exfalso. vm_compute in H. destruct p; discriminate.
  - repeat constructor. discriminate.
Defined.

Lemma completion_error_reported_witness :
  exists ev, health_events (ih_step sample_config sample_start (RqComplete sample_kernel 20 4)) = [ev] /\
    he_status ev = -5.
Proof.
  destruct (proj1 (completion_error_reported sample_config sample_kernel [0; -95; -110; -28; -5]
    20 4 sample_start ltac:(split; [done|split; [done|]];
      intros [|[|[|[|[|i]]]]] err Hi; simplify_eq/=; reflexivity)
    ltac:(intros [|[|[|[|j]]]] q Hj; simplify_eq/=; reflexivity)))
    as (ev & Hev & _ & _ & _ & _ & Herr).
  - repeat split; try done. cbn. set_solver by lia.
  - exists ev. split; [exact Hev|]. by apply Herr.
Defined.

(** The class buffer has five bytes, so every class whose name starts with
    [nvme] is read as [nvme] with its NUL: the test of the fifth byte can not
    reject a longer name. *)
Lemma longer_class_accepted :
  read_nvme_controller sample_kernel 9 =
  Some (100, [110; 118; 109; 101; 48; 0; 0; 0; 0; 0; 0; 0; 0; 0; 0; 0]).
Proof. reflexivity. Qed.

(** A freeze seen after the removal of its disk leaves a row behind. *)
Lemma freeze_after_removal_leaves_row :
  bpf_map_lookup_elem (io_health_freeze_counts (ih_run sample_config sample_start
    [DiskAdded sample_kernel 1; DiskRemoved sample_kernel 1; FreezeQueue sample_kernel 3]))
    (8 * 2 ^ 32) = Some 1.
Proof. reflexivity. Qed.

End IoHealth.
