(* ===== verification/IoTracing.v ===== *)
(** * IO tracing ([bpf/iotracing.c], [bpf/include/abi/iotracing_types.h])

    A capture attributes IO to files.  File hooks count the bytes a process asks
    for in the row of the file (device and inode); block hooks remember each
    issued request by device and sector and, when it completes, add its bytes and
    latencies to the row of the file behind it; tasks that sleep too long for IO
    are reported with their stack.  Module [IoTracing] models every program.  A
    pointer into [io_source_map] is the key it was found under. *)

From Stdlib Require Import ZArith Lia.
From stdpp Require Import base option list gmap tactics countable.
From S2P Require Import Prelude BpfMap KernelStr.

Local Open Scope Z_scope.
Local Open Scope bpf_scope.

Module IoTracing.

(** ** Constants and records *)

Definition FILEPATH_MAX_DEPTH : nat := 8.
Definition DNAME_INLINE_LEN : nat := 32.
Definition PAGE_SIZE : Z := 4096.
Definition FILTER_DEV_MAX : nat := 16.
Definition REQ_OP_BITS : Z := 8.
Definition REQ_OP_MASK : Z := Z.shiftl 1 REQ_OP_BITS - 1.
Definition REQ_META : Z := Z.shiftl 1 12.
(** Enumerators of the kernel's request operations. *)
Definition REQ_OP_READ : Z := 0.
Definition REQ_OP_WRITE : Z := 1.
Definition TASK_COMM_LEN : nat := 16.

Record latency_info := LatencyInfo {
  cnt : Z;
  max_d2c : Z;
  sum_d2c : Z;
  max_q2c : Z;
  sum_q2c : Z;
}.
Definition zero_latency : latency_info := LatencyInfo 0 0 0 0 0.

Record io_key := IoKey { key_tgid : Z; key_dev : Z; key_inode : Z }.
Record hash_key := HashKey { hk_dev : Z; hk_sector : Z }.

#[export] Instance io_key_eq_dec : EqDecision io_key.
Proof. solve_decision. Defined.
#[export] Instance io_key_countable : Countable io_key.
Proof.
  refine (inj_countable' (fun k => (key_tgid k, key_dev k, key_inode k))
    (fun p => IoKey (p.1.1) (p.1.2) (p.2)) _). by intros [].
Defined.
#[export] Instance hash_key_eq_dec : EqDecision hash_key.
Proof. solve_decision. Defined.
#[export] Instance hash_key_countable : Countable hash_key.
Proof.
  refine (inj_countable' (fun k => (hk_dev k, hk_sector k)) (fun p => HashKey (p.1) (p.2)) _).
  by intros [].
Defined.

Record io_start_info := StartInfo {
  si_inode : Z;
  si_tgid : Z;
  si_dev : Z;
  si_data_len : Z;
  si_bi_blkg : Z;
  si_comm : list Z;
}.

Record io_data := IoData {
  tgid : Z;
  path_initialized : Z;
  dev : Z;
  flag : Z;
  fs_write_bytes : Z;
  fs_read_bytes : Z;
  block_write_bytes : Z;
  block_read_bytes : Z;
  inode : Z;
  blkcg_gq : Z;
  latency : latency_info;
  comm : list Z;
  filepath : list (list Z);
}.
Definition zero_comm : list Z := replicate TASK_COMM_LEN 0.
Definition zero_filepath : list (list Z) :=
  replicate FILEPATH_MAX_DEPTH (replicate DNAME_INLINE_LEN 0).
Definition zero_io_data : io_data :=
  IoData 0 0 0 0 0 0 0 0 0 0 zero_latency zero_comm zero_filepath.

Record iotracing_schedule_delay_event := DelayEvent {
  de_stack : list Z;
  de_start_ns : Z;
  de_duration_ns : Z;
  de_stack_size : Z;
  de_tgid : Z;
  de_tid : Z;
  de_cpu : Z;
  de_comm : list Z;
}.

Record it_config := ItConfig {
  FILTER_DEV_IDS : list Z;
  FILTER_DEV_COUNT : Z;
  FILTER_EVENT_TIMEOUT : Z;
  REQUEST_PART_BLOCK_DEVICE : bool;
}.

(** Kernel reads.  Memory behind [file] and [inode] objects is read by address
    ([readable a n]: the [n] bytes at [a] can be read), because the program
    fetches two fields at once when their distance allows it. *)
Record it_kernel := ItKernel {
  rq_bio : Z -> Z;
  rq_cmd_flags : Z -> Z;
  rq_part : Z -> option Z;
  hd_struct_devt : Z -> option Z;
  bdev_bd_dev : Z -> option Z;
  rq_sector : Z -> Z;
  rq_data_len : Z -> Z;
  rq_start_time_ns : Z -> Z;
  rq_io_start_time_ns : Z -> Z;
  bio_page_inode : Z -> Z;               (* bi_io_vec->bv_page->mapping->host *)
  bio_blkg : Z -> Z;
  inode_rdev : Z -> Z;
  sb_s_dev : Z -> Z;
  iocb_filp : Z -> Z;
  iter_count : Z -> Z;
  vmf_vma : Z -> Z;
  vma_file : Z -> Z;
  file_dentry : Z -> Z;
  dentry_name : Z -> option (list Z);
  dentry_parent : Z -> Z;
  off_f_inode : Z;
  off_f_flags : Z;
  off_i_sb : Z;
  off_i_ino : Z;
  readable : Z -> Z -> bool;
  ld32 : Z -> Z;
  ld64 : Z -> Z;
}.

(** The running task and the clock. *)
Record task_ctx := TaskCtx {
  pid_tgid : Z;
  now : Z;
  cpu : Z;
  current_comm : list Z;
  stack : list Z;
  stack_size : Z;
}.

Definition read64 (kr : it_kernel) (a : Z) : Z := if readable kr a 8 then ld64 kr a else 0.
Definition read32 (kr : it_kernel) (a : Z) : Z := if readable kr a 4 then ld32 kr a else 0.

Definition file_inode (kr : it_kernel) (file : Z) : Z := read64 kr (file +64 off_f_inode kr).
Definition file_flags (kr : it_kernel) (file : Z) : Z := read32 kr (file +64 off_f_flags kr).
Definition inode_sb (kr : it_kernel) (ino : Z) : Z := read64 kr (ino +64 off_i_sb kr).
Definition inode_ino (kr : it_kernel) (ino : Z) : Z := read64 kr (ino +64 off_i_ino kr).
Definition inode_s_dev (kr : it_kernel) (ino : Z) : Z := sb_s_dev kr (inode_sb kr ino).

(** ** Filters and helpers *)

(** The loop over the device list, at most [FILTER_DEV_MAX] rounds. *)
Fixpoint dev_listed (ids : list Z) (count dev : Z) (rounds i : nat) : bool :=
  match rounds with
  | O => false
  | S rounds =>
      if Z.of_nat i <? count
      then if default 0 (ids !! i) =? dev then true else dev_listed ids count dev rounds (S i)
      else false
  end.

Definition should_process_device (cfg : it_config) (dev : Z) : bool :=
  if FILTER_DEV_COUNT cfg =? 0 then true
  else dev_listed (FILTER_DEV_IDS cfg) (FILTER_DEV_COUNT cfg) dev FILTER_DEV_MAX 0.

Definition is_write_request (cmd_flags : Z) : bool :=
  Z.land cmd_flags REQ_OP_MASK =? REQ_OP_WRITE.

Definition get_request_dev (cfg : it_config) (kr : it_kernel) (req : Z) : option Z :=
  match rq_part kr req with
  | None => None
  | Some part =>
      if part =? 0 then None
      else if negb (REQUEST_PART_BLOCK_DEVICE cfg) then hd_struct_devt kr part
      else bdev_bd_dev kr part
  end.

(** A long name keeps 28 bytes and ends in three dots (code 46). *)
Definition mark_truncated (row : list Z) : list Z :=
  if negb (byte_at row (DNAME_INLINE_LEN - 2) =? 0)
  then <[(DNAME_INLINE_LEN - 4)%nat := 46]> (<[(DNAME_INLINE_LEN - 3)%nat := 46]>
         (<[(DNAME_INLINE_LEN - 2)%nat := 46]> row))
  else row.

(** The loop of [init_io_data] over the remaining rows of [filepath]. *)
Fixpoint path_walk (kr : it_kernel) (dentry : Z) (rows : list (list Z)) : list (list Z) :=
  match rows with
  | [] => []
  | row :: rest =>
      if dentry =? 0 then row :: rest
      else
        let row := read_str_into (<[0%nat := 0]> row) (dentry_name kr dentry) in
        if byte_at row 0 =? 0 then row :: rest
        else mark_truncated row :: path_walk kr (dentry_parent kr dentry) rest
  end.

Definition init_io_data (kr : it_kernel) (cx : task_ctx) (dentry d i : Z) (entry : io_data) : io_data :=
  IoData (Z.shiftr (pid_tgid cx) 32) 1 d (flag entry) (fs_write_bytes entry) (fs_read_bytes entry)
    (block_write_bytes entry) (block_read_bytes entry) i (blkcg_gq entry) (latency entry)
    (current_comm cx) (path_walk kr dentry (filepath entry)).

(** Field updates through the row pointer. *)
Definition add_fs_write (n : Z) (e : io_data) : io_data :=
  IoData (tgid e) (path_initialized e) (dev e) (flag e) (fs_write_bytes e +64 n) (fs_read_bytes e)
    (block_write_bytes e) (block_read_bytes e) (inode e) (blkcg_gq e) (latency e) (comm e) (filepath e).
Definition add_fs_read (n : Z) (e : io_data) : io_data :=
  IoData (tgid e) (path_initialized e) (dev e) (flag e) (fs_write_bytes e) (fs_read_bytes e +64 n)
    (block_write_bytes e) (block_read_bytes e) (inode e) (blkcg_gq e) (latency e) (comm e) (filepath e).
Definition add_block_write (n : Z) (e : io_data) : io_data :=
  IoData (tgid e) (path_initialized e) (dev e) (flag e) (fs_write_bytes e) (fs_read_bytes e)
    (block_write_bytes e +64 n) (block_read_bytes e) (inode e) (blkcg_gq e) (latency e) (comm e) (filepath e).
Definition add_block_read (n : Z) (e : io_data) : io_data :=
  IoData (tgid e) (path_initialized e) (dev e) (flag e) (fs_write_bytes e) (fs_read_bytes e)
    (block_write_bytes e) (block_read_bytes e +64 n) (inode e) (blkcg_gq e) (latency e) (comm e) (filepath e).
Definition set_flag (n : Z) (e : io_data) : io_data :=
  IoData (tgid e) (path_initialized e) (dev e) n (fs_write_bytes e) (fs_read_bytes e)
    (block_write_bytes e) (block_read_bytes e) (inode e) (blkcg_gq e) (latency e) (comm e) (filepath e).
Definition set_latency (l : latency_info) (e : io_data) : io_data :=
  IoData (tgid e) (path_initialized e) (dev e) (flag e) (fs_write_bytes e) (fs_read_bytes e)
    (block_write_bytes e) (block_read_bytes e) (inode e) (blkcg_gq e) l (comm e) (filepath e).

Definition add_latency (q2c d2c : Z) (l : latency_info) : latency_info :=
  let sum_q2c' := sum_q2c l +64 q2c in
  let sum_d2c' := sum_d2c l +64 d2c in
  let max_q2c' := if max_q2c l <? q2c then q2c else max_q2c l in
  let max_d2c' := if max_d2c l <? d2c then d2c else max_d2c l in
  LatencyInfo (cnt l +64 1) max_d2c' sum_d2c' max_q2c' sum_q2c'.

(** ** State *)

Section Model.
Context {M : BpfMapOps}.

Record it_state := ItState {
  io_source_map : hmap io_key io_data;
  io_source_full : option Z;
  start_info_map : hmap hash_key io_start_info;
  io_schedule_stack : hmap Z iotracing_schedule_delay_event;
  iodelay_perf_events : list iotracing_schedule_delay_event;
}.

Definition set_source st x :=
  ItState x (io_source_full st) (start_info_map st) (io_schedule_stack st) (iodelay_perf_events st).
Definition set_full st x :=
  ItState (io_source_map st) x (start_info_map st) (io_schedule_stack st) (iodelay_perf_events st).
Definition set_start st x :=
  ItState (io_source_map st) (io_source_full st) x (io_schedule_stack st) (iodelay_perf_events st).
Definition set_sched st x :=
  ItState (io_source_map st) (io_source_full st) (start_info_map st) x (iodelay_perf_events st).
Definition emit_delay st ev :=
  ItState (io_source_map st) (io_source_full st) (start_info_map st) (io_schedule_stack st)
    (iodelay_perf_events st ++ [ev]).

(** ** Block hooks *)

Definition start_info (kr : it_kernel) (cx : task_ctx) (req d : Z) : io_start_info :=
  let bio := rq_bio kr req in
  let ino := bio_page_inode kr bio in
  let i := inode_ino kr ino in
  StartInfo i (Z.shiftr (pid_tgid cx) 32)
    (if (i =? 0) || ctrue (inode_rdev kr ino) then d else inode_s_dev kr ino)
    (rq_data_len kr req) (bio_blkg kr bio) (current_comm cx).

Definition bpf_rq_qos_issue (cfg : it_config) (kr : it_kernel) (cx : task_ctx) (req : Z)
    (st : it_state) : it_state :=
  if ctrue (Z.land (rq_cmd_flags kr req) REQ_META) then st
  else match get_request_dev cfg kr req with
       | None => st
       | Some d =>
           let key := HashKey d (rq_sector kr req) in
           if negb (should_process_device cfg d) then st
           else set_start st
                  (snd (bpf_map_update_elem (start_info_map st) key (start_info kr cx req d) BPF_ANY))
       end.

(** The row a completed request belongs to. *)
Definition source_key (info : io_start_info) : io_key :=
  IoKey (if si_inode info =? 0 then si_tgid info else 0) (si_dev info) (si_inode info).

(** The bytes and latencies of the completion, added to a row. *)
Definition add_completion (kr : it_kernel) (req t : Z) (info : io_start_info) (e : io_data) : io_data :=
  let e := if is_write_request (rq_cmd_flags kr req)
           then add_block_write (si_data_len info) e else add_block_read (si_data_len info) e in
  set_latency (add_latency (t -64 rq_start_time_ns kr req) (t -64 rq_io_start_time_ns kr req)
                 (latency e)) e.

(** The row a completion creates. *)
Definition new_block_row (info : io_start_info) (e : io_data) : io_data :=
  IoData (si_tgid info) (path_initialized e) (si_dev info) (flag e) (fs_write_bytes e)
    (fs_read_bytes e) (block_write_bytes e) (block_read_bytes e) (si_inode info) (si_bi_blkg info)
    (latency e) (read_str_into (comm e) (Some (si_comm info))) (filepath e).

Definition bpf_rq_qos_done (cfg : it_config) (kr : it_kernel) (t : Z) (req : Z) (st : it_state)
    : it_state :=
  match get_request_dev cfg kr req with
  | None => st
  | Some d =>
      let info_key := HashKey d (rq_sector kr req) in
      if negb (should_process_device cfg d) then st
      else match bpf_map_lookup_elem (start_info_map st) info_key with
           | None => st
           | Some info =>
               let key := source_key info in
               let finish st :=
                 set_start st (snd (bpf_map_delete_elem (start_info_map st) info_key)) in
               let cmd_flags := rq_cmd_flags kr req in
               if negb (is_write_request cmd_flags) &&
                  negb (Z.land cmd_flags REQ_OP_MASK =? REQ_OP_READ)
               then finish st
               else match bpf_map_lookup_elem (io_source_map st) key with
                    | Some entry =>
                        finish (set_source st
                          (map_store (io_source_map st) key (add_completion kr req t info entry)))
                    | None =>
                        let data := new_block_row info (add_completion kr req t info zero_io_data) in
                        finish (set_source st
                          (snd (bpf_map_update_elem (io_source_map st) key data BPF_ANY)))
                    end
           end
  end.

(** ** File hooks *)

Definition create_file_io_entry (kr : it_kernel) (cx : task_ctx) (key : io_key) (file : Z)
    (st : it_state) : option io_data * it_state :=
  let data := init_io_data kr cx (file_dentry kr file) (key_dev key) (key_inode key) zero_io_data in
  let '(err, m) := bpf_map_update_elem (io_source_map st) key data BPF_NOEXIST in
  let st := set_source st m in
  let st := if err =? - E2BIG
            then match io_source_full st with Some _ => set_full st (Some 1) | None => st end
            else st in
  (bpf_map_lookup_elem (io_source_map st) key, st).

(** The row of a file, created or with its path initialised if needed; [None]
    when there is none and none can be made. *)
Definition get_file_io_entry (kr : it_kernel) (cx : task_ctx) (key : io_key) (file : Z)
    (st : it_state) : option io_data * it_state :=
  let '(entry, st) :=
    match bpf_map_lookup_elem (io_source_map st) key with
    | Some entry => (Some entry, st)
    | None =>
        match io_source_full st with
        | Some full => if ctrue full then (None, st) else create_file_io_entry kr cx key file st
        | None => create_file_io_entry kr cx key file st
        end
    end in
  match entry with
  | None => (None, st)
  | Some entry =>
      if path_initialized entry =? 0
      then
        let entry := init_io_data kr cx (file_dentry kr file) (key_dev key) (key_inode key) entry in
        (Some entry, set_source st (map_store (io_source_map st) key entry))
      else (Some entry, st)
  end.

(** Assignments through the row pointer a file hook obtained. *)
Definition update_row (key : io_key) (f : io_data -> io_data) (r : option io_data * it_state)
    : it_state :=
  match r with
  | (None, st) => st
  | (Some entry, st) => set_source st (map_store (io_source_map st) key (f entry))
  end.

(** The inode and flags of [file]: one read of 36 bytes when the distance of the
    two fields is 32, two reads otherwise. *)
Definition bulk_file (kr : it_kernel) : bool := off_f_flags kr - off_f_inode kr =? 32.
Definition bulk_inode (kr : it_kernel) : bool := off_i_ino kr - off_i_sb kr =? 24.

Definition fetch_file (kr : it_kernel) (file : Z) : Z * Z :=
  let a := file +64 off_f_inode kr in
  if bulk_file kr
  then if readable kr a 36 then (ld64 kr a, ld32 kr (a +64 32)) else (0, 0)
  else (file_inode kr file, 0).

(** The device and number of an inode: one read of 32 bytes when possible. *)
Definition fetch_inode (kr : it_kernel) (ino : Z) : Z * Z :=
  let a := ino +64 off_i_sb kr in
  if bulk_inode kr
  then let '(sb, number) := if readable kr a 32 then (ld64 kr a, ld64 kr (a +64 24)) else (0, 0) in
       (sb_s_dev kr sb, number)
  else (inode_s_dev kr ino, 0).

Definition bpf_file_read_write (cfg : it_config) (kr : it_kernel) (cx : task_ctx) (iocb from : Z)
    (is_write : bool) (st : it_state) : it_state :=
  let file := iocb_filp kr iocb in
  let '(ino, flags) := fetch_file kr file in
  let '(d, number) := fetch_inode kr ino in
  if negb (should_process_device cfg d) then st
  else
    let key := IoKey 0 d (if bulk_inode kr then number else inode_ino kr ino) in
    let count := iter_count kr from in
    update_row key
      (fun entry => set_flag (if bulk_file kr then flags else file_flags kr file)
                      (if is_write then add_fs_write count entry else add_fs_read count entry))
      (get_file_io_entry kr cx key file st).

Definition bpf_anyfs_file_read_iter cfg kr cx iocb from st :=
  bpf_file_read_write cfg kr cx iocb from false st.
Definition bpf_anyfs_file_write_iter cfg kr cx iocb from st :=
  bpf_file_read_write cfg kr cx iocb from true st.

(** The file and row of a page fault. *)
Definition fault_file (kr : it_kernel) (vm : Z) : Z := vma_file kr (vmf_vma kr vm).

Definition bpf_anyfs_filemap_page_mkwrite (cfg : it_config) (kr : it_kernel) (cx : task_ctx) (vm : Z)
    (st : it_state) : it_state :=
  let file := fault_file kr vm in
  let ino := file_inode kr file in
  let d := inode_s_dev kr ino in
  if negb (should_process_device cfg d) then st
  else
    let key := IoKey 0 d (inode_ino kr ino) in
    update_row key (add_fs_write PAGE_SIZE) (get_file_io_entry kr cx key file st).

Definition bpf_filemap_fault (cfg : it_config) (kr : it_kernel) (cx : task_ctx) (vm : Z)
    (st : it_state) : it_state :=
  let file := fault_file kr vm in
  let ino := file_inode kr file in
  let d := inode_s_dev kr ino in
  if negb (should_process_device cfg d) then st
  else
    let key := IoKey 0 d (inode_ino kr ino) in
    update_row key (add_fs_read PAGE_SIZE) (get_file_io_entry kr cx key file st).

(** ** Sleeping for IO *)

Definition tid_of (cx : task_ctx) : Z := u32 (pid_tgid cx).

Definition detect_io_schedule (cx : task_ctx) (st : it_state) : it_state :=
  let entry := DelayEvent (stack cx) (now cx) 0 (stack_size cx) 0 0 0 (current_comm cx) in
  set_sched st (snd (bpf_map_update_elem (io_schedule_stack st) (tid_of cx) entry BPF_ANY)).

Definition detect_io_schedule_return (cfg : it_config) (cx : task_ctx) (st : it_state) : it_state :=
  match bpf_map_lookup_elem (io_schedule_stack st) (tid_of cx) with
  | None => st
  | Some entry =>
      let elapsed := now cx -64 de_start_ns entry in
      let st :=
        if FILTER_EVENT_TIMEOUT cfg <? elapsed
        then
          let entry := DelayEvent (de_stack entry) (de_start_ns entry) elapsed (de_stack_size entry)
                         (Z.shiftr (pid_tgid cx) 32) (tid_of cx) (cpu cx) (de_comm entry) in
          emit_delay (set_sched st (map_store (io_schedule_stack st) (tid_of cx) entry)) entry
        else st in
      set_sched st (snd (bpf_map_delete_elem (io_schedule_stack st) (tid_of cx)))
  end.

Definition bpf_io_schedule cx st := detect_io_schedule cx st.
Definition bpf_io_schedule_timeout cx st := detect_io_schedule cx st.
Definition bpf_return_io_schedule cfg cx st := detect_io_schedule_return cfg cx st.
Definition bpf_return_io_schedule_timeout cfg cx st := detect_io_schedule_return cfg cx st.

(** ** Runs *)

Inductive it_input :=
  | RqIssue (kr : it_kernel) (cx : task_ctx) (req : Z)
  | RqDone (kr : it_kernel) (t req : Z)
  | FileRead (kr : it_kernel) (cx : task_ctx) (iocb from : Z)
  | FileWrite (kr : it_kernel) (cx : task_ctx) (iocb from : Z)
  | PageMkwrite (kr : it_kernel) (cx : task_ctx) (vm : Z)
  | FilemapFault (kr : it_kernel) (cx : task_ctx) (vm : Z)
  | IoSchedule (cx : task_ctx)
  | IoScheduleTimeout (cx : task_ctx)
  | IoScheduleRet (cx : task_ctx)
  | IoScheduleTimeoutRet (cx : task_ctx).

Definition it_step (cfg : it_config) (st : it_state) (e : it_input) : it_state :=
  match e with
  | RqIssue kr cx req => bpf_rq_qos_issue cfg kr cx req st
  | RqDone kr t req => bpf_rq_qos_done cfg kr t req st
  | FileRead kr cx iocb from => bpf_anyfs_file_read_iter cfg kr cx iocb from st
  | FileWrite kr cx iocb from => bpf_anyfs_file_write_iter cfg kr cx iocb from st
  | PageMkwrite kr cx vm => bpf_anyfs_filemap_page_mkwrite cfg kr cx vm st
  | FilemapFault kr cx vm => bpf_filemap_fault cfg kr cx vm st
  | IoSchedule cx => bpf_io_schedule cx st
  | IoScheduleTimeout cx => bpf_io_schedule_timeout cx st
  | IoScheduleRet cx => bpf_return_io_schedule cfg cx st
  | IoScheduleTimeoutRet cx => bpf_return_io_schedule_timeout cfg cx st
  end.

Definition it_run (cfg : it_config) (st : it_state) (es : list it_input) : it_state :=
  fold_left (it_step cfg) es st.

End Model.

(** ** The path walk *)

(** A name as the tracer stores it. *)
Definition shorten (s : list Z) : list Z :=
  if (31 <=? length s)%nat then take 28 s ++ [46; 46; 46] else s.

(** The names of a dentry and its ancestors, at most [n], up to the first missing
    or unreadable one. *)
Fixpoint ancestors (kr : it_kernel) (n : nat) (dentry : Z) : list (list Z) :=
  match n with
  | O => []
  | S n =>
      let s := until_nul (default [] (dentry_name kr dentry)) in
      if (dentry =? 0) || bool_decide (s = []) then []
      else shorten s :: ancestors kr n (dentry_parent kr dentry)
  end.

Lemma mark_truncated_shorten s :
  0 ∉ s -> until_nul (mark_truncated (read_str_into (replicate 32 0) (Some s))) = shorten s.
Proof.
  intros Hs. unfold read_str_into, mark_truncated, shorten. rewrite length_replicate, (until_nul_id s) by done.
  change (32 - 1)%nat with 31%nat. change (DNAME_INLINE_LEN - 2)%nat with 30%nat.
  change (DNAME_INLINE_LEN - 3)%nat with 29%nat. change (DNAME_INLINE_LEN - 4)%nat with 28%nat.
  destruct (Nat.leb_spec 31 (length s)) as [Hl|Hl].
  - rewrite length_take_le by lia. cbn [drop Nat.add replicate].
    assert (Hsplit : exists c0 a b d, take 31 s = c0 ++ [a; b; d] /\ take 28 s = c0 /\ d <> 0 /\ 0 ∉ c0).
    { exists (take 28 s). destruct (drop 28 s) as [|a [|b [|d t]]] eqn:E;
        try (apply (f_equal length) in E; rewrite length_drop in E; cbn in E; lia).
      exists a, b, d. pose proof (take_drop 28 s) as Ht. rewrite E in Ht.
      assert (Hd : d <> 0) by (intros ->; apply Hs; rewrite <- Ht; set_solver).
      repeat split; [|done|by apply take_no_zero].
      rewrite <- Ht at 1. rewrite take_app, take_take, length_take_le by lia. reflexivity. }
    destruct Hsplit as (c0 & a & b & d & -> & H28 & Hd & Hc0). rewrite H28.
    assert (Hlen : length c0 = 28%nat) by (rewrite <- H28, length_take_le; lia).
    unfold byte_at. rewrite <- app_assoc, lookup_app_r by lia. rewrite Hlen. cbn [Nat.sub app lookup list_lookup default].
    change (id d) with d. rewrite (proj2 (Z.eqb_neq d 0) Hd). cbn [negb].
    rewrite !insert_app_r_alt by lia. rewrite Hlen. cbn.
    change (46 :: 46 :: 46 :: [0]) with ([46; 46; 46] ++ [0]). rewrite app_assoc.
    apply until_nul_app_zero. set_solver.
  - rewrite take_ge by lia.
    assert (Hb : byte_at (s ++ 0 :: drop (length s + 1) (replicate 32 0)) 30 = 0).
    { unfold byte_at. rewrite drop_replicate, lookup_app_r by lia.
      destruct (30 - length s)%nat as [|n] eqn:E; [done|]. cbn [lookup list_lookup]. destruct (replicate _ 0 !! n) eqn:El; [|done].
      by apply lookup_replicate in El as [-> _]. }
    rewrite Hb. cbn [negb Z.eqb]. by apply until_nul_app_zero.
Qed.

(** C35: The stored path is the names of the file and its ancestors, nearest
    first: at most eight, however long or cyclic the dentry chain, each the whole
    name or its first 28 bytes and three dots; the walk stops at the first name
    that cannot be read, and the remaining rows stay empty. *)
Theorem path_walk_is_ancestors kr n dentry :
  map until_nul (path_walk kr dentry (replicate n (replicate DNAME_INLINE_LEN 0))) =
  ancestors kr n dentry ++ replicate (n - length (ancestors kr n dentry)) [].
Proof.
  revert dentry. induction n as [|n IH]; intros d; [done|]. cbn [replicate path_walk ancestors].
  assert (Hz : forall m, map until_nul (replicate m (replicate DNAME_INLINE_LEN 0)) = replicate m []).
  { intros m. induction m as [|m IHm]; [done|]. cbn [replicate map]. by rewrite IHm. }
  destruct (Z.eqb_spec d 0) as [|Hd]; [exact (Hz (S n))|]. cbn [orb].
  change (<[0%nat:=0]> (replicate DNAME_INLINE_LEN 0)) with (replicate 32 0).
  set (row := read_str_into (replicate 32 0) (dentry_name kr d)).
  pose proof (read_str_until (replicate 32 0) (dentry_name kr d)) as Hr. fold row in Hr.
  destruct (Z.eqb_spec (byte_at row 0) 0) as [He|He].
  - pose proof (proj1 (until_nul_empty row) He) as He'. rewrite He' in Hr.
    rewrite bool_decide_true.
    + cbn [map app length Nat.sub]. by rewrite He', Hz.
    + destruct (until_nul (default [] (dentry_name kr d))); [done|discriminate].
  - rewrite bool_decide_false.
    + cbn [map app length Nat.sub]. rewrite IH. f_equal.
      destruct (dentry_name kr d) as [s|] eqn:Es; [|by destruct He].
      subst row. change (default [] (Some s)) with s. rewrite <- (mark_truncated_shorten (until_nul s)) by apply until_nul_no_zero.
      unfold read_str_into. by rewrite (until_nul_id (until_nul s)) by apply until_nul_no_zero.
    + intros E. apply He, until_nul_empty. rewrite Hr, E. by rewrite take_nil.
Qed.
End IoTracing.
