(* ===== verification/IoTracingLedger.v ===== *)
(** * IO tracing: rows and their contents

    What the rows of [IoTracing] hold: every row is the ledger of the file and
    block samples attributed to its key, a completed request is settled once with
    the data of its own issue, rows are well formed, and the batched kernel reads
    agree with the separate ones. *)

From Stdlib Require Import ZArith Lia.
From stdpp Require Import base option list gmap tactics countable.
From S2P Require Import Prelude BpfMap KernelStr IoTracing.

Local Open Scope Z_scope.
Local Open Scope bpf_scope.

Module IoTracingLedger.
Export IoTracing.

(** ** Batched reads *)

(** Nothing the separate reads need is missing from the batched ones. *)
Definition fields_readable (kr : it_kernel) (file : Z) : Prop :=
  readable kr (file +64 off_f_inode kr) 36 = true /\
  readable kr (file +64 off_f_inode kr) 8 = true /\
  readable kr (file +64 off_f_flags kr) 4 = true /\
  let ino := file_inode kr file in
  readable kr (ino +64 off_i_sb kr) 32 = true /\
  readable kr (ino +64 off_i_sb kr) 8 = true /\
  readable kr (ino +64 off_i_ino kr) 8 = true.

(** The row and flags of a file operation, with each field read on its own. *)
Definition plain_key (kr : it_kernel) (file : Z) : io_key :=
  IoKey 0 (inode_s_dev kr (file_inode kr file)) (inode_ino kr (file_inode kr file)).

Section Properties.
Context {M : BpfMapOps} {L : BpfMapLaws M}.
Implicit Types (st : it_state) (cfg : it_config) (kr : it_kernel) (k : io_key).

Lemma fetch_file_plain kr file :
  fields_readable kr file ->
  fst (fetch_file kr file) = file_inode kr file /\
  (if bulk_file kr then snd (fetch_file kr file) else file_flags kr file) = file_flags kr file.
Proof.
  intros (H36 & H8 & H4 & _). unfold fetch_file, file_inode, file_flags, read64, read32.
  destruct (bulk_file kr) eqn:Hb; cbn; [|by rewrite H8].
  rewrite H36, H8, H4. cbn. split; [done|]. f_equal. unfold bulk_file in Hb. apply Z.eqb_eq in Hb.
  rewrite u64_add_idemp_l. f_equal. lia.
Qed.

Lemma fetch_inode_plain kr file :
  fields_readable kr file ->
  let ino := file_inode kr file in
  fst (fetch_inode kr ino) = inode_s_dev kr ino /\
  (if bulk_inode kr then snd (fetch_inode kr ino) else inode_ino kr ino) = inode_ino kr ino.
Proof.
  intros (_ & _ & _ & H32 & H8 & Hi) ino. fold ino in H32, H8, Hi.
  unfold fetch_inode, inode_s_dev, inode_sb, inode_ino, read64.
  destruct (bulk_inode kr) eqn:Hb; cbn; [|by rewrite H8].
  rewrite H32, H8, Hi. cbn. split; [done|].
  unfold bulk_inode in Hb. apply Z.eqb_eq in Hb. rewrite u64_add_idemp_l. do 2 f_equal. lia.
Qed.

(** Whatever the layout of the kernel's structures, the batched reads of a file
    operation give the row, the device test and the flags of the plain program
    that reads each field on its own. *)
Theorem file_hook_reads_plain cfg kr cx iocb from is_write st :
  let file := iocb_filp kr iocb in
  fields_readable kr file ->
  bpf_file_read_write cfg kr cx iocb from is_write st =
  (if should_process_device cfg (key_dev (plain_key kr file))
   then update_row (plain_key kr file)
          (fun entry => set_flag (file_flags kr file)
             (if is_write then add_fs_write (iter_count kr from) entry
              else add_fs_read (iter_count kr from) entry))
          (get_file_io_entry kr cx (plain_key kr file) file st)
   else st).
Proof.
  intros file Hf. unfold bpf_file_read_write. fold file.
  destruct (fetch_file_plain kr file Hf) as [Hi Hfl].
  destruct (fetch_file kr file) as [ino flags] eqn:Ef. cbn in Hi, Hfl. subst ino.
  destruct (fetch_inode_plain kr file Hf) as [Hd Hn].
  destruct (fetch_inode kr (file_inode kr file)) as [d number] eqn:Ei. cbn in Hd, Hn. subst d.
  unfold plain_key. cbn [key_dev]. destruct (should_process_device cfg _); cbn [negb]; [|done].
  by rewrite Hn, Hfl.
Qed.

(** ** Rows are ledgers *)

(** The accounting fields of a row. *)
Record acct := Acct {
  a_fs_write : Z;
  a_fs_read : Z;
  a_block_write : Z;
  a_block_read : Z;
  a_latency : latency_info;
}.
Definition acct_of (e : io_data) : acct :=
  Acct (fs_write_bytes e) (fs_read_bytes e) (block_write_bytes e) (block_read_bytes e) (latency e).

Inductive io_sample :=
  | FsWrite (n : Z)
  | FsRead (n : Z)
  | Block (write : bool) (n q2c d2c : Z).

Definition add_sample (a : acct) (s : io_sample) : acct :=
  match s with
  | FsWrite n => Acct (a_fs_write a +64 n) (a_fs_read a) (a_block_write a) (a_block_read a) (a_latency a)
  | FsRead n => Acct (a_fs_write a) (a_fs_read a +64 n) (a_block_write a) (a_block_read a) (a_latency a)
  | Block w n q2c d2c =>
      Acct (a_fs_write a) (a_fs_read a)
        (if w then a_block_write a +64 n else a_block_write a)
        (if w then a_block_read a else a_block_read a +64 n)
        (add_latency q2c d2c (a_latency a))
  end.

(** The row a file operation, a page fault and a completion belong to. *)
Definition file_key (cfg : it_config) (kr : it_kernel) (iocb : Z) : option io_key :=
  let '(ino, _) := fetch_file kr (iocb_filp kr iocb) in
  let '(d, number) := fetch_inode kr ino in
  if should_process_device cfg d
  then Some (IoKey 0 d (if bulk_inode kr then number else inode_ino kr ino)) else None.

Definition fault_key (cfg : it_config) (kr : it_kernel) (vm : Z) : option io_key :=
  let ino := file_inode kr (fault_file kr vm) in
  if should_process_device cfg (inode_s_dev kr ino)
  then Some (IoKey 0 (inode_s_dev kr ino) (inode_ino kr ino)) else None.

(** The start record a request uses. *)
Definition request_key (cfg : it_config) (kr : it_kernel) (req : Z) : option hash_key :=
  match get_request_dev cfg kr req with
  | Some d => if should_process_device cfg d then Some (HashKey d (rq_sector kr req)) else None
  | None => None
  end.

(** The direction of a completion that counts. *)
Definition data_request (cmd_flags : Z) : option bool :=
  if is_write_request cmd_flags then Some true
  else if Z.land cmd_flags REQ_OP_MASK =? REQ_OP_READ then Some false else None.

Definition completion_sample (cfg : it_config) (kr : it_kernel) (t req : Z) (st : it_state)
    : option (io_key * io_sample) :=
  hk ← request_key cfg kr req;
  info ← bpf_map_lookup_elem (start_info_map st) hk;
  w ← data_request (rq_cmd_flags kr req);
  Some (source_key info, Block w (si_data_len info) (t -64 rq_start_time_ns kr req)
                           (t -64 rq_io_start_time_ns kr req)).

(** The sample an invocation contributes and the row it is for. *)
Definition sample_of (cfg : it_config) (st : it_state) (e : it_input) : option (io_key * io_sample) :=
  match e with
  | RqDone kr t req => completion_sample cfg kr t req st
  | FileRead kr _ iocb from => k ← file_key cfg kr iocb; Some (k, FsRead (iter_count kr from))
  | FileWrite kr _ iocb from => k ← file_key cfg kr iocb; Some (k, FsWrite (iter_count kr from))
  | PageMkwrite kr _ vm => k ← fault_key cfg kr vm; Some (k, FsWrite PAGE_SIZE)
  | FilemapFault kr _ vm => k ← fault_key cfg kr vm; Some (k, FsRead PAGE_SIZE)
  | _ => None
  end.

Definition samples_for (cfg : it_config) (k : io_key) (st : it_state) (e : it_input) : list io_sample :=
  match sample_of cfg st e with
  | Some (k', s) => if decide (k' = k) then [s] else []
  | None => []
  end.

(** The row of [k], and what an operation does to it. *)
Definition row st k : option io_data := bpf_map_lookup_elem (io_source_map st) k.

Lemma acct_init kr cx d i n e : acct_of (init_io_data kr cx d i n e) = acct_of e.
Proof. done. Qed.

Lemma row_store st k k' e :
  is_Some (row st k') ->
  row (set_source st (map_store (io_source_map st) k' e)) k =
  if decide (k' = k) then Some e else row st k.
Proof. apply store_lookup. Qed.

Lemma create_other kr cx k k' file st :
  k' <> k -> row (snd (create_file_io_entry kr cx k' file st)) k = row st k.
Proof.
  intros Hne. unfold create_file_io_entry, row.
  pose proof (bm_update_ne (io_source_map st) k'
    (init_io_data kr cx (file_dentry kr file) (key_dev k') (key_inode k') zero_io_data) BPF_NOEXIST k Hne) as H.
  destruct (bpf_map_update_elem _ _ _ _) as [err m]. cbn in *. repeat case_match; done.
Qed.

Lemma create_returns kr cx k file st :
  fst (create_file_io_entry kr cx k file st) = row (snd (create_file_io_entry kr cx k file st)) k.
Proof. unfold create_file_io_entry. by destruct (bpf_map_update_elem _ _ _ _) as [err m]. Qed.

(** [get_file_io_entry] returns the row it leaves, keeps the other rows and does
    not change what is accounted in an existing one. *)
Lemma get_entry_row kr cx k file st r st' :
  get_file_io_entry kr cx k file st = (r, st') ->
  r = row st' k /\ (forall k', k' <> k -> row st' k' = row st k') /\
  (forall e, row st k = Some e -> exists e', row st' k = Some e' /\ acct_of e' = acct_of e).
Proof.
  unfold get_file_io_entry. fold (row st k). destruct (row st k) as [e|] eqn:Er.
  - destruct (path_initialized e =? 0); intros; simplify_eq.
    + assert (is_Some (row st k)) by by rewrite Er. split_and!.
      * rewrite row_store, decide_True by done. done.
      * intros k' Hk. by rewrite row_store, decide_False by congruence.
      * intros e' [= <-]. rewrite row_store, decide_True by done. eexists. by rewrite acct_init.
    + split_and!; [done|done|]. intros e' [= <-]. by exists e.
  - assert (Hc : forall r0 st0, create_file_io_entry kr cx k file st = (r0, st0) ->
      r0 = row st0 k /\ forall k', k' <> k -> row st0 k' = row st k').
    { intros r0 st0 E. pose proof (create_returns kr cx k file st) as H1.
      rewrite E in H1. split; [done|]. intros k' Hk.
      pose proof (create_other kr cx k' k file st ltac:(congruence)) as H2. by rewrite E in H2. }
    intros H.
    assert (Hmid : exists r0 st0, (r0 = row st0 k /\ forall k', k' <> k -> row st0 k' = row st k') /\
      match r0 with
      | None => (None, st0)
      | Some e => if path_initialized e =? 0
          then (Some (init_io_data kr cx (file_dentry kr file) (key_dev k) (key_inode k) e),
                set_source st0 (map_store (io_source_map st0) k
                  (init_io_data kr cx (file_dentry kr file) (key_dev k) (key_inode k) e)))
          else (Some e, st0)
      end = (r, st')).
    { destruct (io_source_full st) as [full|]; [destruct (ctrue full)|].
      - exists None, st. split; [by rewrite Er|]. exact H.
      - destruct (create_file_io_entry kr cx k file st) as [r0 st0] eqn:E. exists r0, st0. auto.
      - destruct (create_file_io_entry kr cx k file st) as [r0 st0] eqn:E. exists r0, st0. auto. }
    clear H. destruct Hmid as (r0 & st0 & [Hr0 Ho] & H). destruct r0 as [e|]; [|simplify_eq].
    + destruct (path_initialized e =? 0); simplify_eq; [|split_and!; done].
      assert (is_Some (row st0 k)) by by rewrite <- Hr0. split_and!; [| |done].
      * by rewrite row_store, decide_True.
      * intros k' Hk. rewrite row_store, decide_False by congruence. by apply Ho.
    + split_and!; done.
Qed.

Lemma file_op_row kr cx k k' file f st e s :
  (forall x, acct_of (f x) = add_sample (acct_of x) s) -> row st k = Some e ->
  exists e', row (update_row k' f (get_file_io_entry kr cx k' file st)) k = Some e' /\
    acct_of e' = fold_left add_sample (if decide (k' = k) then [s] else []) (acct_of e).
Proof.
  intros Hf He. destruct (get_file_io_entry kr cx k' file st) as [r st'] eqn:E.
  apply get_entry_row in E as (Hr & Ho & Hk). unfold update_row.
  destruct (decide (k' = k)) as [->|Hne].
  - destruct (Hk e He) as (e' & He' & Ha). rewrite He' in Hr. subst r.
    rewrite row_store, decide_True by (by rewrite ?He'). eexists. split; [done|]. cbn.
    by rewrite Hf, Ha.
  - specialize (Ho k ltac:(congruence)). rewrite He in Ho. exists e. split; [|done].
    destruct r as [x|]; [|done]. rewrite row_store, decide_False by (by rewrite <- ?Hr). done.
Qed.

(** Completions, in terms of the start record and the direction. *)
Lemma done_cases cfg kr t req st :
  bpf_rq_qos_done cfg kr t req st =
  match request_key cfg kr req with
  | None => st
  | Some hk =>
      match bpf_map_lookup_elem (start_info_map st) hk with
      | None => st
      | Some info =>
          set_start (match data_request (rq_cmd_flags kr req) with
                     | None => st
                     | Some _ =>
                         set_source st
                           (match row st (source_key info) with
                            | Some e => map_store (io_source_map st) (source_key info)
                                          (add_completion kr req t info e)
                            | None => snd (bpf_map_update_elem (io_source_map st) (source_key info)
                                (new_block_row info (add_completion kr req t info zero_io_data)) BPF_ANY)
                            end)
                     end)
            (snd (bpf_map_delete_elem (start_info_map st) hk))
      end
  end.
Proof.
  unfold bpf_rq_qos_done, request_key, data_request, row.
  destruct (get_request_dev cfg kr req) as [d|]; [|done].
  destruct (should_process_device cfg d); [|done]. cbn [negb].
  destruct (bpf_map_lookup_elem _ (HashKey _ _)) as [info|]; [|done].
  destruct (is_write_request (rq_cmd_flags kr req)); cbn [negb andb];
    [by destruct (bpf_map_lookup_elem _ (source_key info))|].
  destruct (Z.land (rq_cmd_flags kr req) REQ_OP_MASK =? REQ_OP_READ); cbn [negb]; [|done].
  by destruct (bpf_map_lookup_elem _ (source_key info)).
Qed.

Lemma completion_acct kr req t info w e :
  data_request (rq_cmd_flags kr req) = Some w ->
  acct_of (add_completion kr req t info e) =
  add_sample (acct_of e) (Block w (si_data_len info) (t -64 rq_start_time_ns kr req)
                            (t -64 rq_io_start_time_ns kr req)).
Proof.
  unfold data_request, add_completion. destruct (is_write_request _).
  - by intros [= <-].
  - by destruct (_ =? REQ_OP_READ); intros [= <-].
Qed.

Lemma step_row cfg k st e r :
  row st k = Some r ->
  exists r', row (it_step cfg st e) k = Some r' /\
    acct_of r' = fold_left add_sample (samples_for cfg k st e) (acct_of r).
Proof.
  intros Hr. unfold samples_for.
  destruct e as [kr cx req|kr t req|kr cx iocb from|kr cx iocb from|kr cx vm|kr cx vm|cx|cx|cx|cx];
    cbn [it_step sample_of].
  - exists r. split; [|done]. unfold bpf_rq_qos_issue. by repeat case_match.
  - rewrite done_cases. unfold completion_sample.
    destruct (request_key cfg kr req) as [hk|]; [|by exists r]. cbn [mbind option_bind].
    destruct (bpf_map_lookup_elem (start_info_map st) hk) as [info|]; [|by exists r].
    cbn [mbind option_bind].
    destruct (data_request (rq_cmd_flags kr req)) as [w|] eqn:Hw; [|by exists r].
    cbn [mbind option_bind]. destruct (decide (source_key info = k)) as [<-|Hne].
    + rewrite Hr. eexists. split; [apply (bm_store_eq (io_source_map st)); by exists r|].
      cbn. by apply completion_acct.
    + exists r. split; [|done]. unfold row at 1. cbn [io_source_map set_start set_source].
      destruct (row st (source_key info)) eqn:E.
      * rewrite bm_store_ne by (eauto || done). exact Hr.
      * rewrite bm_update_ne by done. exact Hr.
  - unfold bpf_anyfs_file_read_iter, bpf_file_read_write, file_key.
    destruct (fetch_file kr (iocb_filp kr iocb)) as [ino fl]. destruct (fetch_inode kr ino) as [d nm].
    destruct (should_process_device cfg d); cbn [negb mbind option_bind]; [|by exists r].
    by apply file_op_row.
  - unfold bpf_anyfs_file_write_iter, bpf_file_read_write, file_key.
    destruct (fetch_file kr (iocb_filp kr iocb)) as [ino fl]. destruct (fetch_inode kr ino) as [d nm].
    destruct (should_process_device cfg d); cbn [negb mbind option_bind]; [|by exists r].
    by apply file_op_row.
  - unfold bpf_anyfs_filemap_page_mkwrite, fault_key.
    destruct (should_process_device cfg _); cbn [negb mbind option_bind]; [|by exists r].
    by apply file_op_row.
  - unfold bpf_filemap_fault, fault_key.
    destruct (should_process_device cfg _); cbn [negb mbind option_bind]; [|by exists r].
    by apply file_op_row.
  - by exists r.
  - by exists r.
  - exists r. split; [|done]. unfold bpf_return_io_schedule, detect_io_schedule_return.
    by repeat case_match.
  - exists r. split; [|done]. unfold bpf_return_io_schedule_timeout, detect_io_schedule_return.
    by repeat case_match.
Qed.

(** C6: Once a file has a row it keeps it for the whole capture, and the row is an
    exact ledger: after any run its byte counters and latencies are the old ones
    plus, in order, every file and block sample attributed to its key, whatever
    happens to other rows and however full the table is. *)
Theorem existing_row_is_ledger cfg k st es r :
  row st k = Some r ->
  exists r', row (it_run cfg st es) k = Some r' /\
    acct_of r' = fold_left add_sample (outputs (it_step cfg) (samples_for cfg k) st es) (acct_of r).
Proof.
  revert st r. induction es as [|e es IH]; intros st r Hr; [by exists r|].
  destruct (step_row cfg k st e r Hr) as (r1 & Hr1 & Ha).
  destruct (IH _ _ Hr1) as (r2 & Hr2 & Ha2). exists r2. split; [done|].
  cbn [outputs]. by rewrite Ha2, Ha, fold_left_app.
Qed.

(** ** Requests are settled with their own issue *)

(** The invocation uses the start record [hk]. *)
Definition uses_start (cfg : it_config) (hk : hash_key) (e : it_input) : bool :=
  match e with
  | RqIssue kr _ req | RqDone kr _ req => bool_decide (request_key cfg kr req = Some hk)
  | _ => false
  end.

Lemma issue_cases cfg kr cx req st :
  bpf_rq_qos_issue cfg kr cx req st =
  if ctrue (Z.land (rq_cmd_flags kr req) REQ_META) then st
  else match request_key cfg kr req with
       | Some hk => set_start st (snd (bpf_map_update_elem (start_info_map st) hk
                                         (start_info kr cx req (hk_dev hk)) BPF_ANY))
       | None => st
       end.
Proof.
  unfold bpf_rq_qos_issue, request_key. destruct (ctrue _); [done|].
  destruct (get_request_dev cfg kr req) as [d|]; [|done]. by destruct (should_process_device cfg d).
Qed.

Lemma create_start kr cx k file st :
  start_info_map (snd (create_file_io_entry kr cx k file st)) = start_info_map st.
Proof. unfold create_file_io_entry. destruct (bpf_map_update_elem _ _ _ _). by repeat case_match. Qed.

Lemma file_op_start kr cx k file f st :
  start_info_map (update_row k f (get_file_io_entry kr cx k file st)) = start_info_map st.
Proof.
  unfold get_file_io_entry. pose proof (create_start kr cx k file st) as H.
  destruct (create_file_io_entry kr cx k file st) as [r0 st0]. cbn in H.
  unfold update_row. repeat (case_match; simplify_eq/=); done.
Qed.

Lemma start_frame cfg hk st e :
  uses_start cfg hk e = false ->
  bpf_map_lookup_elem (start_info_map (it_step cfg st e)) hk =
  bpf_map_lookup_elem (start_info_map st) hk.
Proof.
  destruct e; cbn [it_step uses_start]; intros Hu.
  - apply bool_decide_eq_false in Hu. rewrite issue_cases. destruct (ctrue _); [done|].
    destruct (request_key cfg kr req); [|done]. cbn. rewrite bm_update_ne; [done|congruence].
  - apply bool_decide_eq_false in Hu. rewrite done_cases.
    destruct (request_key cfg kr req) as [h|]; [|done].
    destruct (bpf_map_lookup_elem (start_info_map st) h); [|done].
    cbn. rewrite bm_delete_ne; [done|congruence].
  - unfold bpf_anyfs_file_read_iter, bpf_file_read_write.
    repeat case_match; rewrite ?file_op_start; done.
  - unfold bpf_anyfs_file_write_iter, bpf_file_read_write.
    repeat case_match; rewrite ?file_op_start; done.
  - unfold bpf_anyfs_filemap_page_mkwrite. case_match; [done|]. by rewrite file_op_start.
  - unfold bpf_filemap_fault. case_match; [done|]. by rewrite file_op_start.
  - done.
  - done.
  - unfold bpf_return_io_schedule, detect_io_schedule_return. by repeat case_match.
  - unfold bpf_return_io_schedule_timeout, detect_io_schedule_return. by repeat case_match.
Qed.

(** A request that is issued and completed is attributed to the file behind its
    own issue exactly once: its bytes and latencies are added to that file's row,
    or start one if the table has room, whatever other IO happens in between; a
    further completion at the same device and sector changes nothing until a new
    request is issued there. *)
Theorem request_settled_once cfg st kr cx req hk es kr' t req' w :
  request_key cfg kr req = Some hk -> request_key cfg kr' req' = Some hk ->
  ctrue (Z.land (rq_cmd_flags kr req) REQ_META) = false ->
  data_request (rq_cmd_flags kr' req') = Some w ->
  let info := start_info kr cx req (hk_dev hk) in
  fst (bpf_map_update_elem (start_info_map st) hk info BPF_ANY) = 0 ->
  Forall (fun e => uses_start cfg hk e = false) es ->
  let st1 := it_run cfg (it_step cfg st (RqIssue kr cx req)) es in
  let st2 := it_step cfg st1 (RqDone kr' t req') in
  let k := source_key info in
  match row st1 k with
  | Some r => row st2 k = Some (add_completion kr' req' t info r)
  | None =>
      let r := new_block_row info (add_completion kr' req' t info zero_io_data) in
      fst (bpf_map_update_elem (io_source_map st1) k r BPF_ANY) = 0 -> row st2 k = Some r
  end /\
  (forall k', k' <> k -> row st2 k' = row st1 k') /\
  (fst (bpf_map_delete_elem (start_info_map st1) hk) = 0 ->
   forall es' kr2 t2 req2, request_key cfg kr2 req2 = Some hk ->
   Forall (fun e => uses_start cfg hk e = false) es' ->
   it_step cfg (it_run cfg st2 es') (RqDone kr2 t2 req2) = it_run cfg st2 es').
Proof.
  intros Hk Hk' Hm Hw info Hu Hes st1 st2 k.
  assert (Hl : bpf_map_lookup_elem (start_info_map st1) hk = Some info).
  { subst st1. unfold it_run.
    rewrite (fold_frame (it_step cfg) (fun st => bpf_map_lookup_elem (start_info_map st) hk)
      (uses_start cfg hk)) by (done || apply start_frame).
    cbn [it_step]. rewrite issue_cases, Hm, Hk. by apply bm_update_eq. }
  assert (H2 : st2 = set_start (set_source st1 (match row st1 k with
      | Some e => map_store (io_source_map st1) k (add_completion kr' req' t info e)
      | None => snd (bpf_map_update_elem (io_source_map st1) k
          (new_block_row info (add_completion kr' req' t info zero_io_data)) BPF_ANY) end))
      (snd (bpf_map_delete_elem (start_info_map st1) hk))).
  { subst st2. cbn [it_step]. by rewrite done_cases, Hk', Hl, Hw. }
  split_and!.
  - rewrite H2. destruct (row st1 k) as [r|] eqn:Er; unfold row; cbn.
    + apply bm_store_eq. by exists r.
    + apply bm_update_eq.
  - intros k' Hne. rewrite H2. unfold row at 1. cbn. destruct (row st1 k) eqn:Er.
    + by rewrite bm_store_ne by (eauto || done).
    + by rewrite bm_update_ne by done.
  - intros Hd es' kr2 t2 req2 Hk2 Hes'. cbn [it_step]. rewrite done_cases, Hk2.
    unfold it_run. rewrite (fold_frame (it_step cfg)
      (fun st => bpf_map_lookup_elem (start_info_map st) hk) (uses_start cfg hk))
      by (done || apply start_frame).
    rewrite H2. cbn. by rewrite bm_delete_eq.
Qed.

(** ** Well-formed rows *)

Definition latency_ok (l : latency_info) : Prop :=
  is_u64 (cnt l) /\ is_u64 (max_d2c l) /\ is_u64 (sum_d2c l) /\
  is_u64 (max_q2c l) /\ is_u64 (sum_q2c l).

Record row_ok (k : io_key) (r : io_data) : Prop := {
  ro_dev : dev r = key_dev k;
  ro_inode : inode r = key_inode k;
  ro_flag : path_initialized r = 0 \/ path_initialized r = 1;
  ro_path : length (filepath r) = FILEPATH_MAX_DEPTH /\
            Forall (fun b => length b = DNAME_INLINE_LEN) (filepath r);
  ro_comm : length (comm r) = TASK_COMM_LEN;
  ro_bytes : is_u64 (fs_write_bytes r) /\ is_u64 (fs_read_bytes r) /\
             is_u64 (block_write_bytes r) /\ is_u64 (block_read_bytes r);
  ro_latency : latency_ok (latency r);
  ro_unseen : path_initialized r = 0 ->
    filepath r = zero_filepath /\ fs_write_bytes r = 0 /\ fs_read_bytes r = 0 /\ flag r = 0;
}.

Record rows_ok st : Prop := {
  rs_rows : forall k r, row st k = Some r -> row_ok k r;
  rs_start : forall hk info, bpf_map_lookup_elem (start_info_map st) hk = Some info ->
    length (si_comm info) = TASK_COMM_LEN;
}.

(** The running task's name has its sixteen bytes. *)
Definition comm_ok (e : it_input) : Prop :=
  match e with
  | RqIssue _ cx _ | FileRead _ cx _ _ | FileWrite _ cx _ _ | PageMkwrite _ cx _
  | FilemapFault _ cx _ => length (current_comm cx) = TASK_COMM_LEN
  | _ => True
  end.

Lemma mark_truncated_length b : length (mark_truncated b) = length b.
Proof. unfold mark_truncated. case_match; [|done]. by rewrite !length_insert. Qed.

Lemma path_walk_shape kr : forall rows d,
  Forall (fun b => length b = DNAME_INLINE_LEN) rows ->
  length (path_walk kr d rows) = length rows /\
  Forall (fun b => length b = DNAME_INLINE_LEN) (path_walk kr d rows).
Proof.
  induction rows as [|b rows IH]; intros d Hf; [done|]. cbn [path_walk].
  apply Forall_cons_iff in Hf as [Hb Hf]. destruct (d =? 0); [by split; [|constructor]|].
  assert (Hl : length (read_str_into (<[0%nat:=0]> b) (dentry_name kr d)) = DNAME_INLINE_LEN).
  { rewrite read_str_length; rewrite length_insert, Hb; [done|cbv; lia]. }
  destruct (_ =? 0); cbn; [by split; [|constructor]|]. destruct (IH (dentry_parent kr d) Hf) as [H1 H2].
  rewrite H1. split; [done|]. constructor; [|done]. by rewrite mark_truncated_length.
Qed.

Lemma init_row_ok kr cx d k r :
  length (current_comm cx) = TASK_COMM_LEN -> row_ok k r ->
  row_ok k (init_io_data kr cx d (key_dev k) (key_inode k) r).
Proof.
  intros Hc [H1 H2 H3 [H4 H5] H6 H7 H8 H9]. split; cbn; try done; [by right|].
  destruct (path_walk_shape kr (filepath r) d H5) as [-> ?]. auto.
Qed.

Lemma zero_row_ok kr cx d k :
  length (current_comm cx) = TASK_COMM_LEN ->
  row_ok k (init_io_data kr cx d (key_dev k) (key_inode k) zero_io_data).
Proof.
  intros Hc. split; cbn -[zero_filepath path_walk]; try done; [by right|].
  destruct (path_walk_shape kr zero_filepath d) as [-> ?]; [|done].
  by apply Forall_replicate.
Qed.

Lemma add_latency_ok q d l : is_u64 q -> is_u64 d -> latency_ok l -> latency_ok (add_latency q d l).
Proof.
  intros Hq Hd (? & ? & ? & ? & ?). unfold add_latency.
  split_and!; cbn; repeat case_match; auto with bpf.
Qed.

Lemma completion_row_ok kr req t info k r :
  row_ok k r -> row_ok k (add_completion kr req t info r).
Proof.
  intros [H1 H2 H3 H4 H5 (B1 & B2 & B3 & B4) H7 H8]. unfold add_completion.
  destruct (is_write_request _); split; cbn; try done;
    try (split_and!; auto with bpf); apply add_latency_ok; auto with bpf.
Qed.

Lemma new_row_ok kr req t info :
  length (si_comm info) = TASK_COMM_LEN ->
  row_ok (source_key info) (new_block_row info (add_completion kr req t info zero_io_data)).
Proof.
  intros Hc. unfold add_completion.
  destruct (is_write_request _); split; cbn -[read_str_into zero_filepath]; try done;
    try (by left); try (by rewrite read_str_length; [|cbv; lia]);
    try (split_and!; auto with bpf; done); try (by apply add_latency_ok; auto with bpf);
    by split; [|apply Forall_replicate].
Qed.

Lemma rows_ok_source st m :
  rows_ok st -> (forall k r, bpf_map_lookup_elem m k = Some r -> row_ok k r) ->
  rows_ok (set_source st m).
Proof. intros [H1 H2] H. by split. Qed.

Lemma rows_ok_store st k r :
  rows_ok st -> is_Some (row st k) -> row_ok k r ->
  rows_ok (set_source st (map_store (io_source_map st) k r)).
Proof.
  intros H Hs Hr. apply rows_ok_source; [done|]. intros k' r'.
  rewrite store_lookup by done. case_decide; [naive_solver|]. by apply rs_rows.
Qed.

Lemma create_rows_ok kr cx k file st :
  length (current_comm cx) = TASK_COMM_LEN -> rows_ok st ->
  rows_ok (snd (create_file_io_entry kr cx k file st)).
Proof.
  intros Hc H. unfold create_file_io_entry.
  pose proof (bm_update_cases (io_source_map st) k (init_io_data kr cx (file_dentry kr file)
    (key_dev k) (key_inode k) zero_io_data) BPF_NOEXIST) as Hu.
  destruct (bpf_map_update_elem _ _ _ _) as [err m]. cbn in Hu.
  assert (Hm : rows_ok (set_source st m)).
  { apply rows_ok_source; [done|]. intros k' r' Hl. apply Hu in Hl as [[-> ->]|Hl].
    - by apply zero_row_ok.
    - by apply (rs_rows _ H). }
  cbn [snd]. destruct Hm as [Hm1 Hm2]. repeat case_match; by split.
Qed.

(** The row a file hook obtains has its path, and the state stays well formed. *)
Lemma get_entry_ok kr cx k file st r st' :
  length (current_comm cx) = TASK_COMM_LEN -> rows_ok st ->
  get_file_io_entry kr cx k file st = (r, st') ->
  rows_ok st' /\ (forall e, r = Some e -> path_initialized e = 1).
Proof.
  intros Hc H. unfold get_file_io_entry.
  assert (Hmid : forall r0 st0, rows_ok st0 -> r0 = row st0 k ->
    match r0 with
    | None => (None, st0)
    | Some e => if path_initialized e =? 0
        then (Some (init_io_data kr cx (file_dentry kr file) (key_dev k) (key_inode k) e),
              set_source st0 (map_store (io_source_map st0) k
                (init_io_data kr cx (file_dentry kr file) (key_dev k) (key_inode k) e)))
        else (Some e, st0)
    end = (r, st') -> rows_ok st' /\ (forall e, r = Some e -> path_initialized e = 1)).
  { intros r0 st0 H0 Hr0 E. destruct r0 as [e|]; [|simplify_eq; split; [done|by intros ? ?]].
    pose proof (rs_rows _ H0 k e (eq_sym Hr0)) as He.
    destruct (Z.eqb_spec (path_initialized e) 0); simplify_eq.
    - split; [|by intros ? [= <-]]. apply rows_ok_store; [done|by rewrite <- Hr0|by apply init_row_ok].
    - split; [done|]. intros ? [= <-]. destruct (ro_flag _ _ He); [done|done]. }
  pose proof (create_rows_ok kr cx k file st Hc H) as H1.
  pose proof (create_returns kr cx k file st) as H2.
  destruct (create_file_io_entry kr cx k file st) as [rc stc]. cbn [fst snd] in H1, H2.
  fold (row st k). destruct (row st k) as [e|] eqn:Er.
  - exact (Hmid (Some e) st H (eq_sym Er)).
  - destruct (io_source_full st) as [full|]; [destruct (ctrue full)|].
    + exact (Hmid None st H (eq_sym Er)).
    + exact (Hmid rc stc H1 H2).
    + exact (Hmid rc stc H1 H2).
Qed.

Lemma file_op_ok kr cx k file f st :
  length (current_comm cx) = TASK_COMM_LEN -> rows_ok st ->
  (forall e, row_ok k e -> path_initialized e = 1 -> row_ok k (f e)) ->
  rows_ok (update_row k f (get_file_io_entry kr cx k file st)).
Proof.
  intros Hc H Hf. destruct (get_file_io_entry kr cx k file st) as [r st'] eqn:E.
  pose proof (get_entry_row _ _ _ _ _ _ _ E) as (Hr & _ & _).
  apply get_entry_ok in E as [Hok Hp]; [|done|done]. unfold update_row.
  destruct r as [e|]; [|done]. apply rows_ok_store; [done|by rewrite <- Hr|].
  apply Hf; [|by apply Hp]. by apply (rs_rows _ Hok).
Qed.

(** A row with its path stays well formed when bytes or flags are added. *)
Lemma add_fs_write_ok k n e : row_ok k e -> path_initialized e = 1 -> row_ok k (add_fs_write n e).
Proof.
  intros [? ? ? ? ? (? & ? & ? & ?) ? ?] Hp. split; cbn; try done; [split_and!; auto with bpf|lia].
Qed.
Lemma add_fs_read_ok k n e : row_ok k e -> path_initialized e = 1 -> row_ok k (add_fs_read n e).
Proof.
  intros [? ? ? ? ? (? & ? & ? & ?) ? ?] Hp. split; cbn; try done; [split_and!; auto with bpf|lia].
Qed.
Lemma set_flag_ok k n e : row_ok k e -> path_initialized e = 1 -> row_ok k (set_flag n e).
Proof. intros [] Hp. split; cbn; try done. lia. Qed.

#[local] Hint Resolve add_fs_write_ok add_fs_read_ok set_flag_ok : io_rows.

Lemma rows_ok_step cfg st e : comm_ok e -> rows_ok st -> rows_ok (it_step cfg st e).
Proof.
  intros Hc H.
  destruct e as [kr cx req|kr t req|kr cx iocb from|kr cx iocb from|kr cx vm|kr cx vm|cx|cx|cx|cx];
    cbn [it_step comm_ok] in *.
  - rewrite issue_cases. destruct (ctrue _); [done|]. destruct (request_key cfg kr req) as [hk|]; [|done].
    destruct H as [H1 H2]. split; [done|]. cbn. intros hk' info [[-> ->]|Hl]%bm_update_cases; [done|eauto].
  - rewrite done_cases. destruct (request_key cfg kr req) as [hk|]; [|done].
    destruct (bpf_map_lookup_elem (start_info_map st) hk) as [info|] eqn:Hi; [|done].
    assert (Hs : rows_ok (match data_request (rq_cmd_flags kr req) with
      | Some _ => set_source st (match row st (source_key info) with
          | Some e => map_store (io_source_map st) (source_key info) (add_completion kr req t info e)
          | None => snd (bpf_map_update_elem (io_source_map st) (source_key info)
              (new_block_row info (add_completion kr req t info zero_io_data)) BPF_ANY) end)
      | None => st end)).
    { destruct (data_request _); [|done]. destruct (row st (source_key info)) as [r|] eqn:Er.
      - apply rows_ok_store; [done|by exists r|]. apply completion_row_ok. by apply (rs_rows _ H).
      - apply rows_ok_source; [done|]. intros k' r' [[-> ->]|Hl]%bm_update_cases; [|by apply (rs_rows _ H)].
        apply new_row_ok. by apply (rs_start _ H hk). }
    destruct Hs as [H1 H2]. split; [by apply H1|]. cbn. intros hk' info' Hl%bm_delete_sub.
    by apply (rs_start _ H hk').
  - unfold bpf_anyfs_file_read_iter, bpf_file_read_write.
    destruct (fetch_file _ _) as [ino fl]. destruct (fetch_inode _ _) as [d nm].
    destruct (should_process_device cfg d); cbn [negb]; [|done]. apply file_op_ok; auto with io_rows.
  - unfold bpf_anyfs_file_write_iter, bpf_file_read_write.
    destruct (fetch_file _ _) as [ino fl]. destruct (fetch_inode _ _) as [d nm].
    destruct (should_process_device cfg d); cbn [negb]; [|done]. apply file_op_ok; auto with io_rows.
  - unfold bpf_anyfs_filemap_page_mkwrite.
    destruct (should_process_device cfg _); cbn [negb]; [|done]. apply file_op_ok; auto with io_rows.
  - unfold bpf_filemap_fault.
    destruct (should_process_device cfg _); cbn [negb]; [|done]. apply file_op_ok; auto with io_rows.
  - by destruct H.
  - by destruct H.
  - unfold bpf_return_io_schedule, detect_io_schedule_return. destruct H. repeat case_match; by split.
  - unfold bpf_return_io_schedule_timeout, detect_io_schedule_return.
    destruct H. repeat case_match; by split.
Qed.

Lemma rows_ok_run cfg es : forall st,
  Forall comm_ok es -> rows_ok st -> rows_ok (it_run cfg st es).
Proof.
  induction es as [|e es IH]; intros st Hf H; [done|]. apply Forall_cons_iff in Hf as [He Hf].
  apply IH; [done|]. by apply rows_ok_step.
Qed.

(** Type invariant of a capture started empty: each row is filed under its own
    device and inode, its strings have their fixed sizes, its counters are 64-bit
    values, and a row without a path was only seen by completions: it has no file
    bytes, no flags and an empty path. *)
Theorem rows_well_formed cfg st es k r :
  (forall k', row st k' = None) ->
  (forall hk, bpf_map_lookup_elem (start_info_map st) hk = None) ->
  Forall comm_ok es -> row (it_run cfg st es) k = Some r -> row_ok k r.
Proof.
  intros H1 H2 Hes Hr. assert (H0 : rows_ok st) by (split; intros; congruence).
  apply (rows_ok_run cfg es st Hes) in H0. by apply (rs_rows _ H0).
Qed.

(** Buffered IO of a file and the requests behind it meet in one row: the inode of
    the request's page gives the key of the file operation, unless it is the inode
    of a block device. *)
Lemma buffered_io_shares_row kr cx req d file :
  bio_page_inode kr (rq_bio kr req) = file_inode kr file ->
  inode_ino kr (file_inode kr file) <> 0 -> inode_rdev kr (file_inode kr file) = 0 ->
  source_key (start_info kr cx req d) = plain_key kr file.
Proof.
  intros Hb Hi Hr. unfold source_key, start_info, plain_key. cbn. rewrite Hb.
  rewrite (proj2 (Z.eqb_neq _ 0) Hi). unfold ctrue. by rewrite Hr.
Qed.

(** ** Sleeping tasks *)

Definition sleep_call_of (tid : Z) (e : it_input) : bool :=
  match e with
  | IoSchedule cx | IoScheduleTimeout cx | IoScheduleRet cx | IoScheduleTimeoutRet cx => tid_of cx =? tid
  | _ => false
  end.

Lemma create_sched kr cx k file st :
  io_schedule_stack (snd (create_file_io_entry kr cx k file st)) = io_schedule_stack st.
Proof. unfold create_file_io_entry. destruct (bpf_map_update_elem _ _ _ _). by repeat case_match. Qed.

Lemma file_op_sched kr cx k file f st :
  io_schedule_stack (update_row k f (get_file_io_entry kr cx k file st)) = io_schedule_stack st.
Proof.
  unfold get_file_io_entry. pose proof (create_sched kr cx k file st) as H.
  destruct (create_file_io_entry kr cx k file st) as [r0 st0]. cbn in H.
  unfold update_row. repeat (case_match; simplify_eq/=); done.
Qed.

Lemma sleep_return_frame cfg cx tid st :
  tid_of cx <> tid ->
  bpf_map_lookup_elem (io_schedule_stack (detect_io_schedule_return cfg cx st)) tid =
  bpf_map_lookup_elem (io_schedule_stack st) tid.
Proof.
  intros Hne. unfold detect_io_schedule_return.
  destruct (bpf_map_lookup_elem (io_schedule_stack st) (tid_of cx)) eqn:E; [|done].
  case_match; cbn; rewrite bm_delete_ne by done; [|done]. by rewrite ?bm_store_ne by eauto.
Qed.

Lemma sleep_frame cfg tid st e :
  sleep_call_of tid e = false ->
  bpf_map_lookup_elem (io_schedule_stack (it_step cfg st e)) tid =
  bpf_map_lookup_elem (io_schedule_stack st) tid.
Proof.
  destruct e as [kr cx req|kr t req|kr cx iocb from|kr cx iocb from|kr cx vm|kr cx vm|cx|cx|cx|cx];
    cbn [it_step sleep_call_of]; intros Hs; try apply Z.eqb_neq in Hs.
  - unfold bpf_rq_qos_issue. by repeat case_match.
  - rewrite done_cases. by repeat case_match.
  - unfold bpf_anyfs_file_read_iter, bpf_file_read_write. repeat case_match; rewrite ?file_op_sched; done.
  - unfold bpf_anyfs_file_write_iter, bpf_file_read_write. repeat case_match; rewrite ?file_op_sched; done.
  - unfold bpf_anyfs_filemap_page_mkwrite. case_match; rewrite ?file_op_sched; done.
  - unfold bpf_filemap_fault. case_match; rewrite ?file_op_sched; done.
  - cbn. by rewrite bm_update_ne.
  - cbn. by rewrite bm_update_ne.
  - by apply sleep_return_frame.
  - by apply sleep_return_frame.
Qed.

(** A task that enters an IO sleep and returns is reported exactly when it slept
    longer than the timeout, with the stack and name of its entry and the measured
    duration, whatever other tasks do meanwhile; the record of the sleep is gone
    afterwards. *)
Theorem long_io_sleep_reported cfg st cx cx' es :
  tid_of cx' = tid_of cx ->
  let entry := DelayEvent (stack cx) (now cx) 0 (stack_size cx) 0 0 0 (current_comm cx) in
  fst (bpf_map_update_elem (io_schedule_stack st) (tid_of cx) entry BPF_ANY) = 0 ->
  Forall (fun e => sleep_call_of (tid_of cx) e = false) es ->
  let st1 := it_run cfg (it_step cfg st (IoSchedule cx)) es in
  let st2 := it_step cfg st1 (IoScheduleRet cx') in
  let slept := now cx' -64 now cx in
  let report := DelayEvent (stack cx) (now cx) slept (stack_size cx) (Z.shiftr (pid_tgid cx') 32)
                  (tid_of cx) (cpu cx') (current_comm cx) in
  let sleeps := if FILTER_EVENT_TIMEOUT cfg <? slept
                then map_store (io_schedule_stack st1) (tid_of cx) report
                else io_schedule_stack st1 in
  iodelay_perf_events st2 =
    iodelay_perf_events st1 ++ (if FILTER_EVENT_TIMEOUT cfg <? slept then [report] else []) /\
  (io_source_map st2 = io_source_map st1 /\ start_info_map st2 = start_info_map st1) /\
  (fst (bpf_map_delete_elem sleeps (tid_of cx)) = 0 ->
   bpf_map_lookup_elem (io_schedule_stack st2) (tid_of cx) = None).
Proof.
  intros Ht entry Hu Hes st1 st2 slept report sleeps.
  assert (Hl : bpf_map_lookup_elem (io_schedule_stack st1) (tid_of cx) = Some entry).
  { subst st1. unfold it_run.
    rewrite (fold_frame (it_step cfg) (fun st => bpf_map_lookup_elem (io_schedule_stack st) (tid_of cx))
      (sleep_call_of (tid_of cx))) by (done || apply sleep_frame). by apply bm_update_eq. }
  subst st2. cbn [it_step]. unfold bpf_return_io_schedule, detect_io_schedule_return.
  rewrite Ht, Hl. cbn [entry de_start_ns de_stack de_stack_size de_comm]. fold slept.
  subst sleeps. destruct (FILTER_EVENT_TIMEOUT cfg <? slept); cbn; rewrite ?app_nil_r;
    split_and!; try done; intros Hd; by apply bm_delete_eq.
Qed.
End Properties.

(** ** Concrete runs *)

(** File 10 is [log] in [var] (inode object 20, number 7, super block 30 of device
    8388609); request 40 writes its page back through part 50 of that device. *)
Definition sample_it_kernel : it_kernel := {|
  rq_bio := fun _ => 45;
  rq_cmd_flags := fun _ => 1;
  rq_part := fun _ => Some 50;
  hd_struct_devt := fun _ => Some 8388609;
  bdev_bd_dev := fun _ => Some 8388609;
  rq_sector := fun _ => 2048;
  rq_data_len := fun _ => 4096;
  rq_start_time_ns := fun _ => 100;
  rq_io_start_time_ns := fun _ => 150;
  bio_page_inode := fun _ => 2000;
  bio_blkg := fun _ => 60;
  inode_rdev := fun _ => 0;
  sb_s_dev := fun _ => 8388609;
  iocb_filp := fun _ => 1000;
  iter_count := fun _ => 512;
  vmf_vma := fun _ => 70;
  vma_file := fun _ => 1000;
  file_dentry := fun _ => 80;
  dentry_name := fun d => if d =? 80 then Some [108; 111; 103]
                          else if d =? 81 then Some [118; 97; 114] else None;
  dentry_parent := fun d => d + 1;
  off_f_inode := 32;
  off_f_flags := 64;
  off_i_sb := 40;
  off_i_ino := 64;
  readable := fun _ _ => true;
  ld32 := fun _ => 2;
  ld64 := fun a => if a =? 1032 then 2000 else if a =? 2040 then 3000 else 7;
|}.

Definition sample_cx (t : Z) : task_ctx := TaskCtx (5 * 2 ^ 32 + 6) t 0 zero_comm [] 0.
Definition sample_it_config : it_config := ItConfig [] 0 50 false.
Definition empty_it_state : it_state :=
  ItState (M := faulty_ops) (FaultyHash ∅ 8 []) (Some 0) (FaultyHash ∅ 8 []) (FaultyHash ∅ 8 []) [].
Definition sample_key : io_key := IoKey 0 8388609 7.

(** A file write, then its write-back. *)
Definition after_write : it_state :=
  it_step sample_it_config empty_it_state (FileWrite sample_it_kernel (sample_cx 10) 1 2).
Definition sample_row : io_data :=
  default zero_io_data (row after_write sample_key).

Lemma file_hook_reads_plain_witness :
  bpf_file_read_write sample_it_config sample_it_kernel (sample_cx 10) 1 2 true empty_it_state =
  update_row sample_key (fun entry => set_flag 2 (add_fs_write 512 entry))
    (get_file_io_entry sample_it_kernel (sample_cx 10) sample_key 1000 empty_it_state).
Proof.
  apply (file_hook_reads_plain sample_it_config sample_it_kernel (sample_cx 10) 1 2 true empty_it_state).
  repeat split.
Defined.

Lemma existing_row_is_ledger_witness :
  exists r', row (it_run sample_it_config after_write
    [RqIssue sample_it_kernel (sample_cx 20) 40; RqDone sample_it_kernel 200 40]) sample_key = Some r' /\
    acct_of r' = Acct 512 0 4096 0 (LatencyInfo 1 50 50 100 100).
Proof.
  apply (existing_row_is_ledger sample_it_config sample_key after_write
    [RqIssue sample_it_kernel (sample_cx 20) 40; RqDone sample_it_kernel 200 40] sample_row).
  vm_compute. reflexivity.
Defined.

Lemma request_settled_once_witness :
  row (it_run sample_it_config empty_it_state
    [RqIssue sample_it_kernel (sample_cx 20) 40; FileRead sample_it_kernel (sample_cx 30) 1 2;
     RqDone sample_it_kernel 200 40]) sample_key =
  Some (add_completion sample_it_kernel 40 200 (start_info sample_it_kernel (sample_cx 20) 40 8388609)
    (default zero_io_data (row (it_run sample_it_config empty_it_state
      [RqIssue sample_it_kernel (sample_cx 20) 40; FileRead sample_it_kernel (sample_cx 30) 1 2]) sample_key))).
Proof.
  refine (proj1 (request_settled_once sample_it_config empty_it_state sample_it_kernel (sample_cx 20) 40
    (HashKey 8388609 2048) [FileRead sample_it_kernel (sample_cx 30) 1 2] sample_it_kernel 200 40 true
    eq_refl eq_refl eq_refl eq_refl eq_refl _)).
  repeat constructor.
Defined.

Lemma rows_well_formed_witness :
  row_ok sample_key sample_row.
Proof.
  apply (rows_well_formed sample_it_config empty_it_state [FileWrite sample_it_kernel (sample_cx 10) 1 2]).
  - intros k'. apply lookup_empty.
  - intros hk. apply lookup_empty.
  - repeat constructor.
  - vm_compute. reflexivity.
Defined.

Lemma long_io_sleep_reported_witness :
  iodelay_perf_events (it_run sample_it_config empty_it_state
    [IoSchedule (sample_cx 10); FileRead sample_it_kernel (sample_cx 30) 1 2; IoScheduleRet (sample_cx 100)]) =
  [DelayEvent [] 10 90 0 5 6 0 zero_comm].
Proof.
  refine (proj1 (long_io_sleep_reported sample_it_config empty_it_state (sample_cx 10) (sample_cx 100)
    [FileRead sample_it_kernel (sample_cx 30) 1 2] eq_refl eq_refl _)).
  repeat constructor.
Defined.

(** The path of the sample file: [log], [var], and six empty rows. *)
Lemma sample_path :
  map until_nul (filepath sample_row) = [[108; 111; 103]; [118; 97; 114]; []; []; []; []; []; []].
Proof. vm_compute. reflexivity. Qed.
End IoTracingLedger.
