(* ===== verification/SoftIrq.v ===== *)
(** * Softirq latency ([bpf/system_softirq.c])

    Per CPU and softirq vector the tracer measures the time from the first raise
    to the next entry and counts it in one of four zones.  Module [SoftIrq] models
    both programs and proves that the zone counters are the histogram of exactly
    those latencies. *)

From Stdlib Require Import ZArith Lia.
From stdpp Require Import base option list gmap tactics countable.
From S2P Require Import Prelude BpfMap KernelStr.

Local Open Scope Z_scope.
Local Open Scope bpf_scope.

Module SoftIrq.

(** [NR_SOFTIRQS] is the kernel's number of vectors, [NR_SOFTIRQS_MAX] the size of
    the map. *)
Definition NR_SOFTIRQS : Z := 10.
Definition NR_SOFTIRQS_MAX : Z := 16.
Definition NSEC_PER_USEC : Z := 1000.
Definition NSEC_PER_MSEC : Z := 1000000.

Definition LAT_ZONE0 : nat := 0.
Definition LAT_ZONE1 : nat := 1.
Definition LAT_ZONE2 : nat := 2.
Definition LAT_ZONE3 : nat := 3.
Definition LAT_ZONE_MAX : nat := 4.

Record softirq_lat := SoftirqLat {
  enable : Z;
  start_ns : Z;
  latency_counts : list Z;
}.
Definition zero_lat : softirq_lat := SoftirqLat 0 0 (replicate LAT_ZONE_MAX 0).

(** The per-CPU array: vector and CPU to a slot. *)
Notation si_state := (gmap (Z * Z) softirq_lat).

Definition lat_slot (st : si_state) (vec cpu : Z) : softirq_lat := default zero_lat (st !! (vec, cpu)).

(** A lookup fails only outside the array, where an update fails too. *)
Definition lat_lookup (st : si_state) (vec cpu : Z) : option softirq_lat :=
  if vec <? NR_SOFTIRQS_MAX then Some (lat_slot st vec cpu) else None.
Definition lat_update (st : si_state) (vec cpu : Z) (lat : softirq_lat) : si_state :=
  if vec <? NR_SOFTIRQS_MAX then <[(vec, cpu) := lat]> st else st.

Definition probe_softirq_raise (vec cpu now : Z) (st : si_state) : si_state :=
  if NR_SOFTIRQS <=? vec then st
  else match lat_lookup st vec cpu with
       | None => lat_update st vec cpu (SoftirqLat 1 now (replicate LAT_ZONE_MAX 0))
       | Some lat =>
           if enable lat =? 0
           then lat_update st vec cpu (SoftirqLat 1 now (latency_counts lat))
           else st
       end.

Definition lat_zone (latency : Z) : nat :=
  if latency <? 10 * NSEC_PER_USEC then LAT_ZONE0
  else if latency <? 100 * NSEC_PER_USEC then LAT_ZONE1
  else if latency <? 1 * NSEC_PER_MSEC then LAT_ZONE2
  else LAT_ZONE3.

Definition count_zone (zone : nat) (counts : list Z) : list Z :=
  <[zone := default 0 (counts !! zone) +64 1]> counts.

Definition probe_softirq_entry (vec cpu now : Z) (st : si_state) : si_state :=
  if NR_SOFTIRQS <=? vec then st
  else match lat_lookup st vec cpu with
       | None => st
       | Some lat =>
           if enable lat =? 0 then st
           else
             let latency := now -64 start_ns lat in
             lat_update st vec cpu
               (SoftirqLat 0 (start_ns lat) (count_zone (lat_zone latency) (latency_counts lat)))
       end.

Inductive si_input :=
  | Raise (vec cpu now : Z)
  | Entry (vec cpu now : Z).

Definition si_step (st : si_state) (e : si_input) : si_state :=
  match e with
  | Raise vec cpu now => probe_softirq_raise vec cpu now st
  | Entry vec cpu now => probe_softirq_entry vec cpu now st
  end.

Definition si_run (st : si_state) (es : list si_input) : si_state := fold_left si_step es st.

(** ** The reference: latencies of a vector on a CPU *)

(** [pending] is the time of the first raise since the last entry; an entry with
    a pending raise yields a latency. *)
Definition softirq_ref (vec cpu : Z) (pending : option Z) (e : si_input) : option Z * list Z :=
  match e with
  | Raise v c now =>
      (if bool_decide ((v, c) = (vec, cpu)) then Some (default now pending) else pending, [])
  | Entry v c now =>
      if bool_decide ((v, c) = (vec, cpu))
      then (None, match pending with Some start => [now -64 start] | None => [] end)
      else (pending, [])
  end.

Fixpoint softirq_latencies (vec cpu : Z) (pending : option Z) (es : list si_input) : list Z :=
  match es with
  | [] => []
  | e :: es =>
      let '(pending, l) := softirq_ref vec cpu pending e in l ++ softirq_latencies vec cpu pending es
  end.

Definition in_zone (z : nat) (l : list Z) : Z :=
  Z.of_nat (length (filter (fun x => lat_zone x = z) l)).

(** The slot and the pending raise agree. *)
Definition slot_rel (lat : softirq_lat) (pending : option Z) : Prop :=
  length (latency_counts lat) = LAT_ZONE_MAX /\
  match pending with
  | None => enable lat = 0
  | Some start => enable lat = 1 /\ start_ns lat = start
  end.

Lemma lat_zone_lt x : (lat_zone x < LAT_ZONE_MAX)%nat.
Proof. unfold lat_zone. repeat case_match; cbv; lia. Qed.

Lemma slot_insert st v c vec cpu lat :
  lat_slot (<[(v, c) := lat]> st) vec cpu =
  if bool_decide ((v, c) = (vec, cpu)) then lat else lat_slot st vec cpu.
Proof.
  unfold lat_slot. case_bool_decide as H; [by rewrite H, lookup_insert_eq|].
  by rewrite lookup_insert_ne.
Qed.

Lemma lookup_in_range st v c :
  v < NR_SOFTIRQS -> lat_lookup st v c = Some (lat_slot st v c) /\
  forall lat, lat_update st v c lat = <[(v, c) := lat]> st.
Proof.
  intros Hv. unfold lat_lookup, lat_update, NR_SOFTIRQS, NR_SOFTIRQS_MAX in *.
  rewrite (proj2 (Z.ltb_lt v 16)) by lia. done.
Qed.

Lemma count_zone_lookup zone counts z :
  (zone < length counts)%nat ->
  default 0 (count_zone zone counts !! z) =
  if (zone =? z)%nat then default 0 (counts !! zone) +64 1 else default 0 (counts !! z).
Proof.
  intros Hl. unfold count_zone. destruct (Nat.eqb_spec zone z) as [->|Hne].
  - by rewrite list_lookup_insert_eq.
  - by rewrite list_lookup_insert_ne.
Qed.

Notation zone_count lat z := (default 0 (latency_counts lat !! z)) (only parsing).

(** What a program leaves in the slot of [vec] and [cpu]. *)
Definition slot_after (lat : softirq_lat) (e : si_input) : softirq_lat :=
  match e with
  | Raise _ _ now => if enable lat =? 0 then SoftirqLat 1 now (latency_counts lat) else lat
  | Entry _ _ now =>
      if enable lat =? 0 then lat
      else SoftirqLat 0 (start_ns lat)
             (count_zone (lat_zone (now -64 start_ns lat)) (latency_counts lat))
  end.
Definition input_slot (e : si_input) : Z * Z :=
  match e with Raise v c _ | Entry v c _ => (v, c) end.

Lemma step_slot st e vec cpu :
  vec < NR_SOFTIRQS ->
  lat_slot (si_step st e) vec cpu =
  if bool_decide (input_slot e = (vec, cpu)) then slot_after (lat_slot st vec cpu) e
  else lat_slot st vec cpu.
Proof.
  intros Hv. destruct e as [v c now|v c now]; cbn [si_step input_slot slot_after];
    unfold probe_softirq_raise, probe_softirq_entry;
    (destruct (Z.leb_spec NR_SOFTIRQS v); [case_bool_decide; [simplify_eq; lia|done]|]);
    destruct (lookup_in_range st v c ltac:(lia)) as [-> Hup]; rewrite ?Hup;
    (destruct (enable (lat_slot st v c) =? 0) eqn:E; rewrite ?slot_insert;
      case_bool_decide; simplify_eq; by rewrite ?E).
Qed.

Lemma slot_after_ref lat e vec cpu pending z :
  (z < LAT_ZONE_MAX)%nat -> input_slot e = (vec, cpu) -> slot_rel lat pending ->
  is_u64 (zone_count lat z) ->
  slot_rel (slot_after lat e) (fst (softirq_ref vec cpu pending e)) /\
  zone_count (slot_after lat e) z = u64 (zone_count lat z + in_zone z (snd (softirq_ref vec cpu pending e))).
Proof.
  intros Hz Hin [Hlen Hrel] Hu.
  assert (H0 : zone_count lat z = u64 (zone_count lat z + in_zone z [])) by
    (unfold in_zone; cbn; by rewrite Z.add_0_r, u64_small).
  destruct e as [v c now|v c now]; cbn in Hin; simplify_eq;
    cbn [slot_after softirq_ref]; rewrite bool_decide_true by done; cbn [fst snd];
    destruct pending as [s|]; [pose proof Hrel as [He Hs]|rename Hrel into He|pose proof Hrel as [He Hs]|rename Hrel into He];
    rewrite He; cbn [Z.eqb].
  - by split.
  - by split.
  - pose proof (lat_zone_lt (now -64 s)). split; [split; [cbn; unfold count_zone; by rewrite length_insert|done]|].
    cbn [latency_counts]. rewrite Hs, count_zone_lookup by lia. unfold in_zone. rewrite filter_cons.
    destruct (Nat.eqb_spec (lat_zone (now -64 s)) z) as [->|Hne].
    + by rewrite decide_True.
    + rewrite decide_False by done. exact H0.
  - by split.
Qed.

(** C32: for every vector and CPU each zone counter grows, modulo 2^64, by exactly the
    number of latencies of that zone, a latency being the time from the first raise after an
    entry to the next entry on that CPU; raises in between, entries without a
    raise and the other vectors and CPUs count nothing. *)
Theorem softirq_counters_are_histogram vec cpu z : forall es st pending,
  vec < NR_SOFTIRQS -> (z < LAT_ZONE_MAX)%nat ->
  slot_rel (lat_slot st vec cpu) pending ->
  is_u64 (default 0 (latency_counts (lat_slot st vec cpu) !! z)) ->
  default 0 (latency_counts (lat_slot (si_run st es) vec cpu) !! z) =
  u64 (default 0 (latency_counts (lat_slot st vec cpu) !! z) +
       in_zone z (softirq_latencies vec cpu pending es)).
Proof.
  intros es. induction es as [|e es IH]; intros st pending Hv Hz Hrel Hu.
  { cbn. unfold in_zone. cbn. by rewrite Z.add_0_r, u64_small. }
  change (si_run st (e :: es)) with (si_run (si_step st e) es).
  assert (Hstep : slot_rel (lat_slot (si_step st e) vec cpu) (fst (softirq_ref vec cpu pending e)) /\
    zone_count (lat_slot (si_step st e) vec cpu) z =
      u64 (zone_count (lat_slot st vec cpu) z + in_zone z (snd (softirq_ref vec cpu pending e)))).
  { rewrite step_slot by done. case_bool_decide as E; [by apply slot_after_ref|].
    assert (Hsame : softirq_ref vec cpu pending e = (pending, [])) by
      (destruct e; cbn in *; by rewrite bool_decide_false).
    rewrite Hsame. split; [done|]. unfold in_zone. cbn. by rewrite Z.add_0_r, u64_small. }
  destruct Hstep as [Hr Hc]. cbn [softirq_latencies].
  destruct (softirq_ref vec cpu pending e) as [p l]. cbn [fst snd] in *.
  rewrite (IH _ p Hv Hz Hr) by (rewrite Hc; auto with bpf). rewrite Hc, u64_add_idemp_l.
  unfold in_zone. rewrite list.filter_app, length_app. f_equal. lia.
Qed.

Lemma softirq_counters_are_histogram_witness :
  default 0 (latency_counts (lat_slot (si_run ∅
    [Raise 3 0 100; Raise 3 1 200; Raise 3 0 5000; Entry 3 0 30100; Entry 3 0 40000]) 3 0) !! 1%nat) = 1.
Proof.
  refine (eq_trans (softirq_counters_are_histogram 3 0 1
    [Raise 3 0 100; Raise 3 1 200; Raise 3 0 5000; Entry 3 0 30100; Entry 3 0 40000] ∅ None _ _ _ _) _).
  - reflexivity.
  - cbv; lia.
  - split; reflexivity.
  - split; [apply Z.le_refl|reflexivity].
  - vm_compute. reflexivity.
Defined.
End SoftIrq.
