(* ===== verification/SchedTick.v ===== *)
(** * Scheduler tick gaps ([bpf/sched_tick.c], [bpf/include/abi/sched_tick_types.h])

    Per CPU the tracer measures the time between two scheduler ticks and reports a
    gap above the threshold, at most ten per window; while the tick is stopped
    (NO_HZ) nothing is measured, and measuring resumes at the restart.  Module
    [SchedTick] models the three programs and proves that the reports of a CPU are
    the gaps of a small reference machine, admitted by the rate limit policy. *)

From Stdlib Require Import ZArith Lia.
From stdpp Require Import base option list gmap tactics countable.
From S2P Require Import Prelude BpfMap KernelStr Ratelimit.

Local Open Scope Z_scope.
Local Open Scope bpf_scope.

Module SchedTick.
Import Ratelimit.

Definition SCHED_TICK_REPORT_WINDOW_NS : Z := 1000000000.
Definition MAX_SCHED_TICK_REPORTS_PER_CPU_PER_SECOND : Z := 10.

Record sched_tick_state := TickState {
  last_tick_ns : Z;
  report_ratelimit : bpf_percpu_ratelimit_state;
  tick_stopped : Z;
}.
Definition zero_tick_state : sched_tick_state := TickState 0 (PercpuRatelimitState 0 0) 0.

Record sched_tick_event := TickEvent {
  te_stack : list Z;
  te_stack_size : Z;
  te_tick_interval_ns : Z;
  te_comm : list Z;
  te_tgid : Z;
  te_cpu : Z;
}.
Definition zero_tick_event : sched_tick_event := TickEvent [] 0 0 [] 0 0.

(** What a tick reads: the CPU, the clock at the two places it is read, the name
    of the running task ([None]: the helper fails), its ids and its stack. *)
Record tick_ctx := TickCtx {
  tc_cpu : Z;
  tc_now : Z;
  tc_limit_now : Z;
  tc_comm : option (list Z);
  tc_pid_tgid : Z;
  tc_stack : list Z;
  tc_stack_size : Z;
}.

Record tk_state := TkState {
  sched_tick_states : option (percpu sched_tick_state);
  sched_tick_event_buf : option (percpu sched_tick_event);
  sched_tick_events : list sched_tick_event;
}.

Definition set_tick (st : tk_state) (cpu : Z) (s : sched_tick_state) : tk_state :=
  TkState (fmap (fun p => percpu_set p cpu s) (sched_tick_states st)) (sched_tick_event_buf st)
    (sched_tick_events st).
Definition set_buf (st : tk_state) (cpu : Z) (e : sched_tick_event) : tk_state :=
  TkState (sched_tick_states st) (fmap (fun p => percpu_set p cpu e) (sched_tick_event_buf st))
    (sched_tick_events st).

Definition tick_lookup (st : tk_state) (cpu : Z) : option sched_tick_state :=
  fmap (fun p => percpu_get zero_tick_state p cpu) (sched_tick_states st).
Definition buf_lookup (st : tk_state) (cpu : Z) : option sched_tick_event :=
  fmap (fun p => percpu_get zero_tick_event p cpu) (sched_tick_event_buf st).

(** The part of the tick program after the rate limit. *)
Definition report_tick (cx : tick_ctx) (tick_interval : Z) (st : tk_state) : tk_state :=
  match buf_lookup st (tc_cpu cx) with
  | None => st
  | Some event =>
      let event := TickEvent (te_stack event) (te_stack_size event) tick_interval (te_comm event)
                     (te_tgid event) (te_cpu event) in
      match tc_comm cx with
      | None => set_buf st (tc_cpu cx) event
      | Some name =>
          let event := TickEvent (tc_stack cx) (tc_stack_size cx) tick_interval name
                         (u32 (Z.shiftr (tc_pid_tgid cx) 32)) (tc_cpu cx) in
          let st := set_buf st (tc_cpu cx) event in
          TkState (sched_tick_states st) (sched_tick_event_buf st) (sched_tick_events st ++ [event])
      end
  end.

Definition trace_sched_tick_interval (threshold : Z) (cx : tick_ctx) (st : tk_state) : tk_state :=
  match tick_lookup st (tc_cpu cx) with
  | None => st
  | Some s =>
      if ctrue (tick_stopped s) then st
      else if last_tick_ns s =? 0
      then set_tick st (tc_cpu cx) (TickState (tc_now cx) (report_ratelimit s) (tick_stopped s))
      else
        let tick_interval := tc_now cx -64 last_tick_ns s in
        let s := TickState (tc_now cx) (report_ratelimit s) (tick_stopped s) in
        if tick_interval <? threshold then set_tick st (tc_cpu cx) s
        else
          let '(limited, rl) :=
            bpf_percpu_ratelimited_ns (tc_limit_now cx) (Some (report_ratelimit s))
              SCHED_TICK_REPORT_WINDOW_NS MAX_SCHED_TICK_REPORTS_PER_CPU_PER_SECOND in
          let s := TickState (last_tick_ns s) (default (report_ratelimit s) rl) (tick_stopped s) in
          let st := set_tick st (tc_cpu cx) s in
          if limited then st else report_tick cx tick_interval st
  end.

Definition trace_sched_tick_stop (cpu success : Z) (st : tk_state) : tk_state :=
  match tick_lookup st cpu with
  | None => st
  | Some s => if ctrue success then set_tick st cpu (TickState 0 (report_ratelimit s) 1) else st
  end.

Definition trace_sched_tick_restart (cpu now : Z) (st : tk_state) : tk_state :=
  match tick_lookup st cpu with
  | None => st
  | Some s => set_tick st cpu (TickState now (report_ratelimit s) 0)
  end.

Inductive tk_input :=
  | Tick (cx : tick_ctx)
  | TickStop (cpu success : Z)
  | TickRestart (cpu now : Z).

Definition tk_step (threshold : Z) (st : tk_state) (e : tk_input) : tk_state :=
  match e with
  | Tick cx => trace_sched_tick_interval threshold cx st
  | TickStop cpu success => trace_sched_tick_stop cpu success st
  | TickRestart cpu now => trace_sched_tick_restart cpu now st
  end.

Definition tk_run (threshold : Z) (st : tk_state) (es : list tk_input) : tk_state :=
  fold_left (tk_step threshold) es st.

Definition tk_start : tk_state := TkState (Some ∅) (Some ∅) [].

(** ** The reference machine of a CPU *)

(** Measuring since a tick or restart, waiting for the first tick, or stopped. *)
Inductive tick_phase :=
  | Waiting
  | Measuring (last : Z)
  | Stopped.

Definition input_cpu (e : tk_input) : Z :=
  match e with Tick cx => tc_cpu cx | TickStop cpu _ => cpu | TickRestart cpu _ => cpu end.

(** The next phase, and the gap to report with the time the limiter sees. *)
Definition tick_ref (threshold : Z) (p : tick_phase) (e : tk_input)
    : tick_phase * list (Z * tick_ctx * Z) :=
  match e with
  | Tick cx =>
      match p with
      | Stopped => (Stopped, [])
      | Waiting => (Measuring (tc_now cx), [])
      | Measuring last =>
          let gap := tc_now cx -64 last in
          (Measuring (tc_now cx),
           if gap <? threshold then [] else [(tc_limit_now cx, cx, gap)])
      end
  | TickStop _ success => (if ctrue success then Stopped else p, [])
  | TickRestart _ now => (Measuring now, [])
  end.

Fixpoint tick_gaps (threshold cpu : Z) (p : tick_phase) (es : list tk_input)
    : list (Z * tick_ctx * Z) :=
  match es with
  | [] => []
  | e :: es =>
      if input_cpu e =? cpu
      then let '(p, l) := tick_ref threshold p e in l ++ tick_gaps threshold cpu p es
      else tick_gaps threshold cpu p es
  end.

(** The record of a gap. *)
Definition gap_event (g : tick_ctx * Z) : sched_tick_event :=
  TickEvent (tc_stack (fst g)) (tc_stack_size (fst g)) (snd g) (default [] (tc_comm (fst g)))
    (u32 (Z.shiftr (tc_pid_tgid (fst g)) 32)) (tc_cpu (fst g)).

(** The reports the policy admits. *)
Definition admitted_gaps (win : option (Z * Z)) (l : list (Z * tick_ctx * Z)) : list sched_tick_event :=
  admitted_events SCHED_TICK_REPORT_WINDOW_NS MAX_SCHED_TICK_REPORTS_PER_CPU_PER_SECOND win
    (map (fun g => (fst (fst g), gap_event (snd (fst g), snd g))) l).

(** Clocks are nonzero, the limiter's does not go back, and the helper that reads
    the task's name does not fail. *)
Fixpoint ticks_ok (cpu lo : Z) (es : list tk_input) : Prop :=
  match es with
  | [] => True
  | e :: es =>
      if input_cpu e =? cpu
      then match e with
           | Tick cx => 0 < tc_now cx /\ 0 < tc_limit_now cx /\ lo <= tc_limit_now cx < 2 ^ 64 /\
                        is_Some (tc_comm cx) /\ ticks_ok cpu (tc_limit_now cx) es
           | TickStop _ _ => ticks_ok cpu lo es
           | TickRestart _ now => 0 < now /\ ticks_ok cpu lo es
           end
      else ticks_ok cpu lo es
  end.

Definition phase_rel (s : sched_tick_state) (p : tick_phase) : Prop :=
  match p with
  | Waiting => tick_stopped s = 0 /\ last_tick_ns s = 0
  | Measuring last => tick_stopped s = 0 /\ last_tick_ns s = last /\ last <> 0
  | Stopped => tick_stopped s = 1
  end.

Definition events_of (cpu : Z) (st : tk_state) : list sched_tick_event :=
  filter (fun ev => te_cpu ev = cpu) (sched_tick_events st).

(** A CPU's slot and reports are not touched by the other CPUs. *)
Lemma lookup_set st c cpu s :
  is_Some (sched_tick_states st) ->
  tick_lookup (set_tick st c s) cpu = if decide (c = cpu) then Some s else tick_lookup st cpu.
Proof.
  intros [p Hp]. unfold tick_lookup, set_tick. cbn. rewrite Hp. cbn. rewrite percpu_get_set.
  by case_decide.
Qed.

Lemma report_frame cx g st :
  sched_tick_states (report_tick cx g st) = sched_tick_states st /\
  (is_Some (sched_tick_event_buf st) -> is_Some (sched_tick_event_buf (report_tick cx g st))).
Proof.
  unfold report_tick. destruct (buf_lookup st (tc_cpu cx)); [|done].
  destruct (tc_comm cx); (split; [done|]; intros [p Hp]; cbn; rewrite Hp; by eexists).
Qed.

Lemma report_events cx g st :
  is_Some (sched_tick_event_buf st) -> is_Some (tc_comm cx) ->
  sched_tick_events (report_tick cx g st) = sched_tick_events st ++ [gap_event (cx, g)].
Proof.
  intros [p Hp] [n Hn]. unfold report_tick, buf_lookup. rewrite Hp. cbn. rewrite Hn.
  unfold gap_event. cbn. by rewrite Hn.
Qed.

Lemma report_events_cases cx g st :
  exists l, sched_tick_events (report_tick cx g st) = sched_tick_events st ++ l /\
    Forall (fun ev => te_cpu ev = tc_cpu cx) l.
Proof.
  unfold report_tick. destruct (buf_lookup st (tc_cpu cx)); [|exists []; rewrite app_nil_r; auto].
  destruct (tc_comm cx); [|exists []; rewrite app_nil_r; auto]. eexists. split; [done|]. by repeat constructor.
Qed.

Record loaded (st : tk_state) : Prop := {
  ld_states : is_Some (sched_tick_states st);
  ld_buf : is_Some (sched_tick_event_buf st);
}.

Lemma loaded_set st c s : loaded st -> loaded (set_tick st c s).
Proof. intros [[p Hp] Hb]. split; [|done]. cbn. rewrite Hp. by eexists. Qed.

Lemma filter_other_cpu cpu c l :
  c <> cpu -> Forall (fun ev => te_cpu ev = c) l -> filter (fun ev => te_cpu ev = cpu) l = [].
Proof.
  intros Hne. induction l as [|ev l IH]; intros Hf; [done|]. apply Forall_cons_iff in Hf as [He Hf].
  rewrite filter_cons, decide_False by congruence. auto.
Qed.

Lemma other_cpu threshold cpu st e :
  loaded st -> input_cpu e <> cpu ->
  loaded (tk_step threshold st e) /\
  tick_lookup (tk_step threshold st e) cpu = tick_lookup st cpu /\
  events_of cpu (tk_step threshold st e) = events_of cpu st.
Proof.
  intros Hl Hne. assert (Hsame : forall s, loaded (set_tick st (input_cpu e) s) /\
    tick_lookup (set_tick st (input_cpu e) s) cpu = tick_lookup st cpu /\
    events_of cpu (set_tick st (input_cpu e) s) = events_of cpu st).
  { intros s. split_and!; [by apply loaded_set| |done].
    rewrite lookup_set by apply Hl. by rewrite decide_False. }
  destruct e as [cx|c s|c now]; cbn [tk_step input_cpu] in *;
    unfold trace_sched_tick_interval, trace_sched_tick_stop, trace_sched_tick_restart.
  - destruct (tick_lookup st (tc_cpu cx)) as [s0|]; [|done]. destruct (ctrue (tick_stopped s0)); [done|]. destruct (last_tick_ns s0 =? 0); [apply Hsame|].
    destruct (_ <? threshold); [apply Hsame|].
    destruct (bpf_percpu_ratelimited_ns _ _ _ _) as [lim rl]. destruct lim; [apply Hsame|].
    set (s := TickState _ _ _). destruct (Hsame s) as (H1 & H2 & H3).
    set (st1 := set_tick st (tc_cpu cx) s) in *. set (gap := tc_now cx -64 _).
    destruct (report_frame cx gap st1) as [Hf Hb]. split_and!.
    + destruct H1. split; [by rewrite Hf|auto].
    + unfold tick_lookup. rewrite Hf. exact H2.
    + destruct (report_events_cases cx gap st1) as (l & He & Hall). unfold events_of.
      rewrite He, list.filter_app, (filter_other_cpu cpu (tc_cpu cx) l) by done. by rewrite app_nil_r.
  - destruct (tick_lookup st c); [|done]. destruct (ctrue s); [apply Hsame|done].
  - destruct (tick_lookup st c); [|done]. apply Hsame.
Qed.

(** A gap above the threshold goes through the limiter. *)
Lemma limited_report st s win cx gap :
  loaded st ->
  percpu_rel MAX_SCHED_TICK_REPORTS_PER_CPU_PER_SECOND (report_ratelimit s) win ->
  0 < tc_limit_now cx < 2 ^ 64 -> is_Some (tc_comm cx) ->
  pc_window_start_ns (report_ratelimit s) <= tc_limit_now cx ->
  let '(limited, r) := bpf_percpu_ratelimited_ns (tc_limit_now cx) (Some (report_ratelimit s))
    SCHED_TICK_REPORT_WINDOW_NS MAX_SCHED_TICK_REPORTS_PER_CPU_PER_SECOND in
  let st1 := set_tick st (tc_cpu cx) (TickState (tc_now cx) (default (report_ratelimit s) r) 0) in
  let st' := if limited then st1 else report_tick cx gap st1 in
  let g := [(tc_limit_now cx, cx, gap)] in
  exists rl win', tick_lookup st' (tc_cpu cx) = Some (TickState (tc_now cx) rl 0) /\ loaded st' /\
    percpu_rel MAX_SCHED_TICK_REPORTS_PER_CPU_PER_SECOND rl win' /\
    pc_window_start_ns rl <= tc_limit_now cx /\
    (forall rest, admitted_gaps win (g ++ rest) = admitted_gaps win g ++ admitted_gaps win' rest) /\
    events_of (tc_cpu cx) st' = events_of (tc_cpu cx) st ++ admitted_gaps win g.
Proof.
  intros Hl Hw Hln Hc Hle.
  pose proof (percpu_step SCHED_TICK_REPORT_WINDOW_NS MAX_SCHED_TICK_REPORTS_PER_CPU_PER_SECOND
    (report_ratelimit s) win (tc_limit_now cx) ltac:(done)
    ltac:(unfold MAX_SCHED_TICK_REPORTS_PER_CPU_PER_SECOND; lia) Hw Hln Hle) as Hst.
  destruct (next_window _ win (tc_limit_now cx)) as [start seen] eqn:En.
  destruct Hst as (rl & -> & Hw' & Hle'). change (default (report_ratelimit s) (Some rl)) with rl.
  set (s' := TickState (tc_now cx) rl 0). set (st1 := set_tick st (tc_cpu cx) s').
  assert (Hlook : tick_lookup st1 (tc_cpu cx) = Some s') by
    (subst st1; by rewrite lookup_set, decide_True by (done || apply Hl)).
  assert (Hl1 : loaded st1) by by apply loaded_set.
  assert (Hone : admitted_gaps win [(tc_limit_now cx, cx, gap)] =
    if MAX_SCHED_TICK_REPORTS_PER_CPU_PER_SECOND <=? seen then [] else [gap_event (cx, gap)]).
  { unfold admitted_gaps. cbn [map admitted_events fst snd]. by rewrite En, app_nil_r. }
  exists rl, (Some (start, seen + 1)). rewrite Hone.
  assert (Hrest : forall rest, admitted_gaps win ([(tc_limit_now cx, cx, gap)] ++ rest) =
    (if MAX_SCHED_TICK_REPORTS_PER_CPU_PER_SECOND <=? seen then [] else [gap_event (cx, gap)]) ++
    admitted_gaps (Some (start, seen + 1)) rest).
  { intros rest. unfold admitted_gaps. cbn [map app admitted_events fst snd]. by rewrite En. }
  destruct (_ <=? seen).
  - split_and!; try done. by rewrite app_nil_r.
  - destruct (report_frame cx gap st1) as [Hf Hb]. split_and!; try done.
    + unfold tick_lookup. by rewrite Hf.
    + destruct Hl1. split; [by rewrite Hf|auto].
    + unfold events_of. rewrite report_events by (done || apply Hl1).
      by rewrite list.filter_app, filter_cons, decide_True by done.
Qed.

(** One program on the CPU itself is one step of the machine and, for a gap, one
    step of the policy. *)
Lemma own_tick threshold st s p win cx :
  loaded st -> tick_lookup st (tc_cpu cx) = Some s -> phase_rel s p ->
  percpu_rel MAX_SCHED_TICK_REPORTS_PER_CPU_PER_SECOND (report_ratelimit s) win ->
  0 < tc_now cx -> 0 < tc_limit_now cx < 2 ^ 64 -> is_Some (tc_comm cx) ->
  pc_window_start_ns (report_ratelimit s) <= tc_limit_now cx ->
  let st' := trace_sched_tick_interval threshold cx st in
  let '(p', l) := tick_ref threshold p (Tick cx) in
  loaded st' /\ exists s' win', tick_lookup st' (tc_cpu cx) = Some s' /\ phase_rel s' p' /\
    percpu_rel MAX_SCHED_TICK_REPORTS_PER_CPU_PER_SECOND (report_ratelimit s') win' /\
    pc_window_start_ns (report_ratelimit s') <= tc_limit_now cx /\
    (forall rest, admitted_gaps win (l ++ rest) = admitted_gaps win l ++ admitted_gaps win' rest) /\
    events_of (tc_cpu cx) st' = events_of (tc_cpu cx) st ++ admitted_gaps win l.
Proof.
  intros Hl Hs Hp Hw Hn Hln Hc Hle. cbn [tick_ref]. unfold trace_sched_tick_interval. rewrite Hs.
  destruct p as [|last|]; cbn in Hp.
  - destruct Hp as [Hp1 Hp2]. unfold ctrue. rewrite Hp1, Hp2. cbn [Z.eqb negb].
    split; [by apply loaded_set|]. exists (TickState (tc_now cx) (report_ratelimit s) 0), win.
    rewrite lookup_set, decide_True by (done || apply Hl). split_and!; try done; [cbn; lia|].
    cbn. by rewrite app_nil_r.
  - destruct Hp as (Hp1 & Hp2 & Hp3). unfold ctrue. rewrite Hp1, Hp2. cbn [Z.eqb negb].
    rewrite (proj2 (Z.eqb_neq last 0) Hp3). cbn [last_tick_ns report_ratelimit tick_stopped].
    destruct (tc_now cx -64 last <? threshold).
    + split; [by apply loaded_set|]. exists (TickState (tc_now cx) (report_ratelimit s) 0), win.
      rewrite lookup_set, decide_True by (done || apply Hl). split_and!; try done; [cbn; lia|].
      cbn. by rewrite app_nil_r.
    + pose proof (limited_report st s win cx (tc_now cx -64 last) Hl Hw Hln Hc Hle) as H.
      destruct (bpf_percpu_ratelimited_ns _ _ _ _) as [lim r0].
      destruct H as (rl & win' & Hlook & Hl' & Hw' & Hle' & Hrest & Hev). split; [done|].
      exists (TickState (tc_now cx) rl 0), win'. split_and!; try done. cbn. lia.
  - unfold ctrue. rewrite Hp. cbn [Z.eqb negb]. split; [done|]. exists s, win.
    split_and!; try done. cbn. by rewrite app_nil_r.
Qed.

Lemma tick_reports threshold cpu : forall es st s p win lo,
  loaded st -> tick_lookup st cpu = Some s -> phase_rel s p ->
  percpu_rel MAX_SCHED_TICK_REPORTS_PER_CPU_PER_SECOND (report_ratelimit s) win ->
  pc_window_start_ns (report_ratelimit s) <= lo -> ticks_ok cpu lo es ->
  events_of cpu (tk_run threshold st es) =
  events_of cpu st ++ admitted_gaps win (tick_gaps threshold cpu p es).
Proof.
  induction es as [|e es IH]; intros st s p win lo Hl Hs Hp Hw Hlo Hok.
  { cbn. by rewrite app_nil_r. }
  change (tk_run threshold st (e :: es)) with (tk_run threshold (tk_step threshold st e) es).
  cbn [ticks_ok tick_gaps] in *. destruct (Z.eqb_spec (input_cpu e) cpu) as [Hc|Hc].
  - destruct e as [cx|c ok|c now]; cbn [input_cpu] in Hc; subst cpu.
    + destruct Hok as (Hn & Hln & Hlim & Hcomm & Hok).
      pose proof (own_tick threshold st s p win cx Hl Hs Hp Hw Hn ltac:(lia) Hcomm ltac:(lia)) as H.
      cbv zeta in H. destruct (tick_ref threshold p (Tick cx)) as [p' l].
      destruct H as (Hl' & s' & win' & Hs' & Hp' & Hw' & Hle' & Hsplit & Hev). cbn [tk_step].
      rewrite (IH _ s' p' win' (tc_limit_now cx)) by done. by rewrite Hev, Hsplit, <- app_assoc.
    + cbn [tk_step tick_ref]. unfold trace_sched_tick_stop. rewrite Hs. cbn [app].
      destruct (ctrue ok); [|by eapply IH].
      rewrite (IH _ (TickState 0 (report_ratelimit s) 1) Stopped win lo); try done.
      * by apply loaded_set.
      * by rewrite lookup_set, decide_True by (done || apply Hl).
    + destruct Hok as [Hn Hok]. cbn [tk_step tick_ref]. unfold trace_sched_tick_restart. rewrite Hs.
      cbn [app]. rewrite (IH _ (TickState now (report_ratelimit s) 0) (Measuring now) win lo); try done.
      * by apply loaded_set.
      * by rewrite lookup_set, decide_True by (done || apply Hl).
      * cbn. lia.
  - destruct (other_cpu threshold cpu st e Hl Hc) as (Hl' & Hs' & Hev).
    rewrite (IH _ s p win lo) by (done || by rewrite Hs'). by rewrite Hev.
Qed.

(** C21: The reports of a CPU are exactly the gaps of its own tick machine, in order
    and admitted by the window policy: a gap is the time between two consecutive
    ticks, or from a restart to the next tick, never across a stopped tick; short
    gaps are not reported and do not use the budget of ten reports per window; the
    other CPUs have no influence. *)
Theorem tick_reports_are_gaps threshold cpu es :
  ticks_ok cpu 0 es ->
  events_of cpu (tk_run threshold tk_start es) =
  admitted_gaps None (tick_gaps threshold cpu Waiting es).
Proof.
  intros Hok. rewrite (tick_reports threshold cpu es tk_start zero_tick_state Waiting None 0);
    try done.
Qed.

Definition sample_tick (cpu now : Z) : tk_input :=
  Tick (TickCtx cpu now now (Some []) (7 * 2 ^ 32) [] 0).

Lemma tick_reports_are_gaps_witness :
  map te_tick_interval_ns (events_of 0 (tk_run 100 tk_start
    [sample_tick 0 1000; sample_tick 1 1500; sample_tick 0 1200; TickStop 0 1; TickRestart 0 9000;
     sample_tick 0 9050; sample_tick 0 9250])) = [200; 200].
Proof.
  rewrite (tick_reports_are_gaps 100 0
    [sample_tick 0 1000; sample_tick 1 1500; sample_tick 0 1200; TickStop 0 1; TickRestart 0 9000;
     sample_tick 0 9050; sample_tick 0 9250]).
  - vm_compute. reflexivity.
  - cbn. repeat split; try lia; by eexists.
Defined.
End SchedTick.
