(* ===== verification/SkBuff.v ===== *)
(** * Socket buffers ([bpf/include/bpf_skbuff.h], [bpf_net_namespace.h],
    [bpf_cgroup.h], [bpf_netdevice.h], [bpf_skb_filter.h], [bpf_pcap_stub.h])

    What the network tracers read of a packet, its socket and its device.  The
    kernel is a record of reads; memory is read as bytes.  Hosts are little
    endian: a multi-byte field of a packet header is the little-endian value of
    its bytes, and [bpf_ntohs] and [bpf_ntohl] reverse them. *)

From Stdlib Require Import ZArith Lia.
From stdpp Require Import base option list tactics.
From S2P Require Import Prelude BpfMap KernelStr.

Local Open Scope Z_scope.
Local Open Scope bpf_scope.

Module SkBuff.

Definition IFNAMSIZ : nat := 16.
Definition ETH_P_IP : Z := 2048.
Definition ETH_P_IPV6 : Z := 34525.
Definition ETH_P_ARP : Z := 2054.
Definition AF_INET : Z := 2.
Definition AF_INET6 : Z := 10.
Definition IPPROTO_TCP : Z := 6.
(** Size of the kernel's [struct tcphdr]. *)
Definition TCPHDR_LEN : nat := 20.

(** Bits of the kernel's link state and interface flags. *)
Definition LINK_STATE_START : Z := 0.
Definition LINK_STATE_NOCARRIER : Z := 2.
Definition IFF_RUNNING : Z := 64.
Definition IFF_LOWER_UP : Z := 65536.

Record skb_kernel := SkbKernel {
  skb_head : Z -> Z;
  skb_mac_off : Z -> Z;
  skb_network_off : Z -> Z;
  skb_transport_off : Z -> Z;
  skb_tail : Z -> Z;
  skb_mac_len : Z -> Z;
  skb_dev : Z -> Z;
  skb_sk : Z -> Z;
  skb_protocol : Z -> Z;
  skb_len : Z -> Z;
  skb_queue_mapping : Z -> Z;
  skc_state : Z -> Z;
  skc_family : Z -> Z;
  skc_net : Z -> Z;
  has_net_cookie : bool;
  net_cookie : Z -> Z;
  net_inum : Z -> Z;
  nd_net : Z -> Z;
  has_sk_memcg : bool;
  sk_memcg : Z -> Z;
  dev_ifindex : Z -> Z;
  dev_state : Z -> Z;
  dev_flags : Z -> Z;
  dev_name : Z -> option (list Z);
  probe_bytes : Z -> nat -> option (list Z);  (* the bytes at an address *)
}.

(** [bpf_probe_read] into an uninitialised or zeroed buffer: zeros on a fault. *)
Definition probe_read (kr : skb_kernel) (n : nat) (a : Z) : list Z :=
  default (replicate n 0) (probe_bytes kr a n).

(** ** Byte order *)

Fixpoint le_value (bytes : list Z) : Z :=
  match bytes with
  | [] => 0
  | b :: bytes => b + 256 * le_value bytes
  end.
Definition field (buf : list Z) (off len : nat) : Z := le_value (take len (drop off buf)).

Definition bswap16 (x : Z) : Z := Z.lor (Z.land x 255 <<32 8) (Z.land (Z.shiftr x 8) 255).
Definition bswap32 (x : Z) : Z :=
  Z.lor (Z.lor (Z.land x 255 <<32 24) (Z.land (Z.shiftr x 8) 255 <<32 16))
    (Z.lor (Z.land (Z.shiftr x 16) 255 <<32 8) (Z.land (Z.shiftr x 24) 255)).

(** The bytes an integer is stored as, and the integer big-endian bytes stand for. *)
Fixpoint le_bytes (n : nat) (v : Z) : list Z :=
  match n with
  | O => []
  | S n => v mod 256 :: le_bytes n (v / 256)
  end.
Definition be_value (bytes : list Z) : Z := fold_left (fun v b => v * 256 + b) bytes 0.

(** ** [bpf_skbuff.h] *)

Definition skb_mac_header (kr : skb_kernel) (skb : Z) : Z := skb_head kr skb +64 skb_mac_off kr skb.
Definition skb_network_header (kr : skb_kernel) (skb : Z) : Z :=
  skb_head kr skb +64 skb_network_off kr skb.
Definition skb_transport_header (kr : skb_kernel) (skb : Z) : Z :=
  skb_head kr skb +64 skb_transport_off kr skb.
Definition skb_sk_state (kr : skb_kernel) (skb : Z) : Z := skc_state kr (skb_sk kr skb).

(** The TCP header of a packet, if both pointers are given and the read succeeds. *)
Definition skb_tcp_header (kr : skb_kernel) (skb tcp_hdr : Z) : option (list Z) :=
  if (skb =? 0) || (tcp_hdr =? 0) then None
  else probe_bytes kr (skb_transport_header kr skb) TCPHDR_LEN.

(** ** [bpf_net_namespace.h] *)

Definition sk_netns_cookie (kr : skb_kernel) (sk : Z) : Z :=
  if sk =? 0 then 0
  else if negb (has_net_cookie kr) then 0
  else net_cookie kr (skc_net kr sk).

Definition sk_netns_inum (kr : skb_kernel) (sk : Z) : Z :=
  if sk =? 0 then 0 else net_inum kr (skc_net kr sk).

Definition skb_netns_cookie (kr : skb_kernel) (skb : Z) : Z :=
  if negb (has_net_cookie kr) then 0
  else
    let dev := skb_dev kr skb in
    if ctrue dev then net_cookie kr (nd_net kr dev) else sk_netns_cookie kr (skb_sk kr skb).

Definition skb_netns_inum (kr : skb_kernel) (skb : Z) : Z :=
  let dev := skb_dev kr skb in
  if ctrue dev then net_inum kr (nd_net kr dev) else sk_netns_inum kr (skb_sk kr skb).

(** ** [bpf_cgroup.h] *)

Definition sk_memcg_css_addr (kr : skb_kernel) (sk : Z) : Z :=
  if sk =? 0 then 0
  else if negb (has_sk_memcg kr) then 0
  else let memcg := sk_memcg kr sk in if memcg =? 0 then 0 else memcg.

Definition skb_memcg_css_addr (kr : skb_kernel) (skb : Z) : Z := sk_memcg_css_addr kr (skb_sk kr skb).

(** ** [bpf_netdevice.h] *)

Definition netif_running (kr : skb_kernel) (dev : Z) : bool :=
  ctrue (Z.land (Z.shiftl 1 LINK_STATE_START) (dev_state kr dev)).
Definition netif_carrier_ok (kr : skb_kernel) (dev : Z) : bool :=
  negb (ctrue (Z.land (Z.shiftl 1 LINK_STATE_NOCARRIER) (dev_state kr dev))).

Definition netif_get_flags (kr : skb_kernel) (dev : Z) : Z :=
  let flags := Z.ldiff (dev_flags kr dev) (Z.lor IFF_RUNNING IFF_LOWER_UP) in
  if netif_running kr dev
  then if netif_carrier_ok kr dev then Z.lor flags IFF_LOWER_UP else flags
  else flags.

(** ** [bpf_skb_filter.h]

    [dev_map] is the set of interface indexes user space filled in. *)

Definition skb_filter_pass_netdev (kr : skb_kernel) (filter_dev_mode : Z) (dev_map : list Z) (dev : Z)
    : bool :=
  if filter_dev_mode =? 0 then true
  else
    let idx := if ctrue dev then dev_ifindex kr dev else 0 in
    let hit := bool_decide (idx ∈ dev_map) in
    if filter_dev_mode =? 1 then hit else negb hit.

Definition skb_filter_pass_dev (kr : skb_kernel) (filter_dev_mode : Z) (dev_map : list Z) (skb : Z) : bool :=
  skb_filter_pass_netdev kr filter_dev_mode dev_map (skb_dev kr skb).

(** ** [bpf_pcap_stub.h]

    The two stubs are overwritten at load time by the compiled packet filter; the
    injected code is a parameter, a predicate on the context and the bounds of the
    packet ([None]: nothing injected, the body of the source runs). *)

Definition pcap_code : Type := option (Z -> Z -> Z -> bool).

Definition pcap_stub_body (a1 a2 a3 a4 a5 : Z) : bool := negb (a4 =? a5) && (a1 =? a2) && (a2 =? a3).

Definition pcap_stub_pass (code : pcap_code) (ctx data data_end : Z) : bool :=
  match code with
  | Some f => f ctx data data_end
  | None => pcap_stub_body ctx ctx ctx data data_end
  end.

Definition PCAP_STUB_PASS_SKB (kr : skb_kernel) (l2_code l3_code : pcap_code) (skb : Z) : bool :=
  let pkt_end := skb_head kr skb +64 skb_tail kr skb in
  if skb_mac_len kr skb =? 0
  then pcap_stub_pass l3_code skb (skb_network_header kr skb) pkt_end
  else pcap_stub_pass l2_code skb (skb_mac_header kr skb) pkt_end.

(** ** Facts *)

Lemma le_value_range bytes :
  Forall is_u8 bytes -> 0 <= le_value bytes < 256 ^ Z.of_nat (length bytes).
Proof.
  induction bytes as [|b bytes IH]; intros Hf; [cbn; lia|]. apply Forall_cons_iff in Hf as [Hb Hf].
  specialize (IH Hf). cbn [le_value length]. rewrite Nat2Z.inj_succ, Z.pow_succ_r by lia.
  unfold is_u8 in Hb. lia.
Qed.

Lemma le_bytes_length n : forall v, length (le_bytes n v) = n.
Proof. induction n as [|n IH]; intros v; cbn; [done|]. by rewrite IH. Qed.

Lemma le_bytes_value bytes : Forall is_u8 bytes -> le_bytes (length bytes) (le_value bytes) = bytes.
Proof.
  induction bytes as [|b bytes IH]; intros Hf; [done|]. apply Forall_cons_iff in Hf as [Hb Hf].
  cbn [length le_value le_bytes]. unfold is_u8 in Hb. rewrite (Z.mul_comm 256).
  rewrite Z_mod_plus_full, Z.mod_small, Z.div_add, Z.div_small by lia. by rewrite Z.add_0_l, IH.
Qed.

Lemma le_bytes_u8 n : forall v, Forall is_u8 (le_bytes n v).
Proof. induction n as [|n IH]; intros v; cbn; constructor; [apply Z.mod_pos_bound; lia|done]. Qed.

Lemma le_value_bytes n : forall v, 0 <= v < 256 ^ Z.of_nat n -> le_value (le_bytes n v) = v.
Proof.
  induction n as [|n IH]; intros v Hv; [cbn in *; lia|]. cbn [le_bytes le_value].
  rewrite Nat2Z.inj_succ, Z.pow_succ_r in Hv by lia. rewrite IH; [pose proof (Z.div_mod v 256); lia|].
  split; [apply Z.div_pos; lia|apply Z.div_lt_upper_bound; lia].
Qed.

Lemma be_value_rev bytes : be_value (rev bytes) = le_value bytes.
Proof.
  unfold be_value. induction bytes as [|b bytes IH]; [done|]. cbn [rev le_value].
  rewrite fold_left_app, IH. cbn. lia.
Qed.

(** A byte swap reverses the bytes. *)
Lemma bswap16_value a b : is_u8 a -> is_u8 b -> bswap16 (le_value [a; b]) = le_value [b; a].
Proof.
  unfold is_u8. intros Ha Hb. unfold bswap16. cbn [le_value].
  change 255 with (2 ^ 8 - 1). rewrite !land_mask, Z.shiftr_div_pow2 by lia. change (2 ^ 8) with 256 in *.
  replace (a + 256 * (b + 256 * 0)) with (a + b * 256) by lia.
  rewrite Z_mod_plus_full, Z.div_add, (Z.div_small a), Z.add_0_l, !Z.mod_small by lia.
  rewrite u32_small by (rewrite Z.shiftl_mul_pow2 by lia; unfold is_u32; lia).
  rewrite lor_shiftl_add by lia. lia.
Qed.

Lemma bswap32_value a b c d :
  is_u8 a -> is_u8 b -> is_u8 c -> is_u8 d ->
  bswap32 (le_value [a; b; c; d]) = le_value [d; c; b; a].
Proof.
  unfold is_u8. intros Ha Hb Hc Hd. unfold bswap32. cbn [le_value].
  set (x := a + 256 * (b + 256 * (c + 256 * (d + 256 * 0)))).
  assert (Hbyte : forall n y lo hi, 0 <= n -> x = lo + 2 ^ n * (y + 256 * hi) -> 0 <= lo < 2 ^ n -> 0 <= y < 256 ->
            Z.land (Z.shiftr x n) 255 = y).
  { intros n y lo hi Hn -> Hlo Hy. change 255 with (2 ^ 8 - 1).
    rewrite land_mask, Z.shiftr_div_pow2, (Z.mul_comm (2 ^ n)) by lia.
    rewrite Z.div_add, Z.div_small, Z.add_0_l, (Z.mul_comm 256) by lia. change (2 ^ 8) with 256.
    by rewrite Z_mod_plus_full, Z.mod_small. }
  rewrite (Hbyte 8 b a (c + 256 * d)), (Hbyte 16 c (a + 256 * b) d), (Hbyte 24 d (a + 256 * b + 65536 * c) 0)
    by (subst x; lia).
  replace (Z.land x 255) with a by (symmetry; apply (Hbyte 0 a 0 (b + 256 * (c + 256 * d))); subst x; lia).
  rewrite !u32_small by (rewrite Z.shiftl_mul_pow2 by lia; unfold is_u32; lia).
  rewrite (lor_shiftl_add a) by (rewrite ?Z.shiftl_mul_pow2 by lia; lia).
  rewrite (lor_shiftl_add c) by lia.
  replace (a * 2 ^ 24 + Z.shiftl b 16) with (Z.shiftl (a * 256 + b) 16) by (rewrite !Z.shiftl_mul_pow2 by lia; lia).
  rewrite lor_shiftl_add by lia. lia.
Qed.

(** An integer stored through [bpf_htons] or [bpf_htonl] reads back big-endian. *)
Lemma htons_wire x : 0 <= x < 2 ^ 16 -> be_value (le_bytes 2 (bswap16 x)) = x.
Proof.
  intros Hx. pose proof (le_value_bytes 2 x Hx) as E. pose proof (le_bytes_u8 2 x) as Hf.
  pose proof (le_bytes_length 2 x) as Hl.
  destruct (le_bytes 2 x) as [|a [|b [|]]]; try done. rewrite <- E.
  rewrite !Forall_cons_iff in Hf. destruct Hf as (Ha & Hb & _). rewrite bswap16_value by done.
  change 2%nat with (length [b; a]). rewrite le_bytes_value by (rewrite !Forall_cons_iff; auto). apply (be_value_rev [a; b]).
Qed.
Lemma htonl_wire x : is_u32 x -> be_value (le_bytes 4 (bswap32 x)) = x.
Proof.
  intros Hx. pose proof (le_value_bytes 4 x Hx) as E. pose proof (le_bytes_u8 4 x) as Hf.
  pose proof (le_bytes_length 4 x) as Hl.
  destruct (le_bytes 4 x) as [|a [|b [|c [|d [|]]]]]; try done. rewrite <- E.
  rewrite !Forall_cons_iff in Hf. destruct Hf as (Ha & Hb & Hc & Hd & _). rewrite bswap32_value by done.
  change 4%nat with (length [d; c; b; a]). rewrite le_bytes_value by (rewrite !Forall_cons_iff; auto). apply (be_value_rev [a; b; c; d]).
Qed.

(** The device filter by mode: off passes all, a whitelist passes the listed devices, a
    blacklist the others.  A packet without a device counts as index 0, which user space
    cannot list: a whitelist drops it and a blacklist passes it. *)
Lemma device_filter_policy kr dev_map skb :
  0 ∉ dev_map ->
  skb_filter_pass_dev kr 0 dev_map skb = true /\
  skb_filter_pass_dev kr 1 dev_map skb =
    (ctrue (skb_dev kr skb) && bool_decide (dev_ifindex kr (skb_dev kr skb) ∈ dev_map)) /\
  skb_filter_pass_dev kr 2 dev_map skb =
    negb (ctrue (skb_dev kr skb) && bool_decide (dev_ifindex kr (skb_dev kr skb) ∈ dev_map)).
Proof.
  intros H0. unfold skb_filter_pass_dev, skb_filter_pass_netdev. cbn [Z.eqb Pos.eqb].
  destruct (ctrue (skb_dev kr skb)); cbn [andb]; [done|]. by rewrite bool_decide_false.
Qed.

(** Nothing injected: every nonempty packet passes. *)
Lemma pcap_default ctx data data_end : pcap_stub_pass None ctx data data_end = negb (data =? data_end).
Proof. unfold pcap_stub_pass, pcap_stub_body. rewrite !Z.eqb_refl. by rewrite !andb_true_r. Qed.

End SkBuff.
