(* ===== verification/NetRx.v ===== *)
(** * Receive latency tracer ([bpf/net_rx_latency.c], [bpf/include/abi/net_rx_latency_types.h])

    At three stages of reception the tracer compares the packet's timestamp with
    the clock of the same domain and reports the packets above the threshold of
    the stage, at most a hundred per second.  Module [NetRx] models the three
    programs; the reports are those of a reference that measures a latency only
    where the two clocks are comparable, admitted by the rate limit policy. *)

From Stdlib Require Import ZArith Lia.
From stdpp Require Import base option list tactics.
From S2P Require Import Prelude BpfMap KernelStr Ratelimit SkBuff.

Local Open Scope Z_scope.
Local Open Scope bpf_scope.

Module NetRx.
Import Ratelimit SkBuff.

Definition RX_STAGE_NETIF : Z := 0.
Definition RX_STAGE_TCPV4 : Z := 1.
Definition RX_STAGE_USERCOPY : Z := 2.

Definition SKB_CLOCK_REALTIME : Z := 0.
Definition SKB_CLOCK_MONOTONIC : Z := 1.
Definition SKB_CLOCK_TAI : Z := 2.

Record rx_config := RxConfig {
  mono_wall_offset : Z;
  rxlat_thresh_netif : Z;
  rxlat_thresh_tcpv4 : Z;
  rxlat_thresh_usercopy : Z;
}.

(** The timestamp and the two generations of its clock field. *)
Record rx_kernel := RxKernel {
  rx_skb : skb_kernel;
  skb_tstamp : Z -> Z;
  has_tstamp_type : bool;
  skb_tstamp_type : Z -> Z;
  has_mono_delivery_time : bool;
  skb_mono_delivery_time : Z -> Z;
}.

Record rx_ctx := RxCtx {
  rx_now : Z;            (* the clock when the latency is measured *)
  rx_limit_now : Z;      (* the clock the limiter reads *)
  rx_pid_tgid : Z;
  rx_comm : list Z;
}.

Record net_rx_latency_event := RxEvent {
  re_comm : list Z;
  re_latency_ns : Z;
  re_tgid_pid : Z;
  re_packet_len_bytes : Z;
  re_tcp_sport : Z;
  re_tcp_dport : Z;
  re_tcp_saddr : Z;
  re_tcp_daddr : Z;
  re_tcp_seq : Z;
  re_tcp_ack_seq : Z;
  re_tcp_state : Z;
  re_latency_stage : Z;
  re_netdev_name : list Z;
  re_netns_inum : Z;
  re_netns_cookie : Z;
}.

(** [net_recv_lat_event_map] lists the records handed to the perf ring. *)
Record rx_state := RxState {
  rate : bpf_ratelimit_event;
  net_recv_lat_event_map : list net_rx_latency_event;
}.
Definition rx_start : rx_state := RxState (BPF_RATELIMIT BPF_NSEC_PER_SEC 100) [].

(** ** The programs *)

Definition skb_clock_class (kr : rx_kernel) (skb : Z) : Z :=
  if has_tstamp_type kr
  then
    let t := skb_tstamp_type kr skb in
    if t =? SKB_CLOCK_TAI then -1 else if t =? SKB_CLOCK_MONOTONIC then 1 else 0
  else if has_mono_delivery_time kr then c_of_bool (ctrue (skb_mono_delivery_time kr skb))
  else 0.

Definition delta_now_skb_tstamp (cfg : rx_config) (kr : rx_kernel) (cx : rx_ctx) (skb : Z) : Z :=
  let tstamp := skb_tstamp kr skb in
  if tstamp =? 0 then 0
  else
    let cls := skb_clock_class kr skb in
    if cls <? 0 then 0
    else
      let now := if ctrue cls then rx_now cx else rx_now cx +64 mono_wall_offset cfg in
      if now <? tstamp then 0 else now -64 tstamp.

Definition skb_is_ipv4_tcp (kr : rx_kernel) (skb : Z) : bool :=
  if negb (skb_protocol (rx_skb kr) skb =? bswap16 ETH_P_IP) then false
  else
    let ip_hdr := probe_read (rx_skb kr) 20 (skb_network_header (rx_skb kr) skb) in
    byte_at ip_hdr 9 =? IPPROTO_TCP.

Definition skb_latency_check (cfg : rx_config) (kr : rx_kernel) (cx : rx_ctx) (skb threshold : Z) : Z :=
  let delta := delta_now_skb_tstamp cfg kr cx skb in
  if threshold <=? delta then delta else 0.

(** A sixteen byte name that starts with a dash (code 45). *)
Definition dash_name : list Z := 45 :: replicate 15 0.

Definition rx_event (kr : rx_kernel) (cx : rx_ctx) (skb latency_ns stage : Z) : net_rx_latency_event :=
  let sk := rx_skb kr in
  let ip_hdr := probe_read sk 20 (skb_network_header sk skb) in
  let tcp_hdr := probe_read sk 20 (skb_transport_header sk skb) in
  let usercopy := stage =? RX_STAGE_USERCOPY in
  let dev := skb_dev sk skb in
  RxEvent (if usercopy then rx_comm cx else dash_name) latency_ns
    (if usercopy then rx_pid_tgid cx else 0) (skb_len sk skb)
    (field tcp_hdr 0 2) (field tcp_hdr 2 2) (field ip_hdr 12 4) (field ip_hdr 16 4)
    (field tcp_hdr 4 4) (field tcp_hdr 8 4)
    (if stage =? RX_STAGE_NETIF then 0 else u8 (skb_sk_state sk skb)) stage
    (if ctrue dev then read_str_into dash_name (dev_name sk dev) else dash_name)
    (skb_netns_inum sk skb) (skb_netns_cookie sk skb).

Definition submit_rxlat_event (kr : rx_kernel) (cx : rx_ctx) (skb latency_ns stage : Z) (st : rx_state)
    : rx_state :=
  let '(limited, r) := bpf_ratelimited (rx_limit_now cx) (Some (rate st)) in
  let st := RxState (default (rate st) r) (net_recv_lat_event_map st) in
  if limited then st
  else RxState (rate st) (net_recv_lat_event_map st ++ [rx_event kr cx skb latency_ns stage]).

Definition netif_receive_skb_prog (cfg : rx_config) (kr : rx_kernel) (cx : rx_ctx) (skb : Z) (st : rx_state)
    : rx_state :=
  if negb (skb_is_ipv4_tcp kr skb) then st
  else
    let delta := skb_latency_check cfg kr cx skb (u64 (rxlat_thresh_netif cfg)) in
    if delta =? 0 then st else submit_rxlat_event kr cx skb delta RX_STAGE_NETIF st.

Definition tcp_v4_rcv_prog (cfg : rx_config) (kr : rx_kernel) (cx : rx_ctx) (skb : Z) (st : rx_state)
    : rx_state :=
  let delta := skb_latency_check cfg kr cx skb (u64 (rxlat_thresh_tcpv4 cfg)) in
  if delta =? 0 then st else submit_rxlat_event kr cx skb delta RX_STAGE_TCPV4 st.

Definition skb_copy_datagram_iovec_prog (cfg : rx_config) (kr : rx_kernel) (cx : rx_ctx) (skb : Z)
    (st : rx_state) : rx_state :=
  if negb (skb_is_ipv4_tcp kr skb) then st
  else
    let delta := skb_latency_check cfg kr cx skb (u64 (rxlat_thresh_usercopy cfg)) in
    if delta =? 0 then st else submit_rxlat_event kr cx skb delta RX_STAGE_USERCOPY st.

Inductive rx_input :=
  | NetifReceive (kr : rx_kernel) (cx : rx_ctx) (skb : Z)
  | TcpV4Rcv (kr : rx_kernel) (cx : rx_ctx) (skb : Z)
  | UserCopy (kr : rx_kernel) (cx : rx_ctx) (skb : Z).

Definition rx_step (cfg : rx_config) (st : rx_state) (e : rx_input) : rx_state :=
  match e with
  | NetifReceive kr cx skb => netif_receive_skb_prog cfg kr cx skb st
  | TcpV4Rcv kr cx skb => tcp_v4_rcv_prog cfg kr cx skb st
  | UserCopy kr cx skb => skb_copy_datagram_iovec_prog cfg kr cx skb st
  end.

Definition rx_run (cfg : rx_config) (st : rx_state) (es : list rx_input) : rx_state :=
  fold_left (rx_step cfg) es st.

(** ** The reference *)

Inductive clock_domain := Realtime | Monotonic | Tai.

(** The domain of a packet's timestamp; kernels without either field keep wall
    clock time. *)
Definition tstamp_domain (kr : rx_kernel) (skb : Z) : clock_domain :=
  match has_tstamp_type kr, has_mono_delivery_time kr with
  | true, _ => if skb_tstamp_type kr skb =? SKB_CLOCK_TAI then Tai
               else if skb_tstamp_type kr skb =? SKB_CLOCK_MONOTONIC then Monotonic else Realtime
  | false, true => if skb_mono_delivery_time kr skb =? 0 then Realtime else Monotonic
  | false, false => Realtime
  end.

(** The time since the timestamp, where the clocks can be compared and the
    timestamp is set and not in the future. *)
Definition packet_age (cfg : rx_config) (kr : rx_kernel) (cx : rx_ctx) (skb : Z) : option Z :=
  let age clock :=
    if (skb_tstamp kr skb =? 0) || (clock <? skb_tstamp kr skb) then None
    else Some (clock - skb_tstamp kr skb) in
  match tstamp_domain kr skb with
  | Monotonic => age (rx_now cx)
  | Realtime => age (rx_now cx +64 mono_wall_offset cfg)
  | Tai => None
  end.

(** The packet an invocation looks at, its stage and threshold. *)
Definition rx_subject (cfg : rx_config) (e : rx_input) : rx_kernel * rx_ctx * Z * Z * Z :=
  match e with
  | NetifReceive kr cx skb => (kr, cx, skb, RX_STAGE_NETIF, u64 (rxlat_thresh_netif cfg))
  | TcpV4Rcv kr cx skb => (kr, cx, skb, RX_STAGE_TCPV4, u64 (rxlat_thresh_tcpv4 cfg))
  | UserCopy kr cx skb => (kr, cx, skb, RX_STAGE_USERCOPY, u64 (rxlat_thresh_usercopy cfg))
  end.
Definition needs_tcp (e : rx_input) : bool := match e with TcpV4Rcv _ _ _ => false | _ => true end.

(** The report an invocation asks for, with the time the limiter sees. *)
Definition rx_candidate (cfg : rx_config) (e : rx_input) : list (Z * net_rx_latency_event) :=
  let '(kr, cx, skb, stage, threshold) := rx_subject cfg e in
  if needs_tcp e && negb (skb_is_ipv4_tcp kr skb) then []
  else match packet_age cfg kr cx skb with
       | Some d => if (0 <? d) && (threshold <=? d)
                   then [(rx_limit_now cx, rx_event kr cx skb d stage)] else []
       | None => []
       end.

(** Kernel values are 64-bit and the limiter's clock does not go back. *)
Fixpoint rx_clock (lo : Z) (es : list rx_input) : Prop :=
  match es with
  | [] => True
  | (NetifReceive kr cx skb | TcpV4Rcv kr cx skb | UserCopy kr cx skb) :: es =>
      is_u64 (skb_tstamp kr skb) /\ is_u64 (rx_now cx) /\
      0 < rx_limit_now cx /\ lo <= rx_limit_now cx < 2 ^ 64 /\ rx_clock (rx_limit_now cx) es
  end.

Lemma delta_is_age cfg kr cx skb :
  is_u64 (skb_tstamp kr skb) -> is_u64 (rx_now cx) ->
  delta_now_skb_tstamp cfg kr cx skb = default 0 (packet_age cfg kr cx skb).
Proof.
  intros Ht Hn. unfold delta_now_skb_tstamp, packet_age, tstamp_domain, skb_clock_class.
  assert (Hgap : forall c, is_u64 c ->
    (if c <? skb_tstamp kr skb then 0 else c -64 skb_tstamp kr skb) =
    default 0 (if c <? skb_tstamp kr skb then None else Some (c - skb_tstamp kr skb))).
  { intros c Hc. destruct (Z.ltb_spec c (skb_tstamp kr skb)); [done|]. cbn. by rewrite u64_sub_exact. }
  destruct (skb_tstamp kr skb =? 0) eqn:E0; [by repeat case_match|]. cbn [orb].
  destruct (has_tstamp_type kr).
  - destruct (skb_tstamp_type kr skb =? SKB_CLOCK_TAI); [done|].
    destruct (skb_tstamp_type kr skb =? SKB_CLOCK_MONOTONIC); apply Hgap; auto with bpf.
  - destruct (has_mono_delivery_time kr); [|apply Hgap; auto with bpf]. unfold ctrue.
    destruct (skb_mono_delivery_time kr skb =? 0); cbn [negb]; apply Hgap; auto with bpf.
Qed.

(** A program is the submission of its candidate. *)
Lemma rx_step_candidate cfg st e lo :
  rx_clock lo [e] ->
  rx_step cfg st e =
  let '(kr, cx, skb, stage, _) := rx_subject cfg e in
  match rx_candidate cfg e with
  | [] => st
  | (_, ev) :: _ => submit_rxlat_event kr cx skb (re_latency_ns ev) stage st
  end.
Proof.
  assert (Hcheck : forall kr cx skb thr stage, is_u64 (skb_tstamp kr skb) -> is_u64 (rx_now cx) ->
    (let delta := skb_latency_check cfg kr cx skb thr in
     if delta =? 0 then st else submit_rxlat_event kr cx skb delta stage st) =
    match (match packet_age cfg kr cx skb with
           | Some d => if (0 <? d) && (thr <=? d)
                       then [(rx_limit_now cx, rx_event kr cx skb d stage)] else []
           | None => [] end) with
    | [] => st
    | (_, ev) :: _ => submit_rxlat_event kr cx skb (re_latency_ns ev) stage st
    end).
  { intros kr cx skb thr stage Ht Hn. unfold skb_latency_check. rewrite delta_is_age by done.
    assert (Hpos : forall d, packet_age cfg kr cx skb = Some d -> 0 <= d).
    { intros d. unfold packet_age. unfold is_u64 in *. repeat case_match; intros; simplify_eq;
        rewrite ?orb_false_iff in *; destruct_and?; zify_bools; lia. }
    destruct (packet_age cfg kr cx skb) as [d|]; cbn [default]; [|by destruct (thr <=? 0)].
    specialize (Hpos d eq_refl). change (id d) with d.
    destruct (Z.leb_spec thr d); [|by rewrite andb_false_r]. rewrite andb_true_r.
    destruct (Z.eqb_spec d 0), (Z.ltb_spec 0 d); try lia; done. }
  intros Hc. unfold rx_candidate.
  destruct e as [kr cx skb|kr cx skb|kr cx skb]; destruct Hc as (Ht & Hn & _);
    cbn [rx_step rx_subject needs_tcp andb];
    unfold netif_receive_skb_prog, tcp_v4_rcv_prog, skb_copy_datagram_iovec_prog;
    try (destruct (skb_is_ipv4_tcp kr skb); cbn [negb]; [|done]); by apply Hcheck.
Qed.

Lemma rx_reports cfg : forall es st win lo,
  rate_rel (rate st) win -> interval_ns (rate st) = BPF_NSEC_PER_SEC -> burst (rate st) = 100 ->
  window_start_ns (rate st) <= lo -> rx_clock lo es ->
  net_recv_lat_event_map (rx_run cfg st es) =
  net_recv_lat_event_map st ++
  admitted_events BPF_NSEC_PER_SEC 100 win (concat (map (rx_candidate cfg) es)).
Proof.
  induction es as [|e es IH]; intros st win lo Hr Hi Hb Hlo Hc; [by rewrite app_nil_r|].
  change (rx_run cfg st (e :: es)) with (rx_run cfg (rx_step cfg st e) es).
  assert (Hc1 : rx_clock lo [e]) by (destruct e; cbn in *; tauto).
  rewrite (rx_step_candidate cfg st e lo Hc1). cbn [map concat].
  assert (Hfirst : forall kr cx skb stage thr, rx_subject cfg e = (kr, cx, skb, stage, thr) ->
    0 < rx_limit_now cx < 2 ^ 64 /\ lo <= rx_limit_now cx /\ rx_clock (rx_limit_now cx) es /\ rx_clock lo es /\
    (rx_candidate cfg e = [] \/
     exists ev, rx_candidate cfg e = [(rx_limit_now cx, ev)] /\
       ev = rx_event kr cx skb (re_latency_ns ev) stage)).
  { assert (Hmono : forall lo' es', rx_clock lo' es' -> lo <= lo' -> rx_clock lo es').
    { intros lo' es'. destruct es' as [|[] ?]; cbn; unfold is_u64; intros;
        destruct_and?; split_and?; try done; lia. }
    intros kr cx skb stage thr Hs. unfold rx_candidate. rewrite Hs.
    destruct e; cbn in Hs, Hc; simplify_eq;
      (split_and!; [lia|lia|lia|tauto|eapply (Hmono (rx_limit_now cx)); [tauto|lia]|]);
      repeat case_match; eauto. }
  destruct (rx_subject cfg e) as [[[[kr cx] skb] stage] thr].
  destruct (Hfirst kr cx skb stage thr eq_refl) as (Hln & Hlo' & Hnext & Hkeep & [->|(ev & -> & Hev)]);
    [by eapply IH|].
  pose proof (rate_step (rate st) win (rx_limit_now cx) Hr Hln ltac:(lia)) as Hst.
  unfold submit_rxlat_event. cbn [app admitted_events]. rewrite Hi, Hb in Hst.
  destruct (next_window BPF_NSEC_PER_SEC win (rx_limit_now cx)) as [start seen].
  destruct Hst as (r' & -> & Hr' & Hi' & Hb' & Hw'). cbn [default]. change (id r') with r'.
  destruct (100 <=? seen).
  - by rewrite (IH _ (Some (start, seen + 1)) (rx_limit_now cx)) by (cbn; done || congruence).
  - rewrite (IH _ (Some (start, seen + 1)) (rx_limit_now cx)) by (cbn; done || congruence).
    cbn [net_recv_lat_event_map]. rewrite <- Hev. by rewrite <- app_assoc.
Qed.

(** C22: The reports are exactly the packets older than the threshold of their
    stage, in order, admitted by a window policy of a hundred per second.  A
    packet's age is the difference of two clocks of the same domain: packets
    stamped in atomic time, unstamped packets and stamps from the future are never
    reported, no age wraps around, and packets below the threshold do not use the
    budget. *)
Theorem rx_reports_follow_policy cfg es :
  rx_clock 0 es ->
  net_recv_lat_event_map (rx_run cfg rx_start es) =
  admitted_events BPF_NSEC_PER_SEC 100 None (concat (map (rx_candidate cfg) es)).
Proof.
  intros Hc. by rewrite (rx_reports cfg es rx_start None 0).
Qed.

(** ** Concrete run *)

Definition sample_skb_kernel : skb_kernel :=
  SkbKernel (fun _ => 0) (fun _ => 0) (fun _ => 0) (fun _ => 0) (fun _ => 0) (fun _ => 0) (fun _ => 0)
    (fun _ => 0) (fun _ => 8) (fun _ => 1500) (fun _ => 0) (fun _ => 1) (fun _ => 2) (fun _ => 0) true
    (fun _ => 0) (fun _ => 0) (fun _ => 0) true (fun _ => 0) (fun _ => 0) (fun _ => 0) (fun _ => 0)
    (fun _ => None)
    (fun _ n => Some (take n ([69; 0; 0; 40; 0; 0; 0; 0; 64; 6] ++ replicate 30 0))).
Definition sample_rx_kernel (tstamp : Z) : rx_kernel :=
  RxKernel sample_skb_kernel (fun _ => tstamp) true (fun _ => SKB_CLOCK_MONOTONIC) false (fun _ => 0).

Lemma rx_reports_follow_policy_witness :
  map re_latency_ns (net_recv_lat_event_map (rx_run (RxConfig 0 50 100 200) rx_start
    [NetifReceive (sample_rx_kernel 1000) (RxCtx 1060 1061 0 []) 1;
     TcpV4Rcv (sample_rx_kernel 1000) (RxCtx 1070 1071 0 []) 1;
     UserCopy (sample_rx_kernel 1000) (RxCtx 1300 1301 0 []) 1;
     NetifReceive (sample_rx_kernel 5000) (RxCtx 1400 1401 0 []) 1])) = [60; 300].
Proof.
  rewrite (rx_reports_follow_policy (RxConfig 0 50 100 200)
    [NetifReceive (sample_rx_kernel 1000) (RxCtx 1060 1061 0 []) 1;
     TcpV4Rcv (sample_rx_kernel 1000) (RxCtx 1070 1071 0 []) 1;
     UserCopy (sample_rx_kernel 1000) (RxCtx 1300 1301 0 []) 1;
     NetifReceive (sample_rx_kernel 5000) (RxCtx 1400 1401 0 []) 1]).
  - vm_compute. reflexivity.
  - cbn. unfold is_u64. repeat split; lia.
Defined.
End NetRx.
