(* ===== verification/IrqTracing.v ===== *)
(** * Interrupt tracer ([bpf/irqtracing.c])

    Two programs sample softirq activity: [probe_softirq_raise] the stacks that
    raise softirqs (the source stream), [probe_softirq_entry] the tasks softirqs
    preempt (the victim stream).  A sample passes a per-CPU limiter and is counted
    under its stack key in a per-CPU hash map.  A program runs to completion on its
    CPU (the kernel's tracing entry refuses nested programs), but programs of
    different CPUs interleave: module [IrqTracing] splits [account_stack] at its
    map operations and proves that no interleaving loses a sample. *)

From Stdlib Require Import ZArith Lia.
From stdpp Require Import base option list gmap tactics countable.
From S2P Require Import Prelude BpfMap KernelStr Ratelimit.
Import Ratelimit.

Local Open Scope Z_scope.
Local Open Scope bpf_scope.

Module IrqTracing.

Definition IRQTRACING_TARGET_ALL_CPUS : Z := -1.
Definition IRQTRACING_STACK_ID_NONE : Z := 0xffffffff.
Definition PF_KTHREAD : Z := 0x00200000.

Inductive irqtracing_stream := IRQTRACING_STREAM_SOURCE | IRQTRACING_STREAM_VICTIM.
#[export] Instance stream_eq_dec : EqDecision irqtracing_stream.
Proof. solve_decision. Defined.
Definition stream_index (s : irqtracing_stream) : Z :=
  match s with IRQTRACING_STREAM_SOURCE => 0 | IRQTRACING_STREAM_VICTIM => 1 end.

Record irqtracing_stack_key := StackKey {
  sk_ustack_id : Z;
  sk_kstack_id : Z;
  sk_pid : Z;
  sk_vec : Z;
  sk_comm : list Z;
}.
#[export] Instance stack_key_eq_dec : EqDecision irqtracing_stack_key.
Proof. solve_decision. Defined.
#[export] Instance stack_key_countable : Countable irqtracing_stack_key.
Proof.
  refine (inj_countable' (fun k => (sk_ustack_id k, sk_kstack_id k, sk_pid k, sk_vec k, sk_comm k))
    (fun '(u, k, p, v, c) => StackKey u k p v c) _). by intros [].
Defined.

(** Constants rewritten by user space. *)
Record irq_config := IrqConfig {
  target_cpu : Z;
  source_rate_limit : Z;
  victim_rate_limit : Z;
}.

(** What an invocation reads of its CPU and of the current task. *)
Record irq_event := IrqEvent {
  ie_cpu : Z;
  ie_vec : Z;
  ie_pid_tgid : Z;
  ie_comm : list Z;
  ie_flags : Z;
  ie_ustack : Z;
  ie_kstack : Z;
  ie_now : Z;
}.

(** Where a program on some CPU is inside [account_stack]. *)
Inductive account_point :=
  | AtInsert (stream : irqtracing_stream) (key : irqtracing_stack_key)
  | AtRetry (stream : irqtracing_stream) (key : irqtracing_stack_key).

(** Case on the proposition an [if decide] tests. *)
Ltac split_decide :=
  match goal with |- context [if decide ?P then _ else _] => destruct (decide P) end.

Section Tracer.
Context {M : BpfMapOps}.

Record irq_state := IrqState {
  source_rlimit : gmap Z bpf_percpu_ratelimit_state;
  victim_rlimit : gmap Z bpf_percpu_ratelimit_state;
  source_counts : hmap irqtracing_stack_key (gmap Z Z);
  victim_counts : hmap irqtracing_stack_key (gmap Z Z);
  dropped_samples : gmap (Z * Z) Z;
  in_flight : gmap Z account_point;
}.

Definition counts (stream : irqtracing_stream) (st : irq_state) : hmap irqtracing_stack_key (gmap Z Z) :=
  match stream with
  | IRQTRACING_STREAM_SOURCE => source_counts st
  | IRQTRACING_STREAM_VICTIM => victim_counts st
  end.
Definition set_counts (stream : irqtracing_stream) (m : hmap irqtracing_stack_key (gmap Z Z))
    (st : irq_state) : irq_state :=
  match stream with
  | IRQTRACING_STREAM_SOURCE =>
      IrqState (source_rlimit st) (victim_rlimit st) m (victim_counts st) (dropped_samples st) (in_flight st)
  | IRQTRACING_STREAM_VICTIM =>
      IrqState (source_rlimit st) (victim_rlimit st) (source_counts st) m (dropped_samples st) (in_flight st)
  end.
Definition rlimit (stream : irqtracing_stream) (st : irq_state) : gmap Z bpf_percpu_ratelimit_state :=
  match stream with
  | IRQTRACING_STREAM_SOURCE => source_rlimit st
  | IRQTRACING_STREAM_VICTIM => victim_rlimit st
  end.
Definition set_rlimit (stream : irqtracing_stream) (m : gmap Z bpf_percpu_ratelimit_state)
    (st : irq_state) : irq_state :=
  match stream with
  | IRQTRACING_STREAM_SOURCE =>
      IrqState m (victim_rlimit st) (source_counts st) (victim_counts st) (dropped_samples st) (in_flight st)
  | IRQTRACING_STREAM_VICTIM =>
      IrqState (source_rlimit st) m (source_counts st) (victim_counts st) (dropped_samples st) (in_flight st)
  end.
Definition set_dropped (m : gmap (Z * Z) Z) (st : irq_state) : irq_state :=
  IrqState (source_rlimit st) (victim_rlimit st) (source_counts st) (victim_counts st) m (in_flight st).
Definition set_in_flight (m : gmap Z account_point) (st : irq_state) : irq_state :=
  IrqState (source_rlimit st) (victim_rlimit st) (source_counts st) (victim_counts st) (dropped_samples st) m.

(** ** Filters *)

Definition is_ksoftirqd (comm : list Z) (flags : Z) : bool :=
  ctrue (Z.land flags PF_KTHREAD) &&
  (byte_at comm 0 =? 107) && (byte_at comm 1 =? 115) && (byte_at comm 2 =? 111) &&
  (byte_at comm 3 =? 102) && (byte_at comm 4 =? 116) && (byte_at comm 5 =? 105) &&
  (byte_at comm 6 =? 114) && (byte_at comm 7 =? 113) && (byte_at comm 8 =? 100).

Definition should_trace_cpu (cfg : irq_config) (cpu : Z) : bool :=
  (target_cpu cfg =? IRQTRACING_TARGET_ALL_CPUS) || (cpu =? u32 (target_cpu cfg)).

(** ** Counting *)

Definition count_drop (stream : irqtracing_stream) (cpu : Z) (st : irq_state) : irq_state :=
  let slot := (stream_index stream, cpu) in
  set_dropped (<[slot := default 0 (dropped_samples st !! slot) +64 1]> (dropped_samples st)) st.

Definition irq_ratelimited (stream : irqtracing_stream) (burst cpu now : Z) (st : irq_state)
    : bool * irq_state :=
  if burst =? 0 then (false, st)
  else
    let state := percpu_get (PercpuRatelimitState 0 0) (rlimit stream st) cpu in
    let '(limited, state') := bpf_percpu_ratelimited_ns now (Some state) BPF_NSEC_PER_SEC burst in
    (limited, set_rlimit stream (percpu_set (rlimit stream st) cpu (default state state')) st).

Definition stack_id (ret : Z) : Z := if ret <? 0 then IRQTRACING_STACK_ID_NONE else u32 ret.

Definition stack_key (ev : irq_event) (vec : Z) : irqtracing_stack_key :=
  StackKey (stack_id (ie_ustack ev)) (stack_id (ie_kstack ev))
    (u32 (Z.shiftr (ie_pid_tgid ev) 32)) vec (ie_comm ev).

(** [( *valp)++] on the slot of this CPU. *)
Definition count_hit (stream : irqtracing_stream) (cpu : Z) (key : irqtracing_stack_key)
    (row : gmap Z Z) (st : irq_state) : irq_state :=
  set_counts stream (map_store (counts stream st) key (percpu_set row cpu (percpu_get 0 row cpu +64 1))) st.

(** [account_stack], up to its first lookup; the program goes on at the insertion
    if the key has no row. *)
Definition account_stack (stream : irqtracing_stream) (ev : irq_event) (vec : Z) (st : irq_state) : irq_state :=
  let key := stack_key ev vec in
  match bpf_map_lookup_elem (counts stream st) key with
  | Some row => count_hit stream (ie_cpu ev) key row st
  | None => set_in_flight (<[ie_cpu ev := AtInsert stream key]> (in_flight st)) st
  end.

(** The insertion: a row whose only nonzero slot is this CPU's, unless another CPU
    was faster or the map is full. *)
Definition account_insert (stream : irqtracing_stream) (cpu : Z) (key : irqtracing_stack_key)
    (st : irq_state) : irq_state :=
  let '(ret, m) := bpf_map_update_elem (counts stream st) key (percpu_set ∅ cpu 1) BPF_NOEXIST in
  let st := set_counts stream m st in
  if ret =? 0 then set_in_flight (delete cpu (in_flight st)) st
  else set_in_flight (<[cpu := AtRetry stream key]> (in_flight st)) st.

(** The second lookup. *)
Definition account_retry (stream : irqtracing_stream) (cpu : Z) (key : irqtracing_stack_key)
    (st : irq_state) : irq_state :=
  let st := set_in_flight (delete cpu (in_flight st)) st in
  match bpf_map_lookup_elem (counts stream st) key with
  | None => count_drop stream cpu st
  | Some row => count_hit stream cpu key row st
  end.

(** ** Programs *)

Definition probe_softirq_raise (cfg : irq_config) (ev : irq_event) (st : irq_state) : irq_state :=
  if negb (should_trace_cpu cfg (ie_cpu ev)) then st
  else
    let '(limited, st) :=
      irq_ratelimited IRQTRACING_STREAM_SOURCE (source_rate_limit cfg) (ie_cpu ev) (ie_now ev) st in
    if limited then count_drop IRQTRACING_STREAM_SOURCE (ie_cpu ev) st
    else account_stack IRQTRACING_STREAM_SOURCE ev (ie_vec ev) st.

Definition probe_softirq_entry (cfg : irq_config) (ev : irq_event) (st : irq_state) : irq_state :=
  if negb (should_trace_cpu cfg (ie_cpu ev)) then st
  else if is_ksoftirqd (ie_comm ev) (u32 (ie_flags ev)) then st
  else if u32 (Z.shiftr (ie_pid_tgid ev) 32) =? 0 then st
  else
    let '(limited, st) :=
      irq_ratelimited IRQTRACING_STREAM_VICTIM (victim_rate_limit cfg) (ie_cpu ev) (ie_now ev) st in
    if limited then count_drop IRQTRACING_STREAM_VICTIM (ie_cpu ev) st
    else account_stack IRQTRACING_STREAM_VICTIM ev (ie_vec ev) st.

(** ** Interleavings *)

Inductive irq_label :=
  | Enter (stream : irqtracing_stream) (ev : irq_event)
  | Advance (cpu : Z).

(** A program starts only on a CPU that runs none; a CPU inside [account_stack]
    advances by one map operation. *)
Definition irq_step (cfg : irq_config) (st : irq_state) (l : irq_label) : option irq_state :=
  match l with
  | Enter stream ev =>
      match in_flight st !! ie_cpu ev with
      | Some _ => None
      | None =>
          Some (match stream with
                | IRQTRACING_STREAM_SOURCE => probe_softirq_raise cfg ev st
                | IRQTRACING_STREAM_VICTIM => probe_softirq_entry cfg ev st
                end)
      end
  | Advance cpu =>
      match in_flight st !! cpu with
      | None => None
      | Some (AtInsert stream key) => Some (account_insert stream cpu key st)
      | Some (AtRetry stream key) => Some (account_retry stream cpu key st)
      end
  end.

Fixpoint irq_run (cfg : irq_config) (st : irq_state) (ls : list irq_label) : option irq_state :=
  match ls with
  | [] => Some st
  | l :: ls => match irq_step cfg st l with Some st => irq_run cfg st ls | None => None end
  end.

(** ** The ledger *)

(** The events a stream is about. *)
Definition qualifies (cfg : irq_config) (stream : irqtracing_stream) (ev : irq_event) : bool :=
  should_trace_cpu cfg (ie_cpu ev) &&
  match stream with
  | IRQTRACING_STREAM_SOURCE => true
  | IRQTRACING_STREAM_VICTIM =>
      negb (is_ksoftirqd (ie_comm ev) (u32 (ie_flags ev))) &&
      negb (u32 (Z.shiftr (ie_pid_tgid ev) 32) =? 0)
  end.

Definition sample_of (cfg : irq_config) (stream : irqtracing_stream) (cpu : Z) (l : irq_label) : Z :=
  match l with
  | Enter s ev => c_of_bool (bool_decide (s = stream) && (ie_cpu ev =? cpu) && qualifies cfg s ev)
  | Advance _ => 0
  end.
Definition samples (cfg : irq_config) (stream : irqtracing_stream) (cpu : Z) (ls : list irq_label) : Z :=
  zsum (sample_of cfg stream cpu) ls.

Definition hits (stream : irqtracing_stream) (cpu : Z) (st : irq_state) (key : irqtracing_stack_key) : Z :=
  percpu_get 0 (default ∅ (bpf_map_lookup_elem (counts stream st) key)) cpu.
Definition counted (stream : irqtracing_stream) (cpu : Z) (ks : list irqtracing_stack_key) (st : irq_state) : Z :=
  zsum (hits stream cpu st) ks.
Definition dropped (stream : irqtracing_stream) (cpu : Z) (st : irq_state) : Z :=
  default 0 (dropped_samples st !! (stream_index stream, cpu)).
Definition point_stream (p : account_point) : irqtracing_stream :=
  match p with AtInsert s _ | AtRetry s _ => s end.
Definition point_key (p : account_point) : irqtracing_stack_key :=
  match p with AtInsert _ k | AtRetry _ k => k end.
Definition unfinished (stream : irqtracing_stream) (cpu : Z) (st : irq_state) : Z :=
  match in_flight st !! cpu with
  | Some p => c_of_bool (bool_decide (point_stream p = stream))
  | None => 0
  end.
Definition label_key (l : irq_label) : list irqtracing_stack_key :=
  match l with Enter _ ev => [stack_key ev (ie_vec ev)] | Advance _ => [] end.

End Tracer.
Arguments irq_state {M}.

Definition irq_start {M : BpfMapOps} (sources victims : hmap irqtracing_stack_key (gmap Z Z)) : irq_state :=
  IrqState ∅ ∅ sources victims ∅ ∅.

(** ** Effects of the operations *)

Section Effects.
Context {M : BpfMapOps} {L : BpfMapLaws M}.
Implicit Types (st : irq_state) (s : irqtracing_stream) (c : Z) (k : irqtracing_stack_key).

Lemma counts_set s s' m st : counts s' (set_counts s m st) = if decide (s = s') then m else counts s' st.
Proof. by destruct s, s'. Qed.
Lemma dropped_set_counts s c s' m st : dropped s c (set_counts s' m st) = dropped s c st.
Proof. by destruct s'. Qed.
Lemma in_flight_set_counts s m st : in_flight (set_counts s m st) = in_flight st.
Proof. by destruct s. Qed.

Lemma hits_count_hit s c k row st s' c' k' :
  bpf_map_lookup_elem (counts s st) k = Some row ->
  hits s' c' (count_hit s c k row st) k' =
  if decide (s = s' /\ c = c' /\ k = k') then hits s' c' st k' +64 1 else hits s' c' st k'.
Proof.
  intros Hl. unfold hits, count_hit. rewrite counts_set.
  case_decide as Hs; [subst s'|case_decide; naive_solver].
  rewrite store_lookup by (by rewrite Hl).
  destruct (decide (k = k')) as [<-|Hk]; [rewrite Hl; cbn [default]|case_decide; naive_solver].
  change (id (A:=gmap Z Z)) with (fun x : gmap Z Z => x). cbv beta. rewrite percpu_get_set.
  destruct (decide (c = c')) as [<-|Hc]; case_decide; naive_solver.
Qed.

Lemma hits_insert s c k st s' c' k' :
  let '(ret, m) := bpf_map_update_elem (counts s st) k (percpu_set ∅ c 1) BPF_NOEXIST in
  hits s' c' (set_counts s m st) k' =
  hits s' c' st k' + (if decide (ret = 0 /\ s = s' /\ c = c' /\ k = k') then 1 else 0).
Proof.
  destruct (bpf_map_update_elem _ _ _ _) as [ret m] eqn:E. unfold hits. rewrite counts_set.
  assert (Hr : ret = fst (bpf_map_update_elem (counts s st) k (percpu_set ∅ c 1) BPF_NOEXIST)) by by rewrite E.
  assert (Hm : m = snd (bpf_map_update_elem (counts s st) k (percpu_set ∅ c 1) BPF_NOEXIST)) by by rewrite E.
  destruct (decide (s = s')) as [<-|]; [|rewrite (decide_False (P := _ /\ _)) by tauto; lia].
  destruct (decide (ret = 0)) as [H0|H0].
  - destruct (bm_noexist_ok (counts s st) k (percpu_set ∅ c 1)) as [Hn Ho]; [congruence|].
    rewrite Hm, Ho. destruct (decide (k = k')) as [<-|];
      [rewrite Hn; cbn [default]|rewrite (decide_False (P := _ /\ _)) by tauto; lia].
    change (id (A:=gmap Z Z)) with (fun x : gmap Z Z => x). cbv beta. rewrite percpu_get_set.
    unfold percpu_get, arr_get. rewrite lookup_empty. cbn.
    destruct (decide (c = c')); [rewrite decide_True by tauto|rewrite decide_False by tauto]; done.
  - rewrite Hm, update_err by congruence. rewrite decide_False by tauto. lia.
Qed.

Lemma dropped_count_drop s c st s' c' :
  dropped s' c' (count_drop s c st) =
  if decide (s = s' /\ c = c') then dropped s' c' st +64 1 else dropped s' c' st.
Proof.
  unfold dropped, count_drop. cbn. case_decide as Hd.
  - destruct Hd as [-> ->]. by rewrite lookup_insert_eq.
  - rewrite lookup_insert_ne; [done|]. intros E. apply Hd. destruct s, s'; cbn in E; naive_solver.
Qed.

Lemma ratelimited_frame s burst c now st :
  let '(_, st') := irq_ratelimited s burst c now st in
  (forall s', counts s' st' = counts s' st) /\
  dropped_samples st' = dropped_samples st /\ in_flight st' = in_flight st.
Proof.
  unfold irq_ratelimited. destruct (burst =? 0); [done|].
  destruct (bpf_percpu_ratelimited_ns _ _ _ _) as [v r]. split_and!; [intros s'; by destruct s, s'|by destruct s..].
Qed.

(** ** Conservation *)

Section Conservation.
Context (ks : list irqtracing_stack_key) (Hnd : NoDup ks).

Definition total s c st : Z := counted s c ks st + dropped s c st + unfinished s c st.

(** Counters are not negative and unfinished programs work on known keys. *)
Definition ledger_ok st : Prop :=
  (forall s c k, 0 <= hits s c st k) /\ (forall s c, 0 <= dropped s c st) /\
  (forall c p, in_flight st !! c = Some p -> point_key p ∈ ks).

Lemma counted_same s c st st' : (forall k, hits s c st' k = hits s c st k) -> counted s c ks st' = counted s c ks st.
Proof. intros H. apply zsum_same. auto. Qed.

Lemma counted_bump s c k d st st' :
  k ∈ ks -> (forall k', hits s c st' k' = hits s c st k' + if decide (k = k') then d else 0) ->
  counted s c ks st' = counted s c ks st + d.
Proof. intros Hin H. by apply (zsum_bump _ _ d ks k). Qed.

Lemma hits_le s c k st : ledger_ok st -> k ∈ ks -> hits s c st k <= counted s c ks st.
Proof. intros (H & _) Hin. apply zsum_ge; auto. Qed.
Lemma counted_nonneg s c st : ledger_ok st -> 0 <= counted s c ks st.
Proof. intros (H & _). apply zsum_nonneg. auto. Qed.
Lemma unfinished_nonneg s c st : 0 <= unfinished s c st <= 1.
Proof. unfold unfinished, c_of_bool. repeat case_match; lia. Qed.

(** The ledger of [st'] is that of [st] with [d] more samples on [s] and [c]. *)
Definition ledger_step s c d st st' : Prop :=
  ledger_ok st' /\ forall s' c', total s' c' st' = total s' c' st + if decide (s = s' /\ c = c') then d else 0.

Lemma ledger_hit s c k row st f :
  ledger_ok st -> k ∈ ks -> bpf_map_lookup_elem (counts s st) k = Some row ->
  hits s c st k + 1 < 2 ^ 64 -> f ⊆ in_flight st ->
  let st' := count_hit s c k row st in
  ledger_ok (set_in_flight f st') /\
  (forall s' c', counted s' c' ks (set_in_flight f st') + dropped s' c' (set_in_flight f st') =
     counted s' c' ks st + dropped s' c' st + if decide (s = s' /\ c = c') then 1 else 0).
Proof.
  intros (Hh & Hd & Hf) Hk Hl Hb Hsub st'.
  assert (Hhits : forall s' c' k', hits s' c' (set_in_flight f st') k' =
    hits s' c' st k' + if decide (s = s' /\ c = c' /\ k = k') then 1 else 0).
  { intros. change (hits s' c' (set_in_flight f st') k') with (hits s' c' (count_hit s c k row st) k').
    rewrite hits_count_hit by done. case_decide as E; [destruct E as (-> & -> & ->)|lia].
    specialize (Hh s' c' k'). by rewrite u64_add_small by lia. }
  assert (Hdr : forall s' c', dropped s' c' (set_in_flight f st') = dropped s' c' st)
    by (intros; apply dropped_set_counts).
  split.
  - split_and!; [|intros; by rewrite Hdr|].
    + intros s' c' k'. rewrite Hhits. specialize (Hh s' c' k'). case_decide; lia.
    + intros c' p Hp. apply (Hf c'). by eapply lookup_weaken.
  - intros s' c'. rewrite Hdr. case_decide as E.
    + destruct E as [<- <-]. rewrite (counted_bump s c k 1 st) by
        (done || intros; rewrite Hhits; repeat case_decide; naive_solver). lia.
    + rewrite (counted_same s' c' st) by (intros; rewrite Hhits, decide_False by tauto; lia). lia.
Qed.

Lemma ledger_drop s c st f :
  ledger_ok st -> dropped s c st + 1 < 2 ^ 64 -> f ⊆ in_flight st ->
  let st' := count_drop s c st in
  ledger_ok (set_in_flight f st') /\
  (forall s' c', counted s' c' ks (set_in_flight f st') + dropped s' c' (set_in_flight f st') =
     counted s' c' ks st + dropped s' c' st + if decide (s = s' /\ c = c') then 1 else 0).
Proof.
  intros (Hh & Hd & Hf) Hb Hsub st'.
  assert (Hdr : forall s' c', dropped s' c' (set_in_flight f st') =
    dropped s' c' st + if decide (s = s' /\ c = c') then 1 else 0).
  { intros. change (dropped s' c' (set_in_flight f st')) with (dropped s' c' (count_drop s c st)).
    rewrite dropped_count_drop. case_decide as E; [destruct E as [-> ->]|lia].
    specialize (Hd s' c'). by rewrite u64_add_small by lia. }
  split.
  - split_and!; [done| |].
    + intros s' c'. rewrite Hdr. specialize (Hd s' c'). case_decide; lia.
    + intros c' p Hp. apply (Hf c'). by eapply lookup_weaken.
  - intros s' c'. rewrite Hdr, (counted_same s' c' st) by done. lia.
Qed.

Lemma in_flight_same st : set_in_flight (in_flight st) st = st.
Proof. by destruct st. Qed.
Lemma unfinished_insert s c p st s' c' :
  in_flight st !! c = None -> point_stream p = s ->
  unfinished s' c' (set_in_flight (<[c := p]> (in_flight st)) st) =
  unfinished s' c' st + if decide (s = s' /\ c = c') then 1 else 0.
Proof.
  intros Hn <-. unfold unfinished. cbn. destruct (decide (c = c')) as [<-|Hc].
  - rewrite lookup_insert_eq, Hn. case_bool_decide; case_decide; naive_solver.
  - rewrite lookup_insert_ne by done. case_decide; [naive_solver|lia].
Qed.
Lemma unfinished_delete s c p (g : irq_state -> irq_state) st s' c' :
  in_flight st !! c = Some p -> point_stream p = s ->
  unfinished s' c' (set_in_flight (delete c (in_flight st)) (g st)) +
  (if decide (s = s' /\ c = c') then 1 else 0) = unfinished s' c' st.
Proof.
  intros Hn <-. unfold unfinished. cbn. destruct (decide (c = c')) as [<-|Hc].
  - rewrite lookup_delete_eq, Hn. case_bool_decide; case_decide; naive_solver.
  - rewrite lookup_delete_ne by done. case_decide; [naive_solver|lia].
Qed.
Lemma unfinished_move s c p p' st s' c' :
  in_flight st !! c = Some p -> point_stream p = s -> point_stream p' = s ->
  unfinished s' c' (set_in_flight (<[c := p']> (in_flight st)) st) = unfinished s' c' st.
Proof.
  intros Hn Hp Hp'. unfold unfinished. cbn. destruct (decide (c = c')) as [<-|Hc].
  - by rewrite lookup_insert_eq, Hn, Hp, Hp'.
  - by rewrite lookup_insert_ne by done.
Qed.

Lemma unfinished_count_hit s c k row st s' c' : unfinished s' c' (count_hit s c k row st) = unfinished s' c' st.
Proof. unfold unfinished, count_hit. by rewrite in_flight_set_counts. Qed.

Lemma ledger_account s ev vec st :
  ledger_ok st -> stack_key ev vec ∈ ks -> in_flight st !! ie_cpu ev = None ->
  total s (ie_cpu ev) st + 1 < 2 ^ 64 -> ledger_step s (ie_cpu ev) 1 st (account_stack s ev vec st).
Proof.
  intros Hok Hk Hn Hb. pose proof (hits_le s (ie_cpu ev) _ st Hok Hk). pose proof Hok as (Hh & Hd & Hf).
  pose proof (Hd s (ie_cpu ev)). pose proof (unfinished_nonneg s (ie_cpu ev) st). unfold total in Hb.
  unfold account_stack. destruct (bpf_map_lookup_elem (counts s st) (stack_key ev vec)) as [row|] eqn:Hl.
  - destruct (ledger_hit s (ie_cpu ev) _ row st (in_flight st) Hok Hk Hl ltac:(lia) (reflexivity _)) as [Hok' Ht].
    rewrite <- (in_flight_set_counts s (map_store (counts s st) (stack_key ev vec)
      (percpu_set row (ie_cpu ev) (percpu_get 0 row (ie_cpu ev) +64 1))) st) in Hok', Ht.
    fold (count_hit s (ie_cpu ev) (stack_key ev vec) row st) in Hok', Ht. rewrite in_flight_same in Hok', Ht.
    split; [done|]. intros s' c'. unfold total. rewrite unfinished_count_hit, Ht. lia.
  - split.
    + split_and!; [done..|]. intros c' p. cbn. rewrite lookup_insert_Some. intros [[<- <-]|[_ ?]]; [done|eauto].
    + intros s' c'. unfold total. rewrite (unfinished_insert s) by done.
      rewrite (counted_same s' c' st) by done. change (dropped s' c' (set_in_flight _ st)) with (dropped s' c' st). lia.
Qed.

Lemma ledger_insert s c k st :
  ledger_ok st -> in_flight st !! c = Some (AtInsert s k) ->
  ledger_step s c 0 st (account_insert s c k st).
Proof.
  intros Hok Hn. pose proof Hok as (Hh & Hd & Hf). pose proof (Hf _ _ Hn) as Hk. cbn in Hk.
  unfold account_insert. pose proof (fun s' c' k' => hits_insert s c k st s' c' k') as Hi.
  destruct (bpf_map_update_elem _ _ _ _) as [ret m]. rewrite in_flight_set_counts.
  assert (Hdr : forall s' c' f, dropped s' c' (set_in_flight f (set_counts s m st)) = dropped s' c' st)
    by (intros; apply dropped_set_counts).
  assert (Hnn : forall s' c' k', 0 <= hits s' c' (set_counts s m st) k')
    by (intros s' c' k'; rewrite Hi; specialize (Hh s' c' k'); split_decide; lia).
  destruct (Z.eqb_spec ret 0) as [->|Hr].
  - split.
    + split_and!; [done|intros; by rewrite Hdr|]. intros c' p. cbn. rewrite lookup_delete_Some. intros [_ ?]; eauto.
    + intros s' c'. unfold total. rewrite Hdr.
      pose proof (unfinished_delete s c _ (set_counts s m) st s' c' Hn eq_refl).
      destruct (decide (s = s' /\ c = c')) as [[<- <-]|Hne].
      * rewrite (counted_bump s c k 1 st) by (done || (intros k'; etransitivity; [apply Hi|];
          repeat split_decide; naive_solver)). lia.
      * rewrite (counted_same s' c' st) by (intros k'; etransitivity; [apply Hi|]; rewrite decide_False by tauto; lia). lia.
  - split.
    + split_and!; [done|intros; by rewrite Hdr|]. intros c' p. cbn. rewrite lookup_insert_Some.
      intros [[<- <-]|[_ ?]]; [done|eauto].
    + intros s' c'. unfold total. rewrite Hdr.
      pose proof (unfinished_move s c _ (AtRetry s k) st s' c' Hn eq_refl eq_refl) as Hu.
      rewrite (counted_same s' c' st) by (intros k'; etransitivity; [apply Hi|]; rewrite decide_False by tauto; lia).
      unfold unfinished in *. cbn in *. rewrite Hu. destruct (decide (s = s' /\ c = c')); lia.
Qed.

Lemma ledger_retry s c k st :
  ledger_ok st -> in_flight st !! c = Some (AtRetry s k) -> total s c st < 2 ^ 64 ->
  ledger_step s c 0 st (account_retry s c k st).
Proof.
  intros Hok Hn Hb. pose proof Hok as (Hh & Hd & Hf). pose proof (Hf _ _ Hn) as Hk. cbn in Hk.
  pose proof (hits_le s c k st Hok Hk). pose proof (Hd s c). pose proof (counted_nonneg s c st Hok).
  assert (unfinished s c st = 1) by (unfold unfinished; rewrite Hn; cbn; by rewrite bool_decide_true).
  unfold total in Hb. unfold account_retry.
  change (counts s (set_in_flight _ st)) with (counts s st).
  assert (Hsub : delete c (in_flight st) ⊆ in_flight st) by apply delete_subseteq.
  destruct (bpf_map_lookup_elem (counts s st) k) as [row|] eqn:Hl.
  - destruct (ledger_hit s c k row st _ Hok Hk Hl ltac:(lia) Hsub) as [Hok' Ht].
    replace (count_hit s c k row (set_in_flight _ st)) with
      (set_in_flight (delete c (in_flight st)) (count_hit s c k row st)) by by destruct s.
    split; [done|]. intros s' c'. unfold total. rewrite Ht.
    pose proof (unfinished_delete s c _ (count_hit s c k row) st s' c' Hn eq_refl).
    destruct (decide (s = s' /\ c = c')); lia.
  - destruct (ledger_drop s c st _ Hok ltac:(lia) Hsub) as [Hok' Ht].
    change (count_drop s c (set_in_flight _ st)) with
      (set_in_flight (delete c (in_flight st)) (count_drop s c st)).
    split; [done|]. intros s' c'. unfold total. rewrite Ht.
    pose proof (unfinished_delete s c _ (count_drop s c) st s' c' Hn eq_refl).
    destruct (decide (s = s' /\ c = c')); lia.
Qed.

Lemma ledger_rate s burst c now st :
  let '(_, st') := irq_ratelimited s burst c now st in
  (ledger_ok st -> ledger_ok st') /\ (forall s' c', total s' c' st' = total s' c' st) /\
  in_flight st' = in_flight st.
Proof.
  pose proof (ratelimited_frame s burst c now st) as H.
  destruct (irq_ratelimited s burst c now st) as [v st']. destruct H as (Hc & Hd & Hf).
  assert (Hh : forall s' c' k, hits s' c' st' k = hits s' c' st k) by (intros; unfold hits; by rewrite Hc).
  split_and!; [|intros s' c'; unfold total, dropped, unfinished; by rewrite (counted_same _ _ _ _ (Hh s' c')), Hd, Hf|done].
  intros (H1 & H2 & H3). split_and!; [intros; by rewrite Hh|intros; unfold dropped; rewrite Hd; apply H2|].
  intros c' p. rewrite Hf. apply H3.
Qed.

(** The tail of both programs: limiter, then drop or account. *)
Lemma ledger_sample s burst ev st :
  ledger_ok st -> stack_key ev (ie_vec ev) ∈ ks -> in_flight st !! ie_cpu ev = None ->
  total s (ie_cpu ev) st + 1 < 2 ^ 64 ->
  let '(limited, st') := irq_ratelimited s burst (ie_cpu ev) (ie_now ev) st in
  ledger_step s (ie_cpu ev) 1 st
    (if limited then count_drop s (ie_cpu ev) st' else account_stack s ev (ie_vec ev) st').
Proof.
  intros Hok Hk Hn Hb. pose proof (ledger_rate s burst (ie_cpu ev) (ie_now ev) st) as Hr.
  destruct (irq_ratelimited s burst (ie_cpu ev) (ie_now ev) st) as [limited st'].
  destruct Hr as (Hok' & Ht & Hf). specialize (Hok' Hok). rewrite <- Hf in Hn. rewrite <- Ht in Hb.
  assert (Hs : ledger_step s (ie_cpu ev) 1 st'
    (if limited then count_drop s (ie_cpu ev) st' else account_stack s ev (ie_vec ev) st')).
  { destruct limited; [|by apply ledger_account].
    pose proof (counted_nonneg s (ie_cpu ev) st' Hok'). pose proof (unfinished_nonneg s (ie_cpu ev) st').
    destruct (ledger_drop s (ie_cpu ev) st' (in_flight st') Hok' ltac:(unfold total in *; lia) (reflexivity _)) as [Ho Hd].
    change (set_in_flight (in_flight st') (count_drop s (ie_cpu ev) st')) with (count_drop s (ie_cpu ev) st') in Ho, Hd.
    split; [done|]. intros s' c'. unfold total. rewrite Hd.
    change (unfinished s' c' (count_drop _ _ st')) with (unfinished s' c' st'). lia. }
  destruct Hs as [Ho Hs]. split; [done|]. intros s' c'. by rewrite Hs, Ht.
Qed.

Lemma ledger_irq_step cfg st l st' :
  irq_step cfg st l = Some st' -> ledger_ok st -> (forall k, k ∈ label_key l -> k ∈ ks) ->
  (forall s c, total s c st + 1 < 2 ^ 64) ->
  ledger_ok st' /\ forall s c, total s c st' = total s c st + sample_of cfg s c l.
Proof.
  assert (Hsame : forall s c d st', ledger_step s c d st st' ->
    ledger_ok st' /\ forall s' c', total s' c' st' = total s' c' st + if decide (s = s' /\ c = c') then d else 0) by done.
  intros Hstep Hok Hk Hb. destruct l as [s ev|c]; cbn in Hstep.
  - destruct (in_flight st !! ie_cpu ev) eqn:Hn; [done|]. injection Hstep as <-.
    assert (Hk' : stack_key ev (ie_vec ev) ∈ ks) by (apply Hk; cbn; by apply list_elem_of_singleton).
    assert (Hq : forall d st1, d = c_of_bool (qualifies cfg s ev) -> ledger_step s (ie_cpu ev) d st st1 ->
      ledger_ok st1 /\ forall s' c', total s' c' st1 = total s' c' st + sample_of cfg s' c' (Enter s ev)).
    { intros d st1 -> [Ho Ht]. split; [done|]. intros s' c'. rewrite Ht. cbn [sample_of]. f_equal.
      destruct (decide (s = s' /\ ie_cpu ev = c')) as [[<- <-]|Hne]; [by rewrite bool_decide_true, Z.eqb_refl|].
      destruct (Z.eqb_spec (ie_cpu ev) c'); [|by rewrite andb_false_r]. by rewrite bool_decide_false by tauto. }
    assert (H0 : ledger_step s (ie_cpu ev) 0 st st)
      by (split; [done|]; intros; split_decide; lia).
    destruct s; unfold probe_softirq_raise, probe_softirq_entry, qualifies in *;
      (destruct (should_trace_cpu cfg (ie_cpu ev)); cbn [negb andb] in *; [|by apply (Hq 0)]).
    + pose proof (ledger_sample IRQTRACING_STREAM_SOURCE (source_rate_limit cfg) ev st Hok Hk' Hn (Hb _ _)) as Hs.
      destruct (irq_ratelimited _ _ _ _ _) as [limited st1]. by apply (Hq 1).
    + destruct (is_ksoftirqd _ _); [by apply (Hq 0)|]. destruct (_ =? 0); [by apply (Hq 0)|].
      pose proof (ledger_sample IRQTRACING_STREAM_VICTIM (victim_rate_limit cfg) ev st Hok Hk' Hn (Hb _ _)) as Hs.
      destruct (irq_ratelimited _ _ _ _ _) as [limited st1]. by apply (Hq 1).
  - destruct (in_flight st !! c) as [[s k|s k]|] eqn:Hn; [| |done]; injection Hstep as <-.
    + destruct (ledger_insert s c k st Hok Hn) as [Ho Ht]. split; [done|]. intros. rewrite Ht. split_decide; done.
    + destruct (ledger_retry s c k st Hok Hn) as [Ho Ht]; [specialize (Hb s c); lia|].
      split; [done|]. intros. rewrite Ht. split_decide; done.
Qed.

Lemma ledger_irq_run cfg ls : forall st st',
  irq_run cfg st ls = Some st' -> ledger_ok st -> (forall k, k ∈ concat (map label_key ls) -> k ∈ ks) ->
  (forall s c, total s c st + Z.of_nat (length ls) < 2 ^ 64) ->
  forall s c, total s c st' = total s c st + samples cfg s c ls.
Proof.
  induction ls as [|l ls IH]; intros st st' Hr Hok Hk Hb s c; cbn [irq_run] in Hr.
  { injection Hr as <-. cbn. lia. }
  destruct (irq_step cfg st l) as [st1|] eqn:Hs; [|done]. cbn [map concat] in Hk.
  setoid_rewrite elem_of_app in Hk. rewrite length_cons in Hb.
  destruct (ledger_irq_step cfg st l st1 Hs Hok) as [Hok1 Ht]; [auto|intros s0 c0; specialize (Hb s0 c0); lia|].
  assert (Hle : forall s0 c0, sample_of cfg s0 c0 l <= 1) by
    (intros; destruct l; cbn; unfold c_of_bool; [case_match|]; lia).
  rewrite (IH st1 st' Hr Hok1); [|auto|intros s0 c0; specialize (Hb s0 c0); specialize (Hle s0 c0); rewrite Ht; lia].
  rewrite Ht. unfold samples. rewrite zsum_cons. lia.
Qed.
End Conservation.

(** C7: However the programs of the CPUs interleave and whichever insertions fail, every
    softirq event of a stream that passes the filters (CPU, and for victims neither
    ksoftirqd nor the idle task) is accounted for on its CPU exactly once: the hits
    of all stack keys, the drop counter and the program that is still running add up to
    the number of such events. *)
Theorem irq_samples_conserved cfg sources victims ls st ks stream cpu :
  (forall k, bpf_map_lookup_elem sources k = None /\ bpf_map_lookup_elem victims k = None) ->
  irq_run cfg (irq_start sources victims) ls = Some st ->
  NoDup ks -> (forall k, k ∈ concat (map label_key ls) -> k ∈ ks) ->
  Z.of_nat (length ls) < 2 ^ 64 ->
  counted stream cpu ks st + dropped stream cpu st + unfinished stream cpu st =
  samples cfg stream cpu ls.
Proof.
  intros He Hr Hnd Hk Hb.
  assert (Hh : forall s c k, hits s c (irq_start sources victims) k = 0).
  { intros s c k. unfold hits. destruct s; cbn; by rewrite (proj1 (He k)) || rewrite (proj2 (He k)). }
  assert (H0 : forall s c, total ks s c (irq_start sources victims) = 0).
  { intros. unfold total, unfinished, dropped. cbn. rewrite !lookup_empty. cbn. rewrite !Z.add_0_r.
    unfold counted. clear -Hh. induction ks as [|k l IH]; [done|]. by rewrite zsum_cons, Hh, IH. }
  change (total ks stream cpu st = samples cfg stream cpu ls).
  rewrite (ledger_irq_run ks Hnd cfg ls _ _ Hr).
  - by rewrite H0.
  - split_and!; [intros; by rewrite Hh|done|intros c p; cbn; by rewrite lookup_empty].
  - done.
  - intros s c. by rewrite H0.
Qed.
End Effects.

(** ** Concrete run *)

Definition sample_irq (cpu : Z) : irq_event :=
  IrqEvent cpu 3 (Z.shiftl 42 32) [115; 104] 0 (-14) 7 1000.

(** Two CPUs race to insert the same key; the loser joins the winner's row.  The
    third raise hits the limit of CPU 1. *)
Definition sample_race : list irq_label :=
  [Enter IRQTRACING_STREAM_SOURCE (sample_irq 0); Enter IRQTRACING_STREAM_SOURCE (sample_irq 1);
   Advance 1; Advance 0; Advance 0; Enter IRQTRACING_STREAM_SOURCE (sample_irq 1)].

Lemma irq_samples_conserved_witness :
  match irq_run (IrqConfig (-1) 1 0) (irq_start (FaultyHash ∅ 4 []) (FaultyHash ∅ 4 [])) sample_race with
  | Some st => counted IRQTRACING_STREAM_SOURCE 1 [stack_key (sample_irq 1) 3] st +
      dropped IRQTRACING_STREAM_SOURCE 1 st + unfinished IRQTRACING_STREAM_SOURCE 1 st = 2
  | None => False
  end.
Proof.
  destruct (irq_run _ _ _) as [st|] eqn:E; [|vm_compute in E; discriminate].
  refine (eq_trans (irq_samples_conserved (IrqConfig (-1) 1 0) _ _ sample_race st _ _ _ _ E _ _ _) _).
  - intros k. split; apply lookup_empty.
  - apply NoDup_singleton.
  - intros k Hk. do 3 (apply elem_of_cons in Hk as [->|Hk]; [by apply list_elem_of_singleton|]).
    by apply elem_of_nil in Hk.
  - reflexivity.
  - reflexivity.
Defined.
End IrqTracing.
