(* ===== verification/TcpRetransmit.v ===== *)
(** * TCP retransmission tracer ([bpf/tcp_retransmit.c],
    [bpf/include/abi/tcp_retransmit_types.h])

    Three programs build an event from the socket, the socket buffer or the request
    socket.  Retransmitted buffers need not carry headers, so the packet filter
    runs on a packet the tracer synthesises from the event; a limiter kept in a map
    decides last.  Module [TcpRetransmit] models the programs and the synthesised
    packets byte by byte, and proves that the packet states the event's flow and
    that the reports are the accepted events under the rate limit policy. *)

From Stdlib Require Import ZArith Lia.
From stdpp Require Import base option list tactics.
From S2P Require Import Prelude BpfMap KernelStr Ratelimit SkBuff.

Local Open Scope Z_scope.
Local Open Scope bpf_scope.

Module TcpRetransmit.
Import Ratelimit SkBuff.

Definition TCP_RETRANSMIT_EVENT_SKB : Z := 1.
Definition TCP_RETRANSMIT_EVENT_SYNACK : Z := 2.
Definition TCP_RETRANSMIT_EVENT_TLP : Z := 3.
Definition TCP_CA_Loss : Z := 4.
Definition TCP_NEW_SYN_RECV : Z := 12.
Definition TCP_WIRE_FLAGS_SYNACK : Z := 0x12.

Record tcp_retransmit_event := RetransmitEvent {
  kernel_observed_ns : Z;
  tgid_pid : Z;
  comm : list Z;
  event_type : Z;
  skb_addr : Z;
  memcg_css_addr : Z;
  netns_cookie : Z;
  netns_inum : Z;
  state : Z;
  family : Z;
  sport : Z;
  dport : Z;
  ca_state : Z;
  icsk_retransmits : Z;
  icsk_pending : Z;
  reord_seen : Z;
  dsack_dups : Z;
  tcp_seq : Z;
  tcp_ack : Z;
  tcp_end_seq : Z;
  tcp_flags : Z;
  saddr : list Z;
  daddr : list Z;
}.

(** Fields the running kernel may lack are [None]. *)
Record tcp_kernel := TcpKernel {
  tk_skb : skb_kernel;
  skc_num : Z -> Z;
  skc_dport : Z -> Z;
  k_ca_state : option (Z -> Z);
  k_retransmits : option (Z -> Z);
  k_pending : option (Z -> Z);
  k_reord_seen : option (Z -> Z);
  k_dsack_dups : option (Z -> Z);
  k_snd_nxt : option (Z -> Z);
  k_snd_una : option (Z -> Z);
  k_rcv_nxt : option (Z -> Z);
  has_rcv_saddr : bool;
  skc_rcv_saddr : Z -> list Z;
  skc_daddr : Z -> list Z;
  has_v6_rcv_saddr : bool;
  skc_v6_rcv_saddr : Z -> list Z;
  skc_v6_daddr : Z -> list Z;
  cb_seq : option (Z -> Z);
  cb_end_seq : option (Z -> Z);
  cb_tcp_flags : option (Z -> Z);
  req_num_retrans : option (Z -> Z);
  req_snt_isn : option (Z -> Z);
  req_rcv_nxt : option (Z -> Z);
}.

Record rt_ctx := RtCtx {
  rt_now : Z;
  rt_limit_now : Z;
  rt_pid_tgid : Z;
  rt_comm : list Z;
  rt_report_ret : Z;    (* result of the limiter's own report *)
  rt_output_ret : Z;
}.

(** ** Event fields *)

Definition set_sock (ev : tcp_retransmit_event) (state' family' sport' dport' ca retrans : Z)
    : tcp_retransmit_event :=
  RetransmitEvent (kernel_observed_ns ev) (tgid_pid ev) (comm ev) (event_type ev) (skb_addr ev)
    (memcg_css_addr ev) (netns_cookie ev) (netns_inum ev) state' family' sport' dport' ca retrans
    (icsk_pending ev) (reord_seen ev) (dsack_dups ev) (tcp_seq ev) (tcp_ack ev) (tcp_end_seq ev)
    (tcp_flags ev) (saddr ev) (daddr ev).
Definition set_owner (ev : tcp_retransmit_event) (skb css cookie inum : Z) : tcp_retransmit_event :=
  RetransmitEvent (kernel_observed_ns ev) (tgid_pid ev) (comm ev) (event_type ev) skb css cookie inum
    (state ev) (family ev) (sport ev) (dport ev) (ca_state ev) (icsk_retransmits ev) (icsk_pending ev)
    (reord_seen ev) (dsack_dups ev) (tcp_seq ev) (tcp_ack ev) (tcp_end_seq ev) (tcp_flags ev)
    (saddr ev) (daddr ev).
Definition set_metrics (ev : tcp_retransmit_event) (pending reord dsack : Z) : tcp_retransmit_event :=
  RetransmitEvent (kernel_observed_ns ev) (tgid_pid ev) (comm ev) (event_type ev) (skb_addr ev)
    (memcg_css_addr ev) (netns_cookie ev) (netns_inum ev) (state ev) (family ev) (sport ev) (dport ev)
    (ca_state ev) (icsk_retransmits ev) pending reord dsack (tcp_seq ev) (tcp_ack ev) (tcp_end_seq ev)
    (tcp_flags ev) (saddr ev) (daddr ev).
Definition set_tcp (ev : tcp_retransmit_event) (seq ack end_seq flags : Z) : tcp_retransmit_event :=
  RetransmitEvent (kernel_observed_ns ev) (tgid_pid ev) (comm ev) (event_type ev) (skb_addr ev)
    (memcg_css_addr ev) (netns_cookie ev) (netns_inum ev) (state ev) (family ev) (sport ev) (dport ev)
    (ca_state ev) (icsk_retransmits ev) (icsk_pending ev) (reord_seen ev) (dsack_dups ev)
    seq ack end_seq flags (saddr ev) (daddr ev).
Definition set_addrs (ev : tcp_retransmit_event) (s d : list Z) : tcp_retransmit_event :=
  RetransmitEvent (kernel_observed_ns ev) (tgid_pid ev) (comm ev) (event_type ev) (skb_addr ev)
    (memcg_css_addr ev) (netns_cookie ev) (netns_inum ev) (state ev) (family ev) (sport ev) (dport ev)
    (ca_state ev) (icsk_retransmits ev) (icsk_pending ev) (reord_seen ev) (dsack_dups ev)
    (tcp_seq ev) (tcp_ack ev) (tcp_end_seq ev) (tcp_flags ev) s d.

(** [if (bpf_core_field_exists(f)) ev->x = read(f)]. *)
Definition read_if (cast : Z -> Z) (f : option (Z -> Z)) (a old : Z) : Z :=
  match f with Some read => cast (read a) | None => old end.

(** [__builtin_memcpy(dst, src, sizeof src)]. *)
Definition memcpy (dst src : list Z) : list Z := src ++ drop (length src) dst.

Definition init_retransmit_event (cx : rt_ctx) (type : Z) : tcp_retransmit_event :=
  RetransmitEvent (rt_now cx) (rt_pid_tgid cx) (rt_comm cx) type 0 0 0 0 0 0 0 0 0 0 0 0 0 0 0 0 0
    (replicate 16 0) (replicate 16 0).

Definition read_ca_state (kr : tcp_kernel) (sk : Z) : Z :=
  if sk =? 0 then 0
  else match k_ca_state kr with
       | None => 0
       | Some read => let ca := u8 (read sk) in if TCP_CA_Loss <? ca then 0 else ca
       end.

(** The two counters, zero before the call. *)
Definition read_reorder_metrics (kr : tcp_kernel) (sk : Z) : Z * Z :=
  if sk =? 0 then (0, 0)
  else (read_if u32 (k_reord_seen kr) sk 0, read_if u32 (k_dsack_dups kr) sk 0).

Definition fill_addrs (kr : tcp_kernel) (ev : tcp_retransmit_event) (skc : Z) : tcp_retransmit_event :=
  if skc =? 0 then ev
  else if family ev =? AF_INET then
    if negb (has_rcv_saddr kr) then ev
    else set_addrs ev (memcpy (saddr ev) (skc_rcv_saddr kr skc)) (memcpy (daddr ev) (skc_daddr kr skc))
  else if family ev =? AF_INET6 then
    if negb (has_v6_rcv_saddr kr) then ev
    else set_addrs ev (memcpy (saddr ev) (skc_v6_rcv_saddr kr skc)) (memcpy (daddr ev) (skc_v6_daddr kr skc))
  else ev.

Definition read_icsk_pending (kr : tcp_kernel) (sk : Z) (ev : tcp_retransmit_event) : tcp_retransmit_event :=
  if sk =? 0 then ev
  else set_metrics ev (read_if u8 (k_pending kr) sk (icsk_pending ev)) (reord_seen ev) (dsack_dups ev).

Definition read_tlp_tcp_info (kr : tcp_kernel) (ev : tcp_retransmit_event) (sk : Z) : tcp_retransmit_event :=
  set_tcp ev (read_if u32 (k_snd_nxt kr) sk (tcp_seq ev)) (read_if u32 (k_snd_una kr) sk (tcp_ack ev))
    (tcp_end_seq ev) (tcp_flags ev).

Definition fill_retransmit_event_from_sk (kr : tcp_kernel) (ev : tcp_retransmit_event) (sk : Z)
    : tcp_retransmit_event :=
  if sk =? 0 then ev
  else
    let ev := set_sock ev (u32 (skc_state (tk_skb kr) sk)) (u16 (skc_family (tk_skb kr) sk))
      (u16 (skc_num kr sk)) (bswap16 (u16 (skc_dport kr sk))) (read_ca_state kr sk)
      (read_if u8 (k_retransmits kr) sk (icsk_retransmits ev)) in
    let ev := set_owner ev (skb_addr ev) (sk_memcg_css_addr (tk_skb kr) sk)
      (sk_netns_cookie (tk_skb kr) sk) (sk_netns_inum (tk_skb kr) sk) in
    let ev := read_icsk_pending kr sk ev in
    let '(reord, dsack) := read_reorder_metrics kr sk in
    let ev := set_metrics ev (icsk_pending ev) reord dsack in
    fill_addrs kr ev sk.

Definition read_retransmit_skb_tcp_fields (kr : tcp_kernel) (ev : tcp_retransmit_event) (sk skb : Z)
    : tcp_retransmit_event :=
  let ev :=
    if ctrue skb
    then set_tcp ev (read_if u32 (cb_seq kr) skb (tcp_seq ev)) (tcp_ack ev)
           (read_if u32 (cb_end_seq kr) skb (tcp_end_seq ev)) (read_if u8 (cb_tcp_flags kr) skb (tcp_flags ev))
    else ev in
  if ctrue sk
  then set_tcp ev (tcp_seq ev) (read_if u32 (k_rcv_nxt kr) sk (tcp_ack ev)) (tcp_end_seq ev) (tcp_flags ev)
  else ev.

Definition read_retransmit_synack_tcp_fields (kr : tcp_kernel) (ev : tcp_retransmit_event) (req : Z)
    : tcp_retransmit_event :=
  if req =? 0 then ev
  else
    let ev := match req_snt_isn kr with
              | Some read => let seq := u32 (read req) in
                             set_tcp ev seq (tcp_ack ev) (seq +32 1) (tcp_flags ev)
              | None => ev
              end in
    set_tcp ev (tcp_seq ev) (read_if u32 (req_rcv_nxt kr) req (tcp_ack ev)) (tcp_end_seq ev)
      TCP_WIRE_FLAGS_SYNACK.

(** ** The synthesised packet *)

Definition store_at (off : nat) (bytes buf : list Z) : list Z :=
  take off buf ++ bytes ++ drop (off + length bytes) buf.

(** The TCP header starts at [base]. *)
Definition fill_retransmit_filter_tcp (base : nat) (ev : tcp_retransmit_event) (pkt : list Z) : list Z :=
  let pkt := store_at base (le_bytes 2 (bswap16 (sport ev))) pkt in
  let pkt := store_at (base + 2) (le_bytes 2 (bswap16 (dport ev))) pkt in
  let pkt := store_at (base + 4) (le_bytes 4 (bswap32 (tcp_seq ev))) pkt in
  let pkt := store_at (base + 8) (le_bytes 4 (bswap32 (tcp_ack ev))) pkt in
  let flag_word := bswap32 (Z.lor (5 <<32 28) (Z.land (tcp_flags ev) 0xff <<32 16)) in
  store_at (base + 12) (le_bytes 4 flag_word) pkt.

Definition retransmit_address_is_ipv4_mapped (address : list Z) : bool :=
  let word i := field address (4 * i) 4 in
  (Z.lor (word 0%nat) (word 1%nat) =? 0) && (word 2%nat =? bswap32 0x0000ffff).

(** [version] and [ihl] share the first byte of an IPv4 header, [version] is the
    high half of the first byte of an IPv6 header. *)
Definition v4_packet (ev : tcp_retransmit_event) (src dst : list Z) : list Z :=
  let pkt := replicate 40 0 in
  let pkt := store_at 0 [Z.lor (Z.shiftl 4 4) 5] pkt in
  let pkt := store_at 2 (le_bytes 2 (bswap16 40)) pkt in
  let pkt := store_at 8 [64] pkt in
  let pkt := store_at 9 [IPPROTO_TCP] pkt in
  let pkt := store_at 12 src pkt in
  let pkt := store_at 16 dst pkt in
  fill_retransmit_filter_tcp 20 ev pkt.

Definition v6_packet (ev : tcp_retransmit_event) (src dst : list Z) : list Z :=
  let pkt := replicate 60 0 in
  let pkt := store_at 0 [Z.shiftl 6 4] pkt in
  let pkt := store_at 4 (le_bytes 2 (bswap16 20)) pkt in
  let pkt := store_at 6 [IPPROTO_TCP] pkt in
  let pkt := store_at 7 [64] pkt in
  let pkt := store_at 8 src pkt in
  let pkt := store_at 24 dst pkt in
  fill_retransmit_filter_tcp 40 ev pkt.

(** The packet handed to the filter; [None] where the code returns false after a
    call of the link-layer stub whose verdict it ignores. *)
Definition filter_view (ev : tcp_retransmit_event) : option (list Z) :=
  if family ev =? AF_INET then Some (v4_packet ev (take 4 (saddr ev)) (take 4 (daddr ev)))
  else if family ev =? AF_INET6 then
    let source_is_mapped := retransmit_address_is_ipv4_mapped (saddr ev) in
    let destination_is_mapped := retransmit_address_is_ipv4_mapped (daddr ev) in
    if negb (Bool.eqb source_is_mapped destination_is_mapped) then None
    else if source_is_mapped
    then Some (v4_packet ev (take 4 (drop 12 (saddr ev))) (take 4 (drop 12 (daddr ev))))
    else Some (v6_packet ev (saddr ev) (daddr ev))
  else None.

(** The injected filter as a predicate on the packet; without one the stub compares
    the bounds of the packet. *)
Definition pass_l3 (code : option (list Z -> bool)) (pkt : list Z) : bool :=
  match code with
  | Some f => f pkt
  | None => pcap_stub_body 0 0 0 0 (Z.of_nat (length pkt))
  end.

Definition retransmit_filter_pass (code : option (list Z -> bool)) (ev : tcp_retransmit_event) : bool :=
  match filter_view ev with
  | Some pkt => pass_l3 code pkt
  | None => false
  end.

(** ** The programs *)

Record rt_config := RtConfig {
  rlimit_interval_ns : Z;
  rlimit_burst : Z;
  rlimit_max_burst : Z;
  filter_code : option (list Z -> bool);
}.

Record rt_state := RtState {
  bpf_rlimit : bpf_ratelimit_event;
  event_bpf_rlimit : list bpf_ratelimit_event;
  perf_events : list tcp_retransmit_event;
}.
Definition rt_start : rt_state := RtState zero_event [] [].

(** The tail of the three programs: filter, limiter, output. *)
Definition rt_submit (cfg : rt_config) (cx : rt_ctx) (ev : tcp_retransmit_event) (st : rt_state) : rt_state :=
  if negb (retransmit_filter_pass (filter_code cfg) ev) then st
  else
    let '(limited, rate, reports) :=
      bpf_ratelimited_in_map_rc (rt_limit_now cx) (rt_report_ret cx) (rlimit_interval_ns cfg)
        (rlimit_burst cfg) (rlimit_max_burst cfg) (Some (bpf_rlimit st)) (event_bpf_rlimit st) in
    let st := RtState (default (bpf_rlimit st) rate) reports (perf_events st) in
    if limited then st
    else RtState (bpf_rlimit st) (event_bpf_rlimit st)
           (snd (bpf_perf_event_output (rt_output_ret cx) ev (perf_events st))).

Definition skb_event (kr : tcp_kernel) (cx : rt_ctx) (skb sk : Z) : option tcp_retransmit_event :=
  if (skb =? 0) || (sk =? 0) then None
  else
    let ev := init_retransmit_event cx TCP_RETRANSMIT_EVENT_SKB in
    let ev := set_owner ev skb (memcg_css_addr ev) (netns_cookie ev) (netns_inum ev) in
    let ev := fill_retransmit_event_from_sk kr ev sk in
    Some (read_retransmit_skb_tcp_fields kr ev sk skb).

Definition synack_event (kr : tcp_kernel) (cx : rt_ctx) (sk req : Z) : option tcp_retransmit_event :=
  if (sk =? 0) && (req =? 0) then None
  else
    let ev := init_retransmit_event cx TCP_RETRANSMIT_EVENT_SYNACK in
    let ev :=
      if ctrue sk
      then
        let ev := set_sock ev (state ev) (u16 (skc_family (tk_skb kr) sk)) (u16 (skc_num kr sk)) (dport ev)
          (ca_state ev) (icsk_retransmits ev) in
        set_owner ev (skb_addr ev) (sk_memcg_css_addr (tk_skb kr) sk)
          (sk_netns_cookie (tk_skb kr) sk) (sk_netns_inum (tk_skb kr) sk)
      else ev in
    let ev :=
      if ctrue req
      then
        let fam := if family ev =? 0 then u16 (skc_family (tk_skb kr) req) else family ev in
        set_sock ev (state ev) fam (sport ev) (bswap16 (u16 (skc_dport kr req))) (ca_state ev)
          (read_if u8 (req_num_retrans kr) req (icsk_retransmits ev))
      else ev in
    let ev := set_sock ev TCP_NEW_SYN_RECV (family ev) (sport ev) (dport ev) 0 (icsk_retransmits ev) in
    let ev := set_owner ev 0 (memcg_css_addr ev) (netns_cookie ev) (netns_inum ev) in
    let ev := fill_addrs kr ev req in
    Some (read_retransmit_synack_tcp_fields kr ev req).

Definition tlp_event (kr : tcp_kernel) (cx : rt_ctx) (sk : Z) : option tcp_retransmit_event :=
  if sk =? 0 then None
  else
    let ev := init_retransmit_event cx TCP_RETRANSMIT_EVENT_TLP in
    let ev := fill_retransmit_event_from_sk kr ev sk in
    Some (read_tlp_tcp_info kr ev sk).

Definition submit_if (cfg : rt_config) (cx : rt_ctx) (ev : option tcp_retransmit_event) (st : rt_state)
    : rt_state :=
  match ev with Some ev => rt_submit cfg cx ev st | None => st end.

(** [entry_size] and [word] describe the raw context the arguments are read from. *)
Definition retrans_skb (cfg : rt_config) (kr : tcp_kernel) (cx : rt_ctx) (entry_size : Z) (word : Z -> Z)
    (st : rt_state) : rt_state :=
  let skb := tracepoint_arg entry_size word 0 in
  let sk := tracepoint_arg entry_size word 1 in
  submit_if cfg cx (skb_event kr cx skb sk) st.
Definition retrans_synack (cfg : rt_config) (kr : tcp_kernel) (cx : rt_ctx) (sk req : Z) (st : rt_state)
    : rt_state := submit_if cfg cx (synack_event kr cx sk req) st.
Definition retrans_tlp (cfg : rt_config) (kr : tcp_kernel) (cx : rt_ctx) (sk : Z) (st : rt_state) : rt_state :=
  submit_if cfg cx (tlp_event kr cx sk) st.

Inductive rt_input :=
  | RetransSkb (kr : tcp_kernel) (cx : rt_ctx) (entry_size : Z) (word : Z -> Z)
  | RetransSynack (kr : tcp_kernel) (cx : rt_ctx) (sk req : Z)
  | RetransTlp (kr : tcp_kernel) (cx : rt_ctx) (sk : Z).

Definition rt_step (cfg : rt_config) (st : rt_state) (e : rt_input) : rt_state :=
  match e with
  | RetransSkb kr cx n word => retrans_skb cfg kr cx n word st
  | RetransSynack kr cx sk req => retrans_synack cfg kr cx sk req st
  | RetransTlp kr cx sk => retrans_tlp cfg kr cx sk st
  end.
Definition rt_run (cfg : rt_config) (st : rt_state) (es : list rt_input) : rt_state :=
  fold_left (rt_step cfg) es st.

(** ** The flow of an event and of a packet *)

Record flow := Flow {
  fl_src : list Z;
  fl_dst : list Z;
  fl_sport : Z;
  fl_dport : Z;
  fl_seq : Z;
  fl_ack : Z;
  fl_flags : Z;
}.

(** RFC 9293, section 3.1: a header without options. *)
Definition parse_tcp (src dst hdr : list Z) : option flow :=
  let be off len := be_value (take len (drop off hdr)) in
  if (length hdr =? 20)%nat && (byte_at hdr 12 / 16 =? 5)
  then Some (Flow src dst (be 0 2) (be 2 2) (be 4 4) (be 8 4) (byte_at hdr 13))%nat else None.

(** RFC 791, section 3.1 and RFC 8200, section 3. *)
Definition parse_l3 (pkt : list Z) : option flow :=
  let be off len := be_value (take len (drop off pkt)) in
  let size := Z.of_nat (length pkt) in
  if byte_at pkt 0 / 16 =? 4 then
    if (byte_at pkt 9 =? 6) && (be 2%nat 2%nat =? size)
    then parse_tcp (take 4 (drop 12 pkt)) (take 4 (drop 16 pkt)) (drop (Z.to_nat (byte_at pkt 0 mod 16 * 4)) pkt)
    else None
  else if byte_at pkt 0 / 16 =? 6 then
    if (byte_at pkt 6 =? 6) && (be 4%nat 2%nat =? size - 40)
    then parse_tcp (take 16 (drop 8 pkt)) (take 16 (drop 24 pkt)) (drop 40 pkt)
    else None
  else None.

(** RFC 4291, section 2.5.5.2. *)
Definition is_mapped (a : list Z) : Prop := take 12 a = replicate 10 0 ++ [255; 255].

(** The flow an event states: a pair of mapped addresses is an IPv4 flow, a mixed
    pair is none. *)
Definition flow_of (ev : tcp_retransmit_event) : option flow :=
  let fl s d := Some (Flow s d (sport ev) (dport ev) (tcp_seq ev) (tcp_ack ev) (tcp_flags ev)) in
  if family ev =? AF_INET then fl (take 4 (saddr ev)) (take 4 (daddr ev))
  else if family ev =? AF_INET6 then
    match decide (is_mapped (saddr ev)), decide (is_mapped (daddr ev)) with
    | left _, left _ => fl (drop 12 (saddr ev)) (drop 12 (daddr ev))
    | right _, right _ => fl (saddr ev) (daddr ev)
    | _, _ => None
    end
  else None.

(** ** Well-formed events *)

Definition is_addr (n : nat) (a : list Z) : Prop := length a = n /\ Forall is_u8 a.

Record event_ok (ev : tcp_retransmit_event) : Prop := {
  ok_sport : 0 <= sport ev < 2 ^ 16;
  ok_dport : 0 <= dport ev < 2 ^ 16;
  ok_seq : is_u32 (tcp_seq ev);
  ok_ack : is_u32 (tcp_ack ev);
  ok_end_seq : is_u32 (tcp_end_seq ev);
  ok_flags : is_u8 (tcp_flags ev);
  ok_ca_state : 0 <= ca_state ev <= TCP_CA_Loss;
  ok_saddr : is_addr 16 (saddr ev);
  ok_daddr : is_addr 16 (daddr ev);
}.

(** Addresses in kernel memory have their size. *)
Definition kernel_ok (kr : tcp_kernel) : Prop :=
  forall a, is_addr 4 (skc_rcv_saddr kr a) /\ is_addr 4 (skc_daddr kr a) /\
    is_addr 16 (skc_v6_rcv_saddr kr a) /\ is_addr 16 (skc_v6_daddr kr a).

Lemma memcpy_addr dst src n : is_addr 16 dst -> is_addr n src -> (n <= 16)%nat -> is_addr 16 (memcpy dst src).
Proof.
  intros [Hd Fd] [Hs Fs] Hn. unfold memcpy. split.
  - rewrite length_app, length_drop. lia.
  - apply Forall_app; split; [done|]. by apply Forall_drop.
Qed.
Lemma u16_range z : 0 <= u16 z < 2 ^ 16.
Proof. apply Z.mod_pos_bound. lia. Qed.
Lemma bswap16_range x : 0 <= x < 2 ^ 16 -> 0 <= bswap16 x < 2 ^ 16.
Proof.
  intros Hx. pose proof (le_value_bytes 2 x Hx) as E. pose proof (le_bytes_u8 2 x) as Hf.
  pose proof (le_bytes_length 2 x). destruct (le_bytes 2 x) as [|a [|b [|]]]; try done. rewrite <- E.
  rewrite !Forall_cons_iff in Hf. destruct Hf as (Ha & Hb & _). rewrite bswap16_value by done.
  apply (le_value_range [b; a]). rewrite !Forall_cons_iff. auto.
Qed.

Lemma read_if_u32 f a old : is_u32 old -> is_u32 (read_if u32 f a old).
Proof. destruct f; cbn; auto with bpf. Qed.
Lemma read_if_u8 f a old : is_u8 old -> is_u8 (read_if u8 f a old).
Proof. destruct f; cbn; auto with bpf. Qed.
#[local] Hint Resolve read_if_u32 read_if_u8 u16_range bswap16_range : bpf.

Lemma init_ok cx type : event_ok (init_retransmit_event cx type).
Proof.
  unfold init_retransmit_event. split; cbn -[replicate]; unfold TCP_CA_Loss, is_u32, is_u8; try lia;
    (split; [done|]); apply Forall_replicate; unfold is_u8; lia.
Qed.
Lemma set_owner_ok ev s c n i : event_ok ev -> event_ok (set_owner ev s c n i).
Proof. intros []. by split. Qed.
Lemma metrics_ok ev p r d : event_ok ev -> event_ok (set_metrics ev p r d).
Proof. intros []. by split. Qed.
Lemma sock_ok ev s f sp dp ca re :
  event_ok ev -> 0 <= sp < 2 ^ 16 -> 0 <= dp < 2 ^ 16 -> 0 <= ca <= TCP_CA_Loss ->
  event_ok (set_sock ev s f sp dp ca re).
Proof. intros [] ???. by split. Qed.
Lemma tcp_ok ev s a e f :
  event_ok ev -> is_u32 s -> is_u32 a -> is_u32 e -> is_u8 f -> event_ok (set_tcp ev s a e f).
Proof. intros [] ????. by split. Qed.
Lemma fill_addrs_ok kr ev skc : kernel_ok kr -> event_ok ev -> event_ok (fill_addrs kr ev skc).
Proof.
  intros Hk Hev. destruct (Hk skc) as (H1 & H2 & H3 & H4). unfold fill_addrs.
  repeat case_match; try done; destruct Hev; split; try done; cbn; eapply memcpy_addr; eauto; lia.
Qed.
Lemma read_ca_state_range kr sk : 0 <= read_ca_state kr sk <= TCP_CA_Loss.
Proof.
  unfold read_ca_state, TCP_CA_Loss. repeat case_match; zify_bools; try lia.
  pose proof (u8_range (z sk)) as Hu. unfold is_u8 in Hu. lia.
Qed.
#[local] Hint Resolve init_ok set_owner_ok metrics_ok sock_ok tcp_ok fill_addrs_ok read_ca_state_range
  ok_sport ok_dport ok_seq ok_ack ok_end_seq ok_flags ok_ca_state : bpf.

Lemma from_sk_ok kr ev sk : kernel_ok kr -> event_ok ev -> event_ok (fill_retransmit_event_from_sk kr ev sk).
Proof.
  intros Hk Hev. unfold fill_retransmit_event_from_sk, read_icsk_pending.
  destruct (sk =? 0); [done|]. destruct (read_reorder_metrics kr sk). auto 10 with bpf.
Qed.
#[local] Hint Resolve from_sk_ok : bpf.

(** ** Bytes of the packet *)

Lemma wire16 x : 0 <= x < 2 ^ 16 -> exists a b, le_bytes 2 (bswap16 x) = [a; b] /\ be_value [a; b] = x.
Proof.
  intros Hx. pose proof (htons_wire x Hx) as H. pose proof (le_bytes_length 2 (bswap16 x)).
  destruct (le_bytes 2 (bswap16 x)) as [|a [|b [|]]]; try done. eauto.
Qed.
Lemma wire32 x : is_u32 x -> exists a b c d, le_bytes 4 (bswap32 x) = [a; b; c; d] /\ be_value [a; b; c; d] = x.
Proof.
  intros Hx. pose proof (htonl_wire x Hx) as H. pose proof (le_bytes_length 4 (bswap32 x)).
  destruct (le_bytes 4 (bswap32 x)) as [|a [|b [|c [|d [|]]]]]; try done. eauto 10.
Qed.
Lemma flag_word_bytes flags :
  is_u8 flags ->
  le_bytes 4 (bswap32 (Z.lor (5 <<32 28) (Z.land flags 0xff <<32 16))) = [80; flags; 0; 0].
Proof.
  intros Hf. replace (Z.lor _ _) with (le_value [0; 0; flags; 80]).
  - rewrite bswap32_value by (done || unfold is_u8; lia).
    apply (le_bytes_value [80; flags; 0; 0]). rewrite !Forall_cons_iff. unfold is_u8 in *. repeat split; (lia || done).
  - unfold is_u8 in Hf. change 0xff with (2 ^ 8 - 1). rewrite land_mask, Z.mod_small by lia.
    rewrite !u32_small by (rewrite Z.shiftl_mul_pow2 by lia; unfold is_u32; lia).
    rewrite lor_shiftl_add by (rewrite ?Z.shiftl_mul_pow2 by lia; lia). rewrite Z.shiftl_mul_pow2 by lia.
    cbn [le_value]. lia.
Qed.

(** The five stores of the TCP header behind a header of any content. *)
Lemma filter_tcp_bytes base ev pkt :
  event_ok ev -> length pkt = (base + 20)%nat -> drop (base + 16) pkt = replicate 4 0 ->
  exists hdr, fill_retransmit_filter_tcp base ev pkt = take base pkt ++ hdr /\
    forall src dst, parse_tcp src dst hdr =
      Some (Flow src dst (sport ev) (dport ev) (tcp_seq ev) (tcp_ack ev) (tcp_flags ev)).
Proof.
  intros [] Hl Hz. unfold fill_retransmit_filter_tcp.
  destruct (wire16 (sport ev)) as (a1 & a2 & -> & Es); [done|].
  destruct (wire16 (dport ev)) as (b1 & b2 & -> & Ed); [done|].
  destruct (wire32 (tcp_seq ev)) as (c1 & c2 & c3 & c4 & -> & Eq); [done|].
  destruct (wire32 (tcp_ack ev)) as (d1 & d2 & d3 & d4 & -> & Ea); [done|].
  rewrite flag_word_bytes by done.
  exists [a1; a2; b1; b2; c1; c2; c3; c4; d1; d2; d3; d4; 80; tcp_flags ev; 0; 0; 0; 0; 0; 0]. split.
  - rewrite <- (take_drop base pkt) at 1. rewrite <- (take_drop 16 (drop base pkt)), drop_drop, Hz.
    set (h := take base pkt). assert (Hh : length h = base) by (subst h; rewrite length_take; lia).
    assert (Ht : length (take 16 (drop base pkt)) = 16%nat) by (rewrite length_take, length_drop; lia).
    destruct (take 16 (drop base pkt)) as [|x1 [|x2 [|x3 [|x4 [|x5 [|x6 [|x7 [|x8 [|x9 [|x10 [|x11 [|x12
      [|x13 [|x14 [|x15 [|x16 [|]]]]]]]]]]]]]]]]]; try done. clearbody h. subst base.
    assert (Hst : forall off bytes t, store_at (length h + off) bytes (h ++ t) = h ++ store_at off bytes t).
    { intros. unfold store_at. rewrite take_app_add, <- app_assoc. do 2 f_equal.
      replace (length h + off + length bytes)%nat with (length h + (off + length bytes))%nat by lia.
      by rewrite drop_app_add. }
    assert (Hst0 : forall bytes t, store_at (length h) bytes (h ++ t) = h ++ store_at 0 bytes t)
      by (intros; by rewrite <- Hst, Nat.add_0_r).
    by rewrite Hst0, !Hst.
  - intros src dst. unfold parse_tcp. cbn [length Nat.eqb byte_at default].
    change (byte_at _ 12 / 16 =? 5) with true. cbn [andb take drop]. by rewrite Es, Ed, Eq, Ea.
Qed.

Lemma mapped_spec a : is_addr 16 a -> retransmit_address_is_ipv4_mapped a = bool_decide (is_mapped a).
Proof.
  intros [Hl Hf].
  destruct a as [|a0 [|a1 [|a2 [|a3 [|a4 [|a5 [|a6 [|a7 [|a8 [|a9 [|a10 [|a11 r]]]]]]]]]]]]; try done.
  rewrite !Forall_cons_iff in Hf. unfold is_u8 in Hf.
  destruct Hf as (H0 & H1 & H2 & H3 & H4 & H5 & H6 & H7 & H8 & H9 & H10 & H11 & _). clear Hl.
  unfold retransmit_address_is_ipv4_mapped, field. cbn [Nat.mul Nat.add take drop le_value].
  change (bswap32 0x0000ffff) with 0xffff0000. unfold is_mapped. apply eq_bool_prop_intro.
  rewrite bool_decide_spec, andb_True, !Is_true_true, !Z.eqb_eq, Z.lor_eq_0_iff.
  cbn [take replicate app]. rewrite take_0. cbn [le_value]. split.
  - intros [[E1 E2] E3].
    assert (a0 = 0 /\ a1 = 0 /\ a2 = 0 /\ a3 = 0 /\ a4 = 0 /\ a5 = 0 /\ a6 = 0 /\ a7 = 0 /\
            a8 = 0 /\ a9 = 0 /\ a10 = 255 /\ a11 = 255) as Hz by lia.
    destruct Hz as (-> & -> & -> & -> & -> & -> & -> & -> & -> & -> & -> & ->). done.
  - intros E. injection E as -> -> -> -> -> -> -> -> -> -> -> ->. lia.
Qed.

Lemma addr4_inv (a : list Z) : length a = 4%nat -> exists x y z w, a = [x; y; z; w].
Proof. destruct a as [|x [|y [|z [|w [|]]]]]; try done. intros _. by exists x, y, z, w. Qed.

Lemma v4_packet_parses ev src dst :
  event_ok ev -> length src = 4%nat -> length dst = 4%nat ->
  parse_l3 (v4_packet ev src dst) =
  Some (Flow src dst (sport ev) (dport ev) (tcp_seq ev) (tcp_ack ev) (tcp_flags ev)).
Proof.
  intros Hev (s1 & s2 & s3 & s4 & ->)%addr4_inv (d1 & d2 & d3 & d4 & ->)%addr4_inv. unfold v4_packet.
  change (le_bytes 2 (bswap16 40)) with [0; 40]. change (Z.lor (Z.shiftl 4 4) 5) with 69.
  cbn [replicate store_at take drop app length Nat.add].
  match goal with |- parse_l3 (fill_retransmit_filter_tcp 20 ev ?p) = _ =>
    destruct (filter_tcp_bytes 20 ev p Hev eq_refl eq_refl) as (hdr & -> & Hp) end.
  cbn [take app]. unfold parse_l3. cbn [byte_at lookup list_lookup default length drop take].
  change (69 / 16 =? 4) with true. change (Z.to_nat (69 mod 16 * 4)) with 20%nat.
  assert (Hl : length hdr = 20%nat).
  { specialize (Hp [] []). unfold parse_tcp in Hp. destruct (length hdr =? 20)%nat eqn:E; [|done]. by apply Nat.eqb_eq. }
  cbn [drop]. rewrite Hl. apply Hp.
Qed.

Lemma store_at_app n h b t : length h = n -> store_at n b (h ++ t) = h ++ b ++ drop (length b) t.
Proof.
  intros <-. unfold store_at. rewrite take_app_length. do 2 f_equal. by rewrite drop_app_add.
Qed.

Lemma v6_packet_parses ev src dst :
  event_ok ev -> length src = 16%nat -> length dst = 16%nat ->
  parse_l3 (v6_packet ev src dst) =
  Some (Flow src dst (sport ev) (dport ev) (tcp_seq ev) (tcp_ack ev) (tcp_flags ev)).
Proof.
  intros Hev Hs Hd. set (h := [96; 0; 0; 0; 0; 20; 6; 64]).
  assert (Hpkt : v6_packet ev src dst =
    fill_retransmit_filter_tcp 40 ev (((h ++ src) ++ dst) ++ replicate 20 0)).
  { unfold v6_packet. change (store_at 7 _ _) with (h ++ replicate 52 0).
    rewrite store_at_app, Hs, app_assoc by done. change (drop 16 (replicate 52 0)) with (replicate 36 0).
    rewrite store_at_app, Hd by (rewrite length_app, Hs; done). by rewrite <- !app_assoc. }
  assert (Hlen : length ((h ++ src) ++ dst) = 40%nat) by (rewrite !length_app, Hs, Hd; done).
  rewrite Hpkt.
  destruct (filter_tcp_bytes 40 ev (((h ++ src) ++ dst) ++ replicate 20 0) Hev) as (hdr & -> & Hp).
  { rewrite length_app, Hlen. done. }
  { rewrite <- Hlen at 1. by rewrite drop_app_add. }
  rewrite take_app_length' by done.
  assert (Hl : length hdr = 20%nat).
  { specialize (Hp [] []). unfold parse_tcp in Hp. destruct (length hdr =? 20)%nat eqn:E; [|done]. by apply Nat.eqb_eq. }
  assert (E1 : take 16 (drop 8 (((h ++ src) ++ dst) ++ hdr)) = src).
  { rewrite <- !app_assoc, drop_app_length' by done. by apply take_app_length'. }
  assert (E2 : take 16 (drop 24 (((h ++ src) ++ dst) ++ hdr)) = dst).
  { rewrite <- (app_assoc (h ++ src)), drop_app_length' by (rewrite length_app, Hs; done). by apply take_app_length'. }
  assert (E3 : drop 40 (((h ++ src) ++ dst) ++ hdr) = hdr) by (by apply drop_app_length').
  unfold parse_l3. rewrite E1, E2, E3, length_app, Hlen, Hl, Hp. done.
Qed.

(** ** Theorems *)

(** The fields the filter packet is built from have the width they are packed with:
    ports, sequence numbers and flags; both addresses have sixteen bytes, and the
    congestion state is one of the five named ones. *)
Theorem retransmit_events_well_formed kr cx ev :
  kernel_ok kr ->
  (exists skb sk, skb_event kr cx skb sk = Some ev) \/
  (exists sk req, synack_event kr cx sk req = Some ev) \/
  (exists sk, tlp_event kr cx sk = Some ev) ->
  event_ok ev.
Proof.
  intros Hk [(skb & sk & E)|[(sk & req & E)|(sk & E)]].
  - unfold skb_event in E. case_match; [done|]. injection E as <-.
    unfold read_retransmit_skb_tcp_fields. repeat case_match; auto 20 with bpf.
  - unfold synack_event in E. case_match; [done|]. injection E as <-.
    unfold read_retransmit_synack_tcp_fields.
    set (ev0 := fill_addrs _ _ _). assert (Hev : event_ok ev0).
    { subst ev0. apply fill_addrs_ok; [done|]. apply set_owner_ok.
      set (ev1 := if ctrue sk then _ else _).
      assert (H1 : event_ok ev1) by (subst ev1; case_match; [apply set_owner_ok, sock_ok|];
          auto with bpf; unfold TCP_CA_Loss; lia).
      clearbody ev1. destruct (ctrue req); (apply sock_ok; [|auto 8 with bpf..|unfold TCP_CA_Loss; lia]); auto 8 with bpf. }
    clearbody ev0. assert (is_u8 TCP_WIRE_FLAGS_SYNACK) by (unfold is_u8, TCP_WIRE_FLAGS_SYNACK; lia).
    case_match; [done|]. destruct (req_snt_isn kr); apply tcp_ok; auto 20 with bpf.
  - unfold tlp_event in E. case_match; [done|]. injection E as <-.
    unfold read_tlp_tcp_info. auto 20 with bpf.
Qed.

(** C12: The packet synthesised for the filter states the event's flow: parsed as
    IPv4 or IPv6 it has the event's addresses (the embedded ones of a pair of
    IPv4-mapped addresses), ports, sequence numbers and flags, correct lengths and
    header sizes; no packet is built exactly for the events without a flow. *)
Theorem filter_packet_roundtrip ev :
  event_ok ev ->
  match filter_view ev, flow_of ev with
  | Some pkt, Some fl => parse_l3 pkt = Some fl
  | None, None => True
  | _, _ => False
  end.
Proof.
  intros Hev. pose proof Hev as [_ _ _ _ _ _ _ Hs Hd]. unfold filter_view, flow_of.
  rewrite !mapped_spec by done. destruct Hs as [Hs _], Hd as [Hd _].
  destruct (family ev =? AF_INET).
  { apply v4_packet_parses; [done|rewrite length_take; lia..]. }
  destruct (family ev =? AF_INET6); [|done].
  destruct (decide (is_mapped (saddr ev))) as [Ms|Ms], (decide (is_mapped (daddr ev))) as [Md|Md];
    rewrite ?(bool_decide_true _ Ms), ?(bool_decide_false _ Ms), ?(bool_decide_true _ Md), ?(bool_decide_false _ Md);
    cbn [Bool.eqb negb]; try done.
  - rewrite !(take_ge (drop 12 _)) by (rewrite length_drop; lia).
    apply v4_packet_parses; [done|rewrite length_drop; lia..].
  - by apply v6_packet_parses.
Qed.

(** ** Reports *)

Definition rt_subject (e : rt_input) : rt_ctx * option tcp_retransmit_event :=
  match e with
  | RetransSkb kr cx n word => (cx, skb_event kr cx (tracepoint_arg n word 0) (tracepoint_arg n word 1))
  | RetransSynack kr cx sk req => (cx, synack_event kr cx sk req)
  | RetransTlp kr cx sk => (cx, tlp_event kr cx sk)
  end.

(** The event an invocation asks to report, at the time the limiter sees; a ring
    that is full loses it. *)
Definition rt_candidate (cfg : rt_config) (e : rt_input) : list (Z * list tcp_retransmit_event) :=
  let '(cx, ev) := rt_subject e in
  match ev with
  | Some ev => if retransmit_filter_pass (filter_code cfg) ev
               then [(rt_limit_now cx, if rt_output_ret cx <? 0 then [] else [ev])] else []
  | None => []
  end.

Fixpoint rt_clock (lo : Z) (es : list rt_input) : Prop :=
  match es with
  | [] => True
  | e :: es => let now := rt_limit_now (fst (rt_subject e)) in
               0 < now /\ lo <= now < 2 ^ 64 /\ rt_clock now es
  end.

Lemma rt_step_submit cfg st e :
  rt_step cfg st e = submit_if cfg (fst (rt_subject e)) (snd (rt_subject e)) st.
Proof. by destruct e. Qed.

Lemma rt_reports cfg (I := rlimit_interval_ns cfg) (b := rlimit_burst cfg)
    (rc := RatelimitEvent I 0 b (rlimit_max_burst cfg) 0 0 0 0 0) : forall es st win lo,
  I <> 0 -> map_rel rc (bpf_rlimit st) win -> window_start_ns (bpf_rlimit st) <= lo -> rt_clock lo es ->
  perf_events (rt_run cfg st es) =
  perf_events st ++ concat (admitted_events I b win (concat (map (rt_candidate cfg) es))).
Proof.
  induction es as [|e es IH]; intros st win lo HI Hr Hlo Hc; [by rewrite app_nil_r|].
  change (rt_run cfg st (e :: es)) with (rt_run cfg (rt_step cfg st e) es). rewrite rt_step_submit.
  cbn [map concat rt_clock] in *. unfold rt_candidate.
  destruct (rt_subject e) as [cx ev]. cbn [fst snd] in *. destruct Hc as (Hpos & Hnow & Hc).
  assert (Hskip : forall win, map_rel rc (bpf_rlimit st) win -> perf_events (rt_run cfg st es) =
    perf_events st ++ concat (admitted_events I b win (concat (map (rt_candidate cfg) es)))).
  { intros w Hw. apply (IH _ _ (rt_limit_now cx)); try done. lia. }
  destruct ev as [ev|]; cbn [submit_if]; [|by apply Hskip]. unfold rt_submit.
  destruct (retransmit_filter_pass (filter_code cfg) ev); cbn [negb]; [|by apply Hskip].
  unfold bpf_ratelimited_in_map_rc. fold I b rc. rewrite (proj2 (Z.eqb_neq I 0) HI).
  pose proof (in_map_step rc (bpf_rlimit st) win (rt_limit_now cx) (rt_report_ret cx) (event_bpf_rlimit st)
    Hr ltac:(lia) ltac:(lia)) as Hst. cbn [app admitted_events]. change (interval_ns rc) with I in Hst.
  destruct (next_window I win (rt_limit_now cx)) as [start seen].
  destruct Hst as (r' & ring' & -> & Hr' & Hw'). change (burst rc) with b. cbn [default]. change (id r') with r'.
  destruct (b <=? seen); (rewrite (IH _ (Some (start, seen + 1)) (rt_limit_now cx)); [|done..]).
  - done.
  - cbn [perf_events app concat]. unfold bpf_perf_event_output. cbn [snd].
    destruct (rt_output_ret cx <? 0); [done|]. by rewrite <- app_assoc.
Qed.

Lemma rt_reports_unlimited cfg : forall es st,
  rlimit_interval_ns cfg = 0 ->
  perf_events (rt_run cfg st es) = perf_events st ++ concat (map snd (concat (map (rt_candidate cfg) es))).
Proof.
  induction es as [|e es IH]; intros st HI; [by rewrite app_nil_r|].
  change (rt_run cfg st (e :: es)) with (rt_run cfg (rt_step cfg st e) es). rewrite rt_step_submit.
  rewrite IH by done. cbn [map concat]. rewrite map_app, concat_app, app_assoc. f_equal.
  unfold rt_candidate. destruct (rt_subject e) as [cx [ev|]]; cbn [fst snd submit_if]; [|by rewrite app_nil_r].
  unfold rt_submit. destruct (retransmit_filter_pass (filter_code cfg) ev); cbn [negb]; [|by rewrite app_nil_r].
  unfold bpf_ratelimited_in_map_rc, bpf_perf_event_output. rewrite HI. cbn.
  destruct (rt_output_ret cx <? 0); cbn; by rewrite ?app_nil_r.
Qed.

(** C23: From load, the events delivered are exactly those the packet filter accepts,
    in order: all of them when the limiter is disabled, and those the window policy
    admits otherwise; the configuration enters with the first accepted event, and
    events the filter rejects use no budget. *)
Theorem retransmit_reports_follow_policy cfg es :
  0 <= rlimit_interval_ns cfg < 2 ^ 64 -> 0 <= rlimit_burst cfg < 2 ^ 64 -> rt_clock 0 es ->
  let candidates := concat (map (rt_candidate cfg) es) in
  perf_events (rt_run cfg rt_start es) =
  concat (if rlimit_interval_ns cfg =? 0 then map snd candidates
          else admitted_events (rlimit_interval_ns cfg) (rlimit_burst cfg) None candidates).
Proof.
  intros HI Hb Hc. cbv zeta. destruct (Z.eqb_spec (rlimit_interval_ns cfg) 0) as [E|E].
  - by rewrite rt_reports_unlimited.
  - rewrite (rt_reports cfg es rt_start None 0); try done. apply map_rel_zero; cbn; lia.
Qed.

(** ** Concrete runs *)

Definition sample_tcp_kernel : tcp_kernel :=
  let sk := SkbKernel (fun _ => 0) (fun _ => 0) (fun _ => 0) (fun _ => 0) (fun _ => 0) (fun _ => 0)
    (fun _ => 0) (fun _ => 0) (fun _ => 8) (fun _ => 1500) (fun _ => 0) (fun _ => 1) (fun _ => 10)
    (fun _ => 0) true (fun _ => 0) (fun _ => 0) (fun _ => 0) true (fun _ => 0) (fun _ => 0) (fun _ => 0)
    (fun _ => 0) (fun _ => None) (fun _ _ => None) in
  let mapped last := replicate 10 0 ++ [255; 255; 10; 0; 0; last] in
  TcpKernel sk (fun _ => 443) (fun _ => 20480) (Some (fun _ => 7)) None None None None
    (Some (fun _ => 1000)) (Some (fun _ => 900)) None true (fun _ => [10; 0; 0; 1]) (fun _ => [10; 0; 0; 2])
    true (fun _ => mapped 1) (fun _ => mapped 2) None None None None None None.
Definition sample_rt_ctx (now : Z) : rt_ctx := RtCtx now now 7 [] 0 0.

Lemma sample_kernel_ok : kernel_ok sample_tcp_kernel.
Proof.
  intros a. unfold is_addr. cbn. rewrite !Forall_cons_iff. unfold is_u8. split_and!; (lia || done || constructor).
Qed.

Definition sample_tlp : tcp_retransmit_event :=
  Eval vm_compute in default (init_retransmit_event (sample_rt_ctx 5) 0)
    (tlp_event sample_tcp_kernel (sample_rt_ctx 5) 1).

Lemma filter_packet_roundtrip_witness :
  match filter_view sample_tlp with
  | Some pkt => parse_l3 pkt = Some (Flow [10; 0; 0; 1] [10; 0; 0; 2] 443 80 1000 900 0)
  | None => False
  end.
Proof.
  refine (filter_packet_roundtrip sample_tlp _).
  split; unfold is_addr; cbn; rewrite ?Forall_cons_iff; unfold is_u32, is_u8, TCP_CA_Loss;
    split_and?; (lia || done || constructor).
Defined.

Lemma retransmit_reports_follow_policy_witness :
  let es := map (fun now => RetransTlp sample_tcp_kernel (sample_rt_ctx now) 1) [5; 6; 7; 2000] in
  map kernel_observed_ns (perf_events (rt_run (RtConfig 1000 2 0 None) rt_start es)) = [5; 6; 2000].
Proof.
  cbv zeta. rewrite (retransmit_reports_follow_policy (RtConfig 1000 2 0 None)).
  - vm_compute. reflexivity.
  - cbn; lia.
  - cbn; lia.
  - cbn; lia.
Defined.
End TcpRetransmit.
