(* ===== verification/Dropwatch.v ===== *)
(** * Packet drop tracer ([bpf/net_dropwatch.c], [bpf/include/bpf_perf_output.h],
    [bpf/include/abi/dropwatch_types.h])

    Software drops ([kfree_skb]) and hardware drops reported by devlink traps are
    reported with the packet's first bytes and the stack.  The record is built in a
    per-CPU scratch slot.  A packet trapped by the hardware is freed later: a marker
    left by its report suppresses that second report once.  Markers live in an
    LRU map, whose evictions are steps of their own.  Module [Dropwatch] proves
    that no record carries data of an earlier one and that a suppressed drop is
    always a duplicate of a delivered record. *)

From Stdlib Require Import ZArith Lia.
From stdpp Require Import base option list gmap tactics.
From S2P Require Import Prelude BpfMap KernelStr Ratelimit SkBuff.

Local Open Scope Z_scope.
Local Open Scope bpf_scope.

Module Dropwatch.
Import Ratelimit SkBuff.

Definition SK_FL_PROTO_SHIFT : Z := 8.
Definition SK_FL_TYPE_SHIFT : Z := 16.
Definition HARDWARE_DROP_DEDUP_WINDOW_NS : Z := 1000000000.
Definition SKB_DROP_REASON_NOT_SUPPORTED : Z := -1.
Definition DEVLINK_TRAP_TYPE_DROP : Z := 0.
Definition SOCK_STREAM : Z := 1.

Definition DROPWATCH_PACKET_RAW_LEN : nat := 120.
Definition DROPWATCH_TRAP_NAME_LEN : nat := 64.
Definition PERF_MAX_STACK_DEPTH : nat := 127.
Definition DROPWATCH_DROP_SOURCE_SOFTWARE : Z := 1.
Definition DROPWATCH_DROP_SOURCE_HARDWARE : Z := 2.

Record dropwatch_packet_meta := PacketMeta {
  kernel_observed_ns : Z;
  tgid_pid : Z;
  comm : list Z;
  skb_addr : Z;
  drop_location : Z;
  queue_mapping : Z;
  drop_reason : Z;
  drop_source : Z;
  trap_name : list Z;
  trap_group_name : list Z;
  memcg_css_addr : Z;
  netns_cookie : Z;
  netns_inum : Z;
  dev_flags : Z;
  ifindex : Z;
  dev_name : list Z;
}.
Record dropwatch_packet_raw := PacketRaw {
  eth_proto : Z;
  raw_len : Z;
  has_eth_hdr : Z;
  packet_len_bytes : Z;
  sk_state : Z;
  raw : list Z;
}.
Record dropwatch_packet_event := PacketEvent {
  meta : dropwatch_packet_meta;
  pkt_hdr : dropwatch_packet_raw;
  stack_size : Z;
  stack : list Z;
}.

Definition zero_data : dropwatch_packet_event :=
  PacketEvent
    (PacketMeta 0 0 (replicate 16 0) 0 0 0 0 0 (replicate DROPWATCH_TRAP_NAME_LEN 0)
       (replicate DROPWATCH_TRAP_NAME_LEN 0) 0 0 0 0 0 (replicate IFNAMSIZ 0))
    (PacketRaw 0 0 0 0 0 (replicate DROPWATCH_PACKET_RAW_LEN 0)) 0 (replicate PERF_MAX_STACK_DEPTH 0).

(** The socket fields in their two layouts, the trap metadata and strings. *)
Record dw_kernel := DwKernel {
  dk_skb : skb_kernel;
  sk_flags : option (Z -> Z);
  sk_protocol : Z -> Z;
  sk_type : Z -> Z;
  md_trap_type : Z -> Z;
  md_input_dev : Z -> Z;
  md_trap_name : Z -> Z;
  md_trap_group_name : Z -> Z;
  kernel_str : Z -> option (list Z);
}.

Record dw_ctx := DwCtx {
  dc_cpu : Z;
  dc_now : Z;            (* read by the duplicate check *)
  dc_observed : Z;       (* the event's time *)
  dc_limit_now : Z;      (* read by the limiter *)
  dc_pid_tgid : Z;
  dc_comm : list Z;
  dc_stack_ret : Z;
  dc_stack : list Z;
  dc_report_ret : Z;
  dc_output_ret : Z;
}.

Record dw_config := DwConfig {
  rlimit_interval_ns : Z;
  rlimit_burst : Z;
  rlimit_max_burst : Z;
  filter_dev_mode : Z;
  filter_dev_map : list Z;
  filter_l2 : pcap_code;
  filter_l3 : pcap_code;
}.

(** ** The record *)

(** [reason] is [None] on kernels that do not give one. *)
Definition skb_get_drop_reason (reason : option Z) : Z :=
  match reason with Some r => u32 r | None => u32 SKB_DROP_REASON_NOT_SUPPORTED end.

(** Protocol and type, each stored in 16 bits. *)
Definition sk_get_type_and_protocol (kr : dw_kernel) (sk : Z) : Z * Z :=
  match sk_flags kr with
  | Some read => (u16 (Z.shiftr (read sk) SK_FL_PROTO_SHIFT), u16 (Z.shiftr (read sk) SK_FL_TYPE_SHIFT))
  | None => (u16 (sk_protocol kr sk), u16 (sk_type kr sk))
  end.

Definition skb_load_packet_raw (kr : skb_kernel) (skb : Z) (r : dropwatch_packet_raw) (skb_protocol : Z)
    : dropwatch_packet_raw :=
  if negb (skb_protocol =? ETH_P_IP) && negb (skb_protocol =? ETH_P_IPV6) && negb (skb_protocol =? ETH_P_ARP)
  then r
  else
    let has_mac := 0 <? skb_mac_len kr skb in
    let hdr := if has_mac then skb_mac_header kr skb else skb_network_header kr skb in
    let eth := if has_mac then 1 else has_eth_hdr r in
    match probe_bytes kr hdr DROPWATCH_PACKET_RAW_LEN with
    | None => PacketRaw skb_protocol (raw_len r) eth (packet_len_bytes r) (sk_state r)
                (replicate DROPWATCH_PACKET_RAW_LEN 0)
    | Some bytes => PacketRaw skb_protocol (Z.of_nat DROPWATCH_PACKET_RAW_LEN) eth (packet_len_bytes r)
                      (sk_state r) bytes
    end.

(** [if (ptr) bpf_probe_read_kernel_str(&buf, sizeof(buf), ptr)]. *)
Definition read_name (kr : dw_kernel) (buf : list Z) (ptr : Z) : list Z :=
  if ctrue ptr then read_str_into buf (kernel_str kr ptr) else buf.

(** [name[0] = '-'], code 45. *)
Definition dash (name : list Z) : list Z := <[0%nat := 45]> name.

Definition tcp_state (kr : dw_kernel) (skb old : Z) : Z :=
  let sk := skb_sk (dk_skb kr) skb in
  if ctrue sk
  then
    let '(proto, type) := sk_get_type_and_protocol kr sk in
    if (u8 proto =? IPPROTO_TCP) && (type =? SOCK_STREAM) && (skc_family (dk_skb kr) sk =? AF_INET)
    then skc_state (dk_skb kr) sk else old
  else old.

(** The stores of [drop_event_commit] into the slot that holds [data]. *)
Definition fill_record (kr : dw_kernel) (cx : dw_ctx) (skb dev source location reason tname tgroup : Z)
    (data : dropwatch_packet_event) : dropwatch_packet_event :=
  let sk := dk_skb kr in
  let proto := bswap16 (skb_protocol sk skb) in
  let m := meta data in
  let h := pkt_hdr data in
  let name := dash (dev_name m) in
  let m := PacketMeta (dc_observed cx) (dc_pid_tgid cx) (dc_comm cx) skb location
    (skb_queue_mapping sk skb) reason source (read_name kr (trap_name m) tname)
    (read_name kr (trap_group_name m) tgroup) (skb_memcg_css_addr sk skb) (skb_netns_cookie sk skb)
    (skb_netns_inum sk skb)
    (if ctrue dev then netif_get_flags sk dev else dev_flags m)
    (if ctrue dev then dev_ifindex sk dev else ifindex m)
    (if ctrue dev then read_str_into name (SkBuff.dev_name sk dev) else name) in
  let h := PacketRaw (eth_proto h) (raw_len h) (has_eth_hdr h) (skb_len sk skb)
    (tcp_state kr skb (sk_state h)) (raw h) in
  PacketEvent m (skb_load_packet_raw sk skb h proto) (u64 (dc_stack_ret cx)) (dc_stack cx).

(** ** State *)

(** [bpf_perf_event_output_counted]: result, ring and per-CPU error counters. *)
Definition bpf_perf_event_output_counted {E} (ret cpu : Z) (event : E) (ring : list E) (stats : gmap Z Z)
    : Z * list E * gmap Z Z :=
  let '(ret, ring) := bpf_perf_event_output ret event ring in
  (ret, ring, if ret <? 0 then percpu_set stats cpu (percpu_get 0 stats cpu +64 1) else stats).

Section Tracer.
Context {M : BpfMapOps}.

Record dw_state := DwState {
  bpf_rlimit : bpf_ratelimit_event;
  event_bpf_rlimit : list bpf_ratelimit_event;
  dropwatch_stackmap : gmap Z dropwatch_packet_event;
  bpf_perf_out : gmap Z Z;
  dropwatch_hardware_skb : hmap Z Z;
  perf_events : list dropwatch_packet_event;
}.

Definition set_markers (m : hmap Z Z) (st : dw_state) : dw_state :=
  DwState (bpf_rlimit st) (event_bpf_rlimit st) (dropwatch_stackmap st) (bpf_perf_out st) m (perf_events st).

(** Verdict and state after the marker is consumed. *)
Definition dropwatch_skip_hardware_duplicate (skb now : Z) (st : dw_state) : bool * dw_state :=
  match bpf_map_lookup_elem (dropwatch_hardware_skb st) skb with
  | None => (false, st)
  | Some timestamp =>
      let st := set_markers (snd (bpf_map_delete_elem (dropwatch_hardware_skb st) skb)) st in
      ((timestamp <=? now) && (now -64 timestamp <=? HARDWARE_DROP_DEDUP_WINDOW_NS), st)
  end.

Definition drop_event_filter_pass (cfg : dw_config) (kr : dw_kernel) (skb dev : Z) : bool :=
  skb_filter_pass_netdev (dk_skb kr) (filter_dev_mode cfg) (filter_dev_map cfg) dev &&
  PCAP_STUB_PASS_SKB (dk_skb kr) (filter_l2 cfg) (filter_l3 cfg) skb.

Definition drop_event_commit (cfg : dw_config) (kr : dw_kernel) (cx : dw_ctx)
    (skb dev source location reason tname tgroup : Z) (st : dw_state) : dw_state :=
  let '(limited, rate, reports) :=
    bpf_ratelimited_in_map_rc (dc_limit_now cx) (dc_report_ret cx) (rlimit_interval_ns cfg)
      (rlimit_burst cfg) (rlimit_max_burst cfg) (Some (bpf_rlimit st)) (event_bpf_rlimit st) in
  let rate := default (bpf_rlimit st) rate in
  if limited
  then DwState rate reports (dropwatch_stackmap st) (bpf_perf_out st) (dropwatch_hardware_skb st) (perf_events st)
  else
    let slot := percpu_get zero_data (dropwatch_stackmap st) (dc_cpu cx) in
    let data := fill_record kr cx skb dev source location reason tname tgroup slot in
    let '(ret, ring, lost) :=
      bpf_perf_event_output_counted (dc_output_ret cx) (dc_cpu cx) data (perf_events st) (bpf_perf_out st) in
    let markers :=
      if (ret =? 0) && (source =? DROPWATCH_DROP_SOURCE_HARDWARE)
      then snd (bpf_map_update_elem (dropwatch_hardware_skb st) (skb_addr (meta data))
                  (kernel_observed_ns (meta data)) BPF_ANY)
      else dropwatch_hardware_skb st in
    DwState rate reports (percpu_set (dropwatch_stackmap st) (dc_cpu cx) zero_data) lost markers ring.

(** ** Programs *)

Definition bpf_kfree_skb_prog (cfg : dw_config) (kr : dw_kernel) (cx : dw_ctx) (skb location : Z)
    (reason : option Z) (st : dw_state) : dw_state :=
  let '(duplicate, st) := dropwatch_skip_hardware_duplicate skb (dc_now cx) st in
  if duplicate then st
  else
    let dev := skb_dev (dk_skb kr) skb in
    if negb (drop_event_filter_pass cfg kr skb dev) then st
    else drop_event_commit cfg kr cx skb dev DROPWATCH_DROP_SOURCE_SOFTWARE location
           (skb_get_drop_reason reason) 0 0 st.

(** The device of a trap report. *)
Definition trap_dev (kr : dw_kernel) (skb metadata : Z) : Z :=
  let dev := md_input_dev kr metadata in
  if dev =? 0 then skb_dev (dk_skb kr) skb else dev.

Definition bpf_devlink_trap_report_prog (cfg : dw_config) (kr : dw_kernel) (cx : dw_ctx) (skb metadata : Z)
    (st : dw_state) : dw_state :=
  if (skb =? 0) || (metadata =? 0) then st
  else if negb (md_trap_type kr metadata =? DEVLINK_TRAP_TYPE_DROP) then st
  else
    let dev := trap_dev kr skb metadata in
    if negb (drop_event_filter_pass cfg kr skb dev) then st
    else drop_event_commit cfg kr cx skb dev DROPWATCH_DROP_SOURCE_HARDWARE 0 0
           (md_trap_name kr metadata) (md_trap_group_name kr metadata) st.

(** ** Runs *)

Inductive dw_input :=
  | KfreeSkb (kr : dw_kernel) (cx : dw_ctx) (skb location : Z) (reason : option Z)
  | TrapReport (kr : dw_kernel) (cx : dw_ctx) (skb metadata : Z)
  | Evict (skb : Z).

Definition dw_step (cfg : dw_config) (st : dw_state) (e : dw_input) : dw_state :=
  match e with
  | KfreeSkb kr cx skb location reason => bpf_kfree_skb_prog cfg kr cx skb location reason st
  | TrapReport kr cx skb metadata => bpf_devlink_trap_report_prog cfg kr cx skb metadata st
  | Evict skb => set_markers (snd (bpf_map_delete_elem (dropwatch_hardware_skb st) skb)) st
  end.

Definition dw_run (cfg : dw_config) (st : dw_state) (es : list dw_input) : dw_state :=
  fold_left (dw_step cfg) es st.
End Tracer.
Arguments dw_state {M}.

Definition dw_start {M : BpfMapOps} (markers : hmap Z Z) : dw_state := DwState zero_event [] ∅ ∅ markers [].

(** ** Records of their own input *)

(** The record of an input that concerns the tracer and passes the filters, built
    from a zeroed slot. *)
Definition input_record (cfg : dw_config) (e : dw_input) : list dropwatch_packet_event :=
  match e with
  | KfreeSkb kr cx skb location reason =>
      let dev := skb_dev (dk_skb kr) skb in
      if drop_event_filter_pass cfg kr skb dev
      then [fill_record kr cx skb dev DROPWATCH_DROP_SOURCE_SOFTWARE location (skb_get_drop_reason reason) 0 0 zero_data]
      else []
  | TrapReport kr cx skb md =>
      let dev := trap_dev kr skb md in
      if negb (skb =? 0) && negb (md =? 0) && (md_trap_type kr md =? DEVLINK_TRAP_TYPE_DROP) &&
         drop_event_filter_pass cfg kr skb dev
      then [fill_record kr cx skb dev DROPWATCH_DROP_SOURCE_HARDWARE 0 0 (md_trap_name kr md)
              (md_trap_group_name kr md) zero_data]
      else []
  | Evict _ => []
  end.

Definition is_report_of (skb t : Z) (r : dropwatch_packet_event) : Prop :=
  drop_source (meta r) = DROPWATCH_DROP_SOURCE_HARDWARE /\ skb_addr (meta r) = skb /\
  kernel_observed_ns (meta r) = t.

Definition input_skb (e : dw_input) : Z :=
  match e with KfreeSkb _ _ skb _ _ | TrapReport _ _ skb _ | Evict skb => skb end.

Section Facts.
Context {M : BpfMapOps} {L : BpfMapLaws M}.
Implicit Types (st : dw_state) (cfg : dw_config).

(** The slots are zero between programs and every marker has its report. *)
Record dw_ok st : Prop := {
  ok_slots : forall cpu, percpu_get zero_data (dropwatch_stackmap st) cpu = zero_data;
  ok_markers : forall skb t, bpf_map_lookup_elem (dropwatch_hardware_skb st) skb = Some t ->
    exists r, r ∈ perf_events st /\ is_report_of skb t r;
}.

Lemma commit_effect cfg kr cx skb dev source location reason tname tgroup st :
  dw_ok st ->
  let st' := drop_event_commit cfg kr cx skb dev source location reason tname tgroup st in
  let rec := fill_record kr cx skb dev source location reason tname tgroup zero_data in
  dw_ok st' /\ (perf_events st' = perf_events st \/ perf_events st' = perf_events st ++ [rec]).
Proof.
  intros [Hs Hm] st' rec. subst st'. unfold drop_event_commit.
  destruct (bpf_ratelimited_in_map_rc _ _ _ _ _ _ _) as [[limited rate] reports].
  destruct limited; [split; [by split|by left]|]. rewrite Hs. fold rec.
  unfold bpf_perf_event_output_counted, bpf_perf_event_output.
  set (ring := if dc_output_ret cx <? 0 then perf_events st else _).
  assert (Hring : ring = perf_events st \/ ring = perf_events st ++ [rec]) by (subst ring; case_match; auto).
  split; [split; cbn|by destruct Hring; cbn; auto].
  - intros cpu. rewrite percpu_get_set. case_decide; auto.
  - intros k t. destruct ((dc_output_ret cx =? 0) && (source =? DROPWATCH_DROP_SOURCE_HARDWARE)) eqn:E.
    + zify_bools. assert (Hr : ring = perf_events st ++ [rec]) by (subst ring; by replace (dc_output_ret cx) with 0 by lia).
      rewrite Hr. intros [[-> ->]|Ho]%bm_update_cases.
      * exists rec. split; [apply elem_of_app; right; by apply list_elem_of_singleton|]. by repeat split.
      * destruct (Hm _ _ Ho) as (r & Hin & Hr'). exists r. split; [apply elem_of_app; by left|done].
    + intros Ho. destruct (Hm _ _ Ho) as (r & Hin & Hr'). exists r. split; [|done].
      destruct Hring as [->| ->]; [done|apply elem_of_app; by left].
Qed.

Lemma markers_delete_ok skb st :
  dw_ok st -> dw_ok (set_markers (snd (bpf_map_delete_elem (dropwatch_hardware_skb st) skb)) st).
Proof. intros [Hs Hm]. split; [done|]. cbn. intros k t Hd%bm_delete_sub. by apply Hm. Qed.

Lemma skip_ok skb now st :
  dw_ok st -> let '(_, st') := dropwatch_skip_hardware_duplicate skb now st in
  dw_ok st' /\ perf_events st' = perf_events st.
Proof.
  intros Hok. unfold dropwatch_skip_hardware_duplicate.
  destruct (bpf_map_lookup_elem (dropwatch_hardware_skb st) skb); [|done].
  split; [by apply markers_delete_ok|done].
Qed.

Lemma dw_step_effect cfg st e :
  dw_ok st ->
  dw_ok (dw_step cfg st e) /\
  exists l, perf_events (dw_step cfg st e) = perf_events st ++ l /\ sublist l (input_record cfg e).
Proof.
  assert (Hnil : forall st', dw_ok st' -> perf_events st' = perf_events st -> dw_ok st' /\
    exists l, perf_events st' = perf_events st ++ l /\ sublist l (input_record cfg e)).
  { intros st' ? E. split; [done|]. exists []. split; [by rewrite app_nil_r|apply sublist_nil_l]. }
  intros Hok. destruct e as [kr cx skb location reason|kr cx skb md|skb]; cbn [dw_step].
  - unfold bpf_kfree_skb_prog. pose proof (skip_ok skb (dc_now cx) st Hok) as Hs.
    destruct (dropwatch_skip_hardware_duplicate skb (dc_now cx) st) as [duplicate st1]. destruct Hs as [Hok1 Hp1].
    destruct duplicate; [by apply Hnil|]. cbn [input_record] in *.
    destruct (drop_event_filter_pass cfg kr skb (skb_dev (dk_skb kr) skb)); cbn [negb]; [|by apply Hnil].
    match goal with |- context [drop_event_commit ?a ?b ?c ?d ?e ?f ?g ?h ?i ?j ?k] =>
      destruct (commit_effect a b c d e f g h i j k Hok1) as [Hok2 [Hr|Hr]] end; rewrite Hp1 in Hr;
      (split; [done|]); eexists; (split; [first [exact Hr|by rewrite app_nil_r]|]); [apply sublist_nil_l|done].
  - unfold bpf_devlink_trap_report_prog. cbn [input_record] in *.
    destruct (skb =? 0); [by apply Hnil|]. destruct (md =? 0); [by apply Hnil|]. cbn [orb negb andb] in *.
    destruct (md_trap_type kr md =? DEVLINK_TRAP_TYPE_DROP); [|by apply Hnil].
    destruct (drop_event_filter_pass cfg kr skb (trap_dev kr skb md)); cbn [negb andb] in *; [|by apply Hnil].
    match goal with |- context [drop_event_commit ?a ?b ?c ?d ?e ?f ?g ?h ?i ?j ?k] =>
      destruct (commit_effect a b c d e f g h i j k Hok) as [Hok2 [Hr|Hr]] end;
      (split; [done|]); eexists; (split; [first [exact Hr|by rewrite app_nil_r]|]); [apply sublist_nil_l|done].
  - apply Hnil; [by apply markers_delete_ok|done].
Qed.

Lemma dw_run_effect cfg es : forall st,
  dw_ok st ->
  dw_ok (dw_run cfg st es) /\
  exists l, perf_events (dw_run cfg st es) = perf_events st ++ l /\ sublist l (concat (map (input_record cfg) es)).
Proof.
  induction es as [|e es IH]; intros st Hok; [split; [done|]; exists []; by rewrite app_nil_r|].
  change (dw_run cfg st (e :: es)) with (dw_run cfg (dw_step cfg st e) es).
  destruct (dw_step_effect cfg st e Hok) as (Hok1 & l1 & E1 & S1).
  destruct (IH _ Hok1) as (Hok2 & l2 & E2 & S2). split; [done|].
  exists (l1 ++ l2). rewrite E2, E1, <- app_assoc. split; [done|]. cbn [map concat]. by apply sublist_app.
Qed.

Lemma dw_start_ok markers : (forall k, bpf_map_lookup_elem markers k = None) -> dw_ok (dw_start markers).
Proof.
  intros He. split; cbn.
  - intros cpu. unfold percpu_get, arr_get. by rewrite lookup_empty.
  - intros skb t. by rewrite He.
Qed.

Definition observed_ok (e : dw_input) : Prop :=
  match e with KfreeSkb _ cx _ _ _ | TrapReport _ cx _ _ => is_u64 (dc_observed cx) | Evict _ => True end.

Lemma input_record_time cfg es r :
  Forall observed_ok es -> r ∈ concat (map (input_record cfg) es) -> is_u64 (kernel_observed_ns (meta r)).
Proof.
  intros Hf. induction Hf as [|e es He Hf IH]; cbn [map concat]; [by intros ?%elem_of_nil|].
  intros [Hin|Hin]%elem_of_app; [|auto].
  destruct e; cbn [input_record] in Hin; try case_match;
    first [apply list_elem_of_singleton in Hin as ->; exact He|by apply elem_of_nil in Hin].
Qed.

(** A marker is touched only by inputs about its packet. *)
Lemma marker_frame cfg st e skb :
  input_skb e <> skb ->
  bpf_map_lookup_elem (dropwatch_hardware_skb (dw_step cfg st e)) skb =
  bpf_map_lookup_elem (dropwatch_hardware_skb st) skb.
Proof.
  assert (Hc : forall st' kr cx s dev source location reason tname tgroup, s <> skb ->
    bpf_map_lookup_elem (dropwatch_hardware_skb
      (drop_event_commit cfg kr cx s dev source location reason tname tgroup st')) skb =
    bpf_map_lookup_elem (dropwatch_hardware_skb st') skb).
  { intros. unfold drop_event_commit.
    destruct (bpf_ratelimited_in_map_rc _ _ _ _ _ _ _) as [[limited rate] reports].
    destruct limited; [done|]. unfold bpf_perf_event_output_counted, bpf_perf_event_output. cbn.
    case_match; [|done]. by rewrite bm_update_ne. }
  intros Hne. destruct e as [kr cx s location reason|kr cx s md|s]; cbn [dw_step input_skb] in *.
  - unfold bpf_kfree_skb_prog, dropwatch_skip_hardware_duplicate.
    destruct (bpf_map_lookup_elem (dropwatch_hardware_skb st) s); repeat case_match; try done;
      rewrite ?Hc by done; cbn; by rewrite ?bm_delete_ne.
  - unfold bpf_devlink_trap_report_prog. repeat case_match; try done. by rewrite Hc.
  - cbn. by rewrite bm_delete_ne.
Qed.

Lemma marker_frame_run cfg es skb : forall st,
  Forall (fun e => input_skb e <> skb) es ->
  bpf_map_lookup_elem (dropwatch_hardware_skb (dw_run cfg st es)) skb =
  bpf_map_lookup_elem (dropwatch_hardware_skb st) skb.
Proof.
  induction es as [|e es IH]; intros st Hf; [done|]. apply Forall_cons_iff in Hf as [He Hf].
  change (dw_run cfg st (e :: es)) with (dw_run cfg (dw_step cfg st e) es). by rewrite IH, marker_frame.
Qed.

(** C15: The delivered records are, in order, records of drops that pass the filters,
    each built from its own packet, device, socket and stack alone: no byte of an
    earlier record survives in the scratch slot, whichever optional parts (trap
    names, device, socket state, header bytes) the earlier records had. *)
Theorem drop_records_fresh cfg markers es :
  (forall k, bpf_map_lookup_elem markers k = None) ->
  sublist (perf_events (dw_run cfg (dw_start markers) es)) (concat (map (input_record cfg) es)).
Proof. intros He. destruct (dw_run_effect cfg es _ (dw_start_ok markers He)) as (_ & l & -> & Hs). exact Hs. Qed.

(** C34: A software drop is suppressed as a duplicate only if a hardware drop of the
    same packet, that is at the same skb address, was delivered at most a second before. *)
Theorem suppressed_drop_was_reported cfg markers es skb now :
  (forall k, bpf_map_lookup_elem markers k = None) -> Forall observed_ok es -> is_u64 now ->
  fst (dropwatch_skip_hardware_duplicate skb now (dw_run cfg (dw_start markers) es)) = true ->
  exists r t, r ∈ perf_events (dw_run cfg (dw_start markers) es) /\ is_report_of skb t r /\
    t <= now <= t + HARDWARE_DROP_DEDUP_WINDOW_NS.
Proof.
  intros He Hf Hn Hd. destruct (dw_run_effect cfg es _ (dw_start_ok markers He)) as ([_ Hm] & l & Hl & Hs).
  unfold dropwatch_skip_hardware_duplicate in Hd.
  destruct (bpf_map_lookup_elem (dropwatch_hardware_skb (dw_run cfg (dw_start markers) es)) skb) as [t|] eqn:E; [|done].
  destruct (Hm _ _ E) as (r & Hin & Hr). cbn [fst] in Hd. zify_bools.
  assert (is_u64 t).
  { destruct Hr as (_ & _ & <-). apply (input_record_time cfg es r Hf).
    eapply elem_of_submseteq; [|by apply sublist_submseteq]. by rewrite Hl in Hin. }
  rewrite u64_sub_exact in * by done. exists r, t. repeat split; try apply Hr; try done. lia.
Qed.

(** A delivered hardware drop suppresses the report of the packet's free within
    the next second, however many other packets are dropped in between, and only
    that one: the marker is consumed, so the next drop at the same address is
    judged on its own. *)
Theorem hardware_drop_suppresses_one_free cfg st kr cx skb md mid kr' cx' location reason
    (trap := TrapReport kr cx skb md) (free := KfreeSkb kr' cx' skb location reason)
    (st1 := dw_step cfg st trap) (st2 := dw_run cfg st1 mid) (st3 := dw_step cfg st2 free) :
  rlimit_interval_ns cfg = 0 -> dc_output_ret cx = 0 -> input_record cfg trap <> [] ->
  fst (bpf_map_update_elem (dropwatch_hardware_skb st) skb (dc_observed cx) BPF_ANY) = 0 ->
  Forall (fun e => input_skb e <> skb) mid ->
  is_u64 (dc_observed cx) -> is_u64 (dc_now cx') ->
  dc_observed cx <= dc_now cx' <= dc_observed cx + HARDWARE_DROP_DEDUP_WINDOW_NS ->
  fst (bpf_map_delete_elem (dropwatch_hardware_skb st2) skb) = 0 ->
  length (perf_events st1) = S (length (perf_events st)) /\ perf_events st3 = perf_events st2 /\
  forall now, fst (dropwatch_skip_hardware_duplicate skb now st3) = false.
Proof.
  intros HI Hret Hrec Hup Hmid Ht Hn Hwin Hdel.
  assert (H1 : length (perf_events st1) = S (length (perf_events st)) /\
    bpf_map_lookup_elem (dropwatch_hardware_skb st1) skb = Some (dc_observed cx)).
  { subst st1 trap. cbn [dw_step input_record] in *. unfold bpf_devlink_trap_report_prog.
    destruct (skb =? 0); [done|]. destruct (md =? 0); [done|]. cbn [orb negb andb] in *.
    destruct (md_trap_type kr md =? DEVLINK_TRAP_TYPE_DROP); [|done].
    destruct (drop_event_filter_pass cfg kr skb (trap_dev kr skb md)); [|done]. cbn [negb].
    unfold drop_event_commit, bpf_ratelimited_in_map_rc, bpf_perf_event_output_counted, bpf_perf_event_output.
    rewrite HI, Hret. cbn -[fill_record]. split; [by rewrite length_app, Nat.add_comm|].
    by apply bm_update_eq. }
  destruct H1 as [Hlen H1]. split; [done|].
  assert (H2 : bpf_map_lookup_elem (dropwatch_hardware_skb st2) skb = Some (dc_observed cx))
    by (subst st2; by rewrite marker_frame_run).
  assert (H3 : st3 = set_markers (snd (bpf_map_delete_elem (dropwatch_hardware_skb st2) skb)) st2).
  { subst st3 free. cbn [dw_step]. unfold bpf_kfree_skb_prog, dropwatch_skip_hardware_duplicate.
    rewrite H2, u64_sub_exact by (done || lia).
    by rewrite (proj2 (Z.leb_le _ _)), (proj2 (Z.leb_le _ _)) by lia. }
  rewrite H3. split; [done|]. intros now. unfold dropwatch_skip_hardware_duplicate. cbn.
  by rewrite bm_delete_eq.
Qed.
End Facts.

(** ** Concrete runs *)

Definition sample_dw_kernel : dw_kernel :=
  let sk := SkbKernel (fun _ => 4096) (fun _ => 0) (fun _ => 14) (fun _ => 34) (fun _ => 200) (fun _ => 14)
    (fun _ => 9) (fun _ => 0) (fun _ => 8) (fun _ => 1500) (fun _ => 0) (fun _ => 1) (fun _ => 2)
    (fun _ => 0) true (fun _ => 0) (fun _ => 0) (fun _ => 0) true (fun _ => 0) (fun _ => 3) (fun _ => 0)
    (fun _ => 0) (fun _ => Some [101; 116; 104; 48]) (fun _ n => Some (replicate n 1)) in
  DwKernel sk None (fun _ => 6) (fun _ => 1) (fun _ => 0) (fun _ => 0) (fun _ => 50) (fun _ => 0)
    (fun _ => Some [98; 97; 100]).
Definition sample_dw_ctx (now : Z) : dw_ctx := DwCtx 0 now now now 7 (replicate 16 0) 0 (replicate 127 0) 0 0.
Definition sample_dw_config : dw_config := DwConfig 0 0 0 0 [] None None.
Definition sample_trap : dw_input := TrapReport sample_dw_kernel (sample_dw_ctx 100) 77 1.
Definition sample_free (now : Z) : dw_input := KfreeSkb sample_dw_kernel (sample_dw_ctx now) 77 5 None.

Lemma drop_records_fresh_witness :
  sublist
    (perf_events (dw_run sample_dw_config (dw_start (FaultyHash ∅ 4 [])) [sample_trap; sample_free 200; sample_free 300]))
    (concat (map (input_record sample_dw_config) [sample_trap; sample_free 200; sample_free 300])).
Proof. apply drop_records_fresh. intros k. apply lookup_empty. Defined.

Lemma suppressed_drop_was_reported_witness :
  exists r t, r ∈ perf_events (dw_run sample_dw_config (dw_start (FaultyHash ∅ 4 [])) [sample_trap]) /\
    is_report_of 77 t r /\ t <= 200 <= t + HARDWARE_DROP_DEDUP_WINDOW_NS.
Proof.
  apply suppressed_drop_was_reported.
  - intros k. apply lookup_empty.
  - repeat constructor; cbn; unfold is_u64; lia.
  - unfold is_u64; lia.
  - vm_compute. reflexivity.
Defined.

Lemma hardware_drop_suppresses_one_free_witness :
  let st := dw_start (FaultyHash ∅ 4 []) in
  let st1 := dw_step sample_dw_config st sample_trap in
  let st3 := dw_step sample_dw_config st1 (sample_free 200) in
  length (perf_events st1) = 1%nat /\ perf_events st3 = perf_events st1 /\
  forall now, fst (dropwatch_skip_hardware_duplicate 77 now st3) = false.
Proof.
  cbv zeta.
  apply (hardware_drop_suppresses_one_free (M := faulty_ops) sample_dw_config
    (dw_start (M := faulty_ops) (FaultyHash ∅ 4 []))
    sample_dw_kernel (sample_dw_ctx 100) 77 1 [] sample_dw_kernel (sample_dw_ctx 200) 5 None).
  - reflexivity.
  - reflexivity.
  - vm_compute. discriminate.
  - vm_compute. reflexivity.
  - constructor.
  - cbn; unfold is_u64; lia.
  - cbn; unfold is_u64; lia.
  - cbn; unfold HARDWARE_DROP_DEDUP_WINDOW_NS; lia.
  - vm_compute. reflexivity.
Defined.
End Dropwatch.
