(* ===== verification/Memory.v ===== *)
(** * Memory tracers ([bpf/memory_reclaim_events.c], [bpf/memory_free_compact.c],
    [bpf/memory_reclaim.c], [bpf/include/bpf_func_trace.h])

    [bpf_func_trace.h] measures a function call per thread: a probe at its entry
    stores the time under the thread id, a probe at its exit takes it out.  Two
    tracers build on it: one reports reclaim calls above a threshold, one
    accumulates the time in reclaim and in compaction.  A third counts memory
    cgroup stalls.  Module [FuncTrace] has the helper and its reference (the
    sequence of completed calls); the tracers' theorems are stated against the
    reference. *)

From Stdlib Require Import ZArith Lia.
From stdpp Require Import base option list gmap tactics.
From S2P Require Import Prelude BpfMap KernelStr.

Local Open Scope Z_scope.
Local Open Scope bpf_scope.

Module FuncTrace.

Record trace_entry_ctx := TraceEntry {
  te_id : Z;
  te_start_ns : Z;
  te_duration_ns : Z;
}.

Section Ops.
Context {M : BpfMapOps}.

Definition func_trace_begin (id now : Z) (m : hmap Z trace_entry_ctx) : hmap Z trace_entry_ctx :=
  snd (bpf_map_update_elem m id (TraceEntry id now 0) BPF_ANY).

(** The entry with its duration, also stored in the map. *)
Definition func_trace_end (id now : Z) (m : hmap Z trace_entry_ctx)
    : option trace_entry_ctx * hmap Z trace_entry_ctx :=
  match bpf_map_lookup_elem m id with
  | None => (None, m)
  | Some e =>
      let e := TraceEntry (te_id e) (te_start_ns e) (now -64 te_start_ns e) in
      (Some e, map_store m id e)
  end.

Definition func_trace_destroy (id : Z) (m : hmap Z trace_entry_ctx) : hmap Z trace_entry_ctx :=
  snd (bpf_map_delete_elem m id).
End Ops.

(** ** The reference: completed calls

    Inputs are entries and exits of threads; [K] says which function an exit
    belongs to.  [open] has the start of the call each thread is in: an entry
    replaces it, an exit without one is not a call. *)

Inductive ft_input (K : Type) :=
  | Begin (id now : Z)
  | End_ (kind : K) (id now : Z).
Arguments Begin {K} _ _.
Arguments End_ {K} _ _ _.

Record call (K : Type) := Call { c_kind : K; c_id : Z; c_duration : Z }.
Arguments Call {K} _ _ _.
Arguments c_kind {K} _.
Arguments c_id {K} _.
Arguments c_duration {K} _.

Definition ref_step {K} (open : gmap Z Z) (e : ft_input K) : gmap Z Z * list (call K) :=
  match e with
  | Begin id now => (<[id := now]> open, [])
  | End_ kind id now =>
      match open !! id with
      | Some start => (delete id open, [Call kind id (now -64 start)])
      | None => (open, [])
      end
  end.

Fixpoint completed {K} (open : gmap Z Z) (es : list (ft_input K)) : list (call K) :=
  match es with
  | [] => []
  | e :: es => let '(open', cs) := ref_step open e in cs ++ completed open' es
  end.

(** What the map stands for. *)
Definition open_rel {M : BpfMapOps} (m : hmap Z trace_entry_ctx) (open : gmap Z Z) : Prop :=
  forall id, match bpf_map_lookup_elem m id with
             | Some e => te_id e = id /\ open !! id = Some (te_start_ns e)
             | None => open !! id = None
             end.

(** The map operations of an input succeed. *)
Definition op_clean {M : BpfMapOps} {K} (m : hmap Z trace_entry_ctx) (e : ft_input K) : Prop :=
  match e with
  | Begin id now => fst (bpf_map_update_elem m id (TraceEntry id now 0) BPF_ANY) = 0
  | End_ _ id now => is_Some (bpf_map_lookup_elem m id) ->
      fst (bpf_map_delete_elem (snd (func_trace_end id now m)) id) = 0
  end.

Section Facts.
Context {M : BpfMapOps} {L : BpfMapLaws M}.
Implicit Types (m : hmap Z trace_entry_ctx).

Lemma begin_rel m open id now :
  open_rel m open -> fst (bpf_map_update_elem m id (TraceEntry id now 0) BPF_ANY) = 0 ->
  open_rel (func_trace_begin id now m) (<[id := now]> open).
Proof.
  intros Hr Hc k. unfold func_trace_begin. rewrite update_ok by done.
  case_decide as E; [subst; by rewrite lookup_insert_eq|]. rewrite lookup_insert_ne by done. apply Hr.
Qed.

Lemma end_rel m open id now :
  open_rel m open ->
  match func_trace_end id now m with
  | (None, m') => m' = m /\ open !! id = None /\ bpf_map_lookup_elem m id = None
  | (Some e, m') => te_id e = id /\
      (exists start, open !! id = Some start /\ te_duration_ns e = now -64 start) /\
      (fst (bpf_map_delete_elem m' id) = 0 -> open_rel (func_trace_destroy id m') (delete id open))
  end.
Proof.
  intros Hr. unfold func_trace_end. pose proof (Hr id) as Hid.
  destruct (bpf_map_lookup_elem m id) as [e|] eqn:Hl; [|done]. destruct Hid as [Hi Ho].
  split_and!; [done|eexists; split; [done|done]|]. intros Hd k. unfold func_trace_destroy.
  rewrite delete_ok by done. case_decide as E; [subst; by rewrite lookup_delete_eq|].
  rewrite bm_store_ne by (by rewrite ?Hl). rewrite lookup_delete_ne by done. apply Hr.
Qed.
End Facts.
End FuncTrace.

(** ** Slow reclaim calls ([memory_reclaim_events.c]) *)

Module ReclaimEvents.
Import FuncTrace.

Record memory_reclaim_event := ReclaimEvent {
  re_comm : list Z;
  re_reclaim_duration_ns : Z;
  re_cpu_css_addr : Z;
  re_tgid : Z;
  re_tid : Z;
}.

(** The exit's context: the task's name and cpu controller, and the ring's answer. *)
Record exit_ctx := ExitCtx {
  x_comm : list Z;
  x_cpu_css : Z;
  x_output_ret : Z;
}.

Section Tracer.
Context {M : BpfMapOps}.

Record re_state := ReState {
  func_trace_map : hmap Z trace_entry_ctx;
  reclaim_perf_events : list memory_reclaim_event;
}.

Definition kprobe_try_to_free_pages (pid_tgid now : Z) (st : re_state) : re_state :=
  ReState (func_trace_begin pid_tgid now (func_trace_map st)) (reclaim_perf_events st).

Definition reclaim_event (cx : exit_ctx) (id duration : Z) : memory_reclaim_event :=
  ReclaimEvent (x_comm cx) duration (x_cpu_css cx) (u32 (Z.shiftr id 32)) (u32 id).

Definition kretprobe_try_to_free_pages (threshold_ns : Z) (cx : exit_ctx) (pid_tgid now : Z) (st : re_state)
    : re_state :=
  match func_trace_end pid_tgid now (func_trace_map st) with
  | (None, m) => ReState m (reclaim_perf_events st)
  | (Some e, m) =>
      let ring :=
        if threshold_ns <? te_duration_ns e
        then snd (bpf_perf_event_output (x_output_ret cx) (reclaim_event cx (te_id e) (te_duration_ns e))
                    (reclaim_perf_events st))
        else reclaim_perf_events st in
      ReState (func_trace_destroy (te_id e) m) ring
  end.

Definition re_step (threshold_ns : Z) (st : re_state) (e : ft_input exit_ctx) : re_state :=
  match e with
  | Begin id now => kprobe_try_to_free_pages id now st
  | End_ cx id now => kretprobe_try_to_free_pages threshold_ns cx id now st
  end.
Definition re_run (threshold_ns : Z) (st : re_state) (es : list (ft_input exit_ctx)) : re_state :=
  fold_left (re_step threshold_ns) es st.

Fixpoint run_clean (threshold_ns : Z) (st : re_state) (es : list (ft_input exit_ctx)) : Prop :=
  match es with
  | [] => True
  | e :: es => op_clean (func_trace_map st) e /\ run_clean threshold_ns (re_step threshold_ns st e) es
  end.
End Tracer.
Arguments re_state {M}.

(** The report of a completed call. *)
Definition slow_report (threshold_ns : Z) (c : call exit_ctx) : list memory_reclaim_event :=
  if (threshold_ns <? c_duration c) && negb (x_output_ret (c_kind c) <? 0)
  then [reclaim_event (c_kind c) (c_id c) (c_duration c)] else [].

Section Facts.
Context {M : BpfMapOps} {L : BpfMapLaws M}.

(** C37: while the operations on the map of open calls succeed, the reports are, in order,
    the completed reclaim calls of each thread that lasted longer than the threshold and
    whose output was accepted, each with its thread's ids and its own duration; an exit
    whose entry was not seen reports nothing. *)
Theorem slow_reclaims_reported threshold_ns : forall es (st : re_state) open,
  open_rel (func_trace_map st) open -> run_clean threshold_ns st es ->
  reclaim_perf_events (re_run threshold_ns st es) =
  reclaim_perf_events st ++ concat (map (slow_report threshold_ns) (completed open es)).
Proof.
  intros es. induction es as [|e es IH]; intros st open Hr Hc; [by rewrite app_nil_r|].
  change (re_run threshold_ns st (e :: es)) with (re_run threshold_ns (re_step threshold_ns st e) es).
  destruct Hc as [Hop Hc]. cbn [completed].
  destruct e as [id now|cx id now]; cbn [re_step ref_step op_clean] in *.
  - rewrite (IH _ (<[id := now]> open)); [done|by apply begin_rel|done].
  - unfold kretprobe_try_to_free_pages in *. pose proof (end_rel _ open id now Hr) as He.
    destruct (func_trace_end id now (func_trace_map st)) as [[te|] m] eqn:E.
    + destruct He as (Hid & (start & Ho & Hd) & Hdel). rewrite Ho.
      assert (Hs : is_Some (bpf_map_lookup_elem (func_trace_map st) id)).
      { specialize (Hr id). destruct (bpf_map_lookup_elem (func_trace_map st) id); [done|]. congruence. }
      specialize (Hdel (Hop Hs)). rewrite (IH _ (delete id open)); [|by rewrite Hid|done].
      cbn [reclaim_perf_events app map concat]. rewrite app_assoc. f_equal. unfold slow_report. cbn [c_duration c_kind c_id].
      rewrite Hid, Hd. unfold bpf_perf_event_output. cbn [snd].
      destruct (threshold_ns <? now -64 start); [|by rewrite app_nil_r].
      destruct (x_output_ret cx <? 0); [by rewrite app_nil_r|done].
    + destruct He as (-> & Ho & _). rewrite Ho. by rewrite (IH _ open).
Qed.
End Facts.

Definition sample_exit : exit_ctx := ExitCtx [] 7 0.
Definition sample_reclaims : list (ft_input exit_ctx) :=
  [Begin 4294967297 100; Begin 2 110; End_ sample_exit 2 115; End_ sample_exit 4294967297 400; End_ sample_exit 3 500].

Lemma slow_reclaims_reported_witness :
  reclaim_perf_events (re_run 50 (ReState (FaultyHash ∅ 4 []) []) sample_reclaims) = [ReclaimEvent [] 300 7 1 1].
Proof.
  refine (eq_trans (slow_reclaims_reported 50 sample_reclaims (ReState (FaultyHash ∅ 4 []) []) ∅ _ _) _).
  - intros id. cbn. by rewrite !lookup_empty.
  - vm_compute. repeat split; try reflexivity. by intros [? ?].
  - vm_compute. reflexivity.
Defined.
End ReclaimEvents.

(** ** Time in reclaim and compaction ([memory_free_compact.c]) *)

Module FreeCompact.
Import FuncTrace.

Record mm_free_compact_entry := FreeCompactEntry {
  compaction_stat : Z;
  allocstall_stat : Z;
}.

Section Tracer.
Context {M : BpfMapOps}.

Record fc_state := FcState {
  func_trace_map : hmap Z trace_entry_ctx;
  mm_free_compact_map : hmap Z mm_free_compact_entry;
}.

Definition update_metric_map (free_duration_ns compact_duration_ns : Z) (m : hmap Z mm_free_compact_entry)
    : hmap Z mm_free_compact_entry :=
  match bpf_map_lookup_elem m 0 with
  | None => snd (bpf_map_update_elem m 0 (FreeCompactEntry compact_duration_ns free_duration_ns) BPF_ANY)
  | Some v =>
      let alloc := if ctrue free_duration_ns then allocstall_stat v +64 free_duration_ns else allocstall_stat v in
      let compact := if ctrue compact_duration_ns then compaction_stat v +64 compact_duration_ns
                     else compaction_stat v in
      map_store m 0 (FreeCompactEntry compact alloc)
  end.

Definition func_trace_end_and_update_metric (free_pages : bool) (pid_tgid now : Z) (st : fc_state) : fc_state :=
  match func_trace_end pid_tgid now (func_trace_map st) with
  | (None, m) => FcState m (mm_free_compact_map st)
  | (Some e, m) =>
      let metrics :=
        if free_pages then update_metric_map (te_duration_ns e) 0 (mm_free_compact_map st)
        else update_metric_map 0 (te_duration_ns e) (mm_free_compact_map st) in
      FcState (func_trace_destroy (te_id e) m) metrics
  end.

Definition tracepoint_try_to_free_pages_begin (pid_tgid now : Z) (st : fc_state) : fc_state :=
  FcState (func_trace_begin pid_tgid now (func_trace_map st)) (mm_free_compact_map st).
Definition tracepoint_try_to_free_pages_end (pid_tgid now : Z) (st : fc_state) : fc_state :=
  func_trace_end_and_update_metric true pid_tgid now st.
Definition kprobe_try_to_compact_pages_host (pid_tgid now : Z) (st : fc_state) : fc_state :=
  FcState (func_trace_begin pid_tgid now (func_trace_map st)) (mm_free_compact_map st).
Definition kretprobe_try_to_compact_pages_host (pid_tgid now : Z) (st : fc_state) : fc_state :=
  func_trace_end_and_update_metric false pid_tgid now st.

(** The begin probes of both functions do the same. *)
Definition fc_step (st : fc_state) (e : ft_input bool) : fc_state :=
  match e with
  | Begin id now => tracepoint_try_to_free_pages_begin id now st
  | End_ true id now => tracepoint_try_to_free_pages_end id now st
  | End_ false id now => kretprobe_try_to_compact_pages_host id now st
  end.
Definition fc_run (st : fc_state) (es : list (ft_input bool)) : fc_state := fold_left fc_step es st.

(** The map operations of every step succeed, the insertion of the metrics
    included. *)
Fixpoint run_clean (st : fc_state) (es : list (ft_input bool)) : Prop :=
  match es with
  | [] => True
  | e :: es =>
      op_clean (func_trace_map st) e /\
      (forall v, bpf_map_lookup_elem (mm_free_compact_map st) 0 = None ->
         fst (bpf_map_update_elem (mm_free_compact_map st) 0 v BPF_ANY) = 0) /\
      run_clean (fc_step st e) es
  end.

(** The two totals; no entry is zero. *)
Definition totals (st : fc_state) : Z * Z :=
  match bpf_map_lookup_elem (mm_free_compact_map st) 0 with
  | Some v => (allocstall_stat v, compaction_stat v)
  | None => (0, 0)
  end.
End Tracer.
Arguments fc_state {M}.

Definition time_in (kind : bool) (cs : list (call bool)) : Z :=
  foldr (fun c n => (if Bool.eqb (c_kind c) kind then c_duration c else 0) + n) 0 cs.

Section Facts.
Context {M : BpfMapOps} {L : BpfMapLaws M}.

Lemma metric_totals (ft : hmap Z trace_entry_ctx) (m : hmap Z mm_free_compact_entry) d (kind : bool) ft' :
  is_u64 d -> is_u64 (fst (totals (FcState ft m))) -> is_u64 (snd (totals (FcState ft m))) ->
  (forall v, bpf_map_lookup_elem m 0 = None -> fst (bpf_map_update_elem m 0 v BPF_ANY) = 0) ->
  let m' := if kind then update_metric_map d 0 m else update_metric_map 0 d m in
  totals (FcState ft' m') =
  (u64 (fst (totals (FcState ft m)) + if kind then d else 0),
   u64 (snd (totals (FcState ft m)) + if kind then 0 else d)).
Proof.
  intros Hd. unfold totals, update_metric_map. cbn [mm_free_compact_map].
  destruct (bpf_map_lookup_elem m 0) as [v|] eqn:E; cbn [fst snd]; intros Ha Hc Hok; cbv zeta.
  - assert (Hadd : forall x, is_u64 x -> (if ctrue d then x +64 d else x) = u64 (x + d)).
    { intros x Hx. unfold ctrue. destruct (Z.eqb_spec d 0) as [->|]; [|done]. cbn. by rewrite Z.add_0_r, u64_small. }
    destruct kind; rewrite bm_store_eq by (by rewrite E); cbn [allocstall_stat compaction_stat];
      rewrite Hadd by done; change (ctrue 0) with false; cbn iota;
      by rewrite Z.add_0_r, ?(u64_small (allocstall_stat v)), ?(u64_small (compaction_stat v)).
  - destruct kind; rewrite bm_update_eq by auto; cbn [allocstall_stat compaction_stat];
      by rewrite !Z.add_0_l, (u64_small d).
Qed.

(** The two totals are the times the threads spent in completed reclaim calls
    and in completed compaction calls, modulo 2^64: no call is counted twice, in the
    wrong total, or with another thread's start. *)
Theorem reclaim_time_accumulates : forall es (st : fc_state) open,
  open_rel (func_trace_map st) open -> run_clean st es ->
  is_u64 (fst (totals st)) -> is_u64 (snd (totals st)) ->
  totals (fc_run st es) =
  (u64 (fst (totals st) + time_in true (completed open es)),
   u64 (snd (totals st) + time_in false (completed open es))).
Proof.
  intros es. induction es as [|e es IH]; intros st open Hr Hc Ha Hcm.
  { cbn. rewrite !Z.add_0_r, !u64_small by done. by destruct (totals st). }
  change (fc_run st (e :: es)) with (fc_run (fc_step st e) es).
  destruct Hc as (Hop & Hins & Hc). cbn [completed].
  assert (Hend : forall kind id now, e = End_ kind id now ->
    fc_step st e = func_trace_end_and_update_metric kind id now st) by (intros [] ?? ->; done).
  destruct e as [id now|kind id now].
  { rewrite (IH _ (<[id := now]> open)); [done|by apply begin_rel|done..]. }
  rewrite (Hend kind id now eq_refl) in *. clear Hend. cbn [ref_step op_clean] in *.
  unfold func_trace_end_and_update_metric in *. pose proof (end_rel _ open id now Hr) as He.
  destruct (func_trace_end id now (func_trace_map st)) as [[te|] m] eqn:E.
  - destruct He as (Hid & (start & Ho & Hd) & Hdel). rewrite Ho.
    assert (Hs : is_Some (bpf_map_lookup_elem (func_trace_map st) id)).
    { specialize (Hr id). destruct (bpf_map_lookup_elem (func_trace_map st) id); [done|]. congruence. }
    specialize (Hdel (Hop Hs)). rewrite Hid, Hd in *. destruct st as [ft mm]. cbn [mm_free_compact_map] in *.
    pose proof (fun ft' => metric_totals ft mm (now -64 start) kind ft' (u64_range _) Ha Hcm Hins) as Ht. cbv zeta in Ht.
    rewrite (IH _ (delete id open)); [|done|done|rewrite Ht; cbn [fst snd]; auto with bpf..].
    rewrite !Ht. cbn [fst snd app time_in foldr c_kind c_duration]. fold (time_in true (completed (delete id open) es)).
    fold (time_in false (completed (delete id open) es)).
    autorewrite with bpf_rw. destruct kind; cbn [Bool.eqb]; f_equal; f_equal; lia.
  - destruct He as (-> & Ho & _). rewrite Ho. by rewrite (IH _ open).
Qed.
End Facts.

Definition sample_fc : list (ft_input bool) :=
  [Begin 1 100; Begin 2 150; End_ true 1 130; End_ false 2 250; End_ false 1 300].

Lemma reclaim_time_accumulates_witness :
  totals (fc_run (FcState (FaultyHash ∅ 4 []) (FaultyHash ∅ 4 [])) sample_fc) = (30, 100).
Proof.
  refine (eq_trans (reclaim_time_accumulates sample_fc (FcState (FaultyHash ∅ 4 []) (FaultyHash ∅ 4 [])) ∅ _ _ _ _) _).
  - intros id. cbn. by rewrite !lookup_empty.
  - cbn [run_clean sample_fc]. split_and!; try (vm_compute; reflexivity); try (intros [? ?]; vm_compute; reflexivity);
      try (intros v; vm_compute; reflexivity); try (intros v; vm_compute; discriminate); try done.
    vm_compute. by intros [? ?].
  - split; [apply Z.le_refl|reflexivity].
  - split; [apply Z.le_refl|reflexivity].
  - vm_compute. reflexivity.
Defined.
End FreeCompact.

(** ** Memory cgroup stalls ([memory_reclaim.c]) *)

Module Reclaim.

Definition PF_KSWAPD : Z := 0x00020000.

Section Tracer.
Context {M : BpfMapOps}.

(** The value type is [struct mem_cgroup_metric] with its one counter. *)
Definition stall_insert (css : Z) (m : hmap Z Z) : hmap Z Z := snd (bpf_map_update_elem m css 1 BPF_ANY).

(** The lookup: [None] where the program goes on to the insertion. *)
Definition stall_lookup (css : Z) (m : hmap Z Z) : option (hmap Z Z) :=
  match bpf_map_lookup_elem m css with
  | Some n => Some (map_store m css (n +64 1))
  | None => None
  end.

Definition tracepoint_vmscan_mm_vmscan_memcg_reclaim_begin (flags css : Z) (m : hmap Z Z) : hmap Z Z :=
  if ctrue (Z.land flags PF_KSWAPD) then m
  else match stall_lookup css m with
       | Some m => m
       | None => stall_insert css m
       end.

Definition kprobe_mem_cgroup_css_released (css : Z) (m : hmap Z Z) : hmap Z Z := snd (bpf_map_delete_elem m css).

Inductive mr_input :=
  | ReclaimBegin (flags css : Z)
  | CssReleased (css : Z).
Definition mr_step (m : hmap Z Z) (e : mr_input) : hmap Z Z :=
  match e with
  | ReclaimBegin flags css => tracepoint_vmscan_mm_vmscan_memcg_reclaim_begin flags css m
  | CssReleased css => kprobe_mem_cgroup_css_released css m
  end.
Definition mr_run (m : hmap Z Z) (es : list mr_input) : hmap Z Z := fold_left mr_step es m.

Fixpoint run_clean (m : hmap Z Z) (es : list mr_input) : Prop :=
  match es with
  | [] => True
  | e :: es =>
      match e with
      | ReclaimBegin _ css => fst (bpf_map_update_elem m css 1 BPF_ANY) = 0
      | CssReleased css => fst (bpf_map_delete_elem m css) = 0 \/ fst (bpf_map_delete_elem m css) = - ENOENT
      end /\ run_clean (mr_step m e) es
  end.
End Tracer.

(** Stalls of a cgroup since its address was last released. *)
Definition stall_ref (css n : Z) (e : mr_input) : Z :=
  match e with
  | ReclaimBegin flags c => if (c =? css) && negb (ctrue (Z.land flags PF_KSWAPD)) then n + 1 else n
  | CssReleased c => if c =? css then 0 else n
  end.

Section Facts.
Context {M : BpfMapOps} {L : BpfMapLaws M}.

(** A cgroup's counter is the number of its direct reclaims (those of kswapd
    apart) since its address was last released, modulo 2^64: a recycled address
    does not inherit a count. *)
Theorem stall_count_since_release css : forall es (m : hmap Z Z) n,
  run_clean m es -> default 0 (bpf_map_lookup_elem m css) = u64 n ->
  default 0 (bpf_map_lookup_elem (mr_run m es) css) = u64 (fold_left (stall_ref css) es n).
Proof.
  intros es. induction es as [|e es IH]; intros m n Hc Hn; [done|]. destruct Hc as [He Hc].
  change (mr_run m (e :: es)) with (mr_run (mr_step m e) es). cbn [fold_left]. apply IH; [done|].
  destruct e as [flags c|c]; cbn [mr_step stall_ref].
  - unfold tracepoint_vmscan_mm_vmscan_memcg_reclaim_begin.
    destruct (ctrue (Z.land flags PF_KSWAPD)); cbn [negb]; [by rewrite andb_false_r|]. rewrite andb_true_r.
    unfold stall_lookup, stall_insert. destruct (bpf_map_lookup_elem m c) as [v|] eqn:Hl.
    + rewrite store_lookup by (by rewrite Hl). destruct (Z.eqb_spec c css) as [->|]; case_decide; try done.
      rewrite Hl in Hn. cbn in *. rewrite Hn. by autorewrite with bpf_rw.
    + rewrite update_ok by done. destruct (Z.eqb_spec c css) as [->|]; case_decide; try done.
      rewrite Hl in Hn. cbn in *. by rewrite <- u64_add_idemp_l, <- Hn.
  - unfold kprobe_mem_cgroup_css_released. rewrite bm_delete_done by done.
    destruct (Z.eqb_spec c css) as [->|]; by case_decide.
Qed.
End Facts.

Lemma stall_count_since_release_witness :
  default 0 (bpf_map_lookup_elem (mr_run (FaultyHash ∅ 4 [])
    [ReclaimBegin 0 5; CssReleased 5; ReclaimBegin 0 5; ReclaimBegin PF_KSWAPD 5; ReclaimBegin 0 5]) 5) = 2.
Proof.
  refine (eq_trans (stall_count_since_release 5
    [ReclaimBegin 0 5; CssReleased 5; ReclaimBegin 0 5; ReclaimBegin PF_KSWAPD 5; ReclaimBegin 0 5]
    (FaultyHash ∅ 4 []) 0 _ _) _).
  - vm_compute. repeat split; auto.
  - reflexivity.
  - reflexivity.
Defined.

(** The insertion overwrites: when two CPUs look the cgroup up before either
    inserts, both insert a count of one and a stall is lost. *)
Lemma stall_race_loses_count (m : hmap (BpfMapOps := faulty_ops) Z Z := FaultyHash ∅ 4 []) :
  stall_lookup 5 m = None /\
  bpf_map_lookup_elem (stall_insert 5 (stall_insert 5 m)) 5 = Some 1 /\
  bpf_map_lookup_elem (mr_run m [ReclaimBegin 0 5; ReclaimBegin 0 5]) 5 = Some 2.
Proof. by vm_compute. Qed.
End Reclaim.
