(* ===== verification/Ras.v ===== *)
(** * Hardware error events ([bpf/system_ras.c], [bpf/include/abi/ras_types.h])

    Each program copies the raw tracepoint record of a hardware error into a
    per-CPU slot and outputs the slot.  Records with a dynamic payload are copied up
    to the end of the payload, at most 512 bytes.  Module [Ras] proves that a
    delivered event is a function of its own tracepoint record, and that a payload
    inside the bound can be read back at its recorded place. *)

From Stdlib Require Import ZArith Lia.
From stdpp Require Import base option list gmap tactics.
From S2P Require Import Prelude BpfMap KernelStr SkBuff.

Local Open Scope Z_scope.
Local Open Scope bpf_scope.

Module Ras.
Import SkBuff.

Definition HW_ERR_MCE : Z := 0.
Definition HW_ERR_EDAC : Z := 1.
Definition HW_ERR_NON_STANDARD : Z := 2.
Definition HW_ERR_AER_EVENT : Z := 3.
Definition HW_ERR_THR : Z := 4.
Definition HW_ERR_ARM_GHES : Z := 5.
Definition RAS_EVENT_INFO_SIZE : nat := 512.

(** Sizes of the fixed records: the common header, the words and the bytes, rounded
    up to the alignment of eight. *)
Definition sizeof_trace_entry : nat := 2 + 1 + 1 + 4.
Definition align8 (n : nat) : nat := (n + 7) / 8 * 8.
Definition sizeof_mce_record : nat := align8 (sizeof_trace_entry + 10 * 8 + 4 * 4 + 3).
Definition sizeof_arm_event : nat := align8 (sizeof_trace_entry + 2 * 8 + 2 * 4 + 1).

Record ras_event := RasEvent {
  re_type : Z;
  re_pad0 : Z;
  re_kernel_observed_ns : Z;
  re_info : list Z;
}.
Definition zero_event : ras_event := RasEvent 0 0 0 (replicate RAS_EVENT_INFO_SIZE 0).

(** [event_init]: the previous contents are overwritten. *)
Definition event_init (event : ras_event) (now type : Z) : ras_event :=
  RasEvent type 0 now (replicate (length (re_info event)) 0).

Definition event_size (data_loc : Z) : Z :=
  let size := Z.land data_loc 0xffff +32 Z.land (Z.shiftr data_loc 16) 0xffff in
  if 512 <? size then 512 else size.

(** [bpf_probe_read(event->info, n, ctx)], where [ctx] is the readable memory at the
    context: a read past it fails and zeroes the destination. *)
Definition probe_info (n : nat) (ctx info : list Z) : list Z :=
  (if (n <=? length ctx)%nat then take n ctx else replicate n 0) ++ drop n info.

Definition set_info (event : ras_event) (info : list Z) : ras_event :=
  RasEvent (re_type event) (re_pad0 event) (re_kernel_observed_ns event) info.

Record ras_ctx := RasCtx {
  rc_cpu : Z;
  rc_now : Z;
  rc_bytes : list Z;
  rc_output_ret : Z;
}.

Record ras_state := RasState {
  event_data_map : gmap Z ras_event;
  ras_event_map : list ras_event;
}.

(** The shape of the six programs: take the slot, initialise it, copy, output. *)
Definition ras_probe (cx : ras_ctx) (type : Z) (copy : list Z -> list Z) (st : ras_state) : ras_state :=
  let event := percpu_get zero_event (event_data_map st) (rc_cpu cx) in
  let event := event_init event (rc_now cx) type in
  let event := set_info event (copy (re_info event)) in
  RasState (percpu_set (event_data_map st) (rc_cpu cx) event)
    (snd (bpf_perf_event_output (rc_output_ret cx) event (ras_event_map st))).

Definition probe_mce_record (cx : ras_ctx) : ras_state -> ras_state :=
  ras_probe cx HW_ERR_MCE (probe_info sizeof_mce_record (rc_bytes cx)).

(** [struct ras_thr_info]. *)
Definition ras_thr_info (vector cpu : Z) : list Z := le_bytes 4 (u32 vector) ++ le_bytes 4 (u32 cpu).

Definition probe_thr_apic (cx : ras_ctx) (vector : Z) : ras_state -> ras_state :=
  ras_probe cx HW_ERR_THR (probe_info 8 (ras_thr_info vector (rc_cpu cx))).

Definition probe_arm_event (cx : ras_ctx) : ras_state -> ras_state :=
  ras_probe cx HW_ERR_ARM_GHES (probe_info sizeof_arm_event (rc_bytes cx)).

Definition probe_ras_mc_event (cx : ras_ctx) (data_loc_driver_detail : Z) : ras_state -> ras_state :=
  ras_probe cx HW_ERR_EDAC (probe_info (Z.to_nat (event_size data_loc_driver_detail)) (rc_bytes cx)).

Definition probe_ras_non_standard (cx : ras_ctx) (data_loc_buf : Z) : ras_state -> ras_state :=
  ras_probe cx HW_ERR_NON_STANDARD (probe_info (Z.to_nat (event_size data_loc_buf)) (rc_bytes cx)).

Definition probe_ras_aer_event (cx : ras_ctx) (data_loc_dev_name : Z) : ras_state -> ras_state :=
  ras_probe cx HW_ERR_AER_EVENT (probe_info (Z.to_nat (event_size data_loc_dev_name)) (rc_bytes cx)).

Inductive ras_input :=
  | MceRecord (cx : ras_ctx)
  | ThrApic (cx : ras_ctx) (vector : Z)
  | ArmEvent (cx : ras_ctx)
  | McEvent (cx : ras_ctx) (data_loc : Z)
  | NonStandard (cx : ras_ctx) (data_loc : Z)
  | AerEvent (cx : ras_ctx) (data_loc : Z).

Definition ras_step (st : ras_state) (e : ras_input) : ras_state :=
  match e with
  | MceRecord cx => probe_mce_record cx st
  | ThrApic cx vector => probe_thr_apic cx vector st
  | ArmEvent cx => probe_arm_event cx st
  | McEvent cx dl => probe_ras_mc_event cx dl st
  | NonStandard cx dl => probe_ras_non_standard cx dl st
  | AerEvent cx dl => probe_ras_aer_event cx dl st
  end.
Definition ras_run (st : ras_state) (es : list ras_input) : ras_state := fold_left ras_step es st.

(** ** The reference *)

(** The type, the source bytes and the number of them an input stands for; the
    span of a dynamic payload is cut at 512. *)
Definition span (data_loc : Z) : Z := data_loc mod 2 ^ 16 + data_loc / 2 ^ 16 mod 2 ^ 16.
Definition ras_source (e : ras_input) : ras_ctx * Z * list Z * nat :=
  match e with
  | MceRecord cx => (cx, HW_ERR_MCE, rc_bytes cx, sizeof_mce_record)
  | ThrApic cx vector => (cx, HW_ERR_THR, ras_thr_info vector (rc_cpu cx), 8%nat)
  | ArmEvent cx => (cx, HW_ERR_ARM_GHES, rc_bytes cx, sizeof_arm_event)
  | McEvent cx dl => (cx, HW_ERR_EDAC, rc_bytes cx, Z.to_nat (Z.min 512 (span dl)))
  | NonStandard cx dl => (cx, HW_ERR_NON_STANDARD, rc_bytes cx, Z.to_nat (Z.min 512 (span dl)))
  | AerEvent cx dl => (cx, HW_ERR_AER_EVENT, rc_bytes cx, Z.to_nat (Z.min 512 (span dl)))
  end.

(** The source bytes, or none if they cannot all be read, and zeros up to 512. *)
Definition padded (n : nat) (src : list Z) : list Z :=
  let bytes := if (n <=? length src)%nat then take n src else [] in
  bytes ++ replicate (RAS_EVENT_INFO_SIZE - length bytes) 0.

Definition ras_report (e : ras_input) : list ras_event :=
  let '(cx, type, src, n) := ras_source e in
  if rc_output_ret cx <? 0 then [] else [RasEvent type 0 (rc_now cx) (padded n src)].

(** Slots hold records of the right size. *)
Definition slots_ok (st : ras_state) : Prop :=
  forall cpu, length (re_info (percpu_get zero_event (event_data_map st) cpu)) = RAS_EVENT_INFO_SIZE.

Lemma event_size_spec dl : 0 <= dl -> event_size dl = Z.min 512 (span dl).
Proof.
  intros Hd. unfold event_size, span. change 0xffff with (2 ^ 16 - 1).
  rewrite !land_mask, Z.shiftr_div_pow2 by lia.
  pose proof (Z.mod_pos_bound dl (2 ^ 16) ltac:(lia)). pose proof (Z.mod_pos_bound (dl / 2 ^ 16) (2 ^ 16) ltac:(lia)).
  rewrite u32_small by (unfold is_u32; lia).
  destruct (Z.ltb_spec 512 (dl mod 2 ^ 16 + dl / 2 ^ 16 mod 2 ^ 16)); lia.
Qed.

Lemma probe_info_padded n src :
  (n <= RAS_EVENT_INFO_SIZE)%nat -> probe_info n src (replicate RAS_EVENT_INFO_SIZE 0) = padded n src.
Proof.
  intros Hn. unfold probe_info, padded. rewrite drop_replicate.
  destruct (Nat.leb_spec n (length src)) as [Hl|Hl].
  - by rewrite length_take, Nat.min_l by done.
  - rewrite <- replicate_add. cbn [length app]. f_equal. lia.
Qed.

Lemma padded_length n src : (n <= RAS_EVENT_INFO_SIZE)%nat -> length (padded n src) = RAS_EVENT_INFO_SIZE.
Proof.
  intros Hn. unfold padded. rewrite length_app, length_replicate.
  destruct (Nat.leb_spec n (length src)); [rewrite length_take|cbn [length]]; lia.
Qed.

Lemma ras_probe_effect cx type n src st :
  slots_ok st -> (n <= RAS_EVENT_INFO_SIZE)%nat ->
  let st' := ras_probe cx type (probe_info n src) st in
  slots_ok st' /\
  ras_event_map st' = ras_event_map st ++
    if rc_output_ret cx <? 0 then [] else [RasEvent type 0 (rc_now cx) (padded n src)].
Proof.
  intros Hs Hn st'. subst st'. unfold ras_probe, event_init, set_info. cbn [re_type re_pad0 re_kernel_observed_ns re_info].
  rewrite Hs, probe_info_padded by done. split.
  - intros cpu. cbn [event_data_map]. rewrite percpu_get_set. case_decide; [|apply Hs]. by apply padded_length.
  - cbn [ras_event_map]. unfold bpf_perf_event_output. cbn [snd].
    destruct (rc_output_ret cx <? 0); by rewrite ?app_nil_r.
Qed.

Definition locs_ok (e : ras_input) : Prop :=
  match e with McEvent _ dl | NonStandard _ dl | AerEvent _ dl => is_u32 dl | _ => True end.

Lemma ras_step_effect st e :
  slots_ok st -> locs_ok e ->
  slots_ok (ras_step st e) /\ ras_event_map (ras_step st e) = ras_event_map st ++ ras_report e.
Proof.
  intros Hs Hl. unfold ras_report, is_u32 in *.
  destruct e; cbn [ras_step ras_source locs_ok] in *;
    unfold probe_mce_record, probe_thr_apic, probe_arm_event, probe_ras_mc_event, probe_ras_non_standard,
      probe_ras_aer_event, is_u32 in *; rewrite ?event_size_spec by lia; apply ras_probe_effect; try done;
    unfold RAS_EVENT_INFO_SIZE; first [lia|by apply Nat.leb_le].
Qed.

(** C36: From load, the delivered events are those of the tracepoint records in order,
    each carrying its own record and zeros behind it, whatever an earlier, longer
    record left in the slot of the CPU; a record cut at 512 bytes or unreadable does
    not run into anything else. *)
Theorem ras_events_exact es :
  Forall locs_ok es -> ras_event_map (ras_run (RasState ∅ []) es) = concat (map ras_report es).
Proof.
  intros Hf. assert (H : forall es st, slots_ok st -> Forall locs_ok es ->
    ras_event_map (ras_run st es) = ras_event_map st ++ concat (map ras_report es)).
  { clear. induction es as [|e es IH]; intros st Hs Hf; [by rewrite app_nil_r|].
    apply Forall_cons_iff in Hf as [He Hf]. destruct (ras_step_effect st e Hs He) as [Hs' Hr].
    change (ras_run st (e :: es)) with (ras_run (ras_step st e) es).
    rewrite IH, Hr by done. cbn [map concat]. by rewrite app_assoc. }
  apply H; [|done]. intros cpu. unfold percpu_get, arr_get. cbn [event_data_map]. by rewrite lookup_empty.
Qed.

(** A payload whose recorded place ends within 512 bytes is intact in the event:
    the bytes at its offset and length are the tracepoint's. *)
Theorem ras_payload_roundtrip (dl : Z) (src : list Z) (off := dl mod 2 ^ 16) (len := dl / 2 ^ 16 mod 2 ^ 16) :
  is_u32 dl -> span dl <= 512 -> span dl <= Z.of_nat (length src) ->
  take (Z.to_nat len) (drop (Z.to_nat off)
    (probe_info (Z.to_nat (event_size dl)) src (replicate RAS_EVENT_INFO_SIZE 0))) =
  take (Z.to_nat len) (drop (Z.to_nat off) src).
Proof.
  intros Hd Hb Hl. subst off len. unfold is_u32 in Hd. rewrite event_size_spec, Z.min_r by lia.
  pose proof (Z.mod_pos_bound dl (2 ^ 16) ltac:(lia)). pose proof (Z.mod_pos_bound (dl / 2 ^ 16) (2 ^ 16) ltac:(lia)).
  unfold probe_info. rewrite (proj2 (Nat.leb_le _ _)) by lia. unfold span in *.
  set (off := dl mod 2 ^ 16) in *. set (len := dl / 2 ^ 16 mod 2 ^ 16) in *.
  rewrite drop_app_le, take_app_le by (rewrite ?length_drop, length_take; lia).
  rewrite <- (take_drop (Z.to_nat (off + len)) src) at 2.
  rewrite drop_app_le by (rewrite length_take; lia). by rewrite take_app_le by (rewrite length_drop, length_take; lia).
Qed.

Lemma ras_events_exact_witness :
  ras_event_map (ras_run (RasState ∅ [])
    [NonStandard (RasCtx 0 5 (replicate 600 7) 0) (Z.shiftl 100 16 + 16); ThrApic (RasCtx 0 6 [] 0) 9]) =
  [RasEvent 2 0 5 (replicate 116 7 ++ replicate 396 0);
   RasEvent 4 0 6 ([9; 0; 0; 0; 0; 0; 0; 0] ++ replicate 504 0)].
Proof.
  refine (eq_trans (ras_events_exact
    [NonStandard (RasCtx 0 5 (replicate 600 7) 0) (Z.shiftl 100 16 + 16); ThrApic (RasCtx 0 6 [] 0) 9] _) _).
  - repeat apply Forall_cons_2; [split; [discriminate|reflexivity]|exact I|apply Forall_nil_2].
  - vm_compute. reflexivity.
Defined.

Lemma ras_payload_roundtrip_witness :
  take 3 (drop 2 (probe_info (Z.to_nat (event_size (3 * 65536 + 2))) [1; 2; 3; 4; 5; 6] (replicate RAS_EVENT_INFO_SIZE 0))) =
  [3; 4; 5].
Proof.
  refine (ras_payload_roundtrip (3 * 65536 + 2) [1; 2; 3; 4; 5; 6] _ _ _).
  - unfold is_u32. lia.
  - vm_compute. discriminate.
  - vm_compute. discriminate.
Defined.
End Ras.
