(* ===== verification/HostEvents.v ===== *)
(** * Host and device events

    The small tracers: OOM kills ([bpf/memory_oom_kill.c]), hung tasks
    ([bpf/system_hungtask.c]), soft lockups ([bpf/system_softlockup.c]), transmit
    timeouts ([bpf/netdev_txqueue_timeout.c]), bonding ([bpf/netdev_bonding_lacp.c]),
    software drop counters ([bpf/netdev_hw.c]), task samples ([bpf/perf.c]) and the
    cgroup registry ([bpf/cgroup_css_events.c], [bpf/cgroup_css_sync.c],
    [bpf/include/bpf_cgroup_css.h]), one module each. *)

From Stdlib Require Import ZArith Lia.
From stdpp Require Import base option list gmap tactics countable.
From S2P Require Import Prelude BpfMap KernelStr Ratelimit.

Local Open Scope Z_scope.
Local Open Scope bpf_scope.

Definition COMPAT_CPU_NUM : Z := 128.
Definition TASK_COMM_LEN : nat := 16.

(** [BPF_CORE_READ_STR_INTO] and [bpf_probe_read_str] into a zeroed array. *)
Definition read_comm (src : option (list Z)) : list Z := read_str_into (replicate TASK_COMM_LEN 0) src.

(** ** OOM kills *)

Module Oom.
Import Ratelimit.

Record oom_event := OomEvent {
  oe_trigger_comm : list Z;
  oe_victim_comm : list Z;
  oe_trigger_tgid : Z;
  oe_victim_tgid : Z;
  oe_trigger_memcg_css : Z;
  oe_victim_memcg_css : Z;
  oe_mem_limit_pages : Z;
  oe_mem_usage_pages : Z;
}.

Record oom_kernel := OomKernel {
  k_current : Z;
  oc_chosen : Z -> Z;
  oc_totalpages : Z -> Z;
  oc_memcg : Z -> Z;
  task_tgid : Z -> Z;
  task_comm : Z -> option (list Z);
  task_memory_css : Z -> Z;
  memcg_usage : Z -> Z;
}.

Record oom_ctx := OomCtx { oom_now : Z; oom_output_ret : Z }.

Record oom_state := OomState {
  rate : bpf_ratelimit_event;
  oom_perf_events : list oom_event;
}.
Definition oom_start : oom_state := OomState (BPF_RATELIMIT BPF_NSEC_PER_SEC (COMPAT_CPU_NUM * 10000)) [].

Definition oom_info (kr : oom_kernel) (oc : Z) : oom_event :=
  let trigger := k_current kr in
  let victim := oc_chosen kr oc in
  let memcg := oc_memcg kr oc in
  OomEvent (read_comm (task_comm kr trigger)) (read_comm (task_comm kr victim))
    (u32 (task_tgid kr trigger)) (u32 (task_tgid kr victim))
    (task_memory_css kr trigger) (task_memory_css kr victim)
    (u64 (oc_totalpages kr oc)) (if ctrue memcg then u64 (memcg_usage kr memcg) else 0).

Definition oom_kill_process (kr : oom_kernel) (cx : oom_ctx) (oc : Z) (st : oom_state) : oom_state :=
  let '(limited, r) := bpf_ratelimited (oom_now cx) (Some (rate st)) in
  let st := OomState (default (rate st) r) (oom_perf_events st) in
  if limited then st
  else if oc =? 0 then st
  else OomState (rate st)
         (snd (bpf_perf_event_output (oom_output_ret cx) (oom_info kr oc) (oom_perf_events st))).

Definition oom_step (st : oom_state) (e : oom_kernel * oom_ctx * Z) : oom_state :=
  let '(kr, cx, oc) := e in oom_kill_process kr cx oc st.
Definition oom_run (st : oom_state) (es : list (oom_kernel * oom_ctx * Z)) : oom_state := fold_left oom_step es st.

(** The time the limiter sees and the report an admitted invocation makes. *)
Definition oom_entry (e : oom_kernel * oom_ctx * Z) : Z * list oom_event :=
  let '(kr, cx, oc) := e in
  (oom_now cx, if (oc =? 0) || (oom_output_ret cx <? 0) then [] else [oom_info kr oc]).

Lemma oom_run_limited es : forall st,
  let r := fold_left limited_step (map oom_entry es) (rate st, oom_perf_events st) in
  oom_run st es = OomState (fst r) (snd r).
Proof.
  induction es as [|[[kr cx] oc] es IH]; intros st; cbn zeta; [by destruct st|].
  change (oom_run st ((kr, cx, oc) :: es)) with (oom_run (oom_kill_process kr cx oc st) es).
  rewrite IH. cbn [map fold_left]. do 3 f_equal; f_equal;
    unfold oom_kill_process, limited_step, bpf_perf_event_output; cbn [fst snd oom_entry];
    destruct (bpf_ratelimited (oom_now cx) (Some (rate st))) as [[] r]; cbn; try done;
    destruct (oc =? 0); cbn; rewrite ?app_nil_r; try done;
    destruct (oom_output_ret cx <? 0); by rewrite ?app_nil_r.
Qed.

(** Every OOM kill is reported once, in order, with trigger, victim, their memory
    cgroups, the limit and the usage, up to the window policy of 1 280 000 a
    second; only a full ring loses one. *)
Theorem oom_kills_reported es :
  clock_from 0 (map (fun e => oom_now (snd (fst e))) es) ->
  oom_perf_events (oom_run oom_start es) =
  concat (admitted_events BPF_NSEC_PER_SEC (COMPAT_CPU_NUM * 10000) None (map oom_entry es)).
Proof.
  intros Hc. rewrite oom_run_limited. cbn [oom_perf_events oom_start rate].
  rewrite (limited_log (map oom_entry es) _ [] None 0).
  - done.
  - apply rate_rel_init; unfold BPF_NSEC_PER_SEC, COMPAT_CPU_NUM; lia.
  - done.
  - rewrite map_map. erewrite map_ext; [exact Hc|]. by intros [[] ?].
Qed.

Definition sample_oom_kernel : oom_kernel :=
  OomKernel 1 (fun _ => 2) (fun _ => 4096) (fun _ => 9) (fun t => t) (fun t => Some [97 + t]) (fun t => 100 + t)
    (fun _ => 4000).

Lemma oom_kills_reported_witness :
  map oe_victim_tgid (oom_perf_events (oom_run oom_start
    [(sample_oom_kernel, OomCtx 5 0, 7); (sample_oom_kernel, OomCtx 6 0, 0); (sample_oom_kernel, OomCtx 7 0, 8)])) = [2; 2].
Proof.
  rewrite (oom_kills_reported
    [(sample_oom_kernel, OomCtx 5 0, 7); (sample_oom_kernel, OomCtx 6 0, 0); (sample_oom_kernel, OomCtx 7 0, 8)]).
  - vm_compute. reflexivity.
  - cbn. lia.
Defined.
End Oom.

(** ** Soft lockups *)

Module SoftLockup.
Import Ratelimit.

Definition TAINT_SOFTLOCKUP : Z := 14.

Record softlockup_event := SoftlockupEvent { se_cpu : Z; se_tgid : Z; se_comm : list Z }.

Record sl_input := SlInput {
  sl_flag : Z;              (* first argument of add_taint *)
  sl_now : Z;
  sl_cpu : Z;
  sl_pid_tgid : Z;
  sl_comm : option (list Z);
  sl_output_ret : Z;
}.

Record sl_state := SlState {
  rate : bpf_ratelimit_event;
  softlockup_perf_events : list softlockup_event;
}.
Definition sl_start : sl_state := SlState (BPF_RATELIMIT BPF_NSEC_PER_SEC (COMPAT_CPU_NUM * 10000)) [].

Definition softlockup_info (e : sl_input) : softlockup_event :=
  SoftlockupEvent (u32 (sl_cpu e)) (u32 (Z.shiftr (sl_pid_tgid e) 32)) (read_comm (sl_comm e)).

Definition kprobe_softlockup (st : sl_state) (e : sl_input) : sl_state :=
  if negb (sl_flag e =? TAINT_SOFTLOCKUP) then st
  else
    let '(limited, r) := bpf_ratelimited (sl_now e) (Some (rate st)) in
    let st := SlState (default (rate st) r) (softlockup_perf_events st) in
    if limited then st
    else SlState (rate st)
           (snd (bpf_perf_event_output (sl_output_ret e) (softlockup_info e) (softlockup_perf_events st))).
Definition sl_run (st : sl_state) (es : list sl_input) : sl_state := fold_left kprobe_softlockup es st.

Definition sl_entry (e : sl_input) : Z * list softlockup_event :=
  (sl_now e, if sl_output_ret e <? 0 then [] else [softlockup_info e]).
Definition lockups (es : list sl_input) : list sl_input := filter (fun e => sl_flag e = TAINT_SOFTLOCKUP) es.

Lemma sl_run_limited es : forall st,
  let r := fold_left limited_step (map sl_entry (lockups es)) (rate st, softlockup_perf_events st) in
  sl_run st es = SlState (fst r) (snd r).
Proof.
  induction es as [|e es IH]; intros st; cbn zeta; [by destruct st|].
  change (sl_run st (e :: es)) with (sl_run (kprobe_softlockup st e) es).
  rewrite IH. unfold lockups. rewrite filter_cons. unfold kprobe_softlockup.
  destruct (Z.eqb_spec (sl_flag e) TAINT_SOFTLOCKUP) as [E|E];
    [rewrite decide_True by done|by rewrite decide_False by done].
  cbn [negb map fold_left]. do 3 f_equal; f_equal;
    unfold limited_step, bpf_perf_event_output; cbn [fst snd sl_entry];
    destruct (bpf_ratelimited (sl_now e) (Some (rate st))) as [[] r]; cbn; try done;
    destruct (sl_output_ret e <? 0); by rewrite ?app_nil_r.
Qed.

(** Every soft lockup taint is reported under the window policy; other taints are
    ignored and use no budget. *)
Theorem softlockups_reported es :
  clock_from 0 (map sl_now (lockups es)) ->
  softlockup_perf_events (sl_run sl_start es) =
  concat (admitted_events BPF_NSEC_PER_SEC (COMPAT_CPU_NUM * 10000) None (map sl_entry (lockups es))).
Proof.
  intros Hc. rewrite sl_run_limited. cbn [softlockup_perf_events sl_start rate].
  rewrite (limited_log (map sl_entry (lockups es)) _ [] None 0); [done| |done|by rewrite map_map].
  apply rate_rel_init; unfold BPF_NSEC_PER_SEC, COMPAT_CPU_NUM; lia.
Qed.
End SoftLockup.

(** ** Hung tasks, transmit timeouts, bonding *)

Module Notify.

Record hungtask_event := HungtaskEvent { he_tid : Z; he_comm : list Z }.

(** The name is an array of the context, or a string at an offset of it. *)
Inductive hang_comm :=
  | CommArray (s : option (list Z))
  | CommDataLoc (data_loc : Z) (at_offset : Z -> option (list Z)).

Definition tracepoint_sched_process_hang (pid : Z) (comm : hang_comm) (output_ret : Z)
    (ring : list hungtask_event) : list hungtask_event :=
  let name := match comm with
              | CommArray s => s
              | CommDataLoc dl at_offset => at_offset (Z.land dl 0xffff)
              end in
  snd (bpf_perf_event_output output_ret (HungtaskEvent (u32 pid) (read_comm name)) ring).

Record netdev_txqueue_timeout_event := TxTimeoutEvent { tx_queue_index : Z; tx_name : list Z; tx_driver : list Z }.

(** [at_addr] is the string at an address; [ctx] the address of the context. *)
Definition bpf_rxqueue_timeout (ctx queue_index loc_name loc_driver : Z) (at_addr : Z -> option (list Z))
    (output_ret : Z) (ring : list netdev_txqueue_timeout_event) : list netdev_txqueue_timeout_event :=
  let data := TxTimeoutEvent (u32 queue_index)
    (read_comm (at_addr (__data_loc_address ctx loc_name)))
    (read_comm (at_addr (__data_loc_address ctx loc_driver))) in
  snd (bpf_perf_event_output output_ret data ring).

Record netdev_bonding_lacp_event := LacpEvent { reserved : Z }.
Definition ad_disable (output_ret : Z) (ring : list netdev_bonding_lacp_event) : list netdev_bonding_lacp_event :=
  snd (bpf_perf_event_output output_ret (LacpEvent 0) ring).

(** Both layouts of the hung task tracepoint give the same report: the task's id
    and the first fifteen bytes of its name. *)
Theorem hung_task_layouts_agree pid name dl ring :
  let array := tracepoint_sched_process_hang pid (CommArray (Some name)) 0 ring in
  tracepoint_sched_process_hang pid (CommDataLoc dl (fun _ => Some name)) 0 ring = array /\
  array = ring ++ [HungtaskEvent (u32 pid) (read_comm (Some name))] /\
  until_nul (read_comm (Some name)) = take 15 (until_nul name).
Proof.
  cbv zeta. split_and!; [done|done|]. unfold read_comm. rewrite read_str_until. by rewrite length_replicate.
Qed.
End Notify.

(** ** Software drop counters *)

Module NetdevHw.
Section Tracer.
Context {M : BpfMapOps}.

(** [ifindex] and [rx_dropped] of the device behind the attribute; [None] on a
    kernel without the counter. *)
Definition carrier_down_count_show (ifindex : Z) (rx_dropped : option Z) (m : hmap Z Z) : hmap Z Z :=
  let value := match rx_dropped with Some v => u64 v | None => 0 end in
  snd (bpf_map_update_elem m (u32 ifindex) value BPF_ANY).

Fixpoint show_run (m : hmap Z Z) (es : list (Z * option Z)) : hmap Z Z :=
  match es with
  | [] => m
  | (i, v) :: es => show_run (carrier_down_count_show i v m) es
  end.
End Tracer.

(** The counter of an interface is the value at its latest successful reading. *)
Lemma latest_reading {M : BpfMapOps} {L : BpfMapLaws M} i v : forall es (m : hmap Z Z),
  is_u32 i -> Forall (fun e => u32 (fst e) <> i) es ->
  fst (bpf_map_update_elem m i (match v with Some v => u64 v | None => 0 end) BPF_ANY) = 0 ->
  bpf_map_lookup_elem (show_run m ((i, v) :: es)) i = Some (match v with Some v => u64 v | None => 0 end).
Proof.
  intros es m Hi Hf Hok. cbn [show_run]. unfold carrier_down_count_show at 1. rewrite u32_small by done.
  assert (H : forall m' : hmap Z Z, bpf_map_lookup_elem (show_run m' es) i = bpf_map_lookup_elem m' i).
  { clear -Hf L. induction es as [|[j w] es IH]; intros m'; [done|]. apply Forall_cons_iff in Hf as [Hj Hf].
    cbn [show_run fst] in *. rewrite IH by done. by apply bm_update_ne. }
  rewrite H. by apply bm_update_eq.
Qed.
End NetdevHw.

(** ** Task samples *)

Module TaskSamples.

Record key_t := KeyT {
  k_ustack : list Z;
  k_kstack : list Z;
  k_ustack_size : Z;
  k_kstack_size : Z;
  k_pid : Z;
  k_name : list Z;
}.
#[export] Instance key_t_eq_dec : EqDecision key_t.
Proof. solve_decision. Defined.
#[export] Instance key_t_countable : Countable key_t.
Proof.
  refine (inj_countable' (fun k => (k_ustack k, k_kstack k, k_ustack_size k, k_kstack_size k, k_pid k, k_name k))
    (fun '(u, k, us, ks, p, n) => KeyT u k us ks p n) _). by intros [].
Defined.

Record sample := Sample {
  s_cpu_css : Z;
  s_pid_tgid : Z;
  s_comm : list Z;
  s_ustack : list Z;
  s_ustack_ret : Z;
  s_kstack : list Z;
  s_kstack_ret : Z;
}.

Definition sample_key (s : sample) : key_t :=
  KeyT (s_ustack s) (s_kstack s) (s64 (s_ustack_ret s)) (s64 (s_kstack_ret s))
    (u32 (Z.shiftr (s_pid_tgid s) 32)) (s_comm s).

(** The target of the sampling: a cgroup and a process, zero for any. *)
Record target := Target { t_css : Z; t_pid : Z }.

Section Tracer.
Context {M : BpfMapOps}.

Definition perf_event_sw_cpu_clock (t : target) (m : hmap key_t Z) (s : sample) : hmap key_t Z :=
  if negb (t_css t =? 0) && negb (t_css t =? s_cpu_css s) then m
  else if negb (t_pid t =? 0) && negb (t_pid t =? Z.shiftr (s_pid_tgid s) 32) then m
  else
    let key := sample_key s in
    match bpf_map_lookup_elem m key with
    | None => snd (bpf_map_update_elem m key 1 BPF_ANY)
    | Some n => map_store m key (n +64 1)
    end.
Definition sample_run (t : target) (m : hmap key_t Z) (ss : list sample) : hmap key_t Z :=
  fold_left (perf_event_sw_cpu_clock t) ss m.

Fixpoint run_clean (t : target) (m : hmap key_t Z) (ss : list sample) : Prop :=
  match ss with
  | [] => True
  | s :: ss => fst (bpf_map_update_elem m (sample_key s) 1 BPF_ANY) = 0 /\
               run_clean t (perf_event_sw_cpu_clock t m s) ss
  end.
End Tracer.

(** A sample belongs to the target. *)
Definition selected (t : target) (s : sample) : Prop :=
  (t_css t = 0 \/ t_css t = s_cpu_css s) /\ (t_pid t = 0 \/ t_pid t = Z.shiftr (s_pid_tgid s) 32).
#[export] Instance selected_dec t s : Decision (selected t s).
Proof. unfold selected. solve_decision. Defined.

Definition occurrences (t : target) (k : key_t) (ss : list sample) : Z :=
  Z.of_nat (length (filter (fun s => selected t s /\ sample_key s = k) ss)).

(** A stack's counter is the number of samples of the target with that stack,
    process and name, modulo 2^64: tasks of other cgroups and processes count
    nothing. *)
Theorem samples_counted {M : BpfMapOps} {L : BpfMapLaws M} t k : forall ss (m : hmap key_t Z),
  run_clean t m ss -> is_u64 (default 0 (bpf_map_lookup_elem m k)) ->
  default 0 (bpf_map_lookup_elem (sample_run t m ss) k) =
  u64 (default 0 (bpf_map_lookup_elem m k) + occurrences t k ss).
Proof.
  intros ss. induction ss as [|s ss IH]; intros m Hc Hu.
  { unfold occurrences. cbn. by rewrite Z.add_0_r, u64_small. }
  destruct Hc as [Hok Hc]. change (sample_run t m (s :: ss)) with (sample_run t (perf_event_sw_cpu_clock t m s) ss).
  assert (Hstep : default 0 (bpf_map_lookup_elem (perf_event_sw_cpu_clock t m s) k) =
    u64 (default 0 (bpf_map_lookup_elem m k) + if decide (selected t s /\ sample_key s = k) then 1 else 0)).
  { assert (Hno : ~ selected t s -> default 0 (bpf_map_lookup_elem m k) =
      u64 (default 0 (bpf_map_lookup_elem m k) + if decide (selected t s /\ sample_key s = k) then 1 else 0)).
    { intros. rewrite decide_False by tauto. by rewrite Z.add_0_r, u64_small. }
    unfold perf_event_sw_cpu_clock. unfold selected in *.
    destruct (Z.eqb_spec (t_css t) 0), (Z.eqb_spec (t_css t) (s_cpu_css s)); cbn [negb andb]; try (apply Hno; tauto);
    (destruct (Z.eqb_spec (t_pid t) 0), (Z.eqb_spec (t_pid t) (Z.shiftr (s_pid_tgid s) 32)); cbn [negb andb];
      try (apply Hno; tauto));
    (destruct (bpf_map_lookup_elem m (sample_key s)) as [cnt|] eqn:Hl;
      [rewrite store_lookup by (by rewrite Hl)|rewrite update_ok by done];
      (destruct (decide (sample_key s = k)) as [<-|Hk];
        [rewrite decide_True by tauto; by rewrite ?Hl
        |rewrite decide_False by tauto; by rewrite Z.add_0_r, u64_small])). }
  rewrite IH by (try done; rewrite Hstep; auto with bpf). rewrite Hstep, u64_add_idemp_l. f_equal.
  unfold occurrences. rewrite filter_cons. case_decide; cbn [length]; lia.
Qed.

Definition sample_task (css : Z) : sample := Sample css (Z.shiftl 42 32) [] [1] 8 [2] 8.

Lemma samples_counted_witness :
  default 0 (bpf_map_lookup_elem (sample_run (Target 5 0) (FaultyHash ∅ 4 [])
    [sample_task 5; sample_task 6; sample_task 5]) (sample_key (sample_task 5))) = 2.
Proof.
  refine (eq_trans (samples_counted (Target 5 0) (sample_key (sample_task 5))
    [sample_task 5; sample_task 6; sample_task 5] (FaultyHash ∅ 4 []) _ _) _).
  - vm_compute. auto.
  - split; [apply Z.le_refl|reflexivity].
  - vm_compute. reflexivity.
Defined.
End TaskSamples.

(** ** Cgroup registry *)

Module CgroupCss.

Definition CGROUP_KNODE_NAME_MAXLEN : nat := 85.
Definition CGROUP_KNODE_NAME_MINLEN : Z := 64.
Definition CGROUP_SUBSYS_COUNT : nat := 13.
Definition CGROUP_CSS_OPERATION_UPDATE : Z := 0.
Definition CGROUP_CSS_OPERATION_REMOVE : Z := 1.

Record cgroup_css_event := CssEvent {
  ce_cgroup : Z;
  ce_operation : Z;
  ce_cgroup_root : Z;
  ce_cgroup_level : Z;
  ce_css : list Z;
  ce_knode_name : list Z;
}.

(** [cg_subsys] lists the controllers of the running kernel. *)
Record cg_kernel := CgKernel {
  cg_name : Z -> option (list Z);
  cg_hierarchy_id : Z -> Z;
  cg_level : Z -> Z;
  cg_subsys : Z -> list Z;
  css_cgroup : Z -> Z;
}.

(** The result of [bpf_probe_read_kernel_str] into [n] bytes: the length with the
    NUL, or an error. *)
Definition read_str_ret (n : nat) (src : option (list Z)) : Z :=
  match src with
  | Some s => Z.of_nat (length (take (n - 1) (until_nul s))) + 1
  | None => - EFAULT
  end.

(** Pointers of eight bytes; the kernel may have more or fewer controllers than
    the event has room for. *)
Definition copy_css (subsys : list Z) : list Z :=
  let css_size := (8 * length subsys)%nat in
  let css_size := if (8 * CGROUP_SUBSYS_COUNT <? css_size)%nat then (8 * CGROUP_SUBSYS_COUNT)%nat else css_size in
  take (css_size / 8) subsys ++ replicate (CGROUP_SUBSYS_COUNT - css_size / 8) 0.

Definition submit_cgroup_css_event (kr : cg_kernel) (cgrp operation output_ret : Z)
    (ring : list cgroup_css_event) : list cgroup_css_event :=
  let size := (CGROUP_KNODE_NAME_MAXLEN + 2)%nat in
  let name := read_str_into (replicate size 0) (cg_name kr cgrp) in
  let knode_len := read_str_ret size (cg_name kr cgrp) in
  if knode_len <? CGROUP_KNODE_NAME_MINLEN + 1 then ring
  else
    let data := CssEvent cgrp operation (s32 (cg_hierarchy_id kr cgrp)) (s32 (cg_level kr cgrp))
      (copy_css (cg_subsys kr cgrp)) name in
    snd (bpf_perf_event_output output_ret data ring).

Definition bpf_cgroup_mkdir_prog (kr : cg_kernel) (cgrp output_ret : Z) (ring : list cgroup_css_event) :=
  submit_cgroup_css_event kr cgrp CGROUP_CSS_OPERATION_UPDATE output_ret ring.
Definition bpf_cgroup_rmdir_prog (kr : cg_kernel) (cgrp output_ret : Z) (ring : list cgroup_css_event) :=
  submit_cgroup_css_event kr cgrp CGROUP_CSS_OPERATION_REMOVE output_ret ring.
Definition bpf_cgroup_subsys_state_prog (kr : cg_kernel) (css output_ret : Z) (ring : list cgroup_css_event) :=
  submit_cgroup_css_event kr (css_cgroup kr css) CGROUP_CSS_OPERATION_UPDATE output_ret ring.

Lemma copy_css_spec subsys :
  length (copy_css subsys) = CGROUP_SUBSYS_COUNT /\
  forall i, (i < CGROUP_SUBSYS_COUNT)%nat -> byte_at (copy_css subsys) i = byte_at subsys i.
Proof.
  unfold copy_css. set (n := if (_ <? _)%nat then _ else _).
  assert (Hn : (n / 8)%nat = Nat.min CGROUP_SUBSYS_COUNT (length subsys)).
  { subst n. destruct (Nat.ltb_spec (8 * CGROUP_SUBSYS_COUNT) (8 * length subsys));
      rewrite Nat.mul_comm, Nat.div_mul by lia; lia. }
  rewrite Hn. split.
  - rewrite length_app, length_take, length_replicate. lia.
  - intros i Hi. unfold byte_at. destruct (Nat.lt_ge_cases i (length subsys)).
    + rewrite lookup_app_l, lookup_take_lt by (rewrite ?length_take; lia). done.
    + rewrite lookup_app_r by (rewrite length_take; lia). rewrite (lookup_ge_None_2 subsys) by lia.
      rewrite lookup_replicate_2 by (rewrite length_take; lia). done.
Qed.

(** A cgroup is announced exactly when its name, as far as it fits, has at least
    64 bytes (a container id); the event carries the name cut at 86 bytes, and for
    each controller slot the kernel's pointer or zero, whether the running kernel
    has more or fewer controllers than the event. *)
Theorem cgroup_announced_iff_container kr cgrp op ring name :
  cg_name kr cgrp = Some name ->
  let long := 64 <=? Z.of_nat (length (until_nul name)) in
  exists ev,
    submit_cgroup_css_event kr cgrp op 0 ring = (if long then ring ++ [ev] else ring) /\
    ce_cgroup ev = cgrp /\ ce_operation ev = op /\ until_nul (ce_knode_name ev) = take 86 (until_nul name) /\
    length (ce_css ev) = CGROUP_SUBSYS_COUNT /\
    forall i, (i < CGROUP_SUBSYS_COUNT)%nat -> byte_at (ce_css ev) i = byte_at (cg_subsys kr cgrp) i.
Proof.
  intros Hn. cbv zeta. unfold submit_cgroup_css_event. rewrite Hn.
  set (ev := CssEvent _ _ _ _ _ _). exists ev. destruct (copy_css_spec (cg_subsys kr cgrp)) as [Hl Hc].
  split; [|split_and!; try done; unfold ev; cbn [ce_knode_name]; rewrite read_str_until; by rewrite length_replicate].
  unfold read_str_ret, CGROUP_KNODE_NAME_MINLEN, CGROUP_KNODE_NAME_MAXLEN. rewrite length_take.
  destruct (Z.leb_spec 64 (Z.of_nat (length (until_nul name))));
    [rewrite (proj2 (Z.ltb_ge _ _)) by lia|rewrite (proj2 (Z.ltb_lt _ _)) by lia]; done.
Qed.

Lemma cgroup_announced_iff_container_witness :
  exists ev, submit_cgroup_css_event
    (CgKernel (fun _ => Some (replicate 64 97)) (fun _ => 1) (fun _ => 2) (fun _ => [11; 12]) (fun c => c)) 7 0 0 [] = [ev] /\
    ce_cgroup ev = 7.
Proof.
  destruct (cgroup_announced_iff_container
    (CgKernel (fun _ => Some (replicate 64 97)) (fun _ => 1) (fun _ => 2) (fun _ => [11; 12]) (fun c => c))
    7 0 [] (replicate 64 97) eq_refl) as (ev & Hev & Hcg & _).
  exists ev. split; [exact Hev|exact Hcg].
Defined.
End CgroupCss.
