(* ===== verification/Concurrent.v ===== *)
(** * Map programs that run at the same time on several CPUs

    The other files run hooks one after the other.  Here the counting parts of the
    tracers that share a hash map between CPUs are translated into programs whose
    map operations are separate steps, and the steps of several invocations
    interleave in any order.

    A map is modelled with its elements: [bpf_map_lookup_elem] gives a pointer to an
    element, an update takes an element for the new row and gives back the one it
    replaces, and a delete gives one back.  A program that still points to an element
    that was given back goes on using it, and the kernel may make it the row of another
    key at once, as it does with the preallocated elements of a BPF hash.  An update or
    delete may also fail for a reason of the kernel's own.  The schedule says which
    operation comes next, when one fails and which element a new row gets.

    Module [Conc] has the programs, the schedules and the theorems: programs that
    insert with BPF_NOEXIST and add atomically lose nothing under any schedule
    ([exact_cells]); whatever the programs do, the rows of a map together never show
    more than was added ([rows_bounded], [rows_at_most_started]); and what an invocation
    did is one of the paths of its program ([run_paths]). *)

From Stdlib Require Import ZArith Lia.
From stdpp Require Import base option list gmap tactics.
From S2P Require Import Prelude BpfMap.

Local Open Scope Z_scope.
Local Open Scope bpf_scope.

Module Conc.

(** ** Programs *)

(** The 64-bit counters of an element by their position; absent means zero. *)
Notation row := (gmap Z Z).
Definition field (v : row) (f : Z) : Z := default 0 (v !! f).

Section Programs.
Context {K : Type} `{Countable K}.

(** A pointer to an element: the key it was looked up under and the address. *)
Definition elem : Type := K * Z.

Inductive prog :=
| Ret
| Lookup (k : K) (cont : option elem -> prog)
| Update (k : K) (v : row) (flags : Z) (cont : Z -> prog)
| Delete (k : K) (cont : Z -> prog)
| FetchAdd (p : elem) (f n : Z) (cont : prog)
| AddLoad (p : elem) (f n : Z) (cont : prog)
| AddStore (p : elem) (f v n : Z) (cont : prog).

(** ** The map *)

(** The address of the element of each key, the contents of all elements, the elements
    that were in use and have been given back, and the first address never used. *)
Record store := Store {
  rows : gmap K Z;
  heap : gmap Z row;
  freed : gset Z;
  next : Z;
}.

Definition empty_store : store := Store ∅ ∅ ∅ 0.

Definition elem_row (st : store) (p : elem) : row := default ∅ (heap st !! p.2).
Definition find (st : store) (k : K) : option elem := option_map (pair k) (rows st !! k).

(** The element a new row gets: one that was given back, if the kernel picks such a one,
    else one that was never in use. *)
Definition alloc (pick : option Z) (st : store) : Z :=
  match pick with
  | Some g => if decide (g ∈ freed st) then g else next st
  | None => next st
  end.

(** The new element is taken and filled before the one it replaces is given back. *)
Definition install (pick : option Z) (k : K) (v : row) (st : store) : store :=
  let g := alloc pick st in
  Store (<[k := g]> (rows st)) (<[g := v]> (heap st))
    (match rows st !! k with
     | Some old => {[old]} ∪ freed st ∖ {[g]}
     | None => freed st ∖ {[g]}
     end)
    (Z.max (next st) (g + 1)).

(** [fault] is zero or the error the kernel answers with. *)
Definition store_update (fault : Z) (pick : option Z) (k : K) (v : row) (flags : Z) (st : store) : Z * store :=
  if negb (fault =? 0) then (fault, st)
  else match rows st !! k with
       | Some _ => if flags =? BPF_NOEXIST then (- EEXIST, st) else (0, install pick k v st)
       | None => if flags =? BPF_EXIST then (- ENOENT, st) else (0, install pick k v st)
       end.

Definition store_delete (fault : Z) (k : K) (st : store) : Z * store :=
  if negb (fault =? 0) then (fault, st)
  else match rows st !! k with
       | Some g => (0, Store (delete k (rows st)) (heap st) ({[g]} ∪ freed st) (next st))
       | None => (- ENOENT, st)
       end.

(** A pointer is followed whatever has become of the element. *)
Definition set_field (p : elem) (f v : Z) (st : store) : store :=
  Store (rows st) (<[p.2 := <[f := v]> (elem_row st p)]> (heap st)) (freed st) (next st).

(** ** One operation *)

Inductive event :=
| ELookup (k : K) (found : bool)
| EUpdate (k : K) (v : row) (ret : Z)
| EDelete (k : K) (ret : Z)
| EAdd (p : elem) (f n : Z)
| ELoad (p : elem) (f : Z).

Definition exec (fault : Z) (pick : option Z) (p : prog) (st : store) : store * prog * list event :=
  match p with
  | Ret => (st, Ret, [])
  | Lookup k cont => (st, cont (find st k), [ELookup k (bool_decide (is_Some (rows st !! k)))])
  | Update k v flags cont =>
      let '(ret, st') := store_update fault pick k v flags st in (st', cont ret, [EUpdate k v ret])
  | Delete k cont => let '(ret, st') := store_delete fault k st in (st', cont ret, [EDelete k ret])
  | FetchAdd q f n cont => (set_field q f (field (elem_row st q) f +64 n) st, cont, [EAdd q f n])
  | AddLoad q f n cont => (st, AddStore q f (field (elem_row st q) f +64 n) n cont, [ELoad q f])
  | AddStore q f v n cont => (set_field q f v st, cont, [EAdd q f n])
  end.

(** ** Schedules *)

Record thread (A : Type) := Thread { t_arg : A; t_prog : prog; t_trace : list event }.
Arguments Thread {A}.
Arguments t_arg {A}.
Arguments t_prog {A}.
Arguments t_trace {A}.

Record cstate (A : Type) := CState {
  mem : store;
  pool : gmap Z (thread A);
  finished : list (A * list event);
}.
Arguments CState {A}.
Arguments mem {A}.
Arguments pool {A}.
Arguments finished {A}.

(** An invocation starts in a free slot, or the one in slot [c] does its next
    operation, with the kernel's choices for it: an error, and the element a new row
    gets. *)
Inductive label (A : Type) := Call (c : Z) (a : A) | Run (c fault : Z) (pick : option Z).
Arguments Call {A}.
Arguments Run {A}.

(** An invocation whose program has ended leaves its slot. *)
Definition settle {A} (c : Z) (t : thread A) (m : store) (others : gmap Z (thread A))
    (done : list (A * list event)) : cstate A :=
  match t_prog t with
  | Ret => CState m others (done ++ [(t_arg t, t_trace t)])
  | _ => CState m (<[c := t]> others) done
  end.

Definition cstep {A} (body : A -> prog) (st : cstate A) (l : label A) : cstate A :=
  match l with
  | Call c a =>
      match pool st !! c with
      | Some _ => st
      | None => settle c (Thread a (body a) []) (mem st) (pool st) (finished st)
      end
  | Run c fault pick =>
      match pool st !! c with
      | None => st
      | Some t =>
          let '(m, p, evs) := exec fault pick (t_prog t) (mem st) in
          settle c (Thread (t_arg t) p (t_trace t ++ evs)) m (delete c (pool st)) (finished st)
      end
  end.

Definition crun {A} (body : A -> prog) (ls : list (label A)) (st : cstate A) : cstate A :=
  fold_left (cstep body) ls st.

Definition cstart {A} : cstate A := CState empty_store ∅ [].

(** ** What a trace counted *)

(** The amount an operation adds to field [f] of key [k]. *)
Definition credit (k : K) (f : Z) (e : event) : Z :=
  match e with
  | EUpdate k' v ret => if bool_decide (k' = k) && (ret =? 0) then field v f else 0
  | EAdd p f' n => if bool_decide (p.1 = k) && (f' =? f) then n else 0
  | _ => 0
  end.
Definition trace_credit (k : K) (f : Z) (tr : list event) : Z := zsum (credit k f) tr.

(** The amount an operation adds to field [f] of any row. *)
Definition amount (f : Z) (e : event) : Z :=
  match e with
  | EUpdate _ v ret => if ret =? 0 then field v f else 0
  | EAdd _ f' n => if f' =? f then n else 0
  | _ => 0
  end.

(** The sum over all operations done. *)
Definition tally {A} (w : event -> Z) (st : cstate A) : Z :=
  zsum (fun e => zsum w e.2) (finished st) + pool_sum (fun t => zsum w (t_trace t)) (pool st).
Definition credited {A} (k : K) (f : Z) (st : cstate A) : Z := tally (credit k f) st.

(** The value a lookup finds. *)
Definition cell (k : K) (f : Z) (m : store) : Z :=
  match find m k with Some p => field (elem_row m p) f | None => 0 end.

(** The sum of field [f] over all rows of the map. *)
Definition rows_sum (f : Z) (m : store) : Z :=
  zsum (fun q : elem => field (elem_row m q) f) (map_to_list (rows m)).

Lemma tally_settle {A} w c (t : thread A) m others done :
  others !! c = None ->
  tally w (settle c t m others done) =
    zsum (fun e => zsum w e.2) done + pool_sum (fun t => zsum w (t_trace t)) others + zsum w (t_trace t).
Proof.
  intros Hc. unfold settle, tally. destruct (t_prog t); cbn [finished pool];
    rewrite ?zsum_app, ?pool_sum_insert by done; rewrite ?zsum_one; cbn [snd]; lia.
Qed.

Lemma mem_settle {A} c (t : thread A) m others done : mem (settle c t m others done) = m.
Proof. unfold settle. by destruct (t_prog t). Qed.

Lemma pool_settle {A} c (t : thread A) m others done c' t' :
  pool (settle c t m others done) !! c' = Some t' -> t' = t \/ others !! c' = Some t'.
Proof.
  unfold settle. destruct (t_prog t); cbn; try (by right);
    intros Hl; apply lookup_insert_Some in Hl as [[_ <-]|[_ Hl]]; auto.
Qed.

(** A step either starts an invocation or runs one operation of one. *)
Lemma tally_step {A} (body : A -> prog) w st l :
  tally w (cstep body st l) = tally w st +
    match l with
    | Call _ _ => 0
    | Run c fault pick => match pool st !! c with
                          | Some t => zsum w (exec fault pick (t_prog t) (mem st)).2
                          | None => 0
                          end
    end.
Proof.
  destruct l as [c a|c fault pick]; cbn [cstep]; destruct (pool st !! c) as [t|] eqn:Hc; try lia.
  - rewrite tally_settle by done. unfold tally. cbn. lia.
  - destruct (exec fault pick (t_prog t) (mem st)) as [[m p] evs].
    rewrite tally_settle by apply lookup_delete_eq. unfold tally. cbn [t_trace snd].
    rewrite (pool_sum_delete _ (pool st) c t Hc), zsum_app. lia.
Qed.

(** An invariant of the memory that every operation keeps holds after a step. *)
Lemma mem_step {A} (body : A -> prog) (I : store -> Prop) st l :
  (forall fault pick p m, I m -> I (exec fault pick p m).1.1) -> I (mem st) -> I (mem (cstep body st l)).
Proof.
  intros He Hm. destruct l as [c a|c fault pick]; cbn [cstep]; destruct (pool st !! c) as [t|]; rewrite ?mem_settle; try done.
  specialize (He fault pick (t_prog t) (mem st) Hm).
  destruct (exec fault pick (t_prog t) (mem st)) as [[m p] evs]. by rewrite mem_settle.
Qed.

(** ** Elements in use and elements given back *)

(** No two keys share an element, and an element given back is in no row. *)
Record store_ok (m : store) : Prop := {
  so_apart : forall k k' g, rows m !! k = Some g -> rows m !! k' = Some g -> k = k';
  so_rows : forall k g, rows m !! k = Some g -> g < next m /\ g ∉ freed m;
  so_freed : forall g, g ∈ freed m -> g < next m;
}.

Lemma empty_store_ok : store_ok empty_store.
Proof. split; cbn; [intros k k' g; by rewrite lookup_empty|intros k g; by rewrite lookup_empty|set_solver]. Qed.

Lemma alloc_unused pick m : store_ok m -> alloc pick m <= next m /\ forall k, rows m !! k <> Some (alloc pick m).
Proof.
  intros [_ Hr Hf]. assert (Hn : next m <= next m /\ forall k, rows m !! k <> Some (next m)).
  { split; [done|]. intros k Hk. apply Hr in Hk. lia. }
  unfold alloc. destruct pick as [g|]; [|done]. case_decide as Hg; [|done].
  split; [by apply Z.lt_le_incl, Hf|]. intros k Hk. apply Hr in Hk. by destruct Hk.
Qed.

Lemma install_ok pick k v m : store_ok m -> store_ok (install pick k v m).
Proof.
  intros Hm. destruct (alloc_unused pick m Hm) as [Hle Hun]. destruct Hm as [Ha Hr Hf].
  unfold install. set (g := alloc pick m) in *. clearbody g. split; cbn.
  - intros k1 k2 g' H1 H2. apply lookup_insert_Some in H1 as [[<- <-]|[N1 H1]], H2 as [[<- E2]|[N2 H2]]; subst; try done.
    + by apply Hun in H2.
    + by apply Hun in H1.
    + by eapply Ha.
  - intros k1 g' H1. apply lookup_insert_Some in H1 as [[<- <-]|[N1 H1]].
    + split; [lia|]. destruct (rows m !! k) as [old|] eqn:Hk; [|set_solver].
      assert (g <> old) by (intros ->; by apply Hun in Hk). set_solver.
    + pose proof (Hr _ _ H1) as [Hlt Hnf]. split; [lia|]. destruct (rows m !! k) as [old|] eqn:Hk; [|set_solver].
      assert (g' <> old) by (intros ->; by apply N1, (Ha k k1 old)). set_solver.
  - intros g' Hg'. assert (g' ∈ freed m \/ rows m !! k = Some g') as [Hin|Hin].
    { destruct (rows m !! k) as [old|] eqn:Hk; [|set_solver]. destruct (decide (g' = old)) as [->|]; [by right|left; set_solver]. }
    + specialize (Hf _ Hin). lia.
    + specialize (Hr _ _ Hin). lia.
Qed.

Lemma exec_store_ok fault pick p m : store_ok m -> store_ok (exec fault pick p m).1.1.
Proof.
  intros Hm. assert (Hs : forall q f v, store_ok (set_field q f v m)) by (intros; destruct Hm; by split).
  destruct p as [|k cont|k v flags cont|k cont|q f n cont|q f n cont|q f v n cont]; cbn [exec fst]; auto.
  - unfold store_update. destruct (negb _); [done|]. destruct (rows m !! k); case_if; cbn; auto using install_ok.
  - unfold store_delete. destruct (negb _); [done|]. destruct (rows m !! k) as [g|] eqn:Hk; [|done].
    destruct Hm as [Ha Hr Hf]. cbn. split; cbn.
    + intros k1 k2 g' H1 H2. apply lookup_delete_Some in H1 as [_ H1], H2 as [_ H2]. by eapply Ha.
    + intros k1 g' H1. apply lookup_delete_Some in H1 as [N1 H1]. destruct (Hr _ _ H1) as [Hlt Hnf]. split; [done|].
      assert (g' <> g) by (intros ->; by apply N1, (Ha k k1 g)). set_solver.
    + intros g' Hg'. apply elem_of_union in Hg' as [Hg'|Hg']; [|by apply Hf].
      apply elem_of_singleton in Hg' as ->. by apply (Hr k).
Qed.

Lemma step_store_ok {A} (body : A -> prog) st l : store_ok (mem st) -> store_ok (mem (cstep body st l)).
Proof. apply mem_step. intros. by apply exec_store_ok. Qed.

Lemma run_store_ok {A} (body : A -> prog) ls : forall st, store_ok (mem st) -> store_ok (mem (crun body ls st)).
Proof. induction ls as [|l ls IH]; intros st Hst; [done|]. apply (IH (cstep body st l)). by apply step_store_ok. Qed.

Lemma cell_install pick k v m k' f :
  store_ok m -> cell k' f (install pick k v m) = if decide (k = k') then field v f else cell k' f m.
Proof.
  intros Hm. destruct (alloc_unused pick m Hm) as [_ Hun].
  unfold cell, find, install, elem_row; cbn. case_decide as Hk; [subst|].
  - rewrite lookup_insert_eq. cbn. by rewrite lookup_insert_eq.
  - rewrite lookup_insert_ne by done. destruct (rows m !! k') as [g|] eqn:Hg; [|done]. cbn.
    rewrite lookup_insert_ne; [done|]. intros <-. by apply Hun in Hg.
Qed.

(** A store through a pointer shows in the row that has the element now. *)
Lemma cell_set_field q f v m k f' :
  cell k f' (set_field q f v m) = if bool_decide (rows m !! k = Some q.2) && (f =? f') then v else cell k f' m.
Proof.
  unfold cell, find, set_field, elem_row; cbn.
  destruct (rows m !! k) as [g|] eqn:Hk; cbn; [|by rewrite bool_decide_false].
  destruct (decide (g = q.2)) as [->|Hg].
  - rewrite bool_decide_true by done. rewrite lookup_insert_eq. unfold field. simpl.
    destruct (Z.eqb_spec f f'); subst; [by rewrite lookup_insert_eq|by rewrite lookup_insert_ne].
  - rewrite bool_decide_false by congruence. cbn. by rewrite lookup_insert_ne by congruence.
Qed.

(** The value behind a lookup, if there is an element. *)
Definition found (k : K) (f : Z) (m : store) : option Z := option_map (fun p => field (elem_row m p) f) (find m k).

Lemma found_cell k f m : found k f m = (fun _ => cell k f m) <$> rows m !! k.
Proof. unfold found, cell, find. by destruct (rows m !! k). Qed.

Lemma found_install pick k v m k' f :
  store_ok m -> found k' f (install pick k v m) = if decide (k = k') then Some (field v f) else found k' f m.
Proof.
  intros Hm. rewrite !found_cell, cell_install by done. cbn. case_decide; subst; [by rewrite lookup_insert_eq|by rewrite lookup_insert_ne].
Qed.

(** The pointer leads to the element its key has. *)
Definition live (m : store) (q : elem) : Prop := rows m !! q.1 = Some q.2.
#[global] Instance live_dec m q : Decision (live m q).
Proof. unfold live. apply _. Defined.

Lemma live_only m q k : store_ok m -> live m q -> bool_decide (rows m !! k = Some q.2) = bool_decide (q.1 = k).
Proof.
  intros Hm Hq. apply bool_decide_ext. split; [|by intros <-]. intros Hk. by apply (so_apart _ Hm _ _ q.2).
Qed.

Lemma found_set_field q f v m k :
  store_ok m -> live m q -> found k f (set_field q f v m) = if decide (q.1 = k) then Some v else found k f m.
Proof.
  intros Hm Hq. rewrite !found_cell, cell_set_field, (live_only m q k), Z.eqb_refl, andb_true_r by done. cbn.
  case_decide as Hk; [subst|by rewrite bool_decide_false]. unfold live in Hq. by rewrite Hq, bool_decide_true.
Qed.

Lemma trace_credit_one k f e : trace_credit k f [e] = credit k f e.
Proof. apply zsum_one. Qed.

(** ** Programs that lose nothing *)

(** The program inserts with BPF_NOEXIST only, deletes nothing, and adds atomically
    through pointers it looked up (or in [ok]). *)
Fixpoint exact_prog (ok : elem -> Prop) (p : prog) : Prop :=
  match p with
  | Ret => True
  | Lookup k cont => exact_prog ok (cont None) /\ forall g, exact_prog (fun q => ok q \/ q = (k, g)) (cont (Some (k, g)))
  | Update k v flags cont =>
      flags = BPF_NOEXIST /\ (forall f, is_u64 (field v f)) /\ forall ret, exact_prog ok (cont ret)
  | Delete _ _ => False
  | FetchAdd q f n cont => ok q /\ exact_prog ok cont
  | AddLoad _ _ _ _ => False
  | AddStore _ _ _ _ _ => False
  end.

Lemma exact_prog_mono p : forall (ok ok' : elem -> Prop),
  (forall q, ok q -> ok' q) -> exact_prog ok p -> exact_prog ok' p.
Proof.
  induction p as [|k cont IH|k v flags cont IH|k cont IH|q f n cont IH|q f n cont IH|q f v n cont IH];
    intros ok ok' Hok; cbn [exact_prog]; try done.
  - intros [H0 Hg]. split; [by eapply IH|]. intros g. eapply IH; [|apply Hg]. cbn. intros q [?|?]; auto.
  - intros (Hfl & Hv & Hr). split_and!; [done..|]. intros ret. eapply IH; [done|apply Hr].
  - intros [Hq Hc]. split; [auto|]. by eapply IH.
Qed.

Lemma exec_exact fault pick p m :
  store_ok m -> exact_prog (live m) p -> (forall k f, is_u64 (cell k f m)) ->
  let '(m', p', evs) := exec fault pick p m in
  (forall q, live m q -> live m' q) /\ exact_prog (live m') p' /\
  forall k f, cell k f m' = u64 (cell k f m + trace_credit k f evs).
Proof.
  intros Hm Hp Hc. assert (H0 : forall k f e, credit k f e = 0 -> cell k f m = u64 (cell k f m + trace_credit k f [e])).
  { intros k f e He. by rewrite trace_credit_one, He, Z.add_0_r, u64_small. }
  destruct p as [|k cont|k v flags cont|k cont|q f n cont|q f n cont|q f v n cont]; cbn [exec exact_prog] in *; try done.
  - split_and!; [done..|]. intros k f. by rewrite Z.add_0_r, u64_small.
  - destruct Hp as [Hn Hs]. split_and!; [done| |intros; by apply H0]. unfold find.
    destruct (rows m !! k) as [g|] eqn:Hk; cbn; [|done]. eapply exact_prog_mono; [|apply Hs]. cbn. intros q [?| ->]; done.
  - destruct Hp as (-> & Hv & Hr). unfold store_update.
    assert (Hsame : forall ret, ret <> 0 -> (forall q, live m q -> live m q) /\ exact_prog (live m) (cont ret) /\
      forall k' f, cell k' f m = u64 (cell k' f m + trace_credit k' f [EUpdate k v ret])).
    { intros ret Hret. split_and!; [done|done|]. intros k' f. apply H0. cbn.
      by rewrite (proj2 (Z.eqb_neq _ _) Hret), andb_false_r. }
    destruct (Z.eqb_spec fault 0); cbn [negb]; [|by apply Hsame].
    destruct (rows m !! k) as [g|] eqn:Hk; cbn [Z.eqb BPF_NOEXIST BPF_EXIST Pos.eqb]; [by apply Hsame|].
    assert (Hlive : forall q, live m q -> live (install pick k v m) q).
    { intros [k' g'] Hq. unfold live in *. cbn in *. by rewrite lookup_insert_ne by congruence. }
    split_and!; [done|by eapply exact_prog_mono|]. intros k' f. rewrite cell_install, trace_credit_one by done. cbn [credit].
    destruct (decide (k = k')) as [->|Hne]; [|by rewrite bool_decide_false, Z.add_0_r, u64_small by done].
    rewrite bool_decide_true by done. cbn. unfold cell, find. rewrite Hk. cbn. by rewrite Z.add_0_l, u64_small.
  - destruct Hp as [Hq Hcont]. split_and!; [done|by eapply exact_prog_mono|]. intros k f'.
    rewrite cell_set_field, trace_credit_one, live_only by done. cbn [credit].
    destruct (decide (q.1 = k)) as [<-|Hne]; [|rewrite bool_decide_false by done; cbn [andb]; by rewrite Z.add_0_r, u64_small].
    rewrite bool_decide_true by done. destruct (Z.eqb_spec f f') as [<-|]; cbn [andb]; [|by rewrite Z.add_0_r, u64_small].
    f_equal. f_equal. unfold cell, find. unfold live in Hq. destruct q as [k g]. cbn in *. by rewrite Hq.
Qed.

Record exact_ok {A} (st : cstate A) : Prop := {
  ek_store : store_ok (mem st);
  ek_progs : forall c t, pool st !! c = Some t -> exact_prog (live (mem st)) (t_prog t);
  ek_cells : forall k f, cell k f (mem st) = u64 (credited k f st);
}.

Lemma step_exact {A} (body : A -> prog) st l :
  (forall a, exact_prog (fun _ => False) (body a)) -> exact_ok st -> exact_ok (cstep body st l).
Proof.
  intros Hbody [Hm Hp Hc]. split; [by apply step_store_ok| |].
  - destruct l as [c a|c fault pick]; cbn [cstep]; destruct (pool st !! c) as [t|] eqn:Ht; try done.
    + intros c' t' Hl. rewrite mem_settle. apply pool_settle in Hl as [->|Hl]; [|eauto]. cbn.
      eapply exact_prog_mono; [|apply Hbody]. done.
    + pose proof (exec_exact fault pick (t_prog t) (mem st) Hm (Hp c t Ht)) as He.
      destruct (exec fault pick (t_prog t) (mem st)) as [[m p] evs]. destruct He as (Hlive & Hex & _).
      { intros. rewrite Hc. apply u64_range. }
      intros c' t' Hl. rewrite mem_settle. apply pool_settle in Hl as [->|Hl]; [done|].
      apply lookup_delete_Some in Hl as [_ Hl]. eapply exact_prog_mono; [|by eapply Hp]. done.
  - intros k f. unfold credited. rewrite tally_step. fold (credited k f st).
    destruct l as [c a|c fault pick]; cbn [cstep]; destruct (pool st !! c) as [t|] eqn:Ht;
      rewrite ?mem_settle, ?Z.add_0_r; try apply Hc.
    pose proof (exec_exact fault pick (t_prog t) (mem st) Hm (Hp c t Ht)) as He.
    destruct (exec fault pick (t_prog t) (mem st)) as [[m p] evs]. destruct He as (_ & _ & He).
    { intros. rewrite Hc. apply u64_range. }
    by rewrite mem_settle, He, Hc, u64_add_idemp_l.
Qed.

(** For programs of the exact kind, under any schedule and any failing updates, the
    value found for a key is what all invocations together have added to it. *)
Lemma exact_cells {A} (body : A -> prog) ls k f :
  (forall a, exact_prog (fun _ => False) (body a)) ->
  let st := crun body ls cstart in cell k f (mem st) = u64 (credited k f st).
Proof.
  intros Hbody st. enough (He : exact_ok st) by apply He. subst st.
  assert (H0 : exact_ok (A := A) cstart).
  { split; [apply empty_store_ok|intros c t; cbn; by rewrite lookup_empty|]. intros k' f'. unfold credited, tally.
    cbn [cstart finished pool]. by rewrite pool_sum_empty. }
  revert H0. generalize (cstart (A := A)). induction ls as [|l ls IH]; intros st H0; [done|].
  apply (IH (cstep body st l)). by apply step_exact.
Qed.

(** ** No program counts too much *)

(** A program as written: amounts are not negative, and no addition is half done. *)
Fixpoint counts_up (p : prog) : Prop :=
  match p with
  | Ret => True
  | Lookup k cont => forall r, counts_up (cont r)
  | Update k v flags cont => (forall f, 0 <= field v f) /\ forall ret, counts_up (cont ret)
  | Delete k cont => forall ret, counts_up (cont ret)
  | FetchAdd q f n cont => 0 <= n /\ counts_up cont
  | AddLoad q f n cont => 0 <= n /\ counts_up cont
  | AddStore _ _ _ _ _ => False
  end.

(** [B g f] bounds field [f] of the element at [g], whichever rows it has been in; a
    half-done addition will store at most what the bound and its amount allow for. *)
Definition in_bound (B : Z -> Z -> Z) (p : prog) : Prop :=
  match p with
  | AddStore q f v n cont => 0 <= v <= B q.2 f + n /\ 0 <= n /\ counts_up cont
  | _ => counts_up p
  end.
Definition rows_bound (B : Z -> Z -> Z) (m : store) : Prop :=
  forall (q : elem) f, 0 <= field (elem_row m q) f <= B q.2 f.

(** The bound after [evs] added to the element at [g]. *)
Definition raise (B : Z -> Z -> Z) (g : Z) (evs : list event) (g' f : Z) : Z :=
  B g' f + (if decide (g = g') then zsum (amount f) evs else 0).

Lemma counts_up_in_bound B p : counts_up p -> in_bound B p.
Proof. by destruct p. Qed.

Lemma in_bound_mono (B B' : Z -> Z -> Z) p : (forall g f, B g f <= B' g f) -> in_bound B p -> in_bound B' p.
Proof. intros HB. destruct p as [| | | | | |q f v n cont]; try done. cbn. specialize (HB q.2 f). intros (? & ? & ?). split_and!; [lia..|done]. Qed.

Lemma rows_bound_mono (B B' : Z -> Z -> Z) m : (forall g f, B g f <= B' g f) -> rows_bound B m -> rows_bound B' m.
Proof. intros HB Hm q f. specialize (HB q.2 f). specialize (Hm q f). lia. Qed.

Lemma raise_le B g evs : (forall f, 0 <= zsum (amount f) evs) -> forall g' f, B g' f <= raise B g evs g' f.
Proof. intros He g' f. unfold raise. specialize (He f). case_decide; lia. Qed.

(** A sum over elements grows by at most what was added. *)
Lemma raise_sum B g evs f l :
  (forall f, 0 <= zsum (amount f) evs) -> NoDup l ->
  zsum (fun g' => raise B g evs g' f) l <= zsum (fun g' => B g' f) l + zsum (amount f) evs.
Proof.
  intros He Hl. specialize (He f). induction Hl as [|g' l Hg' Hl IH]; [cbn; lia|]. rewrite !zsum_cons. unfold raise at 1.
  case_decide as Hg; [subst g'|lia]. rewrite (zsum_same (fun g' => raise B g evs g' f) (fun g' => B g' f) l); [lia|].
  intros g' Hin. unfold raise. rewrite decide_False by (by intros ->). lia.
Qed.

Lemma u64_le z : 0 <= z -> 0 <= u64 z <= z.
Proof. intros. unfold u64. split; [apply Z.mod_pos_bound; lia|apply Z.mod_le; lia]. Qed.

Lemma rows_bound_set (B : Z -> Z -> Z) q f v m :
  rows_bound B m -> 0 <= v <= B q.2 f -> rows_bound B (set_field q f v m).
Proof.
  intros Hm Hv q' f'. unfold set_field, elem_row. cbn. destruct (decide (q.2 = q'.2)) as [Hq|Hne].
  - rewrite <- Hq, lookup_insert_eq. unfold field. simpl. destruct (decide (f = f')) as [<-|Hf].
    + by rewrite lookup_insert_eq.
    + rewrite lookup_insert_ne by done. apply (Hm q f').
  - rewrite lookup_insert_ne by done. apply (Hm q' f').
Qed.

Lemma rows_bound_install (B : Z -> Z -> Z) pick k v m :
  rows_bound B m -> (forall f, 0 <= field v f <= B (alloc pick m) f) -> rows_bound B (install pick k v m).
Proof.
  intros Hm Hv q f. unfold install, elem_row. cbn. destruct (decide (alloc pick m = q.2)) as [<-|Hne].
  - rewrite lookup_insert_eq. simpl. apply Hv.
  - rewrite lookup_insert_ne by done. apply (Hm q f).
Qed.

(** The result of an operation stays within the bound raised, for one element, by what
    the operation counted. *)
Definition bound_step (B : Z -> Z -> Z) (r : store * prog * list event) : Prop :=
  let '(m, p, evs) := r in
  (forall f, 0 <= zsum (amount f) evs) /\ exists g, in_bound (raise B g evs) p /\ rows_bound (raise B g evs) m.

Lemma raise_bound (B : Z -> Z -> Z) g e m :
  (forall f, 0 <= amount f e) -> rows_bound B m -> rows_bound (raise B g [e]) m.
Proof. intros He. apply rows_bound_mono, raise_le. intros f. by rewrite zsum_one. Qed.

Lemma event_bound (B : Z -> Z -> Z) g e p m :
  (forall f, 0 <= amount f e) -> counts_up p -> rows_bound (raise B g [e]) m -> bound_step B (m, p, [e]).
Proof.
  intros He Hp Hm. split; [intros; by rewrite zsum_one|]. exists g. split; [by apply counts_up_in_bound|done].
Qed.

Lemma update_bound (B : Z -> Z -> Z) fault pick k v flags cont m :
  (forall f, 0 <= field v f) -> (forall ret, counts_up (cont ret)) -> rows_bound B m ->
  bound_step B (exec fault pick (Update k v flags cont) m).
Proof.
  intros Hv Hcont Hm. cbn [exec]. unfold store_update.
  assert (He : forall ret f, 0 <= amount f (EUpdate k v ret)) by (intros; cbn; case_match; [apply Hv|done]).
  assert (Hnew : rows_bound (raise B (alloc pick m) [EUpdate k v 0]) (install pick k v m)).
  { apply rows_bound_install; [by apply raise_bound|]. intros f. unfold raise. rewrite decide_True, zsum_one by done.
    cbn. specialize (Hm (k, alloc pick m) f). specialize (Hv f). cbn in Hm. lia. }
  destruct (negb _); [|destruct (rows m !! k); case_if]; apply (event_bound B (alloc pick m)); auto; by apply raise_bound.
Qed.

Lemma add_bound (B : Z -> Z -> Z) q f v n cont m :
  0 <= v <= B q.2 f + n -> 0 <= n -> counts_up cont -> rows_bound B m ->
  bound_step B (set_field q f v m, cont, [EAdd q f n]).
Proof.
  intros Hv Hn Hcont Hm.
  assert (He : forall f', 0 <= amount f' (EAdd q f n)) by (intros; cbn; case_match; lia).
  apply (event_bound B q.2); [done..|]. apply rows_bound_set; [by apply raise_bound|].
  unfold raise. rewrite decide_True, zsum_one by done. cbn. rewrite Z.eqb_refl. lia.
Qed.

Lemma exec_bound (B : Z -> Z -> Z) fault pick p m :
  in_bound B p -> rows_bound B m -> bound_step B (exec fault pick p m).
Proof.
  intros Hp Hm.
  destruct p as [|k cont|k v flags cont|k cont|q f n cont|q f n cont|q f v n cont]; cbn [in_bound counts_up] in Hp.
  - split; [done|]. exists 0. split; [done|]. eapply rows_bound_mono; [|done]. by apply raise_le.
  - apply (event_bound B 0); [done..|by apply raise_bound].
  - destruct Hp. by apply update_bound.
  - cbn [exec]. unfold store_delete.
    destruct (negb _); [|destruct (rows m !! k)]; apply (event_bound B 0); try done; by apply raise_bound.
  - destruct Hp. apply add_bound; [|done..]. specialize (Hm q f). pose proof (u64_le (field (elem_row m q) f + n)). lia.
  - destruct Hp. split; [done|]. exists q.2. split; [|by apply raise_bound]. cbn. unfold raise.
    specialize (Hm q f). pose proof (u64_le (field (elem_row m q) f + n)). case_decide; cbn; split_and!; lia || done.
  - destruct Hp as (? & ? & ?). by apply add_bound.
Qed.

(** There is a bound for every element, and the bounds of any elements add up to at most
    what all operations have added. *)
Record bound_ok {A} (B : Z -> Z -> Z) (st : cstate A) : Prop := {
  bk_progs : forall c t, pool st !! c = Some t -> in_bound B (t_prog t);
  bk_rows : rows_bound B (mem st);
  bk_sum : forall l f, NoDup l -> zsum (fun g => B g f) l <= tally (amount f) st;
}.

Lemma step_bound {A} (body : A -> prog) B st l :
  (forall a, counts_up (body a)) -> bound_ok B st -> exists B', bound_ok B' (cstep body st l).
Proof.
  intros Hbody [Hp Hm Hs].
  pose proof (fun f => tally_step body (amount f) st l) as Ht. destruct l as [c a|c fault pick].
  - exists B. cbn [cstep] in *. destruct (pool st !! c) as [t|] eqn:Hc; [done|].
    split; rewrite ?mem_settle; [|done|intros l f Hl; rewrite Ht, Z.add_0_r; auto].
    intros c' t' Hl. apply pool_settle in Hl as [->|Hl]; [apply counts_up_in_bound, Hbody|]. by eapply Hp.
  - cbn [cstep] in *. destruct (pool st !! c) as [t|] eqn:Hc; [|by exists B].
    pose proof (exec_bound B fault pick (t_prog t) (mem st) (Hp c t Hc) Hm) as Hb.
    destruct (exec fault pick (t_prog t) (mem st)) as [[m p] evs]. destruct Hb as (Hpos & g & Hin & Hrows).
    exists (raise B g evs). split; rewrite ?mem_settle; [|done|].
    + intros c' t' Hl. apply pool_settle in Hl as [->|Hl]; [done|].
      apply lookup_delete_Some in Hl as [_ Hl]. eapply in_bound_mono; [by apply raise_le|]. by eapply Hp.
    + intros l f Hl. rewrite Ht. cbn [snd]. pose proof (raise_sum B g evs f l Hpos Hl). specialize (Hs l f Hl). lia.
Qed.

Lemma run_bound {A} (body : A -> prog) ls :
  (forall a, counts_up (body a)) -> exists B, bound_ok B (crun body ls cstart).
Proof.
  intros Hbody. assert (H0 : exists B, bound_ok (A := A) B cstart).
  { exists (fun _ _ => 0). split; [intros c t; cbn; by rewrite lookup_empty| |].
    - intros q f. unfold elem_row. cbn. by rewrite lookup_empty.
    - intros l f _. unfold tally. cbn [cstart finished pool]. rewrite pool_sum_empty. cbn.
      apply (zsum_le (fun _ => 0) 0 l). done. }
  revert H0. generalize (cstart (A := A)). induction ls as [|l ls IH]; intros st [B HB]; [by exists B|].
  apply (IH (cstep body st l)). by eapply step_bound.
Qed.

(** Whatever the programs insert, replace, delete and add, atomically or not, and
    whichever elements are reused: a row is part of the sum over all rows, and that sum
    never shows more than the invocations have added. *)
Lemma rows_bounded {A} (body : A -> prog) ls f :
  (forall a, counts_up (body a)) ->
  let st := crun body ls cstart in
  (forall k, 0 <= cell k f (mem st) <= rows_sum f (mem st)) /\ rows_sum f (mem st) <= tally (amount f) st.
Proof.
  intros Hbody st. destruct (run_bound body ls Hbody) as [B [_ Hr Hs]]. fold st in Hr, Hs.
  assert (Hok : store_ok (mem st)) by (apply run_store_ok, empty_store_ok).
  assert (Hpos : forall q, q ∈ map_to_list (rows (mem st)) -> 0 <= field (elem_row (mem st) q) f) by (intros; apply Hr).
  split.
  - intros k. unfold cell, find. destruct (rows (mem st) !! k) as [g|] eqn:Hk; cbn.
    + split; [apply Hr|]. apply (zsum_ge (fun q : elem => field (elem_row (mem st) q) f) _ (k, g) Hpos). by apply elem_of_map_to_list.
    + split; [done|]. by apply zsum_nonneg.
  - transitivity (zsum (fun g => B g f) (snd <$> map_to_list (rows (mem st)))).
    + unfold rows_sum. induction (map_to_list (rows (mem st))) as [|q l IH]; [done|]. cbn [fmap list_fmap].
      rewrite !zsum_cons. pose proof (Hr q f). enough (zsum (fun q => field (elem_row (mem st) q) f) l <=
        zsum (fun g => B g f) (snd <$> l)) by lia. apply IH. intros. apply Hr.
    + apply Hs. apply NoDup_fmap_2_strong; [|apply NoDup_map_to_list].
      intros [k1 g1] [k2 g2] H1%elem_of_map_to_list H2%elem_of_map_to_list. cbn. intros ->.
      f_equal. by apply (so_apart _ Hok _ _ g2).
Qed.

(** ** Paths of a program

    [paths Q P tr p]: for every answer the map can give to [p] after the trace [tr],
    the trace satisfies [Q] while the program goes on and [P] when it returns. *)
Fixpoint paths (Q P : list event -> Prop) (tr : list event) (p : prog) : Prop :=
  match p with
  | Ret => P tr
  | Lookup k cont =>
      Q tr /\ paths Q P (tr ++ [ELookup k false]) (cont None) /\
      forall g, paths Q P (tr ++ [ELookup k true]) (cont (Some (k, g)))
  | Update k v _ cont => Q tr /\ forall ret, paths Q P (tr ++ [EUpdate k v ret]) (cont ret)
  | Delete k cont => Q tr /\ forall ret, paths Q P (tr ++ [EDelete k ret]) (cont ret)
  | FetchAdd q f n cont => Q tr /\ paths Q P (tr ++ [EAdd q f n]) cont
  | AddLoad q f n cont =>
      Q tr /\ Q (tr ++ [ELoad q f]) /\ paths Q P ((tr ++ [ELoad q f]) ++ [EAdd q f n]) cont
  | AddStore q f _ n cont => Q tr /\ paths Q P (tr ++ [EAdd q f n]) cont
  end.

Lemma exec_paths Q P fault pick p m tr :
  paths Q P tr p -> paths Q P (tr ++ (exec fault pick p m).2) (exec fault pick p m).1.2.
Proof.
  destruct p as [|k cont|k v flags cont|k cont|q f n cont|q f n cont|q f v n cont]; cbn [paths exec].
  - cbn. by rewrite app_nil_r.
  - intros (_ & Hn & Hs). unfold find. destruct (rows m !! k) as [g|]; cbn; [apply Hs|apply Hn].
  - intros [_ Hr]. destruct (store_update fault pick k v flags m) as [ret m']. apply Hr.
  - intros [_ Hr]. destruct (store_delete fault k m) as [ret m']. apply Hr.
  - intros [_ Hc]. apply Hc.
  - intros (_ & Hq & Hc). cbn [paths fst snd]. by split.
  - intros [_ Hc]. apply Hc.
Qed.

Lemma paths_running Q P tr p : paths Q P tr p -> match p with Ret => P tr | _ => Q tr end.
Proof. destruct p; cbn; tauto. Qed.

Record paths_ok {A} (Q P : A -> list event -> Prop) (st : cstate A) : Prop := {
  po_pool : forall c t, pool st !! c = Some t ->
    paths (Q (t_arg t)) (P (t_arg t)) (t_trace t) (t_prog t) /\ Q (t_arg t) (t_trace t);
  po_finished : forall e, e ∈ finished st -> P e.1 e.2;
}.

Lemma settle_paths {A} (Q P : A -> list event -> Prop) c t m others done :
  paths (Q (t_arg t)) (P (t_arg t)) (t_trace t) (t_prog t) ->
  (forall c' t', others !! c' = Some t' -> 
     paths (Q (t_arg t')) (P (t_arg t')) (t_trace t') (t_prog t') /\ Q (t_arg t') (t_trace t')) ->
  (forall e, e ∈ done -> P e.1 e.2) -> paths_ok Q P (settle c t m others done).
Proof.
  intros Ht Ho Hd. pose proof (paths_running _ _ _ _ Ht) as Hr.
  assert (Hi : t_prog t <> Ret -> paths_ok Q P (CState m (<[c := t]> others) done)).
  { intros Hne. split; [|done]. cbn. intros c' t' Hl. apply lookup_insert_Some in Hl as [[_ <-]|[_ Hl]]; [|eauto].
    split; [done|]. by destruct (t_prog t). }
  unfold settle. destruct (t_prog t); try (by apply Hi). split; [done|]. cbn. intros e He.
  apply elem_of_app in He as [He|He]; [auto|]. apply list_elem_of_singleton in He as ->. done.
Qed.

Lemma step_paths {A} (Q P : A -> list event -> Prop) (body : A -> prog) st l :
  (forall a, paths (Q a) (P a) [] (body a)) -> paths_ok Q P st -> paths_ok Q P (cstep body st l).
Proof.
  intros Hbody Hst. pose proof Hst as [Hp Hf].
  destruct l as [c a|c fault pick]; cbn [cstep]; destruct (pool st !! c) as [t|] eqn:Ht; try done.
  - apply settle_paths; [apply Hbody|done|done].
  - pose proof (exec_paths (Q (t_arg t)) (P (t_arg t)) fault pick (t_prog t) (mem st) (t_trace t) (proj1 (Hp c t Ht))) as He.
    destruct (exec fault pick (t_prog t) (mem st)) as [[m p] evs]. apply settle_paths; [done| |done].
    intros c' t' Hl. apply lookup_delete_Some in Hl as [_ Hl]. by apply Hp with c'.
Qed.

(** What a returned invocation did is a path of its program, and what a running one
    has done is the beginning of one. *)
Lemma run_paths {A} (Q P : A -> list event -> Prop) (body : A -> prog) ls :
  (forall a, paths (Q a) (P a) [] (body a)) -> paths_ok Q P (crun body ls cstart).
Proof.
  intros Hbody. assert (H0 : paths_ok Q P (cstart (A := A))).
  { split; [intros c t; cbn; by rewrite lookup_empty|]. intros e He. by apply elem_of_nil in He. }
  revert H0. generalize (cstart (A := A)). induction ls as [|l ls IH]; intros st H0; [done|].
  apply (IH (cstep body st l)). by apply step_paths.
Qed.

(** If running invocations have counted nothing yet, the returned ones have it all. *)
Lemma credited_finished {A} (st : cstate A) k f :
  (forall c t, pool st !! c = Some t -> trace_credit k f (t_trace t) = 0) ->
  credited k f st = zsum (fun e => trace_credit k f e.2) (finished st).
Proof.
  intros Hp. unfold credited, tally. change (zsum (credit k f)) with (trace_credit k f). enough (pool_sum (fun t => trace_credit k f (t_trace t)) (pool st) = 0) by lia.
  revert Hp. induction (pool st) as [|c t m Hm IH] using map_ind; intros Hp; [apply pool_sum_empty|].
  rewrite pool_sum_insert, (Hp c t), IH; [done| |by rewrite lookup_insert_eq|done].
  intros c' t' Hl. apply (Hp c'). rewrite lookup_insert_ne; [done|]. intros ->. congruence.
Qed.

(** ** An invocation alone *)

Fixpoint alone (fault : Z) (pick : option Z) (n : nat) (p : prog) (m : store) : store * prog :=
  match n with
  | O => (m, p)
  | S n => let '(m, p, _) := exec fault pick p m in alone fault pick n p m
  end.

Lemma alone_ret fault pick n m : alone fault pick n Ret m = (m, Ret).
Proof. induction n as [|n IH]; [done|apply IH]. Qed.

Lemma crun_cons {A} (body : A -> prog) l ls st : crun body (l :: ls) st = crun body ls (cstep body st l).
Proof. done. Qed.

Lemma idle_alone {A} (body : A -> prog) c fault pick n (st : cstate A) :
  pool st !! c = None -> crun body (replicate n (Run c fault pick)) st = st.
Proof.
  intros Hc. induction n as [|n IH]; [done|]. cbn [replicate]. rewrite crun_cons. cbn [cstep]. by rewrite Hc.
Qed.

Lemma settle_alone {A} (body : A -> prog) c fault pick n : forall (t : thread A) m others done,
  others !! c = None -> (alone fault pick n (t_prog t) m).2 = Ret ->
  let st := crun body (replicate n (Run c fault pick)) (settle c t m others done) in
  mem st = (alone fault pick n (t_prog t) m).1 /\ pool st = others.
Proof.
  induction n as [|n IH]; intros t m others done Hc Hret; cbv zeta.
  { cbn in *. unfold settle. rewrite Hret. done. }
  assert (Hd : t_prog t = Ret \/ settle c t m others done = CState m (<[c := t]> others) done) by
    (unfold settle; destruct (t_prog t); auto).
  destruct Hd as [Ep|Hs].
  - rewrite Ep in *. rewrite idle_alone, alone_ret by (unfold settle; by rewrite Ep). unfold settle. by rewrite Ep.
  - rewrite Hs. cbn [replicate]. rewrite crun_cons. cbn [cstep pool mem finished].
    rewrite lookup_insert_eq, delete_insert_id by done. cbn [alone] in *.
    destruct (exec fault pick (t_prog t) m) as [[m' p] evs]. by apply IH.
Qed.

(** A call in a free slot that is not interleaved with others. *)
Lemma call_alone {A} (body : A -> prog) c a fault pick n (st : cstate A) :
  pool st !! c = None -> (alone fault pick n (body a) (mem st)).2 = Ret ->
  let st' := crun body (Call c a :: replicate n (Run c fault pick)) st in
  mem st' = (alone fault pick n (body a) (mem st)).1 /\ pool st' = pool st.
Proof.
  intros Hc Hret st'. subst st'. rewrite crun_cons. cbn [cstep]. rewrite Hc. by apply settle_alone.
Qed.

(** ** Calls started *)

Definition started {A} (w : A -> Z) (ls : list (label A)) : Z :=
  zsum (fun l => match l with Call _ a => w a | Run _ _ _ => 0 end) ls.

Definition weight {A} (w : A -> Z) (st : cstate A) : Z :=
  zsum (fun e => w e.1) (finished st) + pool_sum (fun t => w (t_arg t)) (pool st).

Lemma weight_settle {A} (w : A -> Z) c (t : thread A) m others done :
  others !! c = None ->
  weight w (settle c t m others done) =
    zsum (fun e => w e.1) done + pool_sum (fun t => w (t_arg t)) others + w (t_arg t).
Proof.
  intros Hc. unfold settle, weight. destruct (t_prog t); cbn [finished pool];
    rewrite ?zsum_app, ?pool_sum_insert by done; rewrite ?zsum_one; cbn [fst]; lia.
Qed.

Lemma weight_run {A} (w : A -> Z) (body : A -> prog) ls :
  (forall a, 0 <= w a) -> forall st, weight w (crun body ls st) <= weight w st + started w ls.
Proof.
  intros Hw. induction ls as [|l ls IH]; intros st; [cbn; lia|].
  change (crun body (l :: ls) st) with (crun body ls (cstep body st l)).
  specialize (IH (cstep body st l)). unfold started in *. rewrite zsum_cons.
  enough (weight w (cstep body st l) <= weight w st + match l with Call _ a => w a | Run _ _ _ => 0 end) by lia.
  destruct l as [c a|c fault pick]; cbn [cstep]; destruct (pool st !! c) as [t|] eqn:Ht; try lia.
  - specialize (Hw a). lia.
  - rewrite weight_settle by done. unfold weight. cbn [t_arg]. lia.
  - destruct (exec fault pick (t_prog t) (mem st)) as [[m p] evs]. rewrite weight_settle by apply lookup_delete_eq.
    unfold weight. rewrite (pool_sum_delete _ (pool st) c t Ht). cbn [t_arg]. lia.
Qed.

(** If an invocation with argument [a] never adds more than [w a] to field [f] of the
    rows it touches, the rows together show at most what the started calls may add. *)
Lemma rows_at_most_started {A} (w : A -> Z) (body : A -> prog) ls f
    (Q := fun a tr => zsum (amount f) tr <= w a) :
  (forall a, 0 <= w a) -> (forall a, counts_up (body a)) -> (forall a, paths (Q a) (Q a) [] (body a)) ->
  let m := mem (crun body ls cstart) in
  (forall k, 0 <= cell k f m <= rows_sum f m) /\ rows_sum f m <= started w ls.
Proof.
  intros Hw Hup Hp m. destruct (rows_bounded body ls f Hup) as [Hc Hb]. split; [done|]. subst m.
  pose proof (weight_run w body ls Hw cstart) as Hs.
  assert (H0 : weight w (cstart (A := A)) = 0) by (unfold weight; cbn; apply pool_sum_empty).
  destruct (run_paths Q Q body ls Hp) as [Hpool Hfin].
  assert (Hle : tally (amount f) (crun body ls cstart) <= weight w (crun body ls cstart)); [|lia].
  unfold tally, weight. apply Z.add_le_mono; [apply zsum_mono; intros e He; by apply Hfin|].
  apply pool_sum_le. intros c t Ht. apply (Hpool c t Ht).
Qed.

End Programs.
Arguments Thread {_ _} _ _ _.
Arguments t_arg {_ _} _.
Arguments t_prog {_ _} _.
Arguments t_trace {_ _} _.
Arguments CState {_ _ _ _} _ _ _.
Arguments mem {_ _ _ _} _.
Arguments pool {_ _ _ _} _.
Arguments finished {_ _ _ _} _.
Arguments Call {_} _ _.
Arguments Run {_} _ _ _.
End Conc.
