(* ===== verification/ConcurrentTracers.v ===== *)
(** * Tracers whose counters are shared between CPUs

    The counting parts of four tracers as programs of [Concurrent]: queue freezes
    ([io_health.c], module [FreezeRace]), container rows of the IO latency histograms
    ([iolatency_tracing.c], [ContainerRace]), reclaim stalls ([memory_reclaim.c],
    [StallRace]) and the file byte counters of [iotracing.c] ([BytesRace]).  The
    first two insert with BPF_NOEXIST and add atomically, and are exact under every
    schedule.  The stalls of all cgroups together are never too many; evaluated schedules
    show what an insertion with BPF_ANY, an addition by load and store and a reused
    element do to single rows.  A reclaim program alone is the sequential definition of
    [Memory].  What bounds the byte counters is in [ConcurrentInsert]. *)

From Stdlib Require Import ZArith Lia.
From stdpp Require Import base option list gmap tactics.
From S2P Require Import Prelude BpfMap Concurrent IoLatHist IoLatency IoHealth Memory.
Import Conc.

Local Open Scope Z_scope.
Local Open Scope bpf_scope.

(** ** Queue freezes ([io_health_freeze_queue]) *)

Module FreezeRace.

Definition one : row := {[0 := 1]}.

(** [if (count) __sync_fetch_and_add(count, 1)]. *)
Definition add_one {K} (count : option (elem (K := K))) : prog :=
  match count with Some p => FetchAdd p 0 1 Ret | None => Ret end.

Definition freeze_row (key : Z) : prog :=
  if key =? 0 then Ret
  else Lookup key (fun count =>
    match count with
    | Some _ => add_one count
    | None => Update key one BPF_NOEXIST (fun ret =>
        if ret =? 0 then Ret else Lookup key add_one)
    end).

(** The row of [key] could not be inserted and was not there afterwards. *)
Definition gave_up (tr : list (event (K := Z))) : bool :=
  match tr with
  | [ELookup _ false; EUpdate _ _ _; ELookup _ false] => true
  | _ => false
  end.

Definition counts_in (k : Z) (e : Z * list (event (K := Z))) : Z :=
  if bool_decide (e.1 = k) && negb (e.1 =? 0) && negb (gave_up e.2) then 1 else 0.

Lemma one_field f : field one f = if f =? 0 then 1 else 0.
Proof.
  unfold field, one. destruct (Z.eqb_spec f 0) as [->|]; [done|]. by rewrite lookup_singleton_ne.
Qed.

Lemma freeze_exact key : exact_prog (fun _ => False) (freeze_row key).
Proof.
  unfold freeze_row. case_if; [done|]. cbn. split; [|intros g; cbn; auto].
  split_and!; [done|intros f; rewrite one_field; unfold is_u64; case_if; lia|].
  intros ret. case_if; cbn; [done|]. split; [done|]. intros g. cbn. auto.
Qed.

Definition nothing_yet (tr : list (event (K := Z))) : Prop := forall k f, trace_credit k f tr = 0.

(** What a returned call did: nothing for a disk that is not observed, one count
    for its key, or no count because its row could not be inserted. *)
Definition freeze_did (key : Z) (tr : list (event (K := Z))) : Prop :=
  (forall k, trace_credit k 0 tr = counts_in k (key, tr)) /\
  (gave_up tr = true -> exists ret, ret <> 0 /\ tr = [ELookup key false; EUpdate key one ret; ELookup key false]).

Lemma freeze_paths key : paths nothing_yet (freeze_did key) [] (freeze_row key).
Proof.
  assert (Hn : nothing_yet []) by done.
  assert (Hl : forall b, nothing_yet [ELookup key b]) by done.
  unfold freeze_row. destruct (Z.eqb_spec key 0) as [->|E].
  { split; [|done]. intros k. unfold counts_in. cbn. by rewrite andb_false_r. }
  assert (Hd : forall tr, gave_up tr = false -> (forall k, trace_credit k 0 tr = if bool_decide (key = k) then 1 else 0) ->
    freeze_did key tr).
  { intros tr Hg Hc. split; [|by rewrite Hg]. intros k. unfold counts_in. cbn [fst snd].
    rewrite Hc, Hg, (proj2 (Z.eqb_neq _ _) E). by destruct (bool_decide (key = k)). }
  cbn [paths add_one app]. split; [done|]. split.
  - split; [done|]. intros ret. destruct (Z.eqb_spec ret 0) as [->|Hr]; cbn [paths add_one app].
    + apply Hd; [done|]. intros k. cbn. by destruct (bool_decide (key = k)).
    + assert (Hu : nothing_yet [ELookup key false; EUpdate key one ret]).
      { intros k f. cbn. by rewrite (proj2 (Z.eqb_neq _ _) Hr), andb_false_r. }
      split; [done|]. split.
      * split; [|by exists ret]. intros k. unfold counts_in. cbn. by rewrite (proj2 (Z.eqb_neq _ _) Hr), !andb_false_r.
      * intros g. split; [|apply Hd; [done|]; intros k; cbn; rewrite (proj2 (Z.eqb_neq _ _) Hr), andb_false_r;
          by destruct (bool_decide (key = k))].
        intros k f. cbn. by rewrite (proj2 (Z.eqb_neq _ _) Hr), andb_false_r.
  - intros g. split; [done|]. apply Hd; [done|]. intros k. cbn. by destruct (bool_decide (key = k)).
Qed.

(** C16: freezes are counted exactly on every schedule.  Whatever CPUs freeze queues at
    the same time, however their map operations interleave and whichever insertions
    fail, the row of a device number holds the number of returned calls for it, less
    those that gave up; and a call gives up only after its insertion failed and the
    row was still missing.  The runs are of freezes alone; [ConcurrentInsert.DiskRace] adds
    the registration and removal of disks. *)
Theorem freezes_counted_under_races ls k :
  let st := crun freeze_row ls cstart in
  cell k 0 (mem st) = u64 (zsum (counts_in k) (finished st)) /\
  forall key tr, (key, tr) ∈ finished st -> gave_up tr = true ->
    exists ret, ret <> 0 /\ tr = [ELookup key false; EUpdate key one ret; ELookup key false].
Proof.
  intros st. destruct (run_paths (fun _ => nothing_yet) freeze_did freeze_row ls freeze_paths) as [Hp Hf].
  fold st in Hp, Hf. split; [|intros key tr He; apply (Hf _ He)].
  unfold st. rewrite exact_cells by apply freeze_exact. fold st. f_equal.
  rewrite credited_finished by (intros c t Ht; apply (Hp c t Ht)).
  apply zsum_same. intros [key tr] He. apply (proj1 (Hf _ He)).
Qed.

(** Two CPUs miss the row; the loser of the insertion joins the winner's row.  A third
    call finds a busy map and gives up. *)
Lemma freeze_race_counts_both :
  let st := crun freeze_row [Call 0 8; Call 1 8; Run 0 0 None; Run 1 0 None; Run 0 0 None; Run 1 0 None; Run 1 0 None; Run 1 0 None;
                             Call 2 9; Run 2 0 None; Run 2 (- EBUSY) None; Run 2 0 None] cstart in
  cell 8 0 (mem st) = 2 /\ cell 9 0 (mem st) = 0 /\ zsum (counts_in 8) (finished st) = 2 /\
  length (finished st) = 3%nat.
Proof. by vm_compute. Qed.

End FreezeRace.

(** ** Container rows of the IO latency histograms ([lookup_container_counters]) *)

Module ContainerRace.
Import IoLatHist IoLatency.

(** Positions of the counters in [struct iolatency_counters]. *)
Definition stage_cell (stage bucket : Z) : Z := stage * IO_LATENCY_BUCKETS + bucket.
Definition queued_cell (bucket : Z) : Z := 3 * IO_LATENCY_BUCKETS + bucket.
Definition issued_cell (bucket : Z) : Z := 3 * IO_LATENCY_BUCKETS + IO_SIZE_BUCKETS + bucket.

Definition container_key (s : iolatency_container_key) : iolatency_container_key :=
  ContainerKey (ck_blkcg s) (ck_serial s) (ck_major s) (ck_minor s) (ck_operation s) 0.

Definition find_container (s : iolatency_container_key)
    (cont : option (elem (K := iolatency_container_key)) -> prog) : prog :=
  if (ck_blkcg s =? 0) || (ck_serial s =? 0) then cont None
  else Lookup (container_key s) (fun counters =>
    match counters with
    | Some _ => cont counters
    | None => Update (container_key s) ∅ BPF_NOEXIST (fun ret =>
        if ret =? - EBUSY then cont None else Lookup (container_key s) cont)
    end).

Definition add_cells (cells : list Z) (counters : option (elem (K := iolatency_container_key))) : prog :=
  match counters with
  | Some p => foldr (fun f rest => FetchAdd p f 1 rest) Ret cells
  | None => Ret
  end.

(** The counters a completed bio adds to, from its packed buckets. *)
Definition completed_cells (packed : Z) : list Z :=
  let q2g := Z.land packed 255 in
  let q2d := Z.land (Z.shiftr packed 8) 255 in
  let d2c := Z.land (Z.shiftr packed 16) 255 in
  let size := Z.land (Z.shiftr packed 24) 255 in
  (if q2g <? IO_LATENCY_BUCKETS then [stage_cell IO_LATENCY_STAGE_Q2G q2g] else []) ++
  (if q2d <? IO_LATENCY_BUCKETS then [stage_cell IO_LATENCY_STAGE_Q2D q2d] else []) ++
  (if d2c <? IO_LATENCY_BUCKETS then [stage_cell IO_LATENCY_STAGE_D2C d2c] else []) ++
  (if size <? IO_SIZE_BUCKETS then [issued_cell size] else []).

(** The container part of [queue_bio_latency] and of [account_completed_container],
    after [io_latency_bio_identity]. *)
Inductive container_call :=
| Queued (series : iolatency_container_key) (bucket : Z)
| Completed (series : iolatency_container_key) (packed : Z).

Definition container_prog (call : container_call) : prog :=
  match call with
  | Queued s bucket => if ck_blkcg s =? 0 then Ret else find_container s (add_cells [queued_cell bucket])
  | Completed s packed => if packed =? 0xffffffff then Ret else find_container s (add_cells (completed_cells packed))
  end.

(** ** What a call has to count *)

Definition call_key (call : container_call) : iolatency_container_key :=
  match call with Queued s _ | Completed s _ => container_key s end.
Definition call_cells (call : container_call) : list Z :=
  match call with
  | Queued _ bucket => [queued_cell bucket]
  | Completed _ packed => if packed =? 0xffffffff then [] else completed_cells packed
  end.
Definition observed (call : container_call) : bool :=
  negb (ck_blkcg (call_key call) =? 0) && negb (ck_serial (call_key call) =? 0).

Definition wanted (call : container_call) (k : iolatency_container_key) (f : Z) : Z :=
  if observed call && bool_decide (call_key call = k)
  then zsum (fun c => if c =? f then 1 else 0) (call_cells call) else 0.

(** There is no row: the map was busy, or the row was missing before and after the
    insertion. *)
Definition dropped (key : iolatency_container_key) (tr : list (event (K := iolatency_container_key))) : Prop :=
  tr = [ELookup key false; EUpdate key ∅ (- EBUSY)] \/
  exists ret, tr = [ELookup key false; EUpdate key ∅ ret; ELookup key false].

Definition container_did (call : container_call) (tr : list (event (K := iolatency_container_key))) : Prop :=
  (forall k f, trace_credit k f tr = wanted call k f) \/
  ((forall k f, trace_credit k f tr = 0) /\ observed call = true /\ dropped (call_key call) tr).

Lemma empty_field f : field ∅ f = 0.
Proof. unfold field. by rewrite lookup_empty. Qed.

Lemma add_cells_exact (ok : elem -> Prop) cells c :
  (forall p, c = Some p -> ok p) -> exact_prog ok (add_cells cells c).
Proof. destruct c as [p|]; [|done]. intros H. cbn. induction cells; cbn; auto. Qed.

Lemma container_exact call : exact_prog (fun _ => False) (container_prog call).
Proof.
  assert (Hf : forall s cells, exact_prog (fun _ => False) (find_container s (add_cells cells))).
  { intros s cells. unfold find_container. case_if; [done|]. cbn [exact_prog]. split; [|intros g; apply add_cells_exact; naive_solver].
    split_and!; [done|intros f; by rewrite empty_field|]. intros ret. case_if; [done|]. cbn [exact_prog].
    split; [done|]. intros g. apply add_cells_exact. naive_solver. }
  destruct call; cbn; case_if; done || apply Hf.
Qed.

Lemma cells_credit k f (p : elem (K := iolatency_container_key)) cells :
  trace_credit k f (map (fun c => EAdd p c 1) cells) =
  if bool_decide (p.1 = k) then zsum (fun c => if c =? f then 1 else 0) cells else 0.
Proof.
  induction cells as [|c cells IH]; [by case_match|]. cbn [map]. unfold trace_credit in *. rewrite zsum_cons, IH. cbn [credit].
  destruct (bool_decide (p.1 = k)); cbn [andb]; [by rewrite zsum_cons|done].
Qed.

Lemma add_cells_paths P (p : elem (K := iolatency_container_key)) cells : forall tr,
  P (tr ++ map (fun c => EAdd p c 1) cells) -> paths (fun _ => True) P tr (add_cells cells (Some p)).
Proof.
  cbn. induction cells as [|c cells IH]; intros tr HP; cbn; [by rewrite app_nil_r in HP|].
  split; [done|]. apply IH. by rewrite <- app_assoc.
Qed.

Lemma find_paths (P : list event -> Prop) s cells :
  let key := container_key s in
  ((ck_blkcg s =? 0) || (ck_serial s =? 0) = true -> P []) ->
  ((ck_blkcg s =? 0) || (ck_serial s =? 0) = false ->
     (forall pre g, (forall k f, trace_credit k f pre = 0) -> P (pre ++ map (fun c => EAdd (key, g) c 1) cells)) /\
     (forall tr, dropped key tr -> P tr)) ->
  paths (fun _ => True) P [] (find_container s (add_cells cells)).
Proof.
  intros key H0 H1. unfold find_container. destruct (_ || _) eqn:E; [by apply H0|].
  destruct (H1 eq_refl) as [Hadd Hdrop]. cbn [paths app]. split; [done|]. split.
  - split; [done|]. intros ret. case_if; zify_bools; [subst; apply Hdrop; by left|]. cbn [paths app].
    split; [done|]. split; [apply Hdrop; right; by exists ret|]. intros g. apply add_cells_paths. apply Hadd.
    intros k f. unfold trace_credit. cbn. rewrite empty_field. by case_match.
  - intros g. apply add_cells_paths. by apply Hadd.
Qed.

Lemma did_nothing call : observed call = false -> container_did call [].
Proof. intros H. left. intros k f. unfold wanted. by rewrite H. Qed.

Lemma container_paths call : paths (fun _ => True) (container_did call) [] (container_prog call).
Proof.
  assert (Hfind : forall s, call_key call = container_key s ->
    paths (fun _ => True) (container_did call) [] (find_container s (add_cells (call_cells call)))).
  { intros s Hs. assert (Ho : observed call = negb ((ck_blkcg s =? 0) || (ck_serial s =? 0))).
    { unfold observed. rewrite Hs. cbn. by destruct (ck_blkcg s =? 0), (ck_serial s =? 0). }
    apply find_paths; intros E; rewrite E in Ho; [by apply did_nothing|]. cbn in Ho. rewrite <- Hs. split.
    - intros pre g Hpre. left. intros k f. unfold trace_credit. rewrite zsum_app. fold (trace_credit k f pre).
      rewrite Hpre, Z.add_0_l. unfold wanted. rewrite Ho. apply cells_credit.
    - intros tr Hd. right. split_and!; [|done|done]. intros k f. unfold trace_credit.
      destruct Hd as [->|[ret ->]]; cbn; rewrite ?empty_field; by repeat case_match. }
  destruct call as [s bucket|s packed]; cbn [container_prog].
  - case_if; [|by apply Hfind]. cbn. apply did_nothing. unfold observed. cbn. by rewrite E.
  - cbn [call_key call_cells] in Hfind. case_if; [|by apply Hfind].
    left. intros k f. unfold wanted. cbn [call_cells]. rewrite E. by case_match.
Qed.

(** C8: container histograms are exact on every schedule.  However the queueing and
    the completion of bios on different CPUs interleave at their map operations and
    whichever insertions fail, every counter of a container row is the sum (modulo
    2^64) of what the calls so far have added to it; and a returned call has added one
    to each of its counters, or nothing at all because there was no row. *)
Theorem container_cells_under_races ls k f :
  let st := crun container_prog ls cstart in
  cell k f (mem st) = u64 (credited k f st) /\
  forall call tr, (call, tr) ∈ finished st -> container_did call tr.
Proof.
  intros st. split; [apply exact_cells, container_exact|]. intros call tr He.
  apply (po_finished _ _ _ (run_paths (fun _ _ => True) container_did container_prog ls container_paths) _ He).
Qed.

End ContainerRace.

(** ** Reclaim stalls ([memory_reclaim.c]) *)

Module StallRace.
Import Memory.Reclaim FreezeRace.

Definition stall_prog (e : mr_input) : prog :=
  match e with
  | ReclaimBegin flags css =>
      if ctrue (Z.land flags PF_KSWAPD) then Ret
      else Lookup css (fun valp =>
        match valp with
        | None => Update css one BPF_ANY (fun _ => Ret)
        | Some p => FetchAdd p 0 1 Ret
        end)
  | CssReleased css => Delete css (fun _ => Ret)
  end.

(** A reclaim that is counted. *)
Definition stall (e : mr_input) : Z :=
  match e with
  | ReclaimBegin flags _ => c_of_bool (negb (ctrue (Z.land flags PF_KSWAPD)))
  | CssReleased _ => 0
  end.

Lemma stall_amount e (Q := fun tr : list (event (K := Z)) => zsum (amount 0) tr <= stall e) : paths Q Q [] (stall_prog e).
Proof.
  unfold Q. destruct e as [flags c|c]; cbn [stall_prog stall].
  - destruct (ctrue (Z.land flags PF_KSWAPD)); cbn; [done|].
    split; [done|]. split; [split; [done|]; intros ret; by destruct (ret =? 0)|done].
  - cbn. done.
Qed.

(** Stalls are never overcounted.  Under every interleaving of reclaims and cgroup
    releases on any number of CPUs, with any failing map operation and any reuse of
    elements, the stall counts of all cgroups together are at most the number of
    reclaims begun. *)
Theorem stalls_never_overcounted ls :
  let m := mem (crun stall_prog ls cstart) in
  (forall css, 0 <= cell css 0 m <= rows_sum 0 m) /\ rows_sum 0 m <= started stall ls.
Proof.
  apply rows_at_most_started.
  - intros e. destruct e; cbn; unfold c_of_bool; [case_match|]; lia.
  - intros [flags c|c]; cbn; [|done]. case_if; [done|]. intros [p|]; cbn; [lia|].
    split; [|done]. intros f. rewrite one_field. case_if; lia.
  - intros e. apply stall_amount.
Qed.

(** Both CPUs miss the row, and the second insertion replaces the first. *)
Lemma stall_lost_by_insertion :
  let ls := [Call 0 (ReclaimBegin 0 7); Call 1 (ReclaimBegin 0 7); Run 0 0 None; Run 1 0 None; Run 0 0 None; Run 1 0 None] in
  let st := crun stall_prog ls cstart in
  cell 7 0 (mem st) = 1 /\ credited 7 0 st = 2 /\ started stall ls = 2 /\ pool st = ∅.
Proof. by vm_compute. Qed.

(** A third CPU that points to the replaced element adds to nothing. *)
Lemma stall_lost_in_old_element :
  let ls := [Call 0 (ReclaimBegin 0 7); Call 1 (ReclaimBegin 0 7); Run 0 0 None; Run 1 0 None; Run 0 0 None;
             Call 2 (ReclaimBegin 0 7); Run 2 0 None; Run 1 0 None; Run 2 0 None] in
  let st := crun stall_prog ls cstart in cell 7 0 (mem st) = 1 /\ credited 7 0 st = 3.
Proof. by vm_compute. Qed.

(** A CPU that still points to the element of a released cgroup adds to the row of the
    cgroup that got the element since: cgroup 8 shows two stalls of its one. *)
Lemma stall_added_to_other_cgroup :
  let ls := [Call 0 (ReclaimBegin 0 7); Run 0 0 None; Run 0 0 None; Call 1 (ReclaimBegin 0 7); Run 1 0 None;
             Call 0 (CssReleased 7); Run 0 0 None; Call 0 (ReclaimBegin 0 8); Run 0 0 None; Run 0 0 (Some 0); Run 1 0 None] in
  let st := crun stall_prog ls cstart in
  cell 8 0 (mem st) = 2 /\ credited 8 0 st = 1 /\ cell 7 0 (mem st) = 0 /\ started stall ls = 3 /\ pool st = ∅.
Proof. by vm_compute. Qed.

(** The map [m] of the sequential definitions and the memory hold the same counts. *)
Definition same_counts {M : BpfMapOps} (m : hmap Z Z) (mem : store (K := Z)) : Prop :=
  forall css, bpf_map_lookup_elem m css = found css 0 mem.

(** [fault] is how the kernel fails the operation of [e], if it does. *)
Definition same_fault {M : BpfMapOps} (m : hmap Z Z) (e : mr_input) (fault : Z) : Prop :=
  match e with
  | ReclaimBegin _ css => fault = fst (bpf_map_update_elem m css 1 BPF_ANY)
  | CssReleased css =>
      let ret := fst (bpf_map_delete_elem m css) in
      if fault =? 0 then ret = 0 \/ ret = - ENOENT else ret = fault
  end.

Lemma reclaim_alone {M : BpfMapOps} {L : BpfMapLaws M} (m : hmap Z Z) mem0 flags css fault pick :
  store_ok mem0 -> same_counts m mem0 -> fault = fst (bpf_map_update_elem m css 1 BPF_ANY) ->
  let r := alone fault pick 2 (stall_prog (ReclaimBegin flags css)) mem0 in
  r.2 = Ret /\ same_counts (tracepoint_vmscan_mm_vmscan_memcg_reclaim_begin flags css m) r.1.
Proof.
  intros Hok Hm Hf. cbn [stall_prog]. unfold tracepoint_vmscan_mm_vmscan_memcg_reclaim_begin, stall_lookup, stall_insert.
  destruct (ctrue (Z.land flags PF_KSWAPD)); cbn; [done|]. pose proof (Hm css) as Hc. unfold found, find in *.
  destruct (rows mem0 !! css) as [g|] eqn:Hg; cbn in *; rewrite Hc.
  - split; [done|]. intros c. rewrite store_lookup by (by rewrite Hc). rewrite found_set_field by done.
    cbn. case_decide; [done|]. apply Hm.
  - unfold store_update. rewrite Hg. destruct (Z.eqb_spec fault 0) as [E|Hne]; cbn; (split; [done|]); intros c.
    + rewrite update_ok by congruence. rewrite found_install, one_field by done. cbn. case_decide; [done|]. apply Hm.
    + rewrite update_err by congruence. apply Hm.
Qed.

Lemma release_alone {M : BpfMapOps} {L : BpfMapLaws M} (m : hmap Z Z) mem0 css fault pick :
  same_counts m mem0 -> same_fault m (CssReleased css) fault ->
  let r := alone fault pick 2 (stall_prog (CssReleased css)) mem0 in
  r.2 = Ret /\ same_counts (kprobe_mem_cgroup_css_released css m) r.1.
Proof.
  intros Hm Hf. cbn [same_fault] in Hf. cbn. unfold kprobe_mem_cgroup_css_released, store_delete.
  assert (Hd : forall fr c, found c 0 (Store (delete css (rows mem0)) (heap mem0) fr (next mem0)) =
    if decide (css = c) then None else found c 0 mem0).
  { intros fr c. unfold found, find, elem_row. cbn. case_decide as Hc; [subst; by rewrite lookup_delete_eq|].
    by rewrite lookup_delete_ne. }
  destruct (Z.eqb_spec fault 0) as [->|Hne]; cbn.
  - destruct (rows mem0 !! css) as [g|] eqn:Hg; cbn; (split; [done|]); intros c; rewrite bm_delete_done by done.
    + rewrite Hd. case_decide; [done|]. apply Hm.
    + case_decide; [subst|apply Hm]. unfold found, find. by rewrite Hg.
  - split; [done|]. intros c. rewrite delete_err by congruence. apply Hm.
Qed.

(** Refinement.  An invocation that is not interleaved with others does to the
    shared counters what the sequential definition of the tracer does to its map,
    failures included. *)
Theorem stall_alone_is_sequential {M : BpfMapOps} {L : BpfMapLaws M} (m : hmap Z Z) st c e fault pick :
  store_ok (mem st) -> same_counts m (mem st) -> same_fault m e fault -> pool st !! c = None ->
  let st' := crun stall_prog [Call c e; Run c fault pick; Run c fault pick] st in
  same_counts (mr_step m e) (mem st') /\ pool st' = pool st.
Proof.
  intros Hok Hm Hf Hc. pose proof (call_alone stall_prog c e fault pick 2 st Hc) as Ha. cbn [replicate] in Ha. cbv zeta in *.
  enough (He : (alone fault pick 2 (stall_prog e) (mem st)).2 = Ret /\
               same_counts (mr_step m e) (alone fault pick 2 (stall_prog e) (mem st)).1).
  { destruct He as [Hret Hs]. destruct (Ha Hret) as [-> ->]. done. }
  clear Ha Hc. destruct e as [flags css|css]; cbn [same_fault stall_prog mr_step] in *; by apply reclaim_alone || by apply release_alone.
Qed.

Lemma stall_alone_is_sequential_witness :
  let m : hmap (BpfMapOps := faulty_ops) Z Z := FaultyHash ∅ 4 [] in
  let st' := crun stall_prog [Call 3 (ReclaimBegin 0 7); Run 3 0 None; Run 3 0 None] cstart in
  same_counts (mr_step m (ReclaimBegin 0 7)) (mem st') /\ pool st' = ∅.
Proof.
  apply (stall_alone_is_sequential (M := faulty_ops) (FaultyHash ∅ 4 []) cstart 3 (ReclaimBegin 0 7) 0 None);
    [apply empty_store_ok|intros css; cbn; by rewrite !lookup_empty|by vm_compute|done].
Defined.

End StallRace.

(** ** File bytes ([iotracing.c], [bpf_file_read_write]) *)

Module BytesRace.

(** The byte counters of [struct io_data]: [fs_write_bytes] and [fs_read_bytes].  The
    names and flags of the record are not part of the row here. *)
Definition byte_field (is_write : bool) : Z := if is_write then 0 else 1.

(** A call for the file with key [(dev, inode, tgid)], the last zero; [full] is the word
    of [io_source_full] the call would read. *)
Record file_call := FileCall {
  fc_key : Z * Z * Z;
  fc_full : Z;
  fc_write : bool;
  fc_count : Z;
}.

Definition add_bytes (c : file_call) (entry : option (elem (K := Z * Z * Z))) : prog :=
  match entry with
  | Some p => AddLoad p (byte_field (fc_write c)) (u64 (fc_count c)) Ret
  | None => Ret
  end.

Definition bytes_prog (c : file_call) : prog :=
  Lookup (fc_key c) (fun entry =>
    match entry with
    | Some _ => add_bytes c entry
    | None =>
        if ctrue (fc_full c) then Ret
        else Update (fc_key c) ∅ BPF_NOEXIST (fun _ => Lookup (fc_key c) (add_bytes c))
    end).

(** Two CPUs write the file at the same time and one write is lost. *)
Lemma concurrent_write_lost :
  let w := FileCall (8, 100, 0) 0 true 4096 in
  let ls := [Call 0 w; Run 0 0 None; Run 0 0 None; Run 0 0 None; Run 0 0 None; Call 1 w; Run 1 0 None; Run 1 0 None; Run 0 0 None; Run 1 0 None] in
  let st := crun bytes_prog ls cstart in
  cell (8, 100, 0) 0 (mem st) = 4096 /\ credited (8, 100, 0) 0 st = 8192 /\ pool st = ∅.
Proof. by vm_compute. Qed.

End BytesRace.
