(* ===== verification/ConcurrentInsert.v ===== *)
(** * Tracers that insert a row without BPF_NOEXIST

    Four more users of hash maps shared by all CPUs: the stack samples of [perf.c]
    (module [SampleRace]), the reclaim and compaction times of [memory_free_compact.c]
    ([CompactRace]), the rows of [iotracing.c], which block completions and file hooks
    write together ([RowRace]), and the freeze counts of [io_health.c] with the
    registration and removal of disks ([DiskRace]).  All insert a row with BPF_ANY, which
    replaces a row another CPU inserted in the meantime, or delete one.  Module [Settled]
    shows when nothing is lost all the same: once a row is there, no CPU is about to
    replace or remove it and no stale pointer leads to its element, every later atomic
    addition is exact.  The first three never count too much in total.  Evaluated schedules
    show what single rows lose, and what they gain through a reused element. *)

From Stdlib Require Import ZArith Lia.
From stdpp Require Import base option list gmap tactics.
From S2P Require Import Prelude BpfMap Concurrent ConcurrentTracers IoTracing HostEvents Memory.
Import Conc.

Local Open Scope Z_scope.
Local Open Scope bpf_scope.

(** ** A row that is there to stay *)

Module Settled.
Section Settled.
Context {K : Type} `{Countable K}.
Implicit Types p : prog (K := K).

(** [p] neither replaces nor removes the row of [k], whose element is at [g], and adds
    to it atomically, as long as lookups of [k] find [g] and other keys have other
    elements.  Its pointers for [k] lead to [g], and no others do. *)
Fixpoint calm (k : K) (g : Z) (p : prog (K := K)) : Prop :=
  match p with
  | Ret => True
  | Lookup k' cont =>
      if decide (k' = k) then calm k g (cont (Some (k, g)))
      else calm k g (cont None) /\ forall g', g' <> g -> calm k g (cont (Some (k', g')))
  | Update k' _ flags cont => (k' = k -> flags = BPF_NOEXIST) /\ forall ret, (k' = k -> ret <> 0) -> calm k g (cont ret)
  | Delete k' cont => k' <> k /\ forall ret, calm k g (cont ret)
  | FetchAdd q _ _ cont => (q.1 = k <-> q.2 = g) /\ calm k g cont
  | AddLoad q _ _ cont | AddStore q _ _ _ cont => q.1 <> k /\ q.2 <> g /\ calm k g cont
  end.

Record settled {A} (k : K) (g : Z) (st : cstate (K := K) A) : Prop := {
  sd_store : store_ok (mem st);
  sd_row : rows (mem st) !! k = Some g;
  sd_calm : map_Forall (fun _ t => calm k g (t_prog t)) (pool st);
}.

(** The calls a schedule starts are calm. *)
Definition calm_calls {A} (body : A -> prog (K := K)) (k : K) (g : Z) (ls : list (label A)) : Prop :=
  Forall (fun l => match l with Call _ a => calm k g (body a) | Run _ _ _ => True end) ls.

Lemma all_calm_calls {A} (body : A -> prog) k g ls : (forall a, calm k g (body a)) -> calm_calls body k g ls.
Proof. intros Hb. apply Forall_forall. intros [c a|c fault pick] _; [apply Hb|done]. Qed.

Definition row_kept (k : K) (g : Z) (m m' : store (K := K)) (evs : list (event (K := K))) : Prop :=
  rows m' !! k = Some g /\ forall f, u64 (cell k f m') = u64 (cell k f m + trace_credit k f evs).

(** An operation that leaves the element alone and counts nothing for the row. *)
Lemma untouched (m m' : store (K := K)) (k : K) g e :
  rows m !! k = Some g -> rows m' !! k = Some g -> heap m' !! g = heap m !! g -> (forall f, credit k f e = 0) ->
  row_kept k g m m' [e].
Proof.
  intros Hk Hk' Hh He. split; [done|]. intros f. rewrite trace_credit_one, He, Z.add_0_r.
  unfold cell, find, elem_row. rewrite Hk, Hk'. cbn. by rewrite Hh.
Qed.

Lemma update_calm fault pick k' v flags (m : store (K := K)) k g :
  store_ok m -> (k' = k -> flags = BPF_NOEXIST) -> rows m !! k = Some g ->
  let '(ret, m') := store_update fault pick k' v flags m in
  (k' = k -> ret <> 0) /\ row_kept k g m m' [EUpdate k' v ret].
Proof.
  intros Hm Hfl Hk. unfold store_update.
  assert (He : forall ret, (k' = k -> ret <> 0) -> forall f, credit k f (EUpdate k' v ret) = 0).
  { intros ret Hr f. cbn. destruct (bool_decide_reflect (k' = k)) as [->|]; [|done]. cbn. by rewrite (proj2 (Z.eqb_neq _ _) (Hr eq_refl)). }
  assert (Hi : k' <> k -> row_kept k g m (install pick k' v m) [EUpdate k' v 0]).
  { intros Hne. apply untouched; [done| | |by apply He]; cbn; [by rewrite lookup_insert_ne|].
    rewrite lookup_insert_ne; [done|]. intros Hg. by apply (proj2 (alloc_unused pick m Hm) k); rewrite Hg. }
  assert (Hsame : forall ret, ret <> 0 -> (k' = k -> ret <> 0) /\ row_kept k g m m [EUpdate k' v ret]) by auto using untouched.
  destruct (Z.eqb_spec fault 0); cbn [negb]; [|by apply Hsame].
  destruct (decide (k' = k)) as [->|Hne]; [rewrite Hk, (Hfl eq_refl); by apply Hsame|].
  destruct (rows m !! k'); case_if; (by apply Hsame) || (split; [done|by apply Hi]).
Qed.

Lemma exec_calm fault pick p (m : store (K := K)) k g :
  store_ok m -> calm k g p -> rows m !! k = Some g ->
  let '(m', p', evs) := exec fault pick p m in calm k g p' /\ row_kept k g m m' evs.
Proof.
  intros Hm Hp Hk.
  destruct p as [|k' cont|k' v flags cont|k' cont|q f n cont|q f n cont|q f v n cont]; cbn [calm exec] in *.
  - split; [done|]. split; [done|]. intros f. by rewrite Z.add_0_r.
  - split; [|by apply untouched]. unfold find. destruct (decide (k' = k)) as [->|Hne]; [by rewrite Hk|].
    destruct (rows m !! k') as [g'|] eqn:Hk'; [|apply Hp]. apply Hp. intros ->. by apply Hne, (so_apart _ Hm _ _ g).
  - destruct Hp as [Hfl Hcont]. pose proof (update_calm fault pick k' v flags m k g Hm Hfl Hk) as Hu.
    destruct (store_update fault pick k' v flags m) as [ret m']. destruct Hu as [Hr Hu]. auto.
  - destruct Hp as [Hne Hcont]. unfold store_delete.
    destruct (negb _); [|destruct (rows m !! k')]; (split; [done|]); apply untouched; try done. cbn. by rewrite lookup_delete_ne.
  - destruct Hp as [Hq Hcont]. split; [done|]. destruct (decide (q.1 = k)) as [Hqk|Hqk].
    2: { apply untouched; [done..| |intros f'; cbn; by rewrite bool_decide_false]. cbn. rewrite lookup_insert_ne; [done|]. tauto. }
    split; [done|]. intros f'. assert (Hg : q.2 = g) by tauto.
    rewrite cell_set_field, trace_credit_one, Hg, bool_decide_true by done. cbn [credit andb]. rewrite bool_decide_true by done.
    cbn [andb]. destruct (Z.eqb_spec f f') as [<-|]; [|by rewrite Z.add_0_r].
    rewrite u64_idemp. do 2 f_equal. unfold cell, find, elem_row. rewrite Hk, Hg. done.
  - destruct Hp as (Hq & Hg & Hcont). split; [done|]. by apply untouched.
  - destruct Hp as (Hq & Hg & Hcont). split; [done|].
    apply untouched; [done..| |intros f'; cbn; by rewrite bool_decide_false]. cbn. by rewrite lookup_insert_ne.
Qed.

Lemma step_settled {A} (body : A -> prog) (st : cstate A) l k g :
  match l with Call _ a => calm k g (body a) | Run _ _ _ => True end -> settled k g st ->
  settled k g (cstep body st l) /\
  forall f, u64 (cell k f (mem (cstep body st l))) = u64 (cell k f (mem st) + (credited k f (cstep body st l) - credited k f st)).
Proof.
  intros Hbody Hst. pose proof Hst as [Hok Hk Hp]. pose proof (step_store_ok body st l Hok) as Hok'.
  assert (Hsame : settled k g st /\ forall f, u64 (cell k f (mem st)) = u64 (cell k f (mem st) + 0)).
  { split; [done|]. intros f. by rewrite Z.add_0_r. }
  assert (Hd : forall f, credited k f (cstep body st l) - credited k f st =
    match l with
    | Call _ _ => 0
    | Run c fault pick => match pool st !! c with Some t => trace_credit k f (exec fault pick (t_prog t) (mem st)).2 | None => 0 end
    end) by (intros f; unfold credited; rewrite tally_step; unfold trace_credit; lia).
  setoid_rewrite Hd. clear Hd. destruct l as [c a|c fault pick]; cbn [cstep] in *; destruct (pool st !! c) as [t|] eqn:Hc; try apply Hsame.
  - rewrite mem_settle in *. split; [split; rewrite ?mem_settle; [done..|]|apply Hsame].
    intros c' t' Hl. apply pool_settle in Hl as [->|Hl]; [apply Hbody|by apply (Hp c')].
  - pose proof (exec_calm fault pick (t_prog t) (mem st) k g Hok (Hp c t Hc) Hk) as He.
    destruct (exec fault pick (t_prog t) (mem st)) as [[m p] evs]. destruct He as (Hcalm & Hk' & Hcell).
    rewrite mem_settle in *. split; [split; rewrite ?mem_settle; [done..|]|apply Hcell].
    intros c' t' Hl. apply pool_settle in Hl as [->|Hl]; [done|]. apply lookup_delete_Some in Hl as [_ Hl]. by apply (Hp c').
Qed.

(** Once a row is settled, whatever happens next, its counters grow by exactly what the
    invocations add to it. *)
Lemma settled_cells {A} (body : A -> prog) ls k g : forall st : cstate A,
  calm_calls body k g ls -> settled k g st ->
  let st' := crun body ls st in
  settled k g st' /\ forall f, u64 (cell k f (mem st')) = u64 (cell k f (mem st) + (credited k f st' - credited k f st)).
Proof.
  intros st Hbody. revert st. induction Hbody as [|l ls Hl Hls IH]; intros st Hs; cbv zeta.
  { split; [done|]. intros f. by rewrite Z.sub_diag, Z.add_0_r. }
  destruct (step_settled body st l k g Hl Hs) as [Hs1 Hc1]. rewrite crun_cons.
  destruct (IH (cstep body st l) Hs1) as [Hs2 Hc2]. split; [done|].
  intros f. rewrite Hc2, <- u64_add_idemp_l, Hc1, u64_add_idemp_l. f_equal. lia.
Qed.
End Settled.
End Settled.

(** ** Freezes of disks that come and go ([io_health.c]) *)

Module DiskRace.
Import FreezeRace Settled.

Definition zero : row := {[0 := 0]}.

(** The three hooks that write [io_health_freeze_counts]; [key] is what
    [io_health_freeze_key] gives, zero for a disk that is not observed. *)
Inductive disk_call := Freeze (key : Z) | DiskAdded (key : Z) | DiskRemoved (key : Z).

Definition disk_added (key : Z) : prog := if key =? 0 then Ret else Update key zero BPF_ANY (fun _ => Ret).
Definition disk_removed (key : Z) : prog := if key =? 0 then Ret else Delete key (fun _ => Ret).

Definition disk_prog (call : disk_call) : prog :=
  match call with
  | Freeze key => freeze_row key
  | DiskAdded key => disk_added key
  | DiskRemoved key => disk_removed key
  end.

Notation disk_trace := (disk_call * list (event (K := Z)))%type.

(** Returned freezes of the disk [k]. *)
Definition freeze_of (k : Z) (e : disk_trace) : Z :=
  match e.1 with Freeze key => c_of_bool (key =? k) | _ => 0 end.
Definition freezes (k : Z) (done : list disk_trace) : Z := zsum (freeze_of k) done.

(** The schedule starts no registration and no removal of the disk [k]. *)
Definition stays (k : Z) (l : label disk_call) : Prop :=
  match l with Call _ (DiskAdded key) | Call _ (DiskRemoved key) => key <> k | _ => True end.

Lemma freeze_calm key k g : calm k g (freeze_row key).
Proof.
  assert (Ha : forall g', (key = k <-> g' = g) -> calm k g (add_one (Some (key, g')))) by (intros; by cbn).
  assert (Hl : calm k g (Lookup key add_one)).
  { cbn [calm]. destruct (decide (key = k)) as [<-|Hne]; [by apply Ha|]. split; [done|]. intros g' Hg. apply Ha. tauto. }
  unfold freeze_row. case_if; [done|]. cbn [calm]. destruct (decide (key = k)) as [<-|Hne]; [by apply Ha|].
  split; [|intros g' Hg; apply Ha; tauto]. split; [done|]. intros ret _. case_if; [done|apply Hl].
Qed.

Lemma stays_calm k g ls : Forall (stays k) ls -> calm_calls disk_prog k g ls.
Proof.
  apply Forall_impl. intros [c [key|key|key]|]; cbn [stays disk_prog]; try done; [intros; apply freeze_calm|..];
    unfold disk_added, disk_removed; case_if; by cbn.
Qed.

(** What a returned call did to the count of [k]. *)
Definition disk_counts (k : Z) (e : disk_trace) : Z :=
  match e.1 with Freeze key => counts_in k (key, e.2) | _ => 0 end.

Definition disk_did (call : disk_call) (tr : list (event (K := Z))) : Prop :=
  (forall k, trace_credit k 0 tr = disk_counts k (call, tr)) /\
  match call with Freeze key => freeze_did key tr | _ => True end.

Definition uncounted (tr : list (event (K := Z))) : Prop := forall k, trace_credit k 0 tr = 0.

Lemma paths_impl (Q Q' P P' : list (event (K := Z)) -> Prop) p :
  (forall tr, Q tr -> Q' tr) -> (forall tr, P tr -> P' tr) -> forall tr, paths Q P tr p -> paths Q' P' tr p.
Proof. intros HQ HP. induction p; intros tr; cbn [paths]; naive_solver. Qed.

Lemma disk_paths call : paths uncounted (disk_did call) [] (disk_prog call).
Proof.
  assert (Hz : field zero 0 = 0) by done.
  destruct call as [key|key|key]; cbn [disk_prog].
  - eapply paths_impl; [| |apply freeze_paths]; [by intros tr H k|]. intros tr Hd. split; [apply Hd|done].
  - unfold disk_added. case_if; [done|]. cbn [paths app]. split; [done|]. intros ret. split; [|done]. intros k.
    rewrite trace_credit_one. unfold disk_counts. cbn [credit fst]. rewrite Hz. by case_match.
  - unfold disk_removed. case_if; [done|]. by cbn.
Qed.

(** In every state the calls counted what the returned freezes did. *)
Lemma disk_credited ls k (st := crun disk_prog ls cstart) : credited k 0 st = zsum (disk_counts k) (finished st).
Proof.
  destruct (run_paths (fun _ => uncounted) disk_did disk_prog ls disk_paths) as [Hp Hf]. fold st in Hp, Hf.
  rewrite credited_finished by (intros c t Ht; apply (Hp c t Ht)). apply zsum_same. intros [call tr] He. apply (Hf _ He).
Qed.

(** A call that returns while the row is there did not miss it at the end. *)
Definition not_missed (k : Z) (e : disk_trace) : Prop := list.last e.2 <> Some (ELookup k false).

Lemma exec_not_missed fault pick p (m : store (K := Z)) k g tr :
  rows m !! k = Some g -> (p = Ret -> list.last tr <> Some (ELookup k false)) ->
  list.last (tr ++ (exec fault pick p m).2) <> Some (ELookup k false).
Proof.
  intros Hk Hr. destruct p as [|k' cont|k' v flags cont|k' cont|q f n cont|q f n cont|q f v n cont]; cbn [exec].
  1: cbn; rewrite app_nil_r; auto.
  2: destruct (store_update fault pick k' v flags m).
  3: destruct (store_delete fault k' m).
  all: cbn [snd]; rewrite last_snoc; try done.
  intros [= ->]. rewrite Hk in *. by rewrite bool_decide_true in * by eauto.
Qed.

Lemma settle_not_missed k c (t : thread disk_call) m others done :
  (t_prog t = Ret -> not_missed k (t_arg t, t_trace t)) ->
  exists l, finished (settle c t m others done) = done ++ l /\ Forall (not_missed k) l.
Proof.
  intros Hl. unfold settle. destruct (t_prog t); cbn [finished];
    [exists [(t_arg t, t_trace t)]; auto|exists []; rewrite app_nil_r; auto..].
Qed.

Lemma step_not_missed k g (st : cstate (K := Z) disk_call) l :
  settled k g st -> (forall c t, pool st !! c = Some t -> t_prog t <> Ret) ->
  exists new, finished (cstep disk_prog st l) = finished st ++ new /\ Forall (not_missed k) new.
Proof.
  intros [_ Hk _] Hp. assert (Hn : exists new, finished st = finished st ++ new /\ Forall (not_missed k) new).
  { exists []. by rewrite app_nil_r. }
  destruct l as [c a|c fault pick]; cbn [cstep]; destruct (pool st !! c) as [t|] eqn:Hc; try done.
  - by apply settle_not_missed.
  - pose proof (exec_not_missed fault pick (t_prog t) (mem st) k g (t_trace t) Hk ltac:(intros E; by destruct (Hp c t Hc))) as He.
    destruct (exec fault pick (t_prog t) (mem st)) as [[m p] evs]. by apply settle_not_missed.
Qed.

(** Calls that have ended are not in a slot. *)
Lemma run_working ls c t : pool (crun disk_prog ls cstart) !! c = Some t -> t_prog t <> Ret.
Proof.
  revert c t. induction ls as [|l ls IH] using rev_ind; intros c t; [cbn; by rewrite lookup_empty|].
  unfold crun in *. rewrite fold_left_app. cbn [fold_left]. set (st := fold_left _ _ _) in *. clearbody st.
  assert (Hs : forall c0 t0 m others done, (forall c t, others !! c = Some t -> t_prog t <> Ret) ->
    pool (settle c0 t0 m others done) !! c = Some t -> t_prog t <> Ret).
  { intros c0 t0 m others done Ho. unfold settle. destruct (t_prog t0) eqn:E; cbn [pool]; [by apply Ho|..];
      (intros Hl; apply lookup_insert_Some in Hl as [[_ <-]|[_ Hl]]; [by rewrite E|by eapply Ho]). }
  destruct l as [c0 a|c0 fault pick]; cbn [cstep]; destruct (pool st !! c0) as [t0|]; try apply IH; [by apply Hs|].
  destruct (exec fault pick (t_prog t0) (mem st)) as [[m p] evs]. apply Hs. intros c1 t1 Hl.
  apply lookup_delete_Some in Hl as [_ Hl]. by eapply IH.
Qed.

Lemma run_not_missed k g ls : forall pre,
  Forall (stays k) ls -> settled k g (crun disk_prog pre cstart) ->
  exists new, finished (crun disk_prog ls (crun disk_prog pre cstart)) = finished (crun disk_prog pre cstart) ++ new /\
    Forall (not_missed k) new.
Proof.
  induction ls as [|l ls IH]; intros pre Hls Hs; [exists []; by rewrite app_nil_r|].
  destruct (step_not_missed k g (crun disk_prog pre cstart) l Hs (run_working pre)) as (n1 & E1 & H1).
  apply Forall_cons_1 in Hls as [Hl Hls].
  assert (Hpre : cstep disk_prog (crun disk_prog pre cstart) l = crun disk_prog (pre ++ [l]) cstart).
  { unfold crun. by rewrite fold_left_app. }
  rewrite crun_cons, Hpre in *. destruct (IH (pre ++ [l]) Hls) as (n2 & E2 & H2).
  { rewrite <- Hpre. apply step_settled; [|done]. pose proof (stays_calm k g [l] (Forall_cons_2 _ _ _ Hl (Forall_nil_2 _))) as Hc.
    by apply Forall_cons_1 in Hc as [? _]. }
  exists (n1 ++ n2). rewrite E2, E1, app_assoc. split; [done|]. by apply Forall_app_2.
Qed.

(** A returned freeze of an observed disk that did not miss the row counted one. *)
Lemma counted_one k e : k <> 0 -> disk_did e.1 e.2 -> not_missed k e ->
  disk_counts k e = freeze_of k e.
Proof.
  unfold freeze_of. destruct e as [[key|key|key] tr]; cbn [fst snd]; try done. intros Hk [_ [_ Hg]] Hm. unfold disk_counts, counts_in. cbn [fst snd].
  destruct (Z.eqb_spec key k) as [->|Hne]; [|by rewrite bool_decide_false].
  rewrite bool_decide_true, (proj2 (Z.eqb_neq _ _) Hk) by done. cbn.
  destruct (gave_up tr); [|done]. destruct (Hg eq_refl) as (ret & _ & ->). by destruct Hm.
Qed.

(** C14: the row of a registered disk counts every freeze.  Freezes, registrations and
    removals of any disks run on any number of CPUs; from a moment on at which the row of
    a disk is there, no registration or removal of it is still under way, and a CPU points
    to its element only if it looked that disk up, and as long as none is started, the row
    stays and grows by exactly the number of freezes of the disk that return, whatever the
    interleaving, whichever insertions fail and whichever elements of other disks are
    reused. *)
Theorem registered_freezes_exact pre ls k g :
  let st := crun disk_prog pre cstart in
  let st' := crun disk_prog ls st in
  k <> 0 -> settled k g st -> Forall (stays k) ls ->
  settled k g st' /\
  u64 (cell k 0 (mem st')) = u64 (cell k 0 (mem st) + (freezes k (finished st') - freezes k (finished st))).
Proof.
  intros st st' Hk Hs Hls. destruct (settled_cells disk_prog ls k g st) as [Hs' Hc]; [by apply stays_calm|done|].
  split; [done|]. rewrite Hc. f_equal. f_equal.
  destruct (run_not_missed k g ls pre Hls Hs) as (new & Hnew & Hm). fold st st' in Hnew.
  assert (Hall : st' = crun disk_prog (pre ++ ls) cstart) by (unfold st', st, crun; by rewrite fold_left_app).
  fold st'. rewrite Hall at 1. unfold st at 1. rewrite !disk_credited, <- Hall. fold st. rewrite Hnew. unfold freezes. rewrite !zsum_app.
  rewrite (zsum_same (disk_counts k) (freeze_of k) new); [lia|]. intros e He. apply counted_one; [done| |].
  - destruct (run_paths (fun _ => uncounted) disk_did disk_prog (pre ++ ls) disk_paths) as [_ Hf].
    apply Hf. rewrite <- Hall, Hnew. set_solver.
  - by apply (proj1 (list.Forall_forall _ _) Hm).
Qed.

(** Disks 9 and 8 are registered and a freeze of disk 8 is under way; then disk 9 is
    removed and registered again in the element it had, and both disks are frozen. *)
Definition registered : list (label disk_call) :=
  [Call 0 (DiskAdded 9); Run 0 0 None; Call 0 (DiskAdded 8); Run 0 0 None; Call 1 (Freeze 8); Run 1 0 None].
Definition churn : list (label disk_call) :=
  [Call 0 (DiskRemoved 9); Run 0 0 None; Call 2 (Freeze 8); Call 0 (DiskAdded 9); Run 0 0 (Some 0);
   Call 3 (Freeze 9); Run 2 0 None; Run 3 0 None; Run 1 0 None; Run 3 0 None; Run 2 0 None].

Lemma registered_freezes_exact_witness :
  let st' := crun disk_prog churn (crun disk_prog registered cstart) in
  u64 (cell 8 0 (mem st')) = 2 /\ freezes 8 (finished st') = 2 /\ pool st' = ∅.
Proof.
  destruct (registered_freezes_exact registered churn 8 1) as [_ Hc]; [done| |repeat constructor; cbn; lia|].
  - split; [apply run_store_ok, empty_store_ok|by vm_compute|].
    assert (Hp : pool (crun disk_prog registered cstart) = {[1 := Thread (Freeze 8) (FetchAdd (8, 1) 0 1 Ret) [ELookup 8 true]]})
      by (by vm_compute).
    rewrite Hp. by apply map_Forall_singleton.
  - split_and!; [rewrite Hc|..]; by vm_compute.
Defined.

(** A freeze that found the row before the disk was registered again counts for the old
    registration, not for the new one. *)
Lemma freeze_lost_by_registration :
  let ls := [Call 0 (DiskAdded 8); Run 0 0 None; Call 1 (Freeze 8); Run 1 0 None; Call 0 (DiskAdded 8); Run 0 0 None; Run 1 0 None] in
  let st := crun disk_prog ls cstart in cell 8 0 (mem st) = 0 /\ freezes 8 (finished st) = 1 /\ pool st = ∅.
Proof. by vm_compute. Qed.

End DiskRace.

(** ** Stack samples ([perf.c]) *)

Module SampleRace.
Import TaskSamples FreezeRace Settled.

Definition in_target (t : target) (s : sample) : bool :=
  negb (negb (t_css t =? 0) && negb (t_css t =? s_cpu_css s)) &&
  negb (negb (t_pid t =? 0) && negb (t_pid t =? Z.shiftr (s_pid_tgid s) 32)).

Definition sample_prog (t : target) (s : sample) : prog (K := key_t) :=
  if in_target t s then
    Lookup (sample_key s) (fun valp =>
      match valp with
      | None => Update (sample_key s) one BPF_ANY (fun _ => Ret)
      | Some p => FetchAdd p 0 1 Ret
      end)
  else Ret.

Definition counted_sample (t : target) (s : sample) : Z := c_of_bool (in_target t s).

Lemma sample_calm t s k g : calm k g (sample_prog t s).
Proof.
  unfold sample_prog. destruct (in_target t s); [|done]. cbn [calm].
  destruct (decide (sample_key s = k)) as [<-|Hne]; cbn; [done|]. split; [done|]. intros g' Hg. split; [|done]. tauto.
Qed.

(** What a call adds: at most one. *)
Lemma sample_amount t s (Q := fun tr : list (event (K := key_t)) => zsum (amount 0) tr <= counted_sample t s) :
  paths Q Q [] (sample_prog t s).
Proof.
  unfold Q, sample_prog, counted_sample. destruct (in_target t s); [|done].
  cbn [paths app]. split; [done|]. split; [|done]. split; [done|]. intros ret. cbn. by destruct (ret =? 0).
Qed.

(** Samples are never overcounted: under every interleaving of the sampling interrupts
    of the CPUs, whichever insertions fail and whichever elements are reused, the counters
    of all stacks add up to at most the number of samples taken in the target. *)
Theorem samples_never_overcounted t ls :
  let m := mem (crun (sample_prog t) ls cstart) in
  (forall k, 0 <= cell k 0 m <= rows_sum 0 m) /\ rows_sum 0 m <= started (counted_sample t) ls.
Proof.
  apply rows_at_most_started.
  - intros s. unfold counted_sample, c_of_bool. case_match; lia.
  - intros s. unfold sample_prog. case_match; [|done]. intros [p|]; cbn; [lia|]. split; [|done]. intros f. rewrite one_field.
    case_if; lia.
  - intros s. apply sample_amount.
Qed.

(** C40: only the first samples of a stack can be lost.  From a moment on at which the row
    of a stack exists, no CPU is still about to insert it, and a CPU points to its element
    only if it looked that stack up, whatever the schedule and whichever elements are
    reused, the row stays, and its counter grows by exactly what the samples taken since
    have added for that stack, modulo 2^64. *)
Theorem settled_samples_exact t ls k g (st : cstate (K := key_t) sample) :
  settled k g st ->
  let st' := crun (sample_prog t) ls st in
  settled k g st' /\ u64 (cell k 0 (mem st')) = u64 (cell k 0 (mem st) + (credited k 0 st' - credited k 0 st)).
Proof.
  intros Hs st'. destruct (settled_cells (sample_prog t) ls k g st) as [Hs' Hc]; [apply all_calm_calls; intros; apply sample_calm|done|by split].
Qed.

Definition any_target : target := Target 0 0.
Definition one_stack : sample := Sample 0 0 [] [1; 2] 16 [3] 8.

(** One sample has been inserted; two more are on their way. *)
Definition inserted : cstate (K := key_t) sample :=
  crun (sample_prog any_target) [Call 0 one_stack; Run 0 0 None; Run 0 0 None; Call 1 one_stack; Call 2 one_stack; Run 1 0 None] cstart.

Lemma settled_samples_exact_witness :
  let st' := crun (sample_prog any_target) [Run 2 0 None; Run 2 0 None; Run 1 0 None] inserted in
  u64 (cell (sample_key one_stack) 0 (mem st')) = 3 /\ pool st' = ∅.
Proof.
  destruct (settled_samples_exact any_target [Run 2 0 None; Run 2 0 None; Run 1 0 None] (sample_key one_stack) 0 inserted) as [_ Hc].
  - split; [apply run_store_ok, empty_store_ok|by vm_compute|].
    assert (Hp : pool inserted = <[1 := Thread one_stack (FetchAdd (sample_key one_stack, 0) 0 1 Ret) [ELookup (sample_key one_stack) true]]>
      {[2 := Thread one_stack (sample_prog any_target one_stack) []]}) by (by vm_compute).
    rewrite Hp. apply map_Forall_insert_2; [by cbn|]. apply map_Forall_singleton, sample_calm.
  - split; [rewrite Hc; by vm_compute|by vm_compute].
Defined.

(** The second insertion replaces the first, and one of two samples is lost. *)
Lemma sample_lost_by_insertion :
  let st := crun (sample_prog any_target) [Call 0 one_stack; Call 1 one_stack; Run 0 0 None; Run 1 0 None; Run 0 0 None; Run 1 0 None] cstart in
  cell (sample_key one_stack) 0 (mem st) = 1 /\ credited (sample_key one_stack) 0 st = 2 /\ pool st = ∅.
Proof. by vm_compute. Qed.

End SampleRace.

(** ** Reclaim and compaction times ([memory_free_compact.c]) *)

Module CompactRace.
Import Settled.

(** The two totals of [struct mm_free_compact_entry]. *)
Definition compaction_field : Z := 0.
Definition allocstall_field : Z := 1.

Definition new_metrics (free_ns compact_ns : Z) : row :=
  <[compaction_field := compact_ns]> {[allocstall_field := free_ns]}.

Definition add_if (p : elem (K := Z)) (f n : Z) (rest : prog) : prog :=
  if ctrue n then FetchAdd p f n rest else rest.

Definition metric_prog (free_ns compact_ns : Z) : prog :=
  Lookup 0 (fun valp =>
    match valp with
    | None => Update 0 (new_metrics free_ns compact_ns) BPF_ANY (fun _ => Ret)
    | Some p => add_if p allocstall_field free_ns (add_if p compaction_field compact_ns Ret)
    end).

(** The end of a call: of direct reclaim if [fst], else of compaction. *)
Definition end_prog (call : bool * Z) : prog :=
  if fst call then metric_prog (u64 (snd call)) 0 else metric_prog 0 (u64 (snd call)).

Definition total_field (free : bool) : Z := if free then allocstall_field else compaction_field.
Definition time_of (free : bool) (call : bool * Z) : Z :=
  if Bool.eqb (fst call) free then u64 (snd call) else 0.

Lemma time_of_nonneg free call : 0 <= time_of free call.
Proof. unfold time_of. case_if; [apply u64_range|done]. Qed.

Lemma end_prog_eq call : end_prog call = metric_prog (time_of true call) (time_of false call).
Proof. by destruct call as [[] d]. Qed.

Lemma new_metrics_field free_ns compact_ns free :
  field (new_metrics free_ns compact_ns) (total_field free) = if free then free_ns else compact_ns.
Proof. by destruct free. Qed.

Lemma new_metrics_nonneg free_ns compact_ns f :
  0 <= free_ns -> 0 <= compact_ns -> 0 <= field (new_metrics free_ns compact_ns) f.
Proof.
  intros. unfold field, new_metrics. rewrite lookup_insert. case_decide; [done|].
  destruct (decide (allocstall_field = f)) as [<-|]; [by rewrite lookup_singleton_eq|by rewrite lookup_singleton_ne].
Qed.

Lemma end_calm call g : calm 0 g (end_prog call).
Proof. rewrite end_prog_eq. cbn. rewrite decide_True by done. unfold add_if. by destruct (ctrue _), (ctrue _). Qed.

Lemma add_if_amount (p : elem (K := Z)) f n f' pre :
  zsum (amount f') (pre ++ (if ctrue n then [EAdd p f n] else [])) =
  zsum (amount f') pre + (if f =? f' then n else 0).
Proof.
  rewrite zsum_app. unfold ctrue. destruct (Z.eqb_spec n 0) as [->|]; cbn; case_if; lia.
Qed.

Lemma end_amount free call
    (Q := fun tr : list (event (K := Z)) => zsum (amount (total_field free)) tr <= time_of free call) :
  paths Q Q [] (end_prog call).
Proof.
  assert (H0 : 0 <= time_of free call) by apply time_of_nonneg.
  assert (Hadd : forall (p : elem) f n rest pre, Q pre ->
    paths Q Q (pre ++ (if ctrue n then [EAdd p f n] else [])) rest -> paths Q Q pre (add_if p f n rest)).
  { intros p f n rest pre Hq Hr. unfold add_if. destruct (ctrue n); [by split|]. by rewrite app_nil_r in Hr. }
  pose proof (time_of_nonneg true call). pose proof (time_of_nonneg false call).
  rewrite end_prog_eq. cbn [paths metric_prog app]. split; [done|]. split.
  - split; [done|]. intros ret. unfold Q. rewrite !zsum_cons. cbn [zsum foldr amount]. rewrite new_metrics_field.
    destruct (ret =? 0), free; lia.
  - intros g. set (pre := [ELookup 0 true]). assert (Hpre : zsum (amount (total_field free)) pre = 0) by done. clearbody pre.
    apply Hadd; [unfold Q; lia|]. apply Hadd; [|cbn [paths]]; unfold Q; rewrite !add_if_amount, Hpre; destruct free; cbn; lia.
Qed.

(** Times are never overcounted: the two totals never exceed the time of the calls whose
    end the hooks saw, on every schedule. *)
Theorem times_never_overcounted ls free :
  0 <= cell 0 (total_field free) (mem (crun end_prog ls cstart)) <= started (time_of free) ls.
Proof.
  destruct (rows_at_most_started (time_of free) end_prog ls (total_field free)) as [Hc Hs];
    [apply time_of_nonneg| |intros call; apply end_amount|specialize (Hc 0); lia].
  intros call. rewrite end_prog_eq. pose proof (time_of_nonneg true call). pose proof (time_of_nonneg false call).
  intros [p|]; cbn.
  - unfold add_if. repeat case_match; cbn; auto.
  - split; [|done]. intros f. by apply new_metrics_nonneg.
Qed.

(** Once the entry exists and no CPU is still inserting it, the totals are exact. *)
Theorem settled_times_exact ls g (st : cstate (K := Z) (bool * Z)) free :
  settled 0 g st ->
  let st' := crun end_prog ls st in
  u64 (cell 0 (total_field free) (mem st')) =
    u64 (cell 0 (total_field free) (mem st) + (credited 0 (total_field free) st' - credited 0 (total_field free) st)).
Proof. intros Hs. apply (settled_cells end_prog ls 0 g st); [apply all_calm_calls; intros; apply end_calm|done]. Qed.

(** The first compaction and the first reclaim end at the same time: only one is counted. *)
Lemma time_lost_by_insertion :
  let st := crun end_prog [Call 0 (true, 500); Call 1 (false, 300); Run 0 0 None; Run 1 0 None; Run 0 0 None; Run 1 0 None] cstart in
  cell 0 allocstall_field (mem st) = 0 /\ cell 0 compaction_field (mem st) = 300 /\ pool st = ∅.
Proof. by vm_compute. Qed.

End CompactRace.

(** ** Rows of the IO tracer ([iotracing.c]) *)

Module RowRace.
Import IoTracing.IoTracing BytesRace.

(** The counters of [struct io_data], the two byte counters of [BytesRace] first; the
    maxima, the names and the flags are not part of the row here. *)
Definition block_write_field : Z := 2.
Definition block_read_field : Z := 3.
Definition sum_q2c_field : Z := 4.
Definition sum_d2c_field : Z := 5.
Definition cnt_field : Z := 6.

(** A completion for the row [bc_key], with the length its issue recorded. *)
Record block_call := BlockCall {
  bc_key : Z * Z * Z;
  bc_cmd_flags : Z;
  bc_data_len : Z;
  bc_q2c : Z;
  bc_d2c : Z;
}.

(** The counters a completion adds to, none for other operations. *)
Definition block_adds (c : block_call) : list (Z * Z) :=
  let latency := [(sum_q2c_field, u64 (bc_q2c c)); (sum_d2c_field, u64 (bc_d2c c)); (cnt_field, 1)] in
  if is_write_request (bc_cmd_flags c) then (block_write_field, u64 (bc_data_len c)) :: latency
  else if Z.land (bc_cmd_flags c) REQ_OP_MASK =? REQ_OP_READ then (block_read_field, u64 (bc_data_len c)) :: latency
  else [].

Definition add_all (p : elem (K := Z * Z * Z)) (adds : list (Z * Z)) : prog :=
  foldr (fun a rest => AddLoad p (fst a) (snd a) rest) Ret adds.
Definition new_row (adds : list (Z * Z)) : row := list_to_map adds.

(** [bpf_rq_qos_done], from the lookup of the row. *)
Definition block_prog (c : block_call) : prog :=
  Lookup (bc_key c) (fun entry =>
    match block_adds c, entry with
    | [], _ => Ret
    | adds, Some p => add_all p adds
    | adds, None => Update (bc_key c) (new_row adds) BPF_ANY (fun _ => Ret)
    end).

Inductive io_call := FileIo (c : file_call) | Completion (c : block_call).
Definition io_prog (call : io_call) : prog :=
  match call with FileIo c => bytes_prog c | Completion c => block_prog c end.

(** What a call may add to counter [f]. *)
Definition adds_to (f : Z) (adds : list (Z * Z)) : Z := zsum (fun a => if fst a =? f then snd a else 0) adds.
Definition io_amount (f : Z) (call : io_call) : Z :=
  match call with
  | FileIo c => if byte_field (fc_write c) =? f then u64 (fc_count c) else 0
  | Completion c => adds_to f (block_adds c)
  end.

Lemma block_adds_nonneg c : Forall (fun a => 0 <= snd a) (block_adds c).
Proof. unfold block_adds. repeat case_match; repeat constructor; cbn; try apply u64_range; lia. Qed.

Lemma adds_to_nonneg f adds : Forall (fun a => 0 <= snd a) adds -> 0 <= adds_to f adds.
Proof.
  intros H. apply zsum_nonneg. intros a Ha. pose proof (proj1 (list.Forall_forall _ _) H a Ha) as Hn. cbn in Hn. case_if; lia.
Qed.

Lemma io_amount_nonneg f call : 0 <= io_amount f call.
Proof.
  destruct call as [c|c]; cbn; [case_if; [apply u64_range|done]|]. apply adds_to_nonneg, block_adds_nonneg.
Qed.

Lemma new_row_field c f : field (new_row (block_adds c)) f = adds_to f (block_adds c).
Proof.
  unfold block_adds. assert (H : forall b n q d, b = block_write_field \/ b = block_read_field ->
    field (new_row [(b, n); (sum_q2c_field, q); (sum_d2c_field, d); (cnt_field, 1)]) f =
    adds_to f [(b, n); (sum_q2c_field, q); (sum_d2c_field, d); (cnt_field, 1)]).
  { intros b n q d Hb. unfold field, new_row, adds_to, sum_q2c_field, sum_d2c_field, cnt_field, block_write_field,
      block_read_field in *. cbn [list_to_map foldr fst snd zsum].
    destruct (Z.eqb_spec b f), (Z.eqb_spec 4 f), (Z.eqb_spec 5 f), (Z.eqb_spec 6 f); subst; try lia;
      repeat (rewrite lookup_insert_eq || rewrite lookup_insert_ne by lia); rewrite ?lookup_empty; cbn; lia. }
  repeat case_match; [apply H; auto|apply H; auto|]. unfold field, new_row. cbn. by rewrite lookup_empty.
Qed.

Lemma add_all_paths f W p adds (Q := fun tr => zsum (amount f) tr <= W) : forall pre,
  Forall (fun a => 0 <= snd a) adds -> zsum (amount f) pre + adds_to f adds <= W -> paths Q Q pre (add_all p adds).
Proof.
  unfold Q. induction adds as [|[f0 n] adds IH]; intros pre Hp Hle; [cbn in *; lia|].
  apply Forall_cons_1 in Hp as [Hn Hp]. cbn [snd] in Hn. pose proof (adds_to_nonneg f adds Hp) as Hnn.
  assert (Ha : adds_to f ((f0, n) :: adds) = (if f0 =? f then n else 0) + adds_to f adds) by done. rewrite Ha in Hle.
  change (add_all p ((f0, n) :: adds)) with (AddLoad p f0 n (add_all p adds)). cbn [paths].
  split_and!; [|rewrite zsum_app, zsum_one; cbn [amount]|apply IH; [done|]]; [destruct (f0 =? f); lia..|].
  rewrite !zsum_app, !zsum_one. cbn [amount]. lia.
Qed.

Lemma add_all_counts_up p adds : Forall (fun a => 0 <= snd a) adds -> counts_up (add_all p adds).
Proof. intros Hl. induction Hl as [|a l Ha Hl IH]; [done|]. cbn. by split. Qed.

Lemma block_amount f c (Q := fun tr => zsum (amount f) tr <= io_amount f (Completion c)) : paths Q Q [] (block_prog c).
Proof.
  assert (H0 : 0 <= io_amount f (Completion c)) by apply io_amount_nonneg. unfold Q, block_prog. cbn [paths app].
  split; [done|]. pose proof (block_adds_nonneg c) as Hnn. pose proof (new_row_field c f) as Hf. cbn [io_amount] in *.
  destruct (block_adds c) as [|a adds] eqn:Ha; [done|]. split.
  - cbn [paths app]. split; [done|]. intros ret. rewrite !zsum_cons. cbn [zsum foldr amount]. rewrite Hf. case_if; lia.
  - intros g. apply add_all_paths; [done|]. rewrite zsum_one. cbn [amount]. lia.
Qed.

Lemma file_amount f c (Q := fun tr => zsum (amount f) tr <= io_amount f (FileIo c)) : paths Q Q [] (bytes_prog c).
Proof.
  assert (H0 : 0 <= io_amount f (FileIo c)) by apply io_amount_nonneg.
  assert (Hadd : forall p pre, zsum (amount f) pre = 0 -> paths Q Q pre (add_bytes c (Some p))).
  { intros p pre Hpre. apply (add_all_paths f _ p [(byte_field (fc_write c), u64 (fc_count c))]).
    - constructor; [apply u64_range|constructor].
    - rewrite Hpre. unfold adds_to. cbn. lia. }
  assert (Hz : forall ret l, zsum (amount f) ([ELookup (fc_key c) false; EUpdate (fc_key c) ∅ ret] ++ l) = zsum (amount f) l).
  { intros ret l. rewrite zsum_app, !zsum_cons. cbn [zsum foldr amount]. unfold field. rewrite lookup_empty. by case_match. }
  unfold bytes_prog. cbn [paths app]. split; [done|]. split; [|intros g; by apply Hadd].
  case_if; [done|]. cbn [paths app]. split; [done|]. intros ret.
  pose proof (Hz ret []) as Hz0. pose proof (Hz ret [ELookup (fc_key c) false]) as Hz1. cbn [app] in Hz0, Hz1. 
  split; [unfold Q; by rewrite Hz0|]. split; [cbn [add_bytes paths]; unfold Q; by rewrite Hz1|]. intros g. apply Hadd. apply (Hz ret [ELookup _ true]).
Qed.

(** C26: the counters of the rows together are never too high.  Block completions and file
    hooks on any number of CPUs write the rows of one map with plain loads and stores and
    insert them under each other, and an element that a BPF_ANY insertion replaced may
    become the row of another file while a CPU still points to it.  On every schedule,
    with any failing insertion and any reuse of elements, each byte counter, latency sum
    and request count, added up over all rows, is at most what all calls amount to; a
    single row shows no more than that sum. *)
Theorem io_totals_never_overcounted ls f :
  let m := mem (crun io_prog ls cstart) in
  (forall k, 0 <= cell k f m <= rows_sum f m) /\ rows_sum f m <= started (io_amount f) ls.
Proof.
  apply rows_at_most_started; [apply io_amount_nonneg| |intros [c|c]; [apply file_amount|apply block_amount]].
  intros [c|c]; cbn [io_prog].
  - cbn. intros [p|]; cbn; [split; [apply u64_range|done]|]. case_if; [done|]. cbn.
    split; [intros f'; unfold field; by rewrite lookup_empty|]. intros ret [p|]; cbn; [|done]. split; [apply u64_range|done].
  - pose proof (block_adds_nonneg c) as Hnn. pose proof (new_row_field c) as Hf. unfold block_prog. cbn [counts_up].
    destruct (block_adds c) as [|a adds]; [done|]. intros [p|]; [by apply add_all_counts_up|]. cbn [counts_up]. split; [|done]. intros f'. rewrite Hf. by apply adds_to_nonneg.
Qed.

(** A completion misses the row, a file hook inserts it and counts, and the insertion of
    the completion replaces it: the bytes of the file hook are gone. *)
Lemma completion_discards_file_bytes :
  let w := FileIo (FileCall (8, 100, 0) 0 true 4096) in
  let d := Completion (BlockCall (8, 100, 0) REQ_OP_WRITE 512 30 20) in
  let ls := [Call 0 d; Run 0 0 None; Call 1 w; Run 1 0 None; Run 1 0 None; Run 1 0 None; Run 1 0 None; Run 1 0 None; Run 0 0 None] in
  let st := crun io_prog ls cstart in
  cell (8, 100, 0) (byte_field true) (mem st) = 0 /\ cell (8, 100, 0) block_write_field (mem st) = 512 /\
  started (io_amount (byte_field true)) ls = 4096 /\ pool st = ∅.
Proof. by vm_compute. Qed.

(** A single row can show too much.  A write to file 100 has loaded its count; a
    completion that missed that row replaces it; the element becomes the row of file 200;
    and the store of the first hook gives file 200 the bytes of file 100. *)
Lemma stale_store_raises_other_row :
  let w := FileIo (FileCall (8, 100, 0) 0 true 4096) in
  let d inode := Completion (BlockCall (8, inode, 0) REQ_OP_WRITE 512 30 20) in
  let ls := [Call 0 (d 100); Run 0 0 None; Call 1 w; Run 1 0 None; Run 1 0 None; Run 1 0 None; Run 1 0 None;
             Run 0 0 None; Call 2 (d 200); Run 2 0 None; Run 2 0 (Some 0); Run 1 0 None] in
  let st := crun io_prog ls cstart in
  cell (8, 200, 0) (byte_field true) (mem st) = 4096 /\ credited (8, 200, 0) (byte_field true) st = 0 /\
  cell (8, 100, 0) (byte_field true) (mem st) = 0 /\ pool st = ∅.
Proof. by vm_compute. Qed.

End RowRace.
