(* ===== verification/AbiLayout.v ===== *)
(** * Memory layout of keys and records

    Hash maps compare keys byte by byte and user space reads records as bytes; the
    other files take both as records of numbers.  Module [AbiLayout] relates the
    two: C types with the layout rules of the 64-bit targets (natural alignment,
    little endian), encoding and decoding, and the structures of the sources.

    Decoding is the inverse of encoding for every type; for types without padding
    the bytes are determined by the fields, so comparing bytes is comparing fields.
    The key structures that are instances of [AbiKey] are of that kind; [struct key_t]
    of [perf.c] is not, it ends in four bytes of padding.  Of the exported structures
    [net_rx_latency_event] and [cgroup_css_event] have padding.  The layout assertions
    of the sources hold. *)

From Stdlib Require Import ZArith Lia String.
From stdpp Require Import base option list tactics.
From S2P Require Import Prelude BpfMap IoControl SchedBlame SkBuff IoLatency IoTracing IrqTracing HostEvents.
Import SkBuff.

Local Open Scope nat_scope.

Module AbiLayout.

(** ** Types *)

Inductive ctype :=
| CInt (width : nat)
| CArr (n : nat) (t : ctype)
| CStruct (fs : cfields)
with cfields :=
| FNil
| FCons (t : ctype) (fs : cfields).

Scheme ctype_mut := Induction for ctype Sort Prop
  with cfields_mut := Induction for cfields Sort Prop.
Combined Scheme ctype_fields_ind from ctype_mut, cfields_mut.

Definition padding (off align : nat) : nat := (align - off mod align) mod align.

Fixpoint alignof (t : ctype) : nat :=
  match t with
  | CInt w => w
  | CArr _ t => alignof t
  | CStruct fs => Nat.max 1 (fields_align fs)
  end
with fields_align (fs : cfields) : nat :=
  match fs with
  | FNil => 1
  | FCons t fs => Nat.max (alignof t) (fields_align fs)
  end.

Fixpoint sizeof (t : ctype) : nat :=
  match t with
  | CInt w => w
  | CArr n t => n * sizeof t
  | CStruct fs => let e := fields_end 0 fs in e + padding e (alignof t)
  end
with fields_end (off : nat) (fs : cfields) : nat :=
  match fs with
  | FNil => off
  | FCons t fs => fields_end (off + padding off (alignof t) + sizeof t) fs
  end.

(** The offsets of the fields. *)
Fixpoint offsets (off : nat) (fs : cfields) : list nat :=
  match fs with
  | FNil => []
  | FCons t fs => let o := off + padding off (alignof t) in o :: offsets (o + sizeof t) fs
  end.

(** ** Values *)

Fixpoint value (t : ctype) : Type :=
  match t with
  | CInt _ => Z
  | CArr _ t => list (value t)
  | CStruct fs => fields_value fs
  end
with fields_value (fs : cfields) : Type :=
  match fs with
  | FNil => unit
  | FCons t fs => value t * fields_value fs
  end.

(** Numbers fit their width and arrays have their length. *)
Fixpoint fits (t : ctype) : value t -> Prop :=
  match t with
  | CInt w => fun v => (0 <= v < 256 ^ Z.of_nat w)%Z
  | CArr n t => fun v => length v = n /\ Forall (fits t) v
  | CStruct fs => fields_fit fs
  end
with fields_fit (fs : cfields) : fields_value fs -> Prop :=
  match fs with
  | FNil => fun _ => True
  | FCons t fs => fun v => fits t v.1 /\ fields_fit fs v.2
  end.

(** ** Bytes *)

Definition zeros (n : nat) : list Z := replicate n 0%Z.

Fixpoint encode (t : ctype) : value t -> list Z :=
  match t with
  | CInt w => le_bytes w
  | CArr _ t => fun v => concat (map (encode t) v)
  | CStruct fs => fun v => encode_fields 0 fs v ++ zeros (padding (fields_end 0 fs) (alignof (CStruct fs)))
  end
with encode_fields (off : nat) (fs : cfields) : fields_value fs -> list Z :=
  match fs with
  | FNil => fun _ => []
  | FCons t fs => fun v =>
      zeros (padding off (alignof t)) ++ encode t v.1 ++
      encode_fields (off + padding off (alignof t) + sizeof t) fs v.2
  end.

Definition slice (off len : nat) (bs : list Z) : list Z := take len (drop off bs).

Fixpoint decode (t : ctype) (bs : list Z) : value t :=
  match t with
  | CInt w => le_value (take w bs)
  | CArr n t => map (fun i => decode t (slice (i * sizeof t) (sizeof t) bs)) (seq 0 n)
  | CStruct fs => decode_fields 0 fs bs
  end
with decode_fields (off : nat) (fs : cfields) (bs : list Z) : fields_value fs :=
  match fs with
  | FNil => tt
  | FCons t fs =>
      let o := off + padding off (alignof t) in
      (decode t (slice o (sizeof t) bs), decode_fields (o + sizeof t) fs bs)
  end.

(** No byte of the type belongs to no field. *)
Fixpoint padding_free (t : ctype) : bool :=
  match t with
  | CInt _ => true
  | CArr _ t => padding_free t
  | CStruct fs => fields_padding_free 0 fs && (padding (fields_end 0 fs) (alignof t) =? 0)
  end
with fields_padding_free (off : nat) (fs : cfields) : bool :=
  match fs with
  | FNil => true
  | FCons t fs =>
      (padding off (alignof t) =? 0) && padding_free t && fields_padding_free (off + sizeof t) fs
  end.

(** ** Slices *)

Lemma slice_concat s cs : forall i c,
  Forall (fun c => length c = s) cs -> cs !! i = Some c -> slice (i * s) s (concat cs) = c.
Proof.
  induction cs as [|c0 cs IH]; intros i c Hl Hi; [done|]. apply Forall_cons_iff in Hl as [H0 Hl].
  destruct i as [|i]; cbn in *.
  - simplify_eq. unfold slice. by rewrite drop_0, take_app_length.
  - rewrite <- (IH i c) by done. unfold slice. by rewrite <- drop_drop, drop_app_length' by done.
Qed.

Lemma concat_slices s n : forall bs : list Z,
  length bs = n * s -> concat (map (fun i => slice (i * s) s bs) (seq 0 n)) = bs.
Proof.
  induction n as [|n IH]; intros bs Hl; [by destruct bs|]. cbn [seq map concat]. rewrite <- fmap_S_seq.
  transitivity (take s bs ++ drop s bs); [|apply take_drop]. f_equal.
  rewrite <- (IH (drop s bs)) by (rewrite length_drop; lia). f_equal.
  change (map ?f (S <$> ?l)) with (f <$> (S <$> l)). rewrite <- list_fmap_compose.
  apply list_fmap_ext. intros i x _. unfold slice. cbn. by rewrite drop_drop.
Qed.

Lemma slice_all (bs : list Z) n : length bs = n -> slice 0 n bs = bs.
Proof. intros <-. unfold slice. by rewrite drop_0, take_ge. Qed.

Lemma slice_u8 off len bs : Forall is_u8 bs -> Forall is_u8 (slice off len bs).
Proof. intros H. by apply Forall_take, Forall_drop. Qed.

Lemma slice_length off len (bs : list Z) : off + len <= length bs -> length (slice off len bs) = len.
Proof. intros. unfold slice. rewrite length_take, length_drop. lia. Qed.

Lemma slice_app off len1 len2 (bs : list Z) : slice off len1 bs ++ slice (off + len1) len2 bs = slice off (len1 + len2) bs.
Proof. unfold slice. rewrite <- drop_drop. generalize (drop off bs). intros l. apply take_take_drop. Qed.

Lemma slice_middle (pre mid post : list Z) off len :
  length pre = off -> length mid = len -> slice off len (pre ++ mid ++ post) = mid.
Proof. intros <- <-. unfold slice. by rewrite drop_app_length, take_app_length. Qed.

(** ** Lengths and round trips *)

Lemma encode_lengths :
  (forall t v, fits t v -> length (encode t v) = sizeof t) /\
  (forall fs off v, fields_fit fs v -> off + length (encode_fields off fs v) = fields_end off fs).
Proof.
  apply ctype_fields_ind.
  - intros w v _. apply le_bytes_length.
  - intros n t IH v [Hn Hf]. cbn. rewrite <- Hn. clear Hn. induction Hf as [|x l Hx Hl IHl]; [done|]. cbn. rewrite length_app, IH, IHl by done. lia.
  - intros fs IH v Hf. cbn [encode sizeof]. rewrite length_app. unfold zeros. rewrite length_replicate.
    specialize (IH 0 v Hf). lia.
  - intros off v _. cbn. lia.
  - intros t IHt fs IHfs off v [Ht Hfs]. cbn [encode_fields fields_end]. rewrite !length_app, IHt by done.
    unfold zeros. rewrite length_replicate. specialize (IHfs (off + padding off (alignof t) + sizeof t) v.2 Hfs). lia.
Qed.

Lemma decode_array {A} (enc : A -> list Z) (dec : list Z -> A) s (v : list A) :
  Forall (fun x => length (enc x) = s /\ dec (enc x) = x) v ->
  map (fun i => dec (slice (i * s) s (concat (map enc v)))) (seq 0 (length v)) = v.
Proof.
  intros Hf. apply list_eq. intros i. rewrite list_lookup_fmap. destruct (decide (i < length v)) as [Hi|Hi].
  - rewrite lookup_seq_lt by done. cbn. destruct (lookup_lt_is_Some_2 v i Hi) as [x Hx]. rewrite Hx. f_equal.
    rewrite (slice_concat _ _ i (enc x)); [| |by rewrite list_lookup_fmap, Hx].
    + by apply (Forall_lookup_1 _ _ _ _ Hf) in Hx as [_ ?].
    + apply Forall_fmap. eapply Forall_impl; [|exact Hf]. intros y Hy. apply Hy.
  - rewrite lookup_seq_ge, lookup_ge_None_2 by lia. done.
Qed.

Lemma decode_encode_all :
  (forall t v, fits t v -> decode t (encode t v) = v) /\
  (forall fs off v pre post, fields_fit fs v -> length pre = off ->
     decode_fields off fs (pre ++ encode_fields off fs v ++ post) = v).
Proof.
  apply ctype_fields_ind.
  - intros w v Hv. cbn in *. rewrite take_ge by (by rewrite le_bytes_length). by apply le_value_bytes.
  - intros n t IH v [Hn Hf]. cbn [decode encode]. rewrite <- Hn. apply decode_array.
    eapply Forall_impl; [|exact Hf]. intros x Hx. split; [by apply encode_lengths|auto].
  - intros fs IH v Hf. apply (IH 0 v [] _ Hf eq_refl).
  - by intros off [].
  - intros t IHt fs IHfs off v pre post [Ht Hfs] Hpre. cbn [decode_fields encode_fields].
    pose proof (proj1 encode_lengths t v.1 Ht) as Hl. set (o := off + padding off (alignof t)) in *.
    assert (Ho : length (pre ++ zeros (padding off (alignof t))) = o).
    { unfold zeros, o. rewrite length_app, length_replicate. lia. }
    rewrite <- !app_assoc, (app_assoc pre), slice_middle, IHt by done.
    rewrite (app_assoc _ (encode t v.1)), IHfs; [by destruct v|done|]. rewrite length_app. lia.
Qed.

Lemma fields_end_ge fs : forall off, off <= fields_end off fs.
Proof.
  induction fs as [|t fs IH]; intros off; cbn; [lia|]. specialize (IH (off + padding off (alignof t) + sizeof t)). lia.
Qed.

Lemma encode_decode_all :
  (forall t bs, padding_free t = true -> length bs = sizeof t -> Forall is_u8 bs -> encode t (decode t bs) = bs) /\
  (forall fs off bs, fields_padding_free off fs = true -> fields_end off fs <= length bs -> Forall is_u8 bs ->
     encode_fields off fs (decode_fields off fs bs) = slice off (fields_end off fs - off) bs).
Proof.
  apply ctype_fields_ind.
  - intros w bs _ Hl Hb. cbn in *. rewrite take_ge by lia. rewrite <- Hl. by apply le_bytes_value.
  - intros n t IH bs Hp Hl Hb. cbn [encode decode sizeof] in *. 
    transitivity (concat (map (fun i => slice (i * sizeof t) (sizeof t) bs) (seq 0 n))); [f_equal|by apply concat_slices].
    rewrite map_map. apply list_fmap_ext. intros i x Hx. apply lookup_seq in Hx as [-> Hx]. cbn.
    apply IH; [done| |by apply slice_u8]. apply slice_length. nia.
  - intros fs IH bs Hp Hl Hb. cbn [encode decode sizeof padding_free] in *.
    apply andb_true_iff in Hp as [Hp H0]. apply Nat.eqb_eq in H0. rewrite H0 in *.
    rewrite IH by (done || lia). rewrite app_nil_r. apply slice_all. lia.
  - intros off bs _ _ _. cbn. by rewrite Nat.sub_diag.
  - intros t IHt fs IHfs off bs Hp Hl Hb. cbn [encode_fields decode_fields fields_padding_free fields_end fst snd] in *.
    apply andb_true_iff in Hp as [Hp Hfs]. apply andb_true_iff in Hp as [H0 Ht]. apply Nat.eqb_eq in H0.
    rewrite H0, Nat.add_0_r in *.
    assert (He : off + sizeof t <= fields_end (off + sizeof t) fs) by apply fields_end_ge.
    rewrite IHt, IHfs; [|done..|apply slice_length; lia|by apply slice_u8]. cbn [zeros replicate app].
    rewrite slice_app. f_equal. lia.
Qed.

(** ** Structures of the sources *)

Definition struct (l : list ctype) : ctype := CStruct (foldr FCons FNil l).
Definition U8 : ctype := CInt 1.
Definition U16 : ctype := CInt 2.
Definition U32 : ctype := CInt 4.
Definition U64 : ctype := CInt 8.

Definition struct_io_control_wait_key : ctype := struct [U64; U64; U32; U32; U32; U32].
Definition struct_io_control_status : ctype := struct [U64; U64].
Definition struct_io_control_retired_key : ctype := struct [U64; U64; U32; U32].
Definition struct_iocost_owner_state : ctype := struct [U64; U64; U32; U32].
Definition struct_iocost_pending : ctype := struct [U64; U32; U32].
Definition struct_iocost_wake_frame : ctype := struct [U64; U64; struct_iocost_pending; struct_io_control_wait_key].
Definition struct_blk_throtl_blkg_owner : ctype := struct [U64; U64; U32; U32].
Definition struct_iolatency_container_key : ctype := struct [U64; U64; U32; U32; U32; U32].
Definition struct_iolatency_queue_probe_key : ctype := struct [CArr 32 U8].
Definition struct_io_key : ctype := struct [U32; U32; U64].
Definition struct_hash_key : ctype := struct [U32; U32; U64].
Definition struct_irqtracing_stack_key : ctype := struct [U32; U32; U32; U32; CArr 16 U8].
Definition struct_key_t : ctype := struct [CArr 20 U64; CArr 20 U64; U64; U64; U32; CArr 16 U8].
Definition struct_sched_blame_identity_event : ctype := struct [U16; U16; CArr 4 U8; U64].
Definition struct_sched_blame_throttle_event : ctype := struct [U16; U16; U32].
Definition struct_sched_blame_packed_slice : ctype := struct [U64; CArr 1 U64].
Definition struct_sched_blame_slice_batch_event : ctype :=
  struct [U16; U16; U32; CArr 128 struct_sched_blame_packed_slice].

Definition struct_bpf_debug_event : ctype := struct [CArr 64 U8; U32; U32; CArr 64 U8; CArr 4 U64; U64].
Definition struct_bpf_perf_output_stats : ctype := struct [U64].
Definition struct_bpf_ratelimit_event : ctype := struct [U64; U64; U64; U64; U64; U64; U64; U64; U64].
Definition struct_dropwatch_packet_meta : ctype :=
  struct [U64; U64; U64; U64; U64; U64; U32; U32; U32; U32; U32; U32; CArr 16 U8; CArr 16 U8; CArr 64 U8; CArr 64 U8].
Definition struct_dropwatch_packet_raw : ctype := struct [U16; U16; U16; U16; U32; U32; CArr 120 U8].
Definition struct_dropwatch_packet_event : ctype :=
  struct [struct_dropwatch_packet_meta; struct_dropwatch_packet_raw; U64; CArr 127 U64].
Definition struct_hungtask_event : ctype := struct [U32; CArr 16 U8].
Definition struct_io_health_event : ctype :=
  struct [U64; U32; U32; U32; U32; U32; U32; CArr 16 U8; U32; U8; U8; CArr 2 U8; U64].
Definition struct_iolatency_counters : ctype := struct [CArr 3 (CArr 17 U64); CArr 6 U64; CArr 6 U64].
Definition struct_iolatency_host_counters : ctype := struct [U32; U32; CArr 2 struct_iolatency_counters; U64].
Definition struct_iolatency_queue_probe_result : ctype := struct [U64; U32; U32; U64].
Definition struct_iotracing_schedule_delay_event : ctype :=
  struct [CArr 16 U64; U64; U64; U32; U32; U32; U32; CArr 16 U8].
Definition struct_memory_reclaim_event : ctype := struct [CArr 16 U8; U64; U64; U32; U32].
Definition struct_net_rx_latency_event : ctype :=
  struct [CArr 16 U8; U64; U64; U64; U16; U16; U32; U32; U32; U32; U8; U8; CArr 2 U8; CArr 16 U8; U32; U64].
Definition struct_netdev_bonding_lacp_event : ctype := struct [U64].
Definition struct_netdev_txqueue_timeout_event : ctype := struct [U32; CArr 16 U8; CArr 16 U8].
Definition struct_oom_event : ctype := struct [CArr 16 U8; CArr 16 U8; U32; U32; U64; U64; U64; U64].
Definition struct_profiler_event_base : ctype := struct [U64; CArr 16 U8; U32; U32; U64].
Definition struct_profiler_oncpu_event : ctype := struct [struct_profiler_event_base; U64; U32; U32].
Definition struct_profiler_offcpu_event : ctype := struct [struct_profiler_event_base; U32; U32].
Definition struct_ras_event : ctype := struct [U32; U32; U64; CArr 512 U8].
Definition struct_ras_thr_info : ctype := struct [U32; U32].
Definition struct_sched_tick_event : ctype := struct [CArr 127 U64; U64; U64; CArr 16 U8; U32; U32].
Definition struct_softlockup_event : ctype := struct [U32; U32; CArr 16 U8].
Definition struct_tcp_retransmit_event : ctype :=
  struct [U64; U64; U64; U64; U64; U32; U32; U32; U32; U32; U32; U32; U16; U16; U16; U8; U8; U8; U8; U8;
          CArr 16 U8; CArr 16 U8; CArr 16 U8; CArr 1 U8].

(** [CGROUP_SUBSYS_COUNT] is 13 and [CGROUP_KNODE_NAME_MAXLEN] is 85. *)
Definition struct_cgroup_css_event : ctype := struct [U64; U32; U32; U32; U32; CArr 13 U64; CArr 87 U8].

(** The structures the sources export to user space. *)
Definition abi_structs : list ctype :=
  [struct_io_control_wait_key; struct_io_control_status; struct_io_control_retired_key;
   struct_iolatency_container_key; struct_iolatency_queue_probe_key; struct_irqtracing_stack_key;
   struct_sched_blame_identity_event; struct_sched_blame_throttle_event; struct_sched_blame_packed_slice;
   struct_sched_blame_slice_batch_event; struct_bpf_debug_event; struct_bpf_perf_output_stats;
   struct_bpf_ratelimit_event; struct_dropwatch_packet_meta; struct_dropwatch_packet_raw;
   struct_dropwatch_packet_event; struct_hungtask_event; struct_io_health_event; struct_iolatency_counters;
   struct_iolatency_host_counters; struct_iolatency_queue_probe_result; struct_iotracing_schedule_delay_event;
   struct_memory_reclaim_event; struct_net_rx_latency_event; struct_netdev_bonding_lacp_event;
   struct_netdev_txqueue_timeout_event; struct_oom_event; struct_profiler_event_base; struct_profiler_oncpu_event;
   struct_profiler_offcpu_event; struct_ras_event; struct_ras_thr_info; struct_sched_tick_event;
   struct_softlockup_event; struct_tcp_retransmit_event; struct_cgroup_css_event].

Definition field_offsets (t : ctype) : list nat := match t with CStruct fs => offsets 0 fs | _ => [] end.

(** The assertions the sources make about sizes and offsets, as the checks they are. *)
Definition IOCOST_ASSERT_OFFSET (t : ctype) (field expected : nat) : bool :=
  default 0 (field_offsets t !! field) =? expected.

Definition iocost_assertions : bool :=
  (sizeof struct_iocost_owner_state =? 24) &&
  IOCOST_ASSERT_OFFSET struct_iocost_owner_state 0 0 &&
  IOCOST_ASSERT_OFFSET struct_iocost_owner_state 1 8 &&
  IOCOST_ASSERT_OFFSET struct_iocost_owner_state 2 16 &&
  IOCOST_ASSERT_OFFSET struct_iocost_owner_state 3 20 &&
  (sizeof struct_iocost_pending =? 16) &&
  IOCOST_ASSERT_OFFSET struct_iocost_pending 0 0 &&
  IOCOST_ASSERT_OFFSET struct_iocost_pending 1 8 &&
  IOCOST_ASSERT_OFFSET struct_iocost_pending 2 12 &&
  (sizeof struct_iocost_wake_frame =? 64) &&
  IOCOST_ASSERT_OFFSET struct_iocost_wake_frame 0 0 &&
  IOCOST_ASSERT_OFFSET struct_iocost_wake_frame 1 8 &&
  IOCOST_ASSERT_OFFSET struct_iocost_wake_frame 2 16 &&
  IOCOST_ASSERT_OFFSET struct_iocost_wake_frame 3 32.

Definition io_control_assertions : bool :=
  (sizeof struct_io_control_wait_key =? 32) && (sizeof struct_io_control_retired_key =? 24) &&
  (sizeof struct_io_control_status =? 16) &&
  (IoControl.IO_CONTROL_WAIT_COUNT_BITS + IoControl.IO_CONTROL_WAIT_10US_BITS =? 64)%Z.

Definition blk_throtl_assertions : bool := sizeof struct_blk_throtl_blkg_owner =? 24.

Definition sched_blame_assertions : bool :=
  (sizeof struct_sched_blame_identity_event =? 16) && (sizeof struct_sched_blame_throttle_event =? 8) &&
  (sizeof struct_sched_blame_packed_slice =? 8 * (1 + Z.to_nat SchedBlame.EXTRA_BITMAP_U64_COUNT)) &&
  (sizeof struct_sched_blame_slice_batch_event =?
     8 + Z.to_nat SchedBlame.MAX_SLICES_PER_BATCH * sizeof struct_sched_blame_packed_slice) &&
  (SchedBlame.EXTRA_BITMAP_U64_COUNT <=? 3)%Z.

Lemma layout_assertions :
  iocost_assertions && io_control_assertions && blk_throtl_assertions && sched_blame_assertions = true.
Proof. by vm_compute. Qed.

(** ** Keys *)

(** A model's key type, its C structure and its fields; no two keys have the same
    fields. *)
Class AbiKey (K : Type) := {
  key_type : ctype;
  key_fields : K -> value key_type;
  key_fields_inj : forall k1 k2, key_fields k1 = key_fields k2 -> k1 = k2;
  key_padding_free : padding_free key_type = true;
}.
Arguments key_type K {_}.

#[export] Instance wait_key_abi : AbiKey IoControl.io_control_wait_key.
Proof.
  refine {| key_type := struct_io_control_wait_key;
    key_fields := fun '(IoControl.WaitKey a b c d e f) => (a, (b, (c, (d, (e, (f, tt)))))) |}.
  - intros [] []; cbn. congruence.
  - by vm_compute.
Defined.
#[export] Instance retired_key_abi : AbiKey IoControl.io_control_retired_key.
Proof.
  refine {| key_type := struct_io_control_retired_key;
    key_fields := fun '(IoControl.RetiredKey a b c d) => (a, (b, (c, (d, tt)))) |}.
  - intros [] []; cbn. congruence.
  - by vm_compute.
Defined.
#[export] Instance container_key_abi : AbiKey IoLatency.iolatency_container_key.
Proof.
  refine {| key_type := struct_iolatency_container_key;
    key_fields := fun '(IoLatency.ContainerKey a b c d e f) => (a, (b, (c, (d, (e, (f, tt)))))) |}.
  - intros [] []; cbn. congruence.
  - by vm_compute.
Defined.
#[export] Instance io_key_abi : AbiKey IoTracing.io_key.
Proof.
  refine {| key_type := struct_io_key; key_fields := fun '(IoTracing.IoKey a b c) => (a, (b, (c, tt))) |}.
  - intros [] []; cbn. congruence.
  - by vm_compute.
Defined.
#[export] Instance hash_key_abi : AbiKey IoTracing.hash_key.
Proof.
  refine {| key_type := struct_hash_key; key_fields := fun '(IoTracing.HashKey a b) => (a, (0%Z, (b, tt))) |}.
  - intros [] []; cbn. congruence.
  - by vm_compute.
Defined.
#[export] Instance stack_key_abi : AbiKey IrqTracing.irqtracing_stack_key.
Proof.
  refine {| key_type := struct_irqtracing_stack_key;
    key_fields := fun '(IrqTracing.StackKey a b c d e) => (a, (b, (c, (d, (e, tt))))) |}.
  - intros [] []; cbn. congruence.
  - by vm_compute.
Defined.

(** A record type that is an [AbiKey] compares by its fields: the bytes of two keys are
    equal exactly when the keys are, and every byte string of the structure's size is the
    encoding of the fields read from it. *)
Theorem keys_compare_by_fields {K} {A : AbiKey K} (k1 k2 : K) (bs : list Z) :
  fits (key_type K) (key_fields k1) -> fits (key_type K) (key_fields k2) ->
  length bs = sizeof (key_type K) -> Forall is_u8 bs ->
  (encode (key_type K) (key_fields k1) = encode (key_type K) (key_fields k2) <-> k1 = k2) /\
  length (encode (key_type K) (key_fields k1)) = sizeof (key_type K) /\
  encode (key_type K) (decode (key_type K) bs) = bs.
Proof.
  intros H1 H2 Hl Hb. split_and!.
  - split; [|by intros ->]. intros E. apply (f_equal (decode (key_type K))) in E.
    rewrite !(proj1 decode_encode_all) in E by done. by apply key_fields_inj.
  - by apply encode_lengths.
  - apply encode_decode_all; [apply key_padding_free|done..].
Qed.

(** The exported structures with bytes that belong to no field. *)
Lemma exported_with_padding :
  filter (fun t => padding_free t = false) abi_structs = [struct_net_rx_latency_event; struct_cgroup_css_event] /\
  sizeof struct_cgroup_css_event = 216.
Proof. by vm_compute. Qed.

(** [struct key_t] of [perf.c] has padding: different bytes with the same fields. *)
Lemma sample_key_has_padding :
  sizeof struct_key_t = 360 /\ fields_end 0 (foldr FCons FNil [CArr 20 U64; CArr 20 U64; U64; U64; U32; CArr 16 U8]) = 356 /\
  decode struct_key_t (zeros 359 ++ [1%Z]) = decode struct_key_t (zeros 360).
Proof. by vm_compute. Qed.

End AbiLayout.
