(* ===== verification/DebugMsg.v ===== *)
(** * Debug messages ([bpf/include/bpf_dbg.h], [abi/bpf_debug_types.h])

    Module [DebugMsg] models the macro [bpf_dbg] in both builds: with [DEBUG_BPF] it
    hands a record to the debug ring when the loader has set [bpf_dbg_enabled], and
    without it does nothing.  The message and the file name are string literals,
    copied with their terminating NUL and cut at the size of the field. *)

From Stdlib Require Import ZArith Lia.
From stdpp Require Import base option list tactics.
From S2P Require Import Prelude BpfMap KernelStr.

Local Open Scope Z_scope.

Module DebugMsg.

Definition BPF_DEBUG_MSG_LEN : nat := 64.
Definition BPF_DEBUG_FILE_LEN : nat := 64.

Record bpf_debug_event := DebugEvent {
  file_name : list Z;
  file_line : Z;
  pad0 : Z;
  msg : list Z;
  args : list Z;
  kernel_observed_ns : Z;
}.

(** [__builtin_memcpy(dst, lit, sizeof(lit) < len ? sizeof(lit) : len)] into a zeroed
    field: the literal [s] with its NUL, cut at [len]. *)
Definition copy_literal (len : nat) (s : list Z) : list Z :=
  let lit := s ++ [0] in
  let n := if decide (length lit < len)%nat then length lit else len in
  take n lit ++ replicate (len - n) 0.

(** The build and the rewritten constant. *)
Record dbg_config := DbgConfig { DEBUG_BPF : bool; bpf_dbg_enabled : Z }.

(** Where a call stands, its clock and the answer of the output helper. *)
Record dbg_site := DbgSite { FILE_NAME : list Z; LINE : Z; now_ns : Z; output_ret : Z }.

Definition bpf_dbg (cfg : dbg_config) (site : dbg_site) (msg_ : list Z) (a1 a2 a3 : Z)
    (ring : list bpf_debug_event) : list bpf_debug_event :=
  if DEBUG_BPF cfg then
    if ctrue (bpf_dbg_enabled cfg) then
      let event := DebugEvent (copy_literal BPF_DEBUG_FILE_LEN (FILE_NAME site)) (u32 (LINE site)) 0
                     (copy_literal BPF_DEBUG_MSG_LEN msg_) [u64 a1; u64 a2; u64 a3; 0] (now_ns site) in
      snd (bpf_perf_event_output (output_ret site) event ring)
    else ring
  else ring.

Definition bpf_dbg_msg (cfg : dbg_config) (site : dbg_site) (msg_ : list Z) (ring : list bpf_debug_event)
    : list bpf_debug_event :=
  bpf_dbg cfg site msg_ 0 0 0 ring.

Lemma copy_literal_length len s : length (copy_literal len s) = len.
Proof.
  unfold copy_literal. rewrite length_app, length_take, length_replicate, length_app. cbn [length].
  case_decide; lia.
Qed.

(** A reader that stops at the first NUL or at the end of the field gets the literal,
    cut at the size of the field. *)
Lemma copy_literal_reads len s : 0 ∉ s -> until_nul (copy_literal len s) = take len s.
Proof.
  intros Hs. unfold copy_literal. case_decide as Hlen; rewrite length_app in Hlen; cbn [length] in Hlen.
  - rewrite (take_ge (s ++ [0])) by lia. rewrite <- app_assoc. cbn [app].
    rewrite until_nul_app_zero by done. by rewrite take_ge by lia.
  - rewrite Nat.sub_diag. cbn [replicate]. rewrite app_nil_r. destruct (decide (len <= length s)%nat) as [Hl|Hl].
    + rewrite take_app_le by done. by apply until_nul_id, take_no_zero.
    + replace len with (length (s ++ [0])) by (rewrite length_app; cbn; lia). rewrite firstn_all.
      rewrite until_nul_app_zero by done. rewrite take_ge; [done|]. rewrite length_app. lia.
Qed.

(** Debug messages read back.  A call hands over exactly one record, when the build
    has debugging, the loader enabled it and the output succeeds; its file name and
    message read as the literals cut at 64 bytes, in fields of their fixed size; in
    every other case nothing is handed over. *)
Theorem debug_message_reads_back cfg site msg_ a1 a2 a3 ring :
  0 ∉ msg_ -> 0 ∉ FILE_NAME site ->
  if DEBUG_BPF cfg && ctrue (bpf_dbg_enabled cfg) && negb (output_ret site <? 0)
  then exists e, bpf_dbg cfg site msg_ a1 a2 a3 ring = ring ++ [e] /\
    until_nul (msg e) = take BPF_DEBUG_MSG_LEN msg_ /\ length (msg e) = BPF_DEBUG_MSG_LEN /\
    until_nul (file_name e) = take BPF_DEBUG_FILE_LEN (FILE_NAME site) /\ length (file_name e) = BPF_DEBUG_FILE_LEN /\
    args e = [u64 a1; u64 a2; u64 a3; 0] /\ kernel_observed_ns e = now_ns site
  else bpf_dbg cfg site msg_ a1 a2 a3 ring = ring.
Proof.
  intros Hm Hf. unfold bpf_dbg, bpf_perf_event_output. destruct (DEBUG_BPF cfg); cbn [andb]; [|done].
  destruct (ctrue (bpf_dbg_enabled cfg)); cbn [andb]; [|done]. cbn [snd].
  destruct (output_ret site <? 0); cbn [negb]; [done|]. eexists. split; [done|]. cbn [msg file_name args kernel_observed_ns].
  rewrite !copy_literal_reads, !copy_literal_length by done. done.
Qed.

Lemma debug_message_reads_back_witness :
  exists e, bpf_dbg_msg (DbgConfig true 1) (DbgSite [97; 46; 99] 45 7 0) [102; 105] [] = [] ++ [e] /\
    until_nul (msg e) = [102; 105].
Proof.
  destruct (debug_message_reads_back (DbgConfig true 1) (DbgSite [97; 46; 99] 45 7 0) [102; 105] 0 0 0 [])
    as (e & He & Hm & _).
  - apply (bool_decide_unpack _). by vm_compute.
  - apply (bool_decide_unpack _). by vm_compute.
  - exists e. split; [exact He|]. rewrite Hm. done.
Defined.

End DebugMsg.
